(* ===== verification/_CoqProject ===== *)
-Q . S2P
Prelude.v
Floats64.v
Types.v
Instances.v
Merkle.v
Transaction.v
Block.v
Genesis.v
Chain.v
ChainProperties.v
ValidatorSet.v
ProofOfAuthority.v
Finality.v
ConsensusEngine.v
Crypto.v
Threshold.v
Election.v
Voter.v
Ballot.v
VoteCasting.v
Eligibility.v
BallotPrivacy.v
Verification.v
Anonymity.v
Cache.v
Database.v
BlockchainStore.v
Jurisdiction.v
StateStore.v
Snapshot.v
StorageManager.v
Protocol.v
Peer.v
Gossip.v
BlockSync.v
Discovery.v
Transport.v
Network.v
CryptoTools.v
RangeProof.v
NodeConfig.v
Node.v
Utils.v
Benford.v
Analytics.v
Rpc.v
RpcMethods.v
RpcServer.v
Cli.v
CliQuery.v
Binaries.v
Tasks.v
NodeTasks.v
FullNodeTasks.v
LightNodeTasks.v
Concrete.v
ServiceInstances.v
ChainExamples.v
ConsensusExamples.v
VotingExamples.v
ServiceExamples.v
NodeTaskExamples.v
RpcExamples.v
CliExamples.v
