(* ===== verification/Prelude.v ===== *)
(** * Trust the People: verification development

    Trust the People is a voting system on its own blockchain, written in Rust as a
    workspace of crates.  This library models the crates that carry its core logic and
    proves what makes them correct; where the code does not do what it means to, it
    proves that instead.

    ** The program and its parts

    - src/crates/common: the byte-array newtypes, the error enum, hashing helpers.
    - src/crates/blockchain-core: Merkle trees, transactions, blocks, genesis, the
      chain, and consensus (validator set, proof of authority, finality, engine).
      A chain starts from a genesis block; [add_block] validates a block, its link to
      the latest block and its transactions against the index, and appends it.  The
      engine asks the consensus mechanism and its own validator set before a block is
      accepted, and feeds signatures to the finality tracker.
    - src/crates/crypto: hashing, keys, signatures, encryption, commitments, threshold
      signatures, private ballots, range proofs.  Called by the voting crate.
    - src/crates/voting: elections and tallies, voters and their registry, ballots and
      the ballot box, vote casting, eligibility, verification, anonymity.
    - src/crates/storage: key-value databases behind one trait, stores for blocks and for
      state on top of them, caches, snapshots, the tree of jurisdictions, and a manager
      that owns them.
    - src/crates/network: messages, peers, gossip, block synchronisation, discovery and
      the TCP transport, composed by a manager.
    - src/crates/node: full, light and validator nodes, which put a chain, a storage
      manager and a network manager together; the validator produces blocks in its turn.
    - src/crates/analytics: an engine over vote data and the Benford test of vote counts.
    - src/crates/rpc: JSON-RPC over HTTP: a server that limits, authenticates and parses
      requests, a handler that routes them to the service of a node, and the queries over
      the chain, the state store and the network behind it.
    - src/crates/cli: the command line: a JSON-RPC client, commands that verify receipts,
      votes, elections and the chain through a node, queries, key and genesis files,
      starting and stopping a node.
    - src/binaries: the validator, full and light node programs, which turn their arguments
      into a configuration and run the node.

    ** Files and what they model

    - Prelude: [Result] with a [Panic] outcome, the state-and-error monad [stM] with its
      triples, machine integers, bytes, arrays, sorting, a vector with an index by key;
      tactics and hints.
    - Floats64: [f64] as bit-exact IEEE binary64 numbers.
    - Types: crates/common types.rs, errors.rs, hashing and serialization of utils.rs.
    - Merkle, Transaction, Block, Genesis, Chain: the files of that name in
      crates/blockchain-core/src; ChainProperties holds the theorems about chain.rs.
    - ValidatorSet, ProofOfAuthority, Finality, ConsensusEngine: validator_set.rs,
      proof_of_authority.rs, finality.rs and mod.rs of consensus/.  The Rust trait
      [Consensus] is the class [ProofOfAuthority.Consensus]; the engine is written
      against it, and proof of authority is its instance.
    - Crypto, CryptoTools: hash.rs, keys.rs, signatures.rs, encryption.rs and the
      commitments of zkp/mod.rs, first what the voting code calls, then the rest;
      Threshold, BallotPrivacy, RangeProof: threshold.rs, zkp/ballot_privacy.rs,
      zkp/range_proof.rs with the proof containers of zkp/mod.rs.
    - Election, Voter, Ballot, VoteCasting, Eligibility, Verification, Anonymity: lib.rs
      and the files of that name in crates/voting/src.
    - Cache, Database, BlockchainStore, Jurisdiction, StateStore, Snapshot,
      StorageManager: cache.rs, database.rs, blockchain_store.rs, jurisdiction.rs,
      state_store.rs, snapshot.rs and lib.rs of crates/storage/src.  The Rust trait
      [Database] is the class [Database.Database], whose contract is [DatabaseSpec]; the
      three backends are instances, and the stores are written and verified against it.
    - Protocol, Peer, Gossip, BlockSync, Discovery, Transport, Network: protocol.rs,
      peer.rs, gossip.rs, sync.rs, discovery.rs, transport.rs and lib.rs of
      crates/network/src.
    - NodeConfig: config.rs of crates/common and of crates/node; Node: lib.rs,
      full_node.rs, light_node.rs and validator.rs of crates/node/src.
    - Tasks: tasks over a shared state with the read-write locks of tokio, their
      interleavings, and what follows from the way locks are used (no deadlock when they are
      taken in order, runs that end once a condition holds, invariants).  NodeTasks: the methods of
      validator.rs and the chain queries of service.rs in crates/rpc as such tasks, with the
      locks they take and for as long as their guards live; FullNodeTasks and
      LightNodeTasks: those of full_node.rs and light_node.rs.
    - Utils: the other helpers of crates/common utils.rs; Benford: benford.rs, and
      Analytics: lib.rs, anomaly.rs, statistics.rs, audit.rs, metrics.rs and reports.rs of
      crates/analytics/src.
    - Rpc: types.rs, lib.rs and methods/mod.rs of crates/rpc/src; the Rust trait
      [RpcService] is the record [Rpc.RpcService] of operations, whose contract towards
      the handler is [service_keeps].  RpcMethods: the other files of methods/ and
      service.rs, which is an instance of the trait; RpcServer: server.rs.
    - Cli: the client, the verification, key, genesis and process commands of
      crates/cli/src; CliQuery: its query and status commands, the displays of ui.rs and the
      dispatch of main.rs; Binaries: the main.rs of each program in src/binaries, from its arguments to the configuration.
    - Instances, Concrete, ServiceInstances: concrete stand-ins for the external crates,
      used only in the examples; ChainExamples, ConsensusExamples, VotingExamples,
      ServiceExamples, NodeTaskExamples, RpcExamples and CliExamples apply the theorems to concrete values.

    Structs are records, enums inductive types with the source's variants; a [HashMap] is
    a [gmap], a [HashSet] a [gset].  A function that returns [Result] returns [Result];
    a [&mut self] method that returns [Result] is a computation in [stM], so that the
    state an error leaves behind is visible; other [&mut self] methods are functions on
    the record.  Fields behind [Arc<RwLock<..>>] are fields of the record; an asynchronous
    method is modelled as it runs without interruption, and a spawned loop by the function
    it calls at each tick.  The methods of the nodes are modelled a second time as tasks
    that interleave, their background loops as endless ones that look at [running] at each
    tick; lemmas show a task to be its method when it runs alone.  Rust's names are kept, with
    a prefix where two types share a method name.

    ** What is a parameter

    Code that is not in the repository is a type class with the facts its documentation
    gives in a second class: [HashCrate] (blake2), [DigestCrates] (sha3, hmac),
    [HexCrate] (hex), [Base64Crate] (base64), [BincodeTx], [BincodeBallot], [BincodeStore],
    [BincodeElection] and the generic [Bincode] (bincode), [JsonSnapshot], [JsonCrate],
    [JsonRpcTypes], [JsonRpcCodec], [JsonValues], [RpcWire], [ChainReplies] and
    [ElectionReplies] (serde_json), [HttpClient] (reqwest),
    [Ed25519Crate] (ed25519-dalek), [AeadCrate] and [AadCrate] (chacha20poly1305),
    [Argon2Crate] (argon2), [ShuffleCrate] and [ChooseCrate] (rand), [LruCrate] (lru),
    [RocksCrate] (rocksdb), [SledCrate] (sled), [FileSystem] and [WholeFiles] (std::fs), [Tcp] (tokio's
    streams), [Libm] (sine and the like).  The specification of such a class is the class
    with the suffix Spec.  The genesis file, the TOML and JSON codecs and the address parser
    are function arguments.  So are the clock and random values, one argument per use.
    The operations of such a class fail where the documentation says so: bincode may refuse a
    ballot (the code then panics), every operation of RocksDB and Sled may return an error, a
    failed write may have taken effect, and a scan may meet a read error, which the code drops.
    Collision resistance is never assumed of the hash function as a whole: the theorems
    that need it say [no_collision] of the finitely many inputs that were really hashed.

    ** What the theorems show

    - Merkle: every generated proof verifies; a verified proof is for a leaf; the root
      binds the leaves; and repeating the last of an odd number of leaves keeps the root.
    - Chain: every reachable chain satisfies its invariant (verified, heights are
      positions, both indices exact), [add_block] on every branch, lookups, no transaction
      in two blocks, tamper evidence; what [prune_old_blocks] breaks.
    - Consensus: the validator set's invariant; the producer rotation is fair (a key has as
      many turns as it is listed, and repeated keys are accepted) and the same on all nodes; quorums intersect in [f + 1]; the finality tracker's answers and
      its monotone height; the engine's acceptance, and that it ignores set changes.
    - Crypto: threshold signatures are sound when made by the code, but a received one is
      counted with duplicates; keys, signed messages and encrypted data survive their
      round trips; range proofs are complete, but do not check the range, and a tally
      proof is rejected by its own verification.
    - Voting: one voter, one vote, over all sequences of calls; [cast_vote] on every
      branch; exact tallies, winners and rankings; ballots obey the rules of their type;
      cast ballots verify and decrypt to the ballot; registry and ballot box refine finite
      maps; sessions produce accepted submissions; eligibility and integrity checks decide
      what they should; mixing permutes the votes; and the gaps: [submit_vote] ignores the
      ballot's election and voter, revocation lets a voter vote again, [verify_submission]
      tests an unrelated key, ring signatures name the signer.
    - Storage: every backend refines a finite map up to the errors it returns and the read
      errors that scans hide; the caches stay within their capacity and return what was last
      put and not removed; blocks, chains and snapshots are read back as they were
      written; jurisdiction queries end on acyclic trees; participation is accepted once;
      and what is lost or wrong: validators and participation after a restart, removal by an
      evicted height, the persisted vote count,
      paths of nested jurisdictions, loops on cyclic ones.
    - Network: messages and frames survive their round trips; peer tables, reputations and
      the discovery table stay within their bounds; a gossiped message reaches each chosen
      peer once; a requested range is covered by batches; and the gaps: received messages
      are not passed on, sending loops back, disconnecting leaks connections.
    - Nodes: a validator in its turn extends its chain by a block that passes consensus and
      reaches its peers; a full node accepts what its chain accepts and its scan equals the
      index; and the gaps: with two validators no chain grows beyond height one, a restart
      forgets the chain, a light node accepts any transaction with a foreign proof.
    - Concurrency: the methods of a node of any kind, [start] apart, never deadlock,
      whatever their number and order, while its background loops run for ever; once the node
      has been stopped it stays so, every run ends and every method and loop returns.  The
      chain only grows, on a validator by blocks that the consensus accepted in turn; on a full
      node every new block is counted once.  [start] and [status], however, take two locks in
      opposite orders and can block each other for ever.
    - Analytics: first digits, digits at a position, the Benford verdict and turnout are
      exact; the rest of the engine does not look at the votes.  Retrying ends, doubles its
      waits and returns the first success or the last error.
    - RPC: a search returns exactly the page asked for and the pages cover the matches;
      counts and lookups agree with the chain; a submitted transaction reaches every
      connected peer or nothing happens; the rate limiter's bounds, and that its cleanup is
      invisible; a node answers every request without panic or change; well-formed HTTP is
      parsed; a client that posts an authorized request reads back the reply of the handler,
      its length as announced, and an unauthorized one gets nothing; and
      the gaps: results credit one candidate, vote verification ignores the proof,
      authentication without a key is off, shutting down serves one more connection.
    - Command line: the chain check decides exactly whether, in the JSON that the node
      answered, each block names the hash of the one before it and lists as many transactions
      as it counts; keys generated into files become the validators of the genesis file,
      which is read back; a started process is the one that is stopped; a binary starts
      exactly with usable arguments.  In composition with the node's service: every block
      with transactions fails the chain check, and receipts, votes and elections cannot be
      verified at all; an election with votes never passes; receipts match by substring; a
      light node is never found; most queries fail; a failed verification exits as a success.

    ** Bounds and fuel

    Integers keep their width: [u64] and [u32] additions wrap as in the release profile,
    and theorems that exclude the wrap-around say so in a hypothesis ([len votes < 2^64],
    chains of at most 2^64 blocks).  Fuel is used in four places.  The Merkle loop
    ([build_tree_loop]) takes the length of the level, which halves at every step;
    [generate_proof_verifies] shows that it is enough.  The loops of jurisdiction.rs take
    fuel because they diverge on cyclic parents ([self_parent_diverges]);
    [descendants_terminate] gives fuel that is enough on acyclic trees.  The request loop of
    sync.rs diverges with a batch size of zero ([zero_batch_diverges]); otherwise the
    number of heights is enough ([request_blocks_covers]).  The first-digit loop of
    benford.rs gets 19 divisions, enough for a [u64] ([first_digits_exact]).  The loops that
    the nodes spawn take no fuel: a [Loop] of Tasks has no last pass.

    ** What is not modelled

    The frames drawn by the command line, the parsing of arguments by clap, logging and
    metrics of crates/common (registrations with prometheus and tracing), benchmarks; the
    locks inside the network manager (a call on it is one step; an RPC connection runs when it
    is accepted); [hash_file] of crates/crypto and the wrappers of utils.rs around the clock,
    the generator, JSON and the file system.
    The files patterns.rs, statistical.rs, fraud_detection.rs, correlation.rs, entropy.rs
    and reporting.rs lie in crates/analytics/src but are declared by no module, and neither
    is commands/analytics.rs of crates/cli, so they are not part of the program.

    ** Plan

    What is left: the locks inside the network manager and its components, over the same
    library of tasks. *)
From stdpp Require Import prelude gmap strings list pretty.
From Stdlib Require Import Strings.Byte Sorting.Sorted.

Local Open Scope Z_scope.

(** ** Results, panics and stateful operations

    [Result E A] is Rust's [Result<A, E>] with one more outcome, [Panic], for
    the operations that abort (a slice index out of range, an [expect] that
    fails, a division by zero).  The release profile of the workspace
    (Cargo.toml) says [panic = "abort"], so nothing runs after a panic. *)
Inductive Result (E A : Type) : Type :=
| Ok (a : A)
| Err (e : E)
| Panic.
Arguments Ok {E A} a.
Arguments Err {E A} e.
Arguments Panic {E A}.

Global Instance result_ret E : MRet (Result E) := fun A => @Ok E A.
Global Instance result_bind E : MBind (Result E) := fun A B f m =>
  match m with Ok a => f a | Err e => Err e | Panic => Panic end.
Global Instance result_fmap E : FMap (Result E) := fun A B f m =>
  match m with Ok a => Ok (f a) | Err e => Err e | Panic => Panic end.

Definition is_ok {E A} (r : Result E A) : bool :=
  match r with Ok _ => true | _ => false end.

Definition is_Ok {E A} (r : Result E A) : Prop := exists a, r = Ok a.

(** [ok_or o e]: [Option::ok_or_else]. *)
Definition ok_or {E A} (o : option A) (e : E) : Result E A :=
  match o with Some a => Ok a | None => Err e end.

(** [unwrap o]: [Option::unwrap], [Option::expect] and slice indexing. *)
Definition unwrap {E A} (o : option A) : Result E A :=
  match o with Some a => Ok a | None => Panic end.

(** [ensure b e]: the early return [if !b { return Err(e) }]. *)
Definition ensure {E} (b : bool) (e : E) : Result E unit :=
  if b then Ok tt else Err e.

(** [for x in l { f(x)? }] for a body without state. *)
Fixpoint for_each {E A} (f : A -> Result E unit) (l : list A) : Result E unit :=
  match l with
  | [] => Ok tt
  | x :: l' => match f x with Ok _ => for_each f l' | Err e => Err e | Panic => Panic end
  end.

(** A method with a [&mut self] receiver that returns [Result<A, E>]: the state
    is returned on every path, so what an error leaves behind is visible. *)
Definition stM (E S A : Type) : Type := S -> Result E A * S.

Global Instance stM_ret E S : MRet (stM E S) := fun A a s => (Ok a, s).
Global Instance stM_bind E S : MBind (stM E S) := fun A B f m s =>
  match m s with
  | (Ok a, s') => f a s'
  | (Err e, s') => (Err e, s')
  | (Panic, s') => (Panic, s')
  end.

Definition get {E S} : stM E S S := fun s => (Ok s, s).
Definition modify {E S} (f : S -> S) : stM E S unit := fun s => (Ok tt, f s).
Definition lift {E S A} (r : Result E A) : stM E S A := fun s => (r, s).

(** Run a list of stateful operations, stopping at the first that does not
    return [Ok] ([for x in l { self.op(x)?; }]). *)
Fixpoint st_for_each {E S A B} (f : A -> stM E S B) (l : list A) : stM E S unit :=
  fun s => match l with
  | [] => (Ok tt, s)
  | x :: l' => match f x s with
               | (Ok _, s') => st_for_each f l' s'
               | (Err e, s') => (Err e, s')
               | (Panic, s') => (Panic, s')
               end
  end.

Section result_lemmas.
Context {E : Type}.

Lemma bind_Ok {A B} (m : Result E A) (f : A -> Result E B) b :
  m ≫= f = Ok b <-> exists a, m = Ok a /\ f a = Ok b.
Proof. destruct m; cbn; naive_solver. Qed.

Lemma ensure_Ok b (e : E) u : ensure b e = Ok u <-> b = true.
Proof. destruct b, u; cbn; naive_solver. Qed.

(** An early return in front of the rest of the body. *)
Lemma ensure_bind {A} b (e : E) (m : Result E A) a :
  (_ ← ensure b e; m) = Ok a <-> b = true /\ m = Ok a.
Proof. destruct b; cbn; naive_solver. Qed.

Lemma bind_unit {A} (m : Result E unit) (k : Result E A) a :
  (_ ← m; k) = Ok a <-> m = Ok tt /\ k = Ok a.
Proof. destruct m as [[]| |]; cbn; naive_solver. Qed.

Lemma ensure_no_panic b (e : E) : ensure b e <> Panic.
Proof. by destruct b. Qed.

Lemma ok_or_Ok {A} (o : option A) (e : E) a : ok_or o e = Ok a <-> o = Some a.
Proof. destruct o; cbn; naive_solver. Qed.

Lemma for_each_Ok {A} (f : A -> Result E unit) l u :
  for_each f l = Ok u <-> Forall (fun x => f x = Ok tt) l.
Proof.
  destruct u. induction l as [|x l IH]; cbn; [by split|].
  rewrite Forall_cons. destruct (f x) as [[]| |]; naive_solver.
Qed.

Lemma for_each_no_panic {A} (f : A -> Result E unit) l :
  (forall x, f x <> Panic) -> for_each f l <> Panic.
Proof. intros Hf. induction l as [|x l IH]; cbn; [done|]. specialize (Hf x). by destruct (f x). Qed.

Lemma is_ok_true {A} (r : Result E A) : is_ok r = true <-> exists a, r = Ok a.
Proof. destruct r; naive_solver. Qed.
End result_lemmas.

Lemma negb_bool_decide_true (P : Prop) `{Decision P} : negb (bool_decide P) = true <-> ~ P.
Proof. rewrite negb_true_iff. apply bool_decide_eq_false. Qed.

(** ** Machine integers

    [u8], [u32], [u64] and [usize] (64 bits) are integers in range; the release
    profile does not enable overflow checks, so [+], [+=] and [as] wrap. *)
Definition wrap (w x : Z) : Z := x mod 2 ^ w.
Definition u64_add (x y : Z) : Z := wrap 64 (x + y).
Definition u64_mul (x y : Z) : Z := wrap 64 (x * y).
Definition u64_saturating_sub (x y : Z) : Z := Z.max 0 (x - y).
Definition is_u64 (x : Z) : Prop := 0 <= x < 2 ^ 64.
Definition is_u32 (x : Z) : Prop := 0 <= x < 2 ^ 32.

(** [Vec::len] as an integer. *)
Definition len {A} (l : list A) : Z := Z.of_nat (length l).

Global Instance is_u64_dec x : Decision (is_u64 x).
Proof. unfold is_u64. apply _. Defined.
Global Instance is_u32_dec x : Decision (is_u32 x).
Proof. unfold is_u32. apply _. Defined.

Lemma wrap_small w x : 0 <= x < 2 ^ w -> wrap w x = x.
Proof. apply Z.mod_small. Qed.

Lemma wrap_range w x : 0 <= w -> 0 <= wrap w x < 2 ^ w.
Proof. intros. apply Z.mod_pos_bound, Z.pow_pos_nonneg; lia. Qed.

Lemma u64_add_small x y : 0 <= x + y < 2 ^ 64 -> u64_add x y = x + y.
Proof. apply Z.mod_small. Qed.

Lemma u64_add_range x y : is_u64 (u64_add x y).
Proof. apply wrap_range. lia. Qed.

Lemma len_nonneg {A} (l : list A) : 0 <= len l.
Proof. unfold len. lia. Qed.

Lemma len_cons {A} (x : A) l : len (x :: l) = 1 + len l.
Proof. unfold len. cbn [length]. lia. Qed.

Lemma len_app {A} (l k : list A) : len (l ++ k) = len l + len k.
Proof. unfold len. rewrite length_app. lia. Qed.

Lemma len_zero_iff {A} (l : list A) : (len l =? 0) = true <-> l = [].
Proof. rewrite Z.eqb_eq. unfold len. destruct l; cbn; split; intros; (done || lia). Qed.

Lemma len_nonzero_iff {A} (l : list A) : negb (len l =? 0) = true <-> l <> [].
Proof. rewrite <- len_zero_iff. by destruct (len l =? 0). Qed.

(** The elements a test accepts and those it rejects are all of them. *)
Lemma len_filter_partition {A} (f : A -> bool) (l : list A) :
  len (filter (fun x => f x = true) l) + len (filter (fun x => f x = false) l) = len l.
Proof.
  induction l as [|x l IH]; [done|]. rewrite !filter_cons. unfold len in *.
  destruct (f x); repeat (case_decide; try done); cbn [length]; lia.
Qed.

(** ** Bytes *)
Global Instance byte_eq_dec : EqDecision byte := Byte.byte_eq_dec.
Global Program Instance byte_countable : Countable byte :=
  inj_countable Byte.to_N Byte.of_N _.
Next Obligation. intros b. apply Byte.of_to_N. Qed.

Definition byte_val (b : byte) : Z := Z.of_N (Byte.to_N b).
Definition byte_of_Z (z : Z) : byte :=
  match Byte.of_N (Z.to_N (z mod 256)) with Some b => b | None => x00 end.

Lemma byte_val_range b : 0 <= byte_val b < 256.
Proof. unfold byte_val. pose proof (Byte.to_N_bounded b). lia. Qed.

Lemma byte_val_of_Z z : byte_val (byte_of_Z z) = z mod 256.
Proof.
  unfold byte_val, byte_of_Z.
  pose proof (Z.mod_pos_bound z 256 ltac:(lia)) as Hz.
  destruct (Byte.of_N _) as [b|] eqn:Hb.
  - apply Byte.to_of_N in Hb. rewrite Hb. lia.
  - apply Byte.of_N_None_iff in Hb. lia.
Qed.

Lemma byte_of_val b : byte_of_Z (byte_val b) = b.
Proof.
  unfold byte_of_Z, byte_val. pose proof (Byte.to_N_bounded b).
  rewrite Z.mod_small by lia. rewrite N2Z.id. by rewrite Byte.of_to_N.
Qed.

Lemma byte_val_inj b c : byte_val b = byte_val c -> b = c.
Proof. intros H. rewrite <- (byte_of_val b), <- (byte_of_val c). by rewrite H. Qed.

(** Little-endian encoding on [n] bytes: [to_le_bytes]. *)
Fixpoint le_bytes (n : nat) (z : Z) : list byte :=
  match n with
  | O => []
  | S n' => byte_of_Z z :: le_bytes n' (z / 256)
  end.

Definition u64_le (z : Z) : list byte := le_bytes 8 z.
Definition u32_le (z : Z) : list byte := le_bytes 4 z.

Lemma length_le_bytes n z : length (le_bytes n z) = n.
Proof. revert z. induction n as [|n IH]; intros; cbn; [done|]. by rewrite IH. Qed.

Lemma length_u64_le z : length (u64_le z) = 8%nat.
Proof. apply length_le_bytes. Qed.

Lemma length_u32_le z : length (u32_le z) = 4%nat.
Proof. apply length_le_bytes. Qed.

Lemma le_bytes_inj n x y :
  0 <= x < 256 ^ Z.of_nat n -> 0 <= y < 256 ^ Z.of_nat n ->
  le_bytes n x = le_bytes n y -> x = y.
Proof.
  revert x y. induction n as [|n IH]; intros x y Hx Hy; cbn [le_bytes].
  { change (Z.of_nat 0) with 0 in *. rewrite Z.pow_0_r in *. lia. }
  rewrite Nat2Z.inj_succ, Z.pow_succ_r in Hx, Hy by lia.
  intros Heq. injection Heq as Hb Hrest.
  apply (f_equal byte_val) in Hb. rewrite !byte_val_of_Z in Hb.
  apply IH in Hrest; [|split; [apply Z.div_pos; lia|apply Z.div_lt_upper_bound; lia]..].
  rewrite (Z.div_mod x 256), (Z.div_mod y 256) by lia. lia.
Qed.

(** [from_le_bytes]. *)
Fixpoint le_val (l : list byte) : Z :=
  match l with
  | [] => 0
  | b :: l' => byte_val b + 256 * le_val l'
  end.

Lemma le_val_le_bytes n z : le_val (le_bytes n z) = z mod 256 ^ Z.of_nat n.
Proof.
  revert z. induction n as [|n IH]; intros z; cbn [le_bytes le_val].
  - by rewrite Z.pow_0_r, Z.mod_1_r.
  - rewrite IH, byte_val_of_Z, Nat2Z.inj_succ, Z.pow_succ_r by lia.
    rewrite Z.rem_mul_r by lia. done.
Qed.

Lemma le_val_u64 z : is_u64 z -> le_val (u64_le z) = z.
Proof. intros Hz. unfold u64_le. rewrite le_val_le_bytes. by apply Z.mod_small. Qed.

Lemma le_val_u32 z : is_u32 z -> le_val (u32_le z) = z.
Proof. intros Hz. unfold u32_le. rewrite le_val_le_bytes. by apply Z.mod_small. Qed.

Lemma u64_le_inj x y : is_u64 x -> is_u64 y -> u64_le x = u64_le y -> x = y.
Proof. unfold is_u64. intros Hx Hy. apply (le_bytes_inj 8); lia. Qed.

Lemma u32_le_inj x y : is_u32 x -> is_u32 y -> u32_le x = u32_le y -> x = y.
Proof. unfold is_u32. intros Hx Hy. apply (le_bytes_inj 4); lia. Qed.

(** Fixed-size arrays [[u8; n]]. *)
Definition array (n : nat) : Type := { l : list byte | length l = n }.

Global Instance array_eq_dec n : EqDecision (array n) := _.
Global Instance array_countable n : Countable (array n) := _.

Definition array_list {n} (a : array n) : list byte := proj1_sig a.
Definition array_fill (n : nat) (b : byte) : array n :=
  exist _ (replicate n b) (length_replicate n b).

(** The array with the contents of a slice ([copy_from_slice] into
    [[0u8; n]]), when the slice has [n] bytes. *)
Definition array_of (n : nat) (l : list byte) : option (array n) :=
  match decide (length l = n) with
  | left H => Some (exist _ l H)
  | right _ => None
  end.

Lemma array_list_inj {n} (a b : array n) : array_list a = array_list b -> a = b.
Proof. intros H. apply (proj1_sig_inj (fun l => length l = n)), H. Qed.

Lemma length_array_list {n} (a : array n) : length (array_list a) = n.
Proof. exact (proj2_sig a). Qed.

Lemma array_of_list {n} (a : array n) : array_of n (array_list a) = Some a.
Proof.
  unfold array_of. destruct (decide _) as [H|H].
  - f_equal. by apply array_list_inj.
  - destruct H. apply length_array_list.
Qed.

Lemma array_of_Some n l a : array_of n l = Some a -> array_list a = l.
Proof. unfold array_of. destruct (decide _); naive_solver. Qed.

(** Splitting equal concatenations whose first parts have equal length. *)
Lemma app_inj_len {A} (l1 k1 l2 k2 : list A) :
  length l1 = length k1 -> l1 ++ l2 = k1 ++ k2 -> l1 = k1 /\ l2 = k2.
Proof. intros. by apply app_inj_1. Qed.

(** ** Slices: searching, sorting, comparing

    [find_by f l] is [l.iter().find(f)]: the first element that satisfies [f]. *)
Fixpoint find_by {A} (f : A -> bool) (l : list A) : option A :=
  match l with
  | [] => None
  | x :: l' => if f x then Some x else find_by f l'
  end.

Lemma find_by_Some {A} (f : A -> bool) l x :
  find_by f l = Some x -> x ∈ l /\ f x = true.
Proof.
  induction l as [|y l IH]; cbn; [done|].
  destruct (f y) eqn:Hy; intros H; [injection H as ->|apply IH in H as []]; set_solver.
Qed.

Lemma find_by_None {A} (f : A -> bool) l :
  find_by f l = None <-> forall x, x ∈ l -> f x = false.
Proof.
  induction l as [|y l IH]; cbn; [set_solver|].
  destruct (f y) eqn:Hy; split; [done| |intros H x|intros H; apply IH]; [|set_solver..].
  intros H. rewrite (H y) in Hy by set_solver. done.
Qed.

Lemma find_by_is_Some {A} (f : A -> bool) l x :
  x ∈ l -> f x = true -> exists y, find_by f l = Some y.
Proof.
  intros Hx Hf. destruct (find_by f l) eqn:E; [by eauto|].
  rewrite find_by_None in E. rewrite E in Hf by done. done.
Qed.

Lemma find_by_app {A} (f : A -> bool) l k :
  find_by f (l ++ k) = match find_by f l with Some x => Some x | None => find_by f k end.
Proof. induction l as [|x l IH]; cbn; [done|]. by destruct (f x). Qed.

Lemma cons_eq {A} (x y : A) l k : x :: l = y :: k -> x = y /\ l = k.
Proof. by intros [= -> ->]. Qed.

(** The stable sort of [slice::sort_by], for a comparison [leb]: an element is
    placed before the later ones it is less than or equal to. *)
Section sort.
Context {A : Type} (leb : A -> A -> bool).

Fixpoint insert_by (x : A) (l : list A) : list A :=
  match l with
  | [] => [x]
  | y :: l' => if leb x y then x :: y :: l' else y :: insert_by x l'
  end.

Definition sort_by (l : list A) : list A := foldr insert_by [] l.

Lemma insert_by_perm x l : insert_by x l ≡ₚ x :: l.
Proof.
  induction l as [|y l IH]; cbn; [done|].
  destruct (leb x y); [done|]. rewrite IH. constructor.
Qed.

Lemma sort_by_perm l : sort_by l ≡ₚ l.
Proof. induction l as [|x l IH]; cbn; [done|]. by rewrite insert_by_perm, IH. Qed.

Context (total : forall x y, leb x y = true \/ leb y x = true).
Context (trans : forall x y z, leb x y = true -> leb y z = true -> leb x z = true).

Let R x y := leb x y = true.

Lemma insert_by_sorted x l : StronglySorted R l -> StronglySorted R (insert_by x l).
Proof.
  induction 1 as [|y l Hl IH Hy]; cbn; [by repeat constructor|].
  destruct (leb x y) eqn:E; constructor.
  - by constructor.
  - constructor; [done|]. eapply Forall_impl; [exact Hy|]. intros; by eapply trans.
  - done.
  - assert (R y x) by (destruct (total x y); unfold R; congruence).
    rewrite Forall_forall in Hy |- *. intros z. rewrite insert_by_perm. set_solver.
Qed.

Lemma sort_by_sorted l : StronglySorted R (sort_by l).
Proof. induction l; cbn; [constructor|by apply insert_by_sorted]. Qed.

(** A sort by an antisymmetric comparison depends on the elements only. *)
Lemma sort_by_unique l k :
  (forall x y, leb x y = true -> leb y x = true -> x = y) ->
  l ≡ₚ k -> sort_by l = sort_by k.
Proof.
  intros Hanti Hlk.
  assert (sort_by l ≡ₚ sort_by k) as Hp by by rewrite !sort_by_perm.
  pose proof (sort_by_sorted l) as Hl. pose proof (sort_by_sorted k) as Hk.
  revert Hl Hk Hp. generalize (sort_by l) as l', (sort_by k) as k'. clear l k Hlk.
  induction l' as [|x l' IH]; intros k' Hl Hk Hp.
  { by apply Permutation_nil_l in Hp. }
  destruct k' as [|y k']; [by apply Permutation_nil_r in Hp|].
  apply StronglySorted_inv in Hl as [Hl Hx]. apply StronglySorted_inv in Hk as [Hk Hy].
  rewrite Forall_forall in Hx, Hy.
  assert (x = y) as ->.
  { assert (x ∈ y :: k') as [->|Hxk]%elem_of_cons by (rewrite <- Hp; set_solver); [done|].
    assert (y ∈ x :: l') as [->|Hyl]%elem_of_cons by (rewrite Hp; set_solver); [done|].
    apply Hanti; [by apply Hx|by apply Hy]. }
  f_equal. apply IH; [done..|]. by apply Permutation_cons_inv in Hp.
Qed.
End sort.

Lemma length_sort_by {A} (leb : A -> A -> bool) l : length (sort_by leb l) = length l.
Proof. by rewrite sort_by_perm. Qed.

(** The lexicographic order of byte slices ([Ord for [u8]]). *)
Fixpoint bytes_leb (l k : list byte) : bool :=
  match l, k with
  | [], _ => true
  | _ :: _, [] => false
  | x :: l', y :: k' =>
      if byte_val x <? byte_val y then true
      else if byte_val y <? byte_val x then false
      else bytes_leb l' k'
  end.

Lemma bytes_leb_total l k : bytes_leb l k = true \/ bytes_leb k l = true.
Proof.
  revert k. induction l as [|x l IH]; intros [|y k]; cbn; [auto..|].
  destruct (Z.ltb_spec (byte_val x) (byte_val y)), (Z.ltb_spec (byte_val y) (byte_val x)); auto.
Qed.

Lemma bytes_leb_anti l k : bytes_leb l k = true -> bytes_leb k l = true -> l = k.
Proof.
  revert k. induction l as [|x l IH]; intros [|y k]; cbn; [done..|].
  destruct (Z.ltb_spec (byte_val x) (byte_val y)), (Z.ltb_spec (byte_val y) (byte_val x));
    try done; try lia.
  intros. f_equal; [apply byte_val_inj; lia|auto].
Qed.

Lemma bytes_leb_trans l k m :
  bytes_leb l k = true -> bytes_leb k m = true -> bytes_leb l m = true.
Proof.
  revert k m. induction l as [|x l IH]; intros [|y k] [|z m]; cbn; try done.
  destruct (Z.ltb_spec (byte_val x) (byte_val y)), (Z.ltb_spec (byte_val y) (byte_val x)),
    (Z.ltb_spec (byte_val y) (byte_val z)), (Z.ltb_spec (byte_val z) (byte_val y)),
    (Z.ltb_spec (byte_val x) (byte_val z)), (Z.ltb_spec (byte_val z) (byte_val x));
    try done; try lia. apply IH.
Qed.

(** ** A vector with an index by key

    Several components keep a [Vec] of records and a [HashMap] from a key of the
    records to their position.  [index_ok l m] says the map is that index; then
    looking up through it is looking up in the finite map [keyed l]. *)
Section index.
Context {K A : Type} `{Countable K} (key : A -> K).
Implicit Types (l : list A) (m : gmap K nat).

Definition index_ok l m : Prop :=
  forall k i, m !! k = Some i <-> exists x, l !! i = Some x /\ key x = k.

Definition indexed_lookup l m (k : K) : option A := i ← m !! k; l !! i.
Definition keyed l : gmap K A := list_to_map ((fun x => (key x, x)) <$> l).

Lemma index_ok_nil : index_ok [] ∅.
Proof. intros k i. rewrite lookup_empty, lookup_nil. naive_solver. Qed.

Lemma index_ok_keys l m k : index_ok l m -> m !! k = None <-> k ∉ key <$> l.
Proof.
  intros Hok. split.
  - intros Hk (x & -> & [i Hi]%list_elem_of_lookup_1)%list_elem_of_fmap_1.
    assert (m !! key x = Some i) by (apply Hok; eauto). congruence.
  - intros Hn. destruct (m !! k) as [i|] eqn:E; [|done].
    apply Hok in E as (x & Hx & <-). destruct Hn.
    apply list_elem_of_fmap_2. by eapply list_elem_of_lookup_2.
Qed.

Lemma index_ok_nodup l m : index_ok l m -> NoDup (key <$> l).
Proof.
  intros Hok. apply NoDup_alt. intros i j k Hi Hj. rewrite list_lookup_fmap_Some in Hi, Hj.
  destruct Hi as (x & -> & Hx), Hj as (y & Hk & Hy).
  assert (m !! key x = Some i) by (apply Hok; eauto).
  assert (m !! key x = Some j) by (apply Hok; eauto). congruence.
Qed.

Lemma index_ok_snoc l m x :
  index_ok l m -> m !! key x = None -> index_ok (l ++ [x]) (<[key x := length l]> m).
Proof.
  intros Hok Hx k i. rewrite lookup_insert_Some. split.
  - intros [[<- <-]|[Hk Hi]].
    + exists x. by rewrite list_lookup_middle.
    + apply Hok in Hi as (y & Hy & <-). exists y. split; [by apply lookup_app_l_Some|done].
  - intros (y & Hy & <-). apply lookup_app_Some in Hy as [Hy|[Hl Hy]].
    + right. split; [|apply Hok; eauto]. intros E. apply (index_ok_keys _ _ _ Hok) in Hx.
      apply Hx. rewrite E. apply list_elem_of_fmap_2. by eapply list_elem_of_lookup_2.
    + left. apply list_lookup_singleton_Some in Hy as [? <-]. split; [done|lia].
Qed.

Lemma index_ok_update l m i x y :
  index_ok l m -> l !! i = Some x -> key y = key x -> index_ok (<[i := y]> l) m.
Proof.
  intros Hok Hi Hk k j. rewrite (Hok k j). destruct (decide (i = j)) as [<-|].
  - rewrite list_lookup_insert_eq by (by eapply lookup_lt_Some). rewrite Hi.
    split; intros (z & [= <-] & <-); [exists y|exists x]; done.
  - by rewrite list_lookup_insert_ne.
Qed.

Lemma keyed_lookup l k : NoDup (key <$> l) ->
  forall x, keyed l !! k = Some x <-> x ∈ l /\ key x = k.
Proof.
  intros Hd x. unfold keyed. rewrite <- elem_of_list_to_map.
  - rewrite list_elem_of_fmap. naive_solver.
  - by rewrite <- list_fmap_compose.
Qed.

Lemma indexed_lookup_keyed l m k : index_ok l m -> indexed_lookup l m k = keyed l !! k.
Proof.
  intros Hok. pose proof (index_ok_nodup _ _ Hok) as Hd.
  apply option_eq. intros x. rewrite keyed_lookup by done. unfold indexed_lookup. split.
  - intros (i & Hi & Hx)%bind_Some. apply Hok in Hi as (y & Hy & <-).
    assert (x = y) as -> by congruence. split; [by eapply list_elem_of_lookup_2|done].
  - intros [[i Hi]%list_elem_of_lookup_1 <-]. apply bind_Some. exists i. split; [|done].
    apply Hok. eauto.
Qed.

Lemma keyed_size l : NoDup (key <$> l) -> size (keyed l) = length l.
Proof.
  induction l as [|x l IH]; [done|]. intros [Hx Hd]%NoDup_cons. unfold keyed in *. cbn.
  rewrite map_size_insert_None; [by rewrite IH|].
  apply not_elem_of_list_to_map_1. by rewrite <- list_fmap_compose.
Qed.

Lemma keyed_snoc l x : key x ∉ key <$> l -> keyed (l ++ [x]) = <[key x := x]> (keyed l).
Proof.
  intros Hx. unfold keyed. rewrite fmap_app. cbn. rewrite list_to_map_snoc; [done|].
  by rewrite <- list_fmap_compose.
Qed.

Lemma keyed_update l m i x y :
  index_ok l m -> l !! i = Some x -> key y = key x ->
  keyed (<[i := y]> l) = <[key x := y]> (keyed l).
Proof.
  intros Hok Hi Hk. pose proof (index_ok_update _ _ _ _ _ Hok Hi Hk) as Hok'.
  pose proof (proj2 (Hok (key x) i) ltac:(eauto)) as Hm.
  apply map_eq. intros k. rewrite <- (indexed_lookup_keyed _ _ _ Hok').
  destruct (decide (k = key x)) as [->|Hne].
  - rewrite lookup_insert_eq. unfold indexed_lookup. rewrite Hm. cbn.
    apply list_lookup_insert_eq. by eapply lookup_lt_Some.
  - rewrite lookup_insert_ne, <- (indexed_lookup_keyed _ _ _ Hok) by done.
    unfold indexed_lookup. destruct (m !! k) as [j|] eqn:Ej; [|done]. cbn.
    apply list_lookup_insert_ne. intros ->. apply Hok in Ej as (z & Hz & <-). congruence.
Qed.
End index.

Lemma length_string_bytes s : length (String.list_byte_of_string s) = String.length s.
Proof. induction s; cbn; auto. Qed.

Lemma length_string_app (s t : string) : String.length (s ++ t) = (String.length s + String.length t)%nat.
Proof.
  induction s as [|a s IH]; [done|].
  change (String.length (String a s ++ t)) with (S (String.length (s ++ t))). rewrite IH. done.
Qed.

Lemma pair_inv {A B} (a a' : A) (b b' : B) : (a, b) = (a', b') -> a = a' /\ b = b'.
Proof. by intros [= -> ->]. Qed.

Lemma filter_id {A} (P : A -> Prop) `{!forall x, Decision (P x)} (l : list A) : Forall P l -> filter P l = l.
Proof. induction 1 as [|x l Hx _ IH]; [done|]. by rewrite filter_cons, decide_True, IH. Qed.

(** ** Hoare triples for stateful operations

    [hoare F P m Q]: started in a state with [P], [m] does not panic, returns an error
    only if [F], and otherwise ends with a result and a state that satisfy [Q].  [F] is
    [False] for operations that must succeed and [True] for those that may fail. *)
Definition hoare {E S A} (F : Prop) (P : S -> Prop) (m : stM E S A) (Q : A -> S -> Prop) : Prop :=
  forall s, P s -> match m s with (Ok a, s') => Q a s' | (Err _, _) => F | (Panic, _) => False end.

Section hoare.
Context {E S : Type} (F : Prop).
Implicit Types (P : S -> Prop).

Lemma hoare_bind {A B} P (m : stM E S A) (f : A -> stM E S B) Q R :
  hoare F P m Q -> (forall a, hoare F (Q a) (f a) R) -> hoare F P (m ≫= f) R.
Proof.
  intros Hm Hf s Hs. specialize (Hm s Hs). unfold mbind, stM_bind.
  destruct (m s) as [[a|e|] s']; [|done..]. by apply Hf.
Qed.

Lemma hoare_ret {A} P (a : A) (Q : A -> S -> Prop) : (forall s, P s -> Q a s) -> hoare F P (mret a : stM E S A) Q.
Proof. intros HQ s Hs. by apply HQ. Qed.

Lemma hoare_get P (Q : S -> S -> Prop) : (forall s, P s -> Q s s) -> hoare F P (get : stM E S S) Q.
Proof. intros HQ s Hs. by apply HQ. Qed.

Lemma hoare_modify P f (Q : unit -> S -> Prop) : (forall s, P s -> Q tt (f s)) -> hoare F P (modify f : stM E S unit) Q.
Proof. intros HQ s Hs. by apply HQ. Qed.

Lemma hoare_lift {A} P (r : Result E A) (a : A) (Q : A -> S -> Prop) :
  r = Ok a -> (forall s, P s -> Q a s) -> hoare F P (lift r) Q.
Proof. intros -> HQ s Hs. by apply HQ. Qed.

Lemma hoare_lift_bind {A B} P (r : Result E A) (a : A) (f : A -> stM E S B) Q :
  r = Ok a -> hoare F P (f a) Q -> hoare F P (lift r ≫= f) Q.
Proof. intros -> Hf s Hs. by apply Hf. Qed.

Lemma hoare_get_bind {B} P (f : S -> stM E S B) Q :
  (forall s, P s -> hoare F (eq s) (f s) Q) -> hoare F P (get ≫= f) Q.
Proof. intros Hf s Hs. by apply (Hf s Hs). Qed.

Lemma hoare_conseq {A} P P' (m : stM E S A) (Q Q' : A -> S -> Prop) :
  hoare F P m Q -> (forall s, P' s -> P s) -> (forall a s, Q a s -> Q' a s) -> hoare F P' m Q'.
Proof. intros Hm HP HQ s Hs%HP%Hm. destruct (m s) as [[] ?]; auto. Qed.

Lemma hoare_for_each {A B} (I : list A -> S -> Prop) (f : A -> stM E S B) (Q : unit -> S -> Prop) l :
  (forall x l', hoare F (I (x :: l')) (f x) (fun _ => I l')) -> (forall s, I [] s -> Q tt s) ->
  hoare F (I l) (st_for_each f l) Q.
Proof.
  intros Hf HQ. induction l as [|x l IH]; intros s Hs; cbn; [by apply HQ|].
  specialize (Hf x l s Hs). destruct (f x s) as [[] ?]; [|done..]. by apply IH.
Qed.

Lemma hoare_exists {A B} (P : B -> S -> Prop) (m : stM E S A) Q :
  (forall b, hoare F (P b) m Q) -> hoare F (fun s => exists b, P b s) m Q.
Proof. intros Hm s [b Hs]. by apply (Hm b). Qed.

Lemma hoare_pure {A} (P : S -> Prop) (X : Prop) (m : stM E S A) Q :
  (X -> hoare F P m Q) -> hoare F (fun s => X /\ P s) m Q.
Proof. intros Hm s [Hx Hs]. by apply (Hm Hx). Qed.
End hoare.

(** ** Invariants of transition systems *)
Lemma rtc_invariant {A} (R : relation A) (P : A -> Prop) x y :
  (forall a b, R a b -> P a -> P b) -> P x -> rtc R x y -> P y.
Proof. intros Hstep Hx Hr. induction Hr as [|a b c Hab _ IH]; eauto. Qed.

(** ** Automation *)
Create HintDb ttp.
Create Rewrite HintDb ttp.
#[export] Hint Resolve len_nonneg u64_add_range wrap_range length_array_list : ttp.
#[export] Hint Resolve bytes_leb_total bytes_leb_anti bytes_leb_trans : ttp.
#[export] Hint Rewrite @ensure_bind @bind_Ok @ensure_Ok @ok_or_Ok @for_each_Ok : ttp.

(** Invert a hypothesis that a chain of checks returned [Ok]. *)
Ltac inv_ok H :=
  repeat (autorewrite with ttp in H;
          lazymatch type of H with
          | exists x, _ => let y := fresh x in destruct H as [y H]
          | _ /\ _ => let H1 := fresh "Hok" in destruct H as [H1 H]; inv_ok H1
          end).

(** Case analysis on the scrutinees that block the goal. *)
Ltac split_ifs :=
  repeat (case_match || case_decide || case_bool_decide); simplify_eq/=.

(** Run a stateful operation symbolically. *)
Ltac unfold_st := unfold mbind, stM_bind, mret, stM_ret, get, modify, lift; cbn.
