(* ===== verification/Floats64.v ===== *)
(** * IEEE binary64 numbers

    The code's [f64] values are the Standard Library's [spec_float] at precision
    53 and maximal exponent 1024, with its correctly rounded operations: the
    arithmetic below is bit-exact and executable, and NaN, the infinities and
    the two zeros are values. *)
From stdpp Require Import prelude strings pretty.
From Stdlib Require Import Floats.SpecFloat.
From S2P Require Import Prelude.

Local Open Scope Z_scope.

Definition f64 : Type := spec_float.

Definition f64_mul (x y : f64) : f64 := SFmul 53 1024 x y.
Definition f64_div (x y : f64) : f64 := SFdiv 53 1024 x y.

(** [n as f64] for an unsigned integer. *)
Definition f64_of_Z (n : Z) : f64 := binary_normalize 53 1024 n 0 false.

(** [x < y], [x <= y], [x > y], [x >= y]: false on NaN. *)
Definition f64_lt (x y : f64) : bool := SFltb x y.
Definition f64_le (x y : f64) : bool := SFleb x y.
Definition f64_gt (x y : f64) : bool := SFltb y x.
Definition f64_ge (x y : f64) : bool := SFleb y x.

(** [f64::min] and [f64::max]: a NaN argument is ignored. *)
Definition f64_min (x y : f64) : f64 :=
  match x, y with
  | S754_nan, _ => y
  | _, S754_nan => x
  | _, _ => if f64_lt y x then y else x
  end.
Definition f64_max (x y : f64) : f64 :=
  match x, y with
  | S754_nan, _ => y
  | _, S754_nan => x
  | _, _ => if f64_lt x y then y else x
  end.

Definition f64_add (x y : f64) : f64 := SFadd 53 1024 x y.
Definition f64_sub (x y : f64) : f64 := SFsub 53 1024 x y.
Definition f64_abs (x : f64) : f64 := SFabs x.

Definition f64_zero : f64 := S754_zero false.
Definition f64_one : f64 := f64_of_Z 1.
Definition f64_hundred : f64 := f64_of_Z 100.
Definition f64_nan : f64 := S754_nan.

(** The literals [0.67], [0.5] and [0.75]. *)
Definition f64_0_67 : f64 := S754_finite false 6034823500676465 (-53).
Definition f64_0_5 : f64 := S754_finite false 4503599627370496 (-53).
Definition f64_0_75 : f64 := S754_finite false 6755399441055744 (-53).

(** [m * 2^e] rounded up to an integer. *)
Definition ceil_scaled (m e : Z) : Z :=
  if 0 <=? e then m * 2 ^ e else - ((- m) / 2 ^ (- e)).

(** [f64::ceil]. *)
Definition f64_ceil (x : f64) : f64 :=
  match x with
  | S754_finite s m e =>
      let z := ceil_scaled (if s then Z.neg m else Z.pos m) e in
      binary_normalize 53 1024 z 0 s
  | _ => x
  end.

(** [x as usize] (and [x as u64]): truncation towards zero, saturating, 0 on NaN. *)
Definition f64_to_usize (x : f64) : Z :=
  match x with
  | S754_nan | S754_zero _ | S754_infinity true => 0
  | S754_infinity false => 2 ^ 64 - 1
  | S754_finite true _ _ => 0
  | S754_finite false m e =>
      Z.min (2 ^ 64 - 1) (if 0 <=? e then Z.pos m * 2 ^ e else Z.pos m / 2 ^ (- e))
  end.

(** A decimal literal [n / 10^k] with [n < 2^53] and [k <= 22]: both parts are exact, so the
    quotient is the literal's nearest number. *)
Definition f64_dec (n k : Z) : f64 := f64_div (f64_of_Z n) (f64_of_Z (10 ^ k)).

(** [f64::sqrt], correctly rounded. *)
Definition f64_sqrt (x : f64) : f64 := SFsqrt 53 1024 x.

(** [a / b] rounded to the nearest integer, ties to even, for [0 <= a] and [0 < b]. *)
Definition round_half_even (a b : Z) : Z :=
  let q := a / b in
  let r := 2 * (a mod b) in
  if r <? b then q else if b <? r then q + 1 else if Z.even q then q else q + 1.

Fixpoint zeros (n : nat) : string :=
  match n with O => "" | S n' => "0" ++ zeros n' end.
Definition pad_zeros (n : nat) (s : string) : string := zeros (n - String.length s) ++ s.

(** [format!("{:.prec$}", x)] for [0 < prec]. *)
Definition f64_fixed (prec : nat) (x : f64) : string :=
  match x with
  | S754_nan => "NaN"
  | S754_infinity s => if s then "-inf" else "inf"
  | S754_zero s => (if s then "-0." else "0.") ++ pad_zeros prec ""
  | S754_finite s m e =>
      let scale := 10 ^ Z.of_nat prec in
      let n := if 0 <=? e then Z.pos m * 2 ^ e * scale else round_half_even (Z.pos m * scale) (2 ^ (- e)) in
      (if s then "-" else "") ++ pretty (n / scale) ++ "." ++ pad_zeros prec (pretty (n mod scale))
  end.

Lemma f64_to_usize_range x : is_u64 (f64_to_usize x).
Proof.
  unfold is_u64, f64_to_usize. destruct x as [|[]| |[] m e]; try lia.
  destruct (Z.leb_spec 0 e).
  - pose proof (Z.pow_nonneg 2 e). lia.
  - assert (0 <= Z.pos m / 2 ^ (- e)) by (apply Z.div_pos; [lia|apply Z.pow_pos_nonneg; lia]). lia.
Qed.
