(* ===== verification/Types.v ===== *)
(** * Types of crates/common: addresses, keys, hashes, errors

    The newtypes of src/crates/common/src/types.rs are records around a
    fixed-size byte array, and the error enum of errors.rs is [VotingError] with
    its constructors and payloads.  Two external crates appear as parameters:
    [HashCrate] (crate [blake2], Blake2b with a 32-byte digest) and [HexCrate]
    (crate [hex]); what the code relies on is in [HexCrateSpec]. *)
From stdpp Require Import prelude gmap strings list pretty.
From Stdlib Require Import Strings.Byte.
From S2P Require Import Prelude.

Local Open Scope Z_scope.

(** ** External crates *)

(** [hex::FromHexError]. *)
Inductive FromHexError :=
| InvalidHexCharacter (c : Ascii.ascii) (index : Z)
| OddLength
| InvalidStringLength.

(** The digest of the concatenation of all [update]s. *)
Class HashCrate := { blake2b256 : list byte -> array 32 }.

Class HexCrate := {
  hex_encode : list byte -> string;
  hex_decode : string -> Result FromHexError (list byte);
  hex_error_display : FromHexError -> string
}.

(** Documented: [decode] inverts [encode], which writes two digits per byte. *)
Class HexCrateSpec `{HexCrate} := {
  hex_decode_encode : forall bs, hex_decode (hex_encode bs) = Ok bs;
  hex_encode_length : forall bs, String.length (hex_encode bs) = (2 * length bs)%nat
}.

(** ** Newtypes *)

(** The length check and copy shared by the [from_hex] constructors:
    [hex::decode(s)?], [bytes.len() != n], [copy_from_slice]. *)
Definition array_from_hex `{HexCrate} (n : nat) (s : string) : Result FromHexError (array n) :=
  bytes ← hex_decode s;
  ok_or (array_of n bytes) InvalidStringLength.

Record Address := mkAddress { address_bytes : array 32 }.
Record Signature := mkSignature { signature_bytes : array 64 }.
Record PublicKey := mkPublicKey { public_key_bytes : array 32 }.
Record TxId := mkTxId { tx_id_bytes : array 32 }.
Record BlockHash := mkBlockHash { block_hash_bytes : array 32 }.
Record ElectionId := mkElectionId { election_id_bytes : array 16 }.

Global Instance Address_eq_dec : EqDecision Address.
Proof. solve_decision. Defined.
Global Instance Signature_eq_dec : EqDecision Signature.
Proof. solve_decision. Defined.
Global Instance PublicKey_eq_dec : EqDecision PublicKey.
Proof. solve_decision. Defined.
Global Instance TxId_eq_dec : EqDecision TxId.
Proof. solve_decision. Defined.
Global Instance BlockHash_eq_dec : EqDecision BlockHash.
Proof. solve_decision. Defined.
Global Instance ElectionId_eq_dec : EqDecision ElectionId.
Proof. solve_decision. Defined.

Global Instance PublicKey_countable : Countable PublicKey.
Proof. by apply (inj_countable' public_key_bytes mkPublicKey); intros []. Defined.
Global Instance TxId_countable : Countable TxId.
Proof. by apply (inj_countable' tx_id_bytes mkTxId); intros []. Defined.
Global Instance BlockHash_countable : Countable BlockHash.
Proof. by apply (inj_countable' block_hash_bytes mkBlockHash); intros []. Defined.
Global Instance ElectionId_countable : Countable ElectionId.
Proof. by apply (inj_countable' election_id_bytes mkElectionId); intros []. Defined.

(** [BlockHash::zero]. *)
Definition BlockHash_zero : BlockHash := mkBlockHash (array_fill 32 x00).

Section codecs.
Context `{HexCrate, HashCrate}.

Definition Address_to_hex (a : Address) : string := hex_encode (array_list (address_bytes a)).
Definition Address_from_hex (s : string) : Result FromHexError Address :=
  mkAddress <$> array_from_hex 32 s.

Definition Signature_to_hex (a : Signature) : string := hex_encode (array_list (signature_bytes a)).
Definition Signature_from_hex (s : string) : Result FromHexError Signature :=
  mkSignature <$> array_from_hex 64 s.

Definition PublicKey_to_hex (a : PublicKey) : string := hex_encode (array_list (public_key_bytes a)).
Definition PublicKey_from_hex (s : string) : Result FromHexError PublicKey :=
  mkPublicKey <$> array_from_hex 32 s.

(** [PublicKey::to_address]: the Blake2b digest of the key. *)
Definition PublicKey_to_address (k : PublicKey) : Address :=
  mkAddress (blake2b256 (array_list (public_key_bytes k))).

Definition TxId_to_hex (a : TxId) : string := hex_encode (array_list (tx_id_bytes a)).
Definition TxId_from_hex (s : string) : Result FromHexError TxId :=
  mkTxId <$> array_from_hex 32 s.

Definition BlockHash_to_hex (a : BlockHash) : string := hex_encode (array_list (block_hash_bytes a)).
Definition BlockHash_from_hex (s : string) : Result FromHexError BlockHash :=
  mkBlockHash <$> array_from_hex 32 s.

Definition ElectionId_to_hex (a : ElectionId) : string := hex_encode (array_list (election_id_bytes a)).
Definition ElectionId_from_hex (s : string) : Result FromHexError ElectionId :=
  mkElectionId <$> array_from_hex 16 s.

(** [common::utils::hash_data] and [hash_multiple]: the digest of one slice,
    and of several slices fed in order to one hasher. *)
Definition hash_data (data : list byte) : array 32 := blake2b256 data.
Definition hash_multiple (data_pieces : list (list byte)) : array 32 :=
  blake2b256 (concat data_pieces).
End codecs.

(** ** Deserialization of signatures (the serde visitor) *)

(** The errors the visitor makes; [SeqError] is an error of the underlying
    sequence reader. *)
Inductive DeError :=
| DeCustom (msg : string)
| DeInvalidLength (i : Z)
| SeqError (msg : string).

Definition Signature_visit_bytes (v : list byte) : Result DeError Signature :=
  match array_of 64 v with
  | Some arr => Ok (mkSignature arr)
  | None => Err (DeCustom ("expected 64 bytes, got " ++ pretty (len v)))
  end.

(** The loop [for i in 0..64] of [visit_seq]: the elements the reader still
    yields are a list of results, [n] is the number of slots left to fill. *)
Fixpoint visit_seq_loop (n : nat) (i : Z) (seq : list (Result DeError byte)) : Result DeError (list byte) :=
  match n with
  | O => Ok []
  | S n' =>
      match seq with
      | [] => Err (DeInvalidLength i)
      | e :: seq' => b ← e; rest ← visit_seq_loop n' (i + 1) seq'; Ok (b :: rest)
      end
  end.

Definition Signature_visit_seq (seq : list (Result DeError byte)) : Result DeError Signature :=
  arr ← visit_seq_loop 64 0 seq;
  a ← unwrap (array_of 64 arr);
  Ok (mkSignature a).

(** ** Errors: [VotingError] of crates/common/src/errors.rs

    [IoError] carries a description of the operating-system error. *)
Inductive VotingError :=
| InvalidBlock (s : string)
| InvalidBlockHash (expected actual : string)
| InvalidPreviousHash (s : string)
| BlockHeightMismatch (expected actual : Z)
| GenesisError (s : string)
| InvalidTransaction (s : string)
| InvalidSignature
| DuplicateTransaction (s : string)
| InvalidVote (s : string)
| CryptoError (s : string)
| KeyGenerationError (s : string)
| SignatureVerificationFailed
| HashError (s : string)
| InvalidPublicKey
| InvalidPrivateKey
| StorageError (s : string)
| DatabaseError (s : string)
| SerializationError (s : string)
| DeserializationError (s : string)
| BlockNotFound (s : string)
| TransactionNotFound (s : string)
| NetworkError (s : string)
| PeerConnectionError (s : string)
| SyncError (s : string)
| InvalidMessage (s : string)
| PeerTimeout (s : string)
| ConsensusError (s : string)
| InvalidValidator (s : string)
| InsufficientValidators
| FinalityNotReached
| NodeNotInitialized
| ConfigError (s : string)
| NodeAlreadyRunning
| NodeNotRunning
| VoterNotEligible (s : string)
| ElectionNotFound (s : string)
| ElectionNotActive
| ElectionClosed
| AlreadyVoted
| InvalidBallot (s : string)
| InvalidCandidate (s : string)
| RpcError (s : string)
| InvalidRpcRequest (s : string)
| RpcTimeout
| InternalError (s : string)
| NotImplemented (s : string)
| InvalidInput (s : string)
| OperationFailed (s : string)
| PermissionDenied (s : string)
| IoError (s : string)
| ParseError (s : string)
| InvalidHex (e : FromHexError)
| InsufficientData (s : string)
| ConfigurationError (s : string).

(** [Display for VotingError] (the [#[error(..)]] attributes). *)
Definition VotingError_display (e : VotingError) : string :=
  match e with
  | InvalidBlock s => "Invalid block: " ++ s
  | InvalidBlockHash expected actual =>
      "Invalid block hash: expected " ++ expected ++ ", got " ++ actual
  | InvalidPreviousHash s => "Invalid previous hash: " ++ s
  | BlockHeightMismatch expected actual =>
      "Block height mismatch: expected " ++ pretty expected ++ ", got " ++ pretty actual
  | GenesisError s => "Genesis block error: " ++ s
  | InvalidTransaction s => "Invalid transaction: " ++ s
  | InvalidSignature => "Invalid transaction signature"
  | DuplicateTransaction s => "Transaction already exists: " ++ s
  | InvalidVote s => "Invalid vote: " ++ s
  | CryptoError s => "Cryptographic error: " ++ s
  | KeyGenerationError s => "Key generation failed: " ++ s
  | SignatureVerificationFailed => "Signature verification failed"
  | HashError s => "Hash computation failed: " ++ s
  | InvalidPublicKey => "Invalid public key"
  | InvalidPrivateKey => "Invalid private key"
  | StorageError s => "Storage error: " ++ s
  | DatabaseError s => "Database error: " ++ s
  | SerializationError s => "Serialization error: " ++ s
  | DeserializationError s => "Deserialization error: " ++ s
  | BlockNotFound s => "Block not found: " ++ s
  | TransactionNotFound s => "Transaction not found: " ++ s
  | NetworkError s => "Network error: " ++ s
  | PeerConnectionError s => "Peer connection failed: " ++ s
  | SyncError s => "Failed to sync blockchain: " ++ s
  | InvalidMessage s => "Invalid peer message: " ++ s
  | PeerTimeout s => "Peer timeout: " ++ s
  | ConsensusError s => "Consensus error: " ++ s
  | InvalidValidator s => "Invalid validator: " ++ s
  | InsufficientValidators => "Insufficient validator signatures"
  | FinalityNotReached => "Block finality not reached"
  | NodeNotInitialized => "Node not initialized"
  | ConfigError s => "Node configuration error: " ++ s
  | NodeAlreadyRunning => "Node already running"
  | NodeNotRunning => "Node not running"
  | VoterNotEligible s => "Voter not eligible: " ++ s
  | ElectionNotFound s => "Election not found: " ++ s
  | ElectionNotActive => "Election not active"
  | ElectionClosed => "Election already closed"
  | AlreadyVoted => "Voter already voted"
  | InvalidBallot s => "Invalid ballot: " ++ s
  | InvalidCandidate s => "Invalid candidate: " ++ s
  | RpcError s => "RPC error: " ++ s
  | InvalidRpcRequest s => "Invalid RPC request: " ++ s
  | RpcTimeout => "RPC timeout"
  | InternalError s => "Internal error: " ++ s
  | NotImplemented s => "Not implemented: " ++ s
  | InvalidInput s => "Invalid input: " ++ s
  | OperationFailed s => "Operation failed: " ++ s
  | PermissionDenied s => "Permission denied: " ++ s
  | IoError s => "IO error: " ++ s
  | ParseError s => "Parse error: " ++ s
  | InvalidHex _ => "Invalid hex string"
  | InsufficientData s => "Insufficient data: " ++ s
  | ConfigurationError s => "Configuration error: " ++ s
  end.

(** [common::Result<T>]. *)
Abbreviation VResult := (Result VotingError).
Abbreviation VStM := (stM VotingError).

(** [result.map_err(|e| Error(format!("..{}", e)))]. *)
Definition map_err {A} (err : string -> VotingError) (r : A + string) : VResult A :=
  match r with inl a => Ok a | inr e => Err (err e) end.

(** ** The crate [rand]

    [SliceRandom::shuffle]; [seed] is the state of the generator. *)
Class ShuffleCrate := { rand_shuffle : forall A, nat -> list A -> list A }.
Arguments rand_shuffle {_ A} seed l.

(** Documented: a shuffle permutes the slice. *)
Class ShuffleSpec `{ShuffleCrate} := {
  rand_shuffle_perm : forall A seed (l : list A), rand_shuffle seed l ≡ₚ l
}.

(** [SliceRandom::choose]; documented: an element of a non-empty slice, [None] on an empty one. *)
Class ChooseCrate := { rand_choose : forall A, nat -> list A -> option A }.
Arguments rand_choose {_ A} seed l.
Class ChooseSpec `{ChooseCrate} := {
  rand_choose_elem : forall A seed (l : list A) x, rand_choose seed l = Some x -> x ∈ l;
  rand_choose_some : forall A seed (l : list A), l <> [] -> is_Some (rand_choose seed l)
}.

(** [bincode::serialize] and [bincode::deserialize] at a type; errors by their display strings. *)
Class Bincode (A : Type) := {
  bincode_encode : A -> list byte + string;
  bincode_decode : list byte -> A + string
}.

(** Documented: what was encoded decodes to itself. *)
Class BincodeSpec (A : Type) `{Bincode A} :=
  bincode_decode_encode : forall (a : A) d, bincode_encode a = inl d -> bincode_decode d = inl a.

(** [common::utils::serialize(..)?]. *)
Definition serialize {A : Type} `{Bincode A} (a : A) : VResult (list byte) :=
  map_err SerializationError (bincode_encode a).

(** ** Properties *)

Lemma array_from_hex_encode `{HexCrateSpec} n (a : array n) :
  array_from_hex n (hex_encode (array_list a)) = Ok a.
Proof.
  unfold array_from_hex. rewrite hex_decode_encode. cbn. by rewrite array_of_list.
Qed.
#[export] Hint Rewrite @array_from_hex_encode : ttp.

(** For each of the six newtypes, [from_hex] inverts [to_hex]. *)
Theorem hex_round_trips `{HexCrateSpec} (a : Address) (s : Signature) (k : PublicKey)
    (t : TxId) (b : BlockHash) (e : ElectionId) :
  Address_from_hex (Address_to_hex a) = Ok a /\
  Signature_from_hex (Signature_to_hex s) = Ok s /\
  PublicKey_from_hex (PublicKey_to_hex k) = Ok k /\
  TxId_from_hex (TxId_to_hex t) = Ok t /\
  BlockHash_from_hex (BlockHash_to_hex b) = Ok b /\
  ElectionId_from_hex (ElectionId_to_hex e) = Ok e.
Proof.
  destruct a, s, k, t, b, e.
  repeat split; unfold Address_from_hex, Signature_from_hex, PublicKey_from_hex,
    TxId_from_hex, BlockHash_from_hex, ElectionId_from_hex, Address_to_hex, Signature_to_hex,
    PublicKey_to_hex, TxId_to_hex, BlockHash_to_hex, ElectionId_to_hex;
    by rewrite array_from_hex_encode.
Qed.

Lemma visit_seq_loop_map n i (l : list byte) rest :
  length l = n -> visit_seq_loop n i ((Ok <$> l) ++ rest) = Ok l.
Proof.
  revert i l. induction n as [|n IH]; intros i [|b l] Hl; try done.
  injection Hl as Hl. cbn. by rewrite IH.
Qed.

(** Reading a serialized signature back gives it, by either visitor entry
    point, also when the sequence goes on; slices of any other length and
    sequences that end early are refused with the position. *)
Theorem signature_visitor_round_trip (s : Signature) (rest : list (Result DeError byte))
    (v : list byte) :
  Signature_visit_bytes (array_list (signature_bytes s)) = Ok s /\
  Signature_visit_seq ((Ok <$> array_list (signature_bytes s)) ++ rest) = Ok s /\
  (length v <> 64%nat ->
   Signature_visit_bytes v = Err (DeCustom ("expected 64 bytes, got " ++ pretty (len v)))) /\
  ((length v < 64)%nat -> Signature_visit_seq (Ok <$> v) = Err (DeInvalidLength (len v))).
Proof.
  destruct s as [a]. cbn [signature_bytes]. repeat split.
  - unfold Signature_visit_bytes. by rewrite array_of_list.
  - unfold Signature_visit_seq.
    rewrite visit_seq_loop_map by apply length_array_list. cbn.
    by rewrite array_of_list.
  - intros Hv. unfold Signature_visit_bytes, array_of. by destruct (decide _).
  - intros Hv. unfold Signature_visit_seq.
    assert (forall n i, (length v < n)%nat ->
              visit_seq_loop n i (Ok <$> v) = Err (DeInvalidLength (i + len v))) as Hloop.
    { clear Hv a rest. induction v as [|b v IH]; intros [|n] i Hn; cbn in *; try lia.
      - by rewrite Z.add_0_r.
      - rewrite IH by lia. cbn. f_equal. f_equal. unfold len. cbn. lia. }
    rewrite Hloop by done. done.
Qed.
