(* ===== verification/Instances.v ===== *)
(** * Concrete instances of the external crates

    A hexadecimal codec and a small checksum, used only to evaluate the model
    on concrete inputs and to show that the hypotheses about the external
    crates can hold.  No theorem about the program depends on them. *)
From stdpp Require Import prelude gmap strings list pretty.
From Stdlib Require Import Strings.Byte Strings.Ascii.
From S2P Require Import Prelude Types.

Local Open Scope Z_scope.

Definition hex_digit (n : N) : ascii :=
  match n with
  | 0%N => "0" | 1%N => "1" | 2%N => "2" | 3%N => "3" | 4%N => "4" | 5%N => "5"
  | 6%N => "6" | 7%N => "7" | 8%N => "8" | 9%N => "9" | 10%N => "a" | 11%N => "b"
  | 12%N => "c" | 13%N => "d" | 14%N => "e" | _ => "f"
  end%char.

Definition hex_value (c : ascii) : option N :=
  let n := N_of_ascii c in
  if bool_decide (48 <= n <= 57)%N then Some (n - 48)%N
  else if bool_decide (97 <= n <= 102)%N then Some (n - 87)%N
  else if bool_decide (65 <= n <= 70)%N then Some (n - 55)%N
  else None.

Fixpoint hex_enc (bs : list byte) : string :=
  match bs with
  | [] => ""
  | b :: bs' =>
      String (hex_digit (Byte.to_N b / 16)) (String (hex_digit (Byte.to_N b mod 16)) (hex_enc bs'))
  end.

Fixpoint hex_dec (i : Z) (s : string) : Result FromHexError (list byte) :=
  match s with
  | EmptyString => Ok []
  | String _ EmptyString => Err OddLength
  | String c (String d s') =>
      h ← ok_or (hex_value c) (InvalidHexCharacter c i);
      l ← ok_or (hex_value d) (InvalidHexCharacter d (i + 1));
      bs ← hex_dec (i + 2) s';
      Ok (byte_of_Z (Z.of_N (16 * h + l)) :: bs)
  end.

Global Instance concrete_hex : HexCrate := 
  {| hex_encode := hex_enc; hex_decode := hex_dec 0; hex_error_display := fun _ => "invalid hex" |}.

Lemma hex_digits_value b :
  hex_value (hex_digit (Byte.to_N b / 16)) = Some (Byte.to_N b / 16)%N /\
  hex_value (hex_digit (Byte.to_N b mod 16)) = Some (Byte.to_N b mod 16)%N.
Proof. by destruct b. Qed.

Global Instance concrete_hex_spec : HexCrateSpec.
Proof.
  split; [|by induction bs as [|b bs IH]; cbn in *; lia]. intros bs. cbn. generalize 0.
  induction bs as [|b bs IH]; intros i; cbn [hex_enc hex_dec]; [done|].
  destruct (hex_digits_value b) as [-> ->]. cbn. rewrite IH. cbn. do 2 f_equal.
  rewrite <- (byte_of_val b) at 3. f_equal. unfold byte_val. f_equal.
  rewrite (N.div_mod (Byte.to_N b) 16) at 3 by done. done.
Qed.

(** A polynomial checksum on 32 bits. *)
Definition checksum_mask : Z := Eval vm_compute in Z.ones 32.
Definition checksum (data : list byte) : Z :=
  foldl (fun acc b => Z.land (acc * 263 + byte_val b + 1) checksum_mask) 7 data.

Global Instance concrete_hash : HashCrate :=
  {| blake2b256 := fun data => exist _ (le_bytes 32 (checksum data)) (length_le_bytes 32 _) |}.

(** ** Small concrete values *)
Definition key_of (b : byte) : PublicKey := mkPublicKey (array_fill 32 b).
Definition sig0 : Signature := mkSignature (array_fill 64 x00).
Definition election0 : ElectionId := mkElectionId (array_fill 16 x01).

Lemma hex_round_trips_witness :
  TxId_from_hex (TxId_to_hex (mkTxId (array_fill 32 x2a))) = Ok (mkTxId (array_fill 32 x2a)).
Proof.
  exact (proj1 (proj2 (proj2 (proj2 (hex_round_trips (mkAddress (array_fill 32 x00)) sig0
    (key_of x01) (mkTxId (array_fill 32 x2a)) BlockHash_zero election0))))).
Defined.

Lemma signature_visitor_round_trip_witness :
  Signature_visit_bytes [x01] = Err (DeCustom "expected 64 bytes, got 1") /\
  Signature_visit_seq [Ok x01] = Err (DeInvalidLength 1).
Proof.
  destruct (signature_visitor_round_trip sig0 [] [x01]) as (_ & _ & H1 & H2).
  split; [apply H1; done|apply H2; cbn; lia].
Defined.
