(* ===== verification/Merkle.v ===== *)
(** * Merkle trees: crates/blockchain-core/src/merkle.rs

    [MerkleTree] keeps all levels bottom-up; an odd node is paired with itself.
    Indexing that the code does with [[]] is [unwrap] of a list lookup, so a
    panic would be visible; the theorems show there is none. *)
From stdpp Require Import prelude gmap strings list.
From Stdlib Require Import Strings.Byte.
From S2P Require Import Prelude Types.

Local Open Scope nat_scope.

Section merkle.
Context `{HashCrate}.

Record MerkleTree := mkMerkleTree {
  mt_root : BlockHash;
  mt_leaves : list BlockHash;
  mt_levels : list (list BlockHash)
}.

Record ProofNode := mkProofNode { pn_hash : BlockHash; pn_is_left : bool }.

Record MerkleProof := mkMerkleProof {
  mp_leaf_hash : BlockHash;
  mp_leaf_index : nat;
  mp_proof : list ProofNode;
  mp_root : BlockHash
}.

Definition hash_bytes (h : BlockHash) : list byte := array_list (block_hash_bytes h).

Definition hash_pair (left right : BlockHash) : BlockHash :=
  mkBlockHash (hash_multiple [hash_bytes left; hash_bytes right]).

(** The [while i < level.len()] loop, two nodes at a time. *)
Fixpoint build_next_level (level : list BlockHash) : list BlockHash :=
  match level with
  | a :: b :: rest => hash_pair a b :: build_next_level rest
  | [a] => [hash_pair a a]
  | [] => []
  end.

(** The [while current_level.len() > 1] loop; a level has at most half the
    nodes, rounded up, of the one below, so its length is enough fuel. *)
Fixpoint build_tree_loop (fuel : nat) (current_level : list BlockHash) : list (list BlockHash) :=
  match fuel with
  | O => []
  | S fuel' =>
      if decide (1 < length current_level) then
        let next := build_next_level current_level in
        next :: build_tree_loop fuel' next
      else []
  end.

Definition build_tree (current_level : list BlockHash) : list (list BlockHash) :=
  current_level :: build_tree_loop (length current_level) current_level.

Definition MerkleTree_new (hashes : list BlockHash) : VResult MerkleTree :=
  match hashes with
  | [] => Ok (mkMerkleTree BlockHash_zero [] [])
  | _ =>
      let levels := build_tree hashes in
      top ← unwrap (last levels);
      root ← unwrap (head top);
      Ok (mkMerkleTree root hashes levels)
  end.

Definition leaf_count (t : MerkleTree) : nat := length (mt_leaves t).
Definition depth (t : MerkleTree) : nat := length (mt_levels t).
Definition is_empty (t : MerkleTree) : bool := bool_decide (mt_leaves t = []).

Definition sibling_index (current_index : nat) : nat :=
  if decide (current_index `mod` 2 = 0) then current_index + 1 else current_index - 1.

(** The sibling's hash, or the node's own when there is no sibling. *)
Definition sibling (level : list BlockHash) (current_index : nat) : option BlockHash :=
  if decide (sibling_index current_index < length level)
  then level !! sibling_index current_index
  else level !! current_index.

(** The loop over [levels[..levels.len() - 1]] of [generate_proof]. *)
Fixpoint proof_path (levels : list (list BlockHash)) (current_index : nat) : VResult (list ProofNode) :=
  match levels with
  | [] => Ok []
  | level :: rest =>
      sibling_hash ← unwrap (sibling level current_index);
      nodes ← proof_path rest (current_index `div` 2);
      Ok (mkProofNode sibling_hash (bool_decide (current_index `mod` 2 = 1)) :: nodes)
  end.

Definition generate_proof (t : MerkleTree) (leaf_index : nat) : VResult (option MerkleProof) :=
  if decide (length (mt_leaves t) <= leaf_index) then Ok None
  else
    nodes ← proof_path (take (length (mt_levels t) - 1) (mt_levels t)) leaf_index;
    leaf ← unwrap (mt_leaves t !! leaf_index);
    Ok (Some (mkMerkleProof leaf leaf_index nodes (mt_root t))).

(** The loop of [verify_proof]: from a node hash to the hash of the root. *)
Fixpoint fold_path (current_hash : BlockHash) (nodes : list ProofNode) : BlockHash :=
  match nodes with
  | [] => current_hash
  | node :: rest =>
      fold_path (if pn_is_left node then hash_pair (pn_hash node) current_hash
                 else hash_pair current_hash (pn_hash node)) rest
  end.

Definition verify_proof (p : MerkleProof) : bool :=
  bool_decide (fold_path (mp_leaf_hash p) (mp_proof p) = mp_root p).

Definition proof_size (p : MerkleProof) : nat := length (mp_proof p).

(** ** What is hashed

    Collision resistance is stated on the inputs that are really hashed:
    [no_collision D D'] says that no input of [D] and different input of [D']
    have the same digest. *)
Definition no_collision (D D' : list (list byte)) : Prop :=
  forall x y, x ∈ D -> y ∈ D' -> blake2b256 x = blake2b256 y -> x = y.

Fixpoint level_inputs (level : list BlockHash) : list (list byte) :=
  match level with
  | a :: b :: rest => (hash_bytes a ++ hash_bytes b) :: level_inputs rest
  | [a] => [hash_bytes a ++ hash_bytes a]
  | [] => []
  end.

Fixpoint loop_inputs (fuel : nat) (level : list BlockHash) : list (list byte) :=
  match fuel with
  | O => []
  | S fuel' =>
      if decide (1 < length level)
      then level_inputs level ++ loop_inputs fuel' (build_next_level level) else []
  end.

(** All inputs hashed by [MerkleTree_new leaves]. *)
Definition tree_inputs (leaves : list BlockHash) : list (list byte) :=
  loop_inputs (length leaves) leaves.

(** All inputs hashed by [verify_proof]. *)
Fixpoint path_inputs (current_hash : BlockHash) (nodes : list ProofNode) : list (list byte) :=
  match nodes with
  | [] => []
  | node :: rest =>
      if pn_is_left node
      then (hash_bytes (pn_hash node) ++ hash_bytes current_hash)
             :: path_inputs (hash_pair (pn_hash node) current_hash) rest
      else (hash_bytes current_hash ++ hash_bytes (pn_hash node))
             :: path_inputs (hash_pair current_hash (pn_hash node)) rest
  end.

(** ** Levels *)

(** Induction that follows [build_next_level]. *)
Lemma pairs_ind (P : list BlockHash -> Prop) :
  P [] -> (forall a, P [a]) -> (forall a b l, P l -> P (a :: b :: l)) -> forall l, P l.
Proof.
  intros H0 H1 H2. fix IH 1. intros [|a [|b l]]; [exact H0|exact (H1 a)|apply H2, IH].
Qed.

Lemma length_build_next_level l : length (build_next_level l) = (length l + 1) `div` 2.
Proof.
  induction l as [|a|a b l IH] using pairs_ind; [done..|].
  cbn [build_next_level length]. rewrite IH.
  replace (S (S (length l)) + 1) with (length l + 1 + 1 * 2) by lia.
  rewrite Nat.div_add by lia. lia.
Qed.

Lemma next_level_shorter l : 1 < length l -> length (build_next_level l) < length l.
Proof. intros. rewrite length_build_next_level. apply Nat.Div0.div_lt_upper_bound. lia. Qed.

Lemma next_level_nonempty l : l <> [] -> build_next_level l <> [].
Proof. by destruct l as [|a [|b l]]. Qed.

(** Fuel beyond the length of a level changes nothing. *)
Lemma build_tree_loop_fuel n m l :
  length l <= n -> length l <= m -> build_tree_loop n l = build_tree_loop m l.
Proof.
  revert m l. induction n as [|n IH]; intros [|m] l Hn Hm; cbn; [done|..];
    destruct (decide _) as [H1|H1]; try lia; try done.
  pose proof (next_level_shorter l H1). f_equal. apply IH; lia.
Qed.

Lemma loop_inputs_fuel n m l :
  length l <= n -> length l <= m -> loop_inputs n l = loop_inputs m l.
Proof.
  revert m l. induction n as [|n IH]; intros [|m] l Hn Hm; cbn; [done|..];
    destruct (decide _) as [H1|H1]; try lia; try done.
  pose proof (next_level_shorter l H1). f_equal. apply IH; lia.
Qed.

(** The equations of the loops without fuel. *)
Lemma build_tree_eq l :
  build_tree l = if decide (1 < length l) then l :: build_tree (build_next_level l) else [l].
Proof.
  unfold build_tree. destruct (length l) as [|n] eqn:Hl; cbn; [done|].
  rewrite Hl. destruct (decide _) as [H1|H1]; [|done].
  pose proof (next_level_shorter l ltac:(lia)).
  by rewrite (build_tree_loop_fuel n (length (build_next_level l))) by lia.
Qed.

Lemma tree_inputs_eq l :
  tree_inputs l =
    if decide (1 < length l) then level_inputs l ++ tree_inputs (build_next_level l) else [].
Proof.
  unfold tree_inputs. destruct (length l) as [|n] eqn:Hl; cbn; [done|].
  rewrite Hl. destruct (decide _) as [H1|H1]; [|done].
  pose proof (next_level_shorter l ltac:(lia)).
  by rewrite (loop_inputs_fuel n (length (build_next_level l))) by lia.
Qed.

(** Induction from the leaves to the root. *)
Lemma levels_ind (P : list BlockHash -> Prop) :
  (forall a, P [a]) ->
  (forall l, 1 < length l -> P (build_next_level l) -> P l) ->
  forall l, l <> [] -> P l.
Proof.
  intros H1 Hstep l. induction l as [l IH] using (induction_ltof1 _ length). intros Hne.
  destruct l as [|a [|b l]]; [done|apply H1|]. apply Hstep; [cbn; lia|].
  apply IH; [apply next_level_shorter; cbn; lia|by apply next_level_nonempty].
Qed.

Lemma build_tree_last l : l <> [] -> exists r, last (build_tree l) = Some [r].
Proof.
  revert l. apply levels_ind.
  - intros a. exists a. done.
  - intros l H1 [r IH]. exists r. rewrite build_tree_eq, decide_True by done.
    destruct (build_tree (build_next_level l)) eqn:E; [done|]. by rewrite last_cons, IH.
Qed.

(** [root_of l r]: the top level built from the leaves [l] is the node [r]. *)
Definition root_of (l : list BlockHash) (r : BlockHash) : Prop :=
  last (build_tree l) = Some [r].

Lemma root_of_single a r : root_of [a] r <-> r = a.
Proof. unfold root_of. cbn. naive_solver. Qed.

Lemma root_of_step l r : 1 < length l -> root_of l r <-> root_of (build_next_level l) r.
Proof.
  intros H1. unfold root_of at 1. rewrite build_tree_eq, decide_True by done.
  rewrite last_cons. unfold root_of.
  destruct (last (build_tree _)) eqn:E; [done|]. by apply last_None in E.
Qed.

Lemma MerkleTree_new_ok l :
  l <> [] -> exists r, root_of l r /\ MerkleTree_new l = Ok (mkMerkleTree r l (build_tree l)).
Proof.
  intros Hl. destruct (build_tree_last l Hl) as [r Hr]. exists r. split; [done|].
  unfold MerkleTree_new. rewrite Hr. by destruct l.
Qed.

Lemma MerkleTree_new_total l : exists t, MerkleTree_new l = Ok t.
Proof.
  destruct (decide (l = [])) as [->|Hl]; [by eexists|].
  destruct (MerkleTree_new_ok l Hl) as (r & _ & ->). by eexists.
Qed.

Lemma sibling_index_SS i : sibling_index (S (S i)) = S (S (sibling_index i)).
Proof.
  unfold sibling_index. replace (S (S i)) with (i + 1 * 2) by lia. rewrite Nat.Div0.mod_add.
  destruct (decide _) as [|Hi]; [lia|]. destruct i; [done|lia].
Qed.

Lemma half_SS i : S (S i) `div` 2 = S (i `div` 2).
Proof. replace (S (S i)) with (i + 1 * 2) by lia. rewrite Nat.div_add by lia. lia. Qed.

Lemma parity_SS i : S (S i) `mod` 2 = i `mod` 2.
Proof. replace (S (S i)) with (i + 1 * 2) by lia. apply Nat.Div0.mod_add. Qed.

(** The parent of node [i] is the hash of the node and its sibling, in order. *)
Lemma next_level_lookup l i x :
  l !! i = Some x ->
  exists s, sibling l i = Some s /\
    build_next_level l !! (i `div` 2) =
      Some (if bool_decide (i `mod` 2 = 1) then hash_pair s x else hash_pair x s).
Proof.
  revert i x. induction l as [|a|a b l IH] using pairs_ind; intros i x Hx; [done|..].
  - apply list_lookup_singleton_Some in Hx as [-> ->]. exists x. done.
  - destruct i as [|[|i]].
    + injection Hx as <-. exists b. done.
    + injection Hx as <-. exists a. done.
    + destruct (IH i x Hx) as (s & Hs & Hp). exists s. split.
      * unfold sibling in *. rewrite sibling_index_SS. cbn [length lookup list_lookup].
        destruct (decide (sibling_index i < length l)).
        -- by rewrite decide_True by lia.
        -- by rewrite decide_False by lia.
      * rewrite half_SS, parity_SS. exact Hp.
Qed.

Local Arguments build_tree : simpl never.

Lemma length_build_tree_pos l : 0 < length (build_tree l).
Proof. unfold build_tree. cbn. lia. Qed.

Lemma proof_path_complete l : l <> [] ->
  forall r, root_of l r ->
  forall i x, l !! i = Some x ->
  exists nodes, proof_path (take (length (build_tree l) - 1) (build_tree l)) i = Ok nodes /\
    length nodes = length (build_tree l) - 1 /\ fold_path x nodes = r.
Proof.
  revert l. refine (levels_ind _ _ _).
  - intros a r Hr i x Hx. rewrite root_of_single in Hr.
    apply list_lookup_singleton_Some in Hx as [-> <-]. subst. by exists [].
  - intros l H1 IH r Hr i x Hx. rewrite root_of_step in Hr by done.
    destruct (next_level_lookup l i x Hx) as (s & Hs & Hp).
    destruct (IH r Hr _ _ Hp) as (nodes & Hn & Hlen & Hf).
    eexists (mkProofNode s (bool_decide (i `mod` 2 = 1)) :: nodes).
    rewrite build_tree_eq, decide_True by done. cbn [length].
    replace (S (length (build_tree (build_next_level l))) - 1)
      with (S (length (build_tree (build_next_level l)) - 1))
      by (pose proof (length_build_tree_pos (build_next_level l)); lia).
    cbn [take proof_path]. rewrite Hs. cbn [unwrap mbind result_bind]. rewrite Hn. cbn [fold_path pn_is_left pn_hash length].
    split; [done|]. split; [by rewrite Hlen|]. by case_bool_decide.
Qed.

(** C5: completeness of Merkle proofs.  The tree of a non-empty list of leaves
    is built without a panic, and for every leaf a proof is generated, without a
    panic, that names the leaf, has one node per level below the root and
    verifies; beyond the leaves there is no proof. *)
Theorem generate_proof_verifies (leaves : list BlockHash) (i : nat) :
  exists t, MerkleTree_new leaves = Ok t /\
    match leaves !! i with
    | Some x => exists p, generate_proof t i = Ok (Some p) /\ verify_proof p = true /\
                  mp_leaf_hash p = x /\ mp_root p = mt_root t /\ proof_size p = depth t - 1
    | None => generate_proof t i = Ok None
    end.
Proof.
  destruct (decide (leaves = [])) as [->|Hne]; [by eexists|].
  destruct (MerkleTree_new_ok leaves Hne) as (r & Hr & ->). eexists. split; [done|].
  destruct (leaves !! i) as [x|] eqn:Hx.
  - destruct (proof_path_complete leaves Hne r Hr i x Hx) as (nodes & Hn & Hlen & Hf).
    exists (mkMerkleProof x i nodes r). unfold generate_proof. cbn [mt_leaves mt_levels mt_root].
    rewrite decide_False by (apply lookup_lt_Some in Hx; lia). rewrite Hn, Hx.
    repeat split; [|done]. unfold verify_proof. by rewrite bool_decide_eq_true_2.
  - unfold generate_proof. cbn. rewrite decide_True; [done|]. by apply lookup_ge_None_1.
Qed.

(** ** Binding *)

Lemma hash_bytes_inj h k : hash_bytes h = hash_bytes k -> h = k.
Proof. destruct h, k. unfold hash_bytes. cbn. intros E%array_list_inj. by subst. Qed.

Lemma length_hash_bytes h : length (hash_bytes h) = 32.
Proof. apply length_array_list. Qed.

Lemma pair_bytes_inj a b c d :
  hash_bytes a ++ hash_bytes b = hash_bytes c ++ hash_bytes d -> a = c /\ b = d.
Proof.
  intros [E1 E2]%app_inj_len; [|by rewrite !length_hash_bytes].
  split; by apply hash_bytes_inj.
Qed.

Lemma hash_pair_eq a b : hash_pair a b = mkBlockHash (blake2b256 (hash_bytes a ++ hash_bytes b)).
Proof. unfold hash_pair, hash_multiple. cbn. by rewrite app_nil_r. Qed.

(** Two pairs of nodes with the same parent are equal, without a collision. *)
Lemma hash_pair_inj D D' a b c d :
  no_collision D D' ->
  hash_bytes a ++ hash_bytes b ∈ D -> hash_bytes c ++ hash_bytes d ∈ D' ->
  hash_pair a b = hash_pair c d -> a = c /\ b = d.
Proof.
  rewrite !hash_pair_eq. intros Hnc H1 H2 [= E]. by apply pair_bytes_inj, Hnc.
Qed.

Lemma no_collision_mono D1 D1' D2 D2' :
  D1 ⊆ D1' -> D2 ⊆ D2' -> no_collision D1' D2' -> no_collision D1 D2.
Proof. unfold no_collision. set_solver. Qed.

Lemma next_level_inj l k :
  no_collision (level_inputs l) (level_inputs k) -> length l = length k ->
  build_next_level l = build_next_level k -> l = k.
Proof.
  revert k. induction l as [|a|a b l IH] using pairs_ind; intros [|c [|d k]] Hnc Hlen;
    cbn [build_next_level level_inputs length] in *; try done; intros [E E']%cons_eq.
  - f_equal. eapply hash_pair_inj in E as [-> _]; [done|exact Hnc|set_solver..].
  - eapply hash_pair_inj in E as [-> ->]; [|exact Hnc|set_solver..].
    do 2 f_equal. apply IH; [|lia|done].
    eapply no_collision_mono; [..|exact Hnc]; set_solver.
Qed.

Lemma root_binding l : l <> [] -> forall k r,
  no_collision (tree_inputs l) (tree_inputs k) -> length l = length k ->
  root_of l r -> root_of k r -> l = k.
Proof.
  revert l. refine (levels_ind _ _ _).
  - intros a [|c []] r _ Hlen Hl Hk; try done.
    rewrite root_of_single in Hl, Hk. by subst.
  - intros l H1 IH k r Hnc Hlen Hl Hk.
    rewrite root_of_step in Hl, Hk by lia.
    rewrite (tree_inputs_eq l), (tree_inputs_eq k), !decide_True in Hnc by lia.
    apply next_level_inj; [eapply no_collision_mono; [..|exact Hnc]; set_solver|done|].
    eapply IH; [|by rewrite !length_build_next_level, Hlen|done..].
    eapply no_collision_mono; [..|exact Hnc]; set_solver.
Qed.

Lemma merkle_new_binding l k t u :
  MerkleTree_new l = Ok t -> MerkleTree_new k = Ok u ->
  length l = length k -> mt_root t = mt_root u ->
  no_collision (tree_inputs l) (tree_inputs k) -> l = k.
Proof.
  intros Ht Hu Hlen Hroot Hnc.
  destruct (decide (l = [])) as [->|Hl]; [destruct k; [done|discriminate]|].
  destruct (decide (k = [])) as [->|Hk]; [destruct l; [done|discriminate]|].
  destruct (MerkleTree_new_ok l Hl) as (r & Hr & El).
  destruct (MerkleTree_new_ok k Hk) as (r' & Hr' & Ek).
  rewrite El in Ht. rewrite Ek in Hu. injection Ht as <-. injection Hu as <-.
  cbn in Hroot. subst r'. by apply (root_binding l Hl k r).
Qed.

(** The root commits to the leaves.  Two lists of leaves of the same length
    with the same root are equal, unless two different inputs among those hashed
    for the two trees have the same Blake2b digest. *)
Theorem merkle_root_binding (l k : list BlockHash) (t u : MerkleTree) :
  MerkleTree_new l = Ok t -> MerkleTree_new k = Ok u ->
  length l = length k -> mt_root t = mt_root u ->
  no_collision (tree_inputs l) (tree_inputs k) -> l = k.
Proof. apply merkle_new_binding. Qed.

Lemma next_level_parent l y :
  y ∈ build_next_level l ->
  exists a b, a ∈ l /\ b ∈ l /\ y = hash_pair a b /\ hash_bytes a ++ hash_bytes b ∈ level_inputs l.
Proof.
  induction l as [|a|a b l IH] using pairs_ind; cbn [build_next_level level_inputs].
  - by intros Hy%elem_of_nil.
  - intros ->%list_elem_of_singleton. exists a, a. split_and!; set_solver.
  - intros [->|Hy]%elem_of_cons; [exists a, b; split_and!; set_solver|].
    destruct (IH Hy) as (c & d & Hc & Hd & -> & Hin). exists c, d. split_and!; set_solver.
Qed.

Lemma path_member l : l <> [] -> forall r x nodes,
  root_of l r -> length nodes = length (build_tree l) - 1 -> fold_path x nodes = r ->
  no_collision (tree_inputs l) (path_inputs x nodes) -> x ∈ l.
Proof.
  revert l. refine (levels_ind _ _ _).
  - intros a r x [|] Hr Hlen Hf _; [|done]. rewrite root_of_single in Hr.
    cbn in Hf. subst. set_solver.
  - intros l H1 IH r x nodes Hr Hlen Hf Hnc. rewrite root_of_step in Hr by done.
    rewrite build_tree_eq, decide_True in Hlen by done. cbn [length] in Hlen.
    rewrite tree_inputs_eq, decide_True in Hnc by done.
    pose proof (length_build_tree_pos (build_next_level l)).
    destruct nodes as [|node nodes]; cbn [length] in Hlen; [lia|].
    cbn [fold_path path_inputs] in *.
    destruct (pn_is_left node);
      (pose proof Hf as Hy; eapply IH in Hy; [|exact Hr|lia|
         eapply no_collision_mono; [..|exact Hnc]; set_solver]);
      destruct (next_level_parent _ _ Hy) as (a & b & Ha & Hb & E & Hin);
      symmetry in E; eapply hash_pair_inj in E as [-> ->]; [done|exact Hnc|set_solver..].
Qed.

(** C4: soundness of Merkle proofs.  A proof that verifies against the root of a
    tree, and has one node per level below the root, proves a leaf of that tree,
    unless two different inputs among those hashed for the tree and by the
    verifier have the same digest. *)
Theorem verify_proof_sound (leaves : list BlockHash) (t : MerkleTree) (p : MerkleProof) :
  leaves <> [] -> MerkleTree_new leaves = Ok t ->
  verify_proof p = true -> mp_root p = mt_root t -> proof_size p = depth t - 1 ->
  no_collision (tree_inputs leaves) (path_inputs (mp_leaf_hash p) (mp_proof p)) ->
  mp_leaf_hash p ∈ leaves.
Proof.
  intros Hne Ht Hv Hroot Hsize Hnc.
  destruct (MerkleTree_new_ok leaves Hne) as (r & Hr & El).
  rewrite El in Ht. injection Ht as <-. cbn in Hroot, Hsize. unfold proof_size in Hsize.
  apply bool_decide_eq_true in Hv. rewrite Hroot in Hv.
  by apply (path_member leaves Hne r (mp_leaf_hash p) (mp_proof p)).
Qed.

(** Pairing an odd node with itself makes the root ambiguous: repeating the
    last of three leaves gives a different list of leaves with the same root.  In
    a block the header's transaction count tells the two lists apart. *)
Theorem merkle_root_duplicate_leaf (a b c : BlockHash) (t u : MerkleTree) :
  MerkleTree_new [a; b; c] = Ok t -> MerkleTree_new [a; b; c; c] = Ok u ->
  mt_root t = mt_root u /\ mt_leaves t <> mt_leaves u.
Proof. cbn. intros [= <-] [= <-]. done. Qed.
End merkle.
