(* ===== verification/Transaction.v ===== *)
(** * Transactions: crates/blockchain-core/src/transaction.rs

    The five transaction types with their payloads, the transaction identifier
    (a hash of timestamp, nonce and serialized payload) and the structural
    validation.  The serializer is the external crate [bincode]; the clock and
    the random nonce of [Transaction::new] are arguments. *)
From stdpp Require Import prelude gmap strings list.
From Stdlib Require Import Strings.Byte.
From S2P Require Import Prelude Types.

Local Open Scope Z_scope.

Record VoteTransaction := mkVoteTransaction {
  vt_election_id : ElectionId;
  vt_encrypted_vote : list byte;
  vt_validity_proof : option (list byte);
  vt_voter_signature : Signature
}.

Record ValidatorMetadata := mkValidatorMetadata {
  vm_name : string;
  vm_organization : option string;
  vm_contact : option string
}.

Record ValidatorRegistration := mkValidatorRegistration {
  vr_validator_key : PublicKey;
  vr_metadata : ValidatorMetadata;
  vr_authorizing_signature : Signature
}.

Record ValidatorRemoval := mkValidatorRemoval {
  vrm_validator_key : PublicKey;
  vrm_reason : string;
  vrm_authorizing_signature : Signature
}.

Record Candidate := mkCandidate {
  cand_id : string;
  cand_name : string;
  cand_party : option string;
  cand_metadata : option string
}.

Record ElectionCreation := mkElectionCreation {
  ec_election_id : ElectionId;
  ec_name : string;
  ec_description : string;
  ec_candidates : list Candidate;
  ec_start_time : Z;
  ec_end_time : Z;
  ec_authority_signature : Signature
}.

Record ElectionClosure := mkElectionClosure {
  ecl_election_id : ElectionId;
  ecl_results : list byte;
  ecl_authority_signature : Signature
}.

Inductive TransactionType :=
| Vote (v : VoteTransaction)
| TxValidatorRegistration (r : ValidatorRegistration)
| TxValidatorRemoval (r : ValidatorRemoval)
| TxElectionCreation (c : ElectionCreation)
| TxElectionClosure (c : ElectionClosure).

Record Transaction := mkTransaction {
  tx_id : TxId;
  tx_type : TransactionType;
  tx_timestamp : Z;
  tx_nonce : Z
}.

(** [bincode::serialize] on the two types the code serializes; [None] is an
    error of the serializer. *)
Class BincodeTx := {
  bincode_tx_type : TransactionType -> option (list byte);
  bincode_tx : Transaction -> option (list byte)
}.

(** Documented: what was serialized can be read back, so that two values with
    the same bytes are equal; values of these types always serialize. *)
Class BincodeTxSpec `{BincodeTx} := {
  bincode_tx_type_total : forall t, is_Some (bincode_tx_type t);
  bincode_tx_type_inj : forall t u bs,
    bincode_tx_type t = Some bs -> bincode_tx_type u = Some bs -> t = u
}.

Section transactions.
Context `{HashCrate, BincodeTx}.

(** [serialize_for_hashing]; the [expect] on the serializer can panic. *)
Definition serialize_for_hashing (tx : Transaction) : VResult (list byte) :=
  type_data ← unwrap (bincode_tx_type (tx_type tx));
  Ok (u64_le (tx_timestamp tx) ++ u64_le (tx_nonce tx) ++ type_data).

Definition calculate_id (tx : Transaction) : VResult TxId :=
  data ← serialize_for_hashing tx;
  Ok (mkTxId (hash_data data)).

Definition Transaction_new_with_params (ty : TransactionType) (timestamp nonce : Z) : VResult Transaction :=
  let tx := mkTransaction (mkTxId (array_fill 32 x00)) ty timestamp nonce in
  id ← calculate_id tx;
  Ok (mkTransaction id ty timestamp nonce).

(** [Transaction::new]: [now] is the clock, [rand] the generated nonce. *)
Definition Transaction_new (now rand : Z) (ty : TransactionType) : VResult Transaction :=
  Transaction_new_with_params ty now rand.

Definition validate_vote (vote : VoteTransaction) : VResult unit :=
  _ ← ensure (negb (len (vt_encrypted_vote vote) =? 0)) (InvalidVote "Vote data is empty");
  ensure (negb (1024 * 1024 <? len (vt_encrypted_vote vote))) (InvalidVote "Vote data too large").

Definition validate_validator_registration (reg : ValidatorRegistration) : VResult unit :=
  ensure (negb (bool_decide (vm_name (vr_metadata reg) = "")))
    (InvalidTransaction "Validator name cannot be empty").

Definition validate_validator_removal (removal : ValidatorRemoval) : VResult unit :=
  ensure (negb (bool_decide (vrm_reason removal = "")))
    (InvalidTransaction "Removal reason cannot be empty").

Definition validate_election_creation (creation : ElectionCreation) : VResult unit :=
  _ ← ensure (negb (bool_decide (ec_name creation = "")))
        (InvalidTransaction "Election name cannot be empty");
  _ ← ensure (negb (len (ec_candidates creation) =? 0))
        (InvalidTransaction "Election must have at least one candidate");
  ensure (negb (ec_end_time creation <=? ec_start_time creation))
    (InvalidTransaction "Election end time must be after start time").

Definition validate_election_closure (closure : ElectionClosure) : VResult unit :=
  ensure (negb (len (ecl_results closure) =? 0))
    (InvalidTransaction "Election results cannot be empty").

(** [Transaction::validate]. *)
Definition Transaction_validate (tx : Transaction) : VResult unit :=
  calculated_id ← calculate_id tx;
  _ ← ensure (bool_decide (tx_id tx = calculated_id)) (InvalidTransaction "Transaction ID mismatch");
  match tx_type tx with
  | Vote vote => validate_vote vote
  | TxValidatorRegistration reg => validate_validator_registration reg
  | TxValidatorRemoval removal => validate_validator_removal removal
  | TxElectionCreation creation => validate_election_creation creation
  | TxElectionClosure closure => validate_election_closure closure
  end.

(** [Transaction::size]: 0 when the serializer fails. *)
Definition Transaction_size (tx : Transaction) : Z :=
  match bincode_tx tx with Some data => len data | None => 0 end.
End transactions.

Definition is_vote (tx : Transaction) : bool :=
  match tx_type tx with Vote _ => true | _ => false end.

Definition get_election_id (tx : Transaction) : option ElectionId :=
  match tx_type tx with
  | Vote vote => Some (vt_election_id vote)
  | TxElectionCreation creation => Some (ec_election_id creation)
  | TxElectionClosure closure => Some (ecl_election_id closure)
  | _ => None
  end.

Definition transaction_type_name (tx : Transaction) : string :=
  match tx_type tx with
  | Vote _ => "Vote"
  | TxValidatorRegistration _ => "ValidatorRegistration"
  | TxValidatorRemoval _ => "ValidatorRemoval"
  | TxElectionCreation _ => "ElectionCreation"
  | TxElectionClosure _ => "ElectionClosure"
  end.

(** ** Well-formed values: the machine ranges of the fields *)
Definition tx_in_range (tx : Transaction) : Prop :=
  is_u64 (tx_timestamp tx) /\ is_u64 (tx_nonce tx).

(** What a payload must satisfy, as one predicate. *)
Definition payload_ok (ty : TransactionType) : Prop :=
  match ty with
  | Vote vote => 0 < len (vt_encrypted_vote vote) <= 1024 * 1024
  | TxValidatorRegistration reg => vm_name (vr_metadata reg) <> ""
  | TxValidatorRemoval removal => vrm_reason removal <> ""
  | TxElectionCreation c =>
      ec_name c <> "" /\ ec_candidates c <> [] /\ ec_start_time c < ec_end_time c
  | TxElectionClosure c => ecl_results c <> []
  end.

(** The bytes hashed into the identifier of a transaction. *)
Definition tx_input `{BincodeTx} (tx : Transaction) : list byte :=
  match bincode_tx_type (tx_type tx) with
  | Some data => u64_le (tx_timestamp tx) ++ u64_le (tx_nonce tx) ++ data
  | None => []
  end.

Section properties.
Context `{HashCrate, BincodeTx}.

Lemma calculate_id_Ok tx id :
  calculate_id tx = Ok id ->
  is_Some (bincode_tx_type (tx_type tx)) /\ id = mkTxId (blake2b256 (tx_input tx)).
Proof.
  unfold calculate_id, serialize_for_hashing, tx_input, hash_data.
  destruct (bincode_tx_type _); cbn; [intros [= <-]; eauto|done].
Qed.

Lemma calculate_id_ignores_id tx id :
  calculate_id (mkTransaction id (tx_type tx) (tx_timestamp tx) (tx_nonce tx)) = calculate_id tx.
Proof. done. Qed.

Lemma payload_ok_spec tx :
  calculate_id tx = Ok (tx_id tx) -> Transaction_validate tx = Ok tt <-> payload_ok (tx_type tx).
Proof.
  intros Hid. unfold Transaction_validate. rewrite Hid. cbn. rewrite bool_decide_eq_true_2 by done.
  cbn. destruct (tx_type tx); unfold validate_vote, validate_validator_registration,
    validate_validator_removal, validate_election_creation, validate_election_closure, payload_ok;
    rewrite ?ensure_bind, ?ensure_Ok, ?negb_bool_decide_true, ?len_nonzero_iff,
      ?negb_true_iff, ?Z.ltb_ge, ?Z.leb_gt; [|done..].
  rewrite <- (len_zero_iff (vt_encrypted_vote v)), Z.eqb_eq.
  pose proof (len_nonneg (vt_encrypted_vote v)). lia.
Qed.

Lemma Transaction_validate_Ok tx :
  Transaction_validate tx = Ok tt <->
    calculate_id tx = Ok (tx_id tx) /\ payload_ok (tx_type tx).
Proof.
  split.
  - intros Hv. assert (calculate_id tx = Ok (tx_id tx)) as Hid.
    { unfold Transaction_validate in Hv. apply bind_Ok in Hv as (id & Hid & Hv).
      apply ensure_bind in Hv as [Hu%bool_decide_eq_true _]. by rewrite Hu. }
    split; [done|]. by apply payload_ok_spec.
  - intros [Hid Hp]. by apply payload_ok_spec.
Qed.

Lemma Transaction_validate_Panic tx :
  Transaction_validate tx = Panic <-> bincode_tx_type (tx_type tx) = None.
Proof.
  unfold Transaction_validate, calculate_id, serialize_for_hashing.
  destruct (bincode_tx_type (tx_type tx)); cbn; [|done].
  split; [|done]. unfold validate_vote, validate_validator_registration,
    validate_validator_removal, validate_election_creation, validate_election_closure, ensure.
  destruct (bool_decide _), (tx_type tx); cbn; repeat (case_match; cbn); done.
Qed.

(** [Transaction::validate] accepts exactly the transactions whose
    identifier is the hash of their contents and whose payload meets the rules of
    its type: a vote of 1 byte to 1 MiB, a named validator, a removal with a
    reason, a named election with candidates that ends after it starts, a closure
    with results.  It panics only if the serializer fails. *)
Theorem transaction_validate_spec (tx : Transaction) :
  (Transaction_validate tx = Ok tt <->
     calculate_id tx = Ok (tx_id tx) /\ payload_ok (tx_type tx)) /\
  (Transaction_validate tx = Panic <-> bincode_tx_type (tx_type tx) = None).
Proof. split; [apply Transaction_validate_Ok|apply Transaction_validate_Panic]. Qed.

(** Transactions made by the constructor are valid exactly when their
    payload is, whatever the clock and the nonce. *)
Theorem transaction_new_valid `{!BincodeTxSpec} (ty : TransactionType) (timestamp nonce : Z) :
  exists tx, Transaction_new_with_params ty timestamp nonce = Ok tx /\
    tx_type tx = ty /\ tx_timestamp tx = timestamp /\ tx_nonce tx = nonce /\
    (Transaction_validate tx = Ok tt <-> payload_ok ty).
Proof.
  destruct (bincode_tx_type_total ty) as [data Hd].
  unfold Transaction_new_with_params, calculate_id, serialize_for_hashing. cbn. rewrite Hd. cbn.
  eexists. split; [done|]. cbn. repeat (split; [done|]).
  rewrite payload_ok_spec; [done|].
  unfold calculate_id, serialize_for_hashing. cbn. by rewrite Hd.
Qed.

(** Transactions with the same identifier are equal, without a collision. *)
Lemma tx_binding `{!BincodeTxSpec} (tx ux : Transaction) :
  Transaction_validate tx = Ok tt -> Transaction_validate ux = Ok tt ->
  tx_in_range tx -> tx_in_range ux ->
  (blake2b256 (tx_input tx) = blake2b256 (tx_input ux) -> tx_input tx = tx_input ux) ->
  tx_id tx = tx_id ux -> tx = ux.
Proof.
  intros Ht Hu [Htt Htn] [Hut Hun] Hnc Hid.
  apply Transaction_validate_Ok in Ht as [Ht _], Hu as [Hu _].
  apply calculate_id_Ok in Ht as [[dt Hdt] Et]. apply calculate_id_Ok in Hu as [[du Hdu] Eu].
  rewrite Et, Eu in Hid. injection Hid as Hid. specialize (Hnc Hid).
  unfold tx_input in Hnc. rewrite Hdt, Hdu in Hnc.
  apply app_inj_len in Hnc as [E1 Hnc]; [|by rewrite !length_u64_le].
  apply app_inj_len in Hnc as [E2 E3]; [|by rewrite !length_u64_le].
  apply u64_le_inj in E1; [|done..]. apply u64_le_inj in E2; [|done..]. subst.
  assert (tx_type tx = tx_type ux) as E4 by by eapply bincode_tx_type_inj.
  destruct tx, ux; cbn in *. rewrite Et, Eu, Hid. by subst.
Qed.
End properties.
