(* ===== verification/Block.v ===== *)
(** * Blocks: crates/blockchain-core/src/block.rs

    Header hashing, the Merkle root of the transactions, structural validation
    and the link to the previous block.  The clock read by [Block::new] is an
    argument. *)
From stdpp Require Import prelude gmap strings list pretty.
From Stdlib Require Import Strings.Byte.
From S2P Require Import Prelude Types Merkle Transaction.

Local Open Scope Z_scope.

Record BlockHeader := mkBlockHeader {
  bh_height : Z;
  bh_timestamp : Z;
  bh_previous_hash : BlockHash;
  bh_transactions_root : BlockHash;
  bh_hash : BlockHash;
  bh_validator : PublicKey;
  bh_transaction_count : Z
}.

Record ValidatorSignature := mkValidatorSignature {
  vs_validator : PublicKey;
  vs_signature : Signature
}.

Record Block := mkBlock {
  block_header : BlockHeader;
  block_transactions : list Transaction;
  block_signatures : list ValidatorSignature
}.

Definition block_hash (b : Block) : BlockHash := bh_hash (block_header b).
Definition block_height (b : Block) : Z := bh_height (block_header b).
Definition block_previous_hash (b : Block) : BlockHash := bh_previous_hash (block_header b).
Definition block_timestamp (b : Block) : Z := bh_timestamp (block_header b).

(** The bytes hashed by [BlockHeader::calculate_hash] (all fields but [hash]). *)
Definition header_input (h : BlockHeader) : list byte :=
  u64_le (bh_height h) ++ u64_le (bh_timestamp h) ++
  array_list (block_hash_bytes (bh_previous_hash h)) ++
  array_list (block_hash_bytes (bh_transactions_root h)) ++
  array_list (public_key_bytes (bh_validator h)) ++
  u32_le (bh_transaction_count h).

Definition header_with_hash (h : BlockHeader) (hash : BlockHash) : BlockHeader :=
  mkBlockHeader (bh_height h) (bh_timestamp h) (bh_previous_hash h) (bh_transactions_root h)
    hash (bh_validator h) (bh_transaction_count h).

Definition header_with_timestamp (h : BlockHeader) (t : Z) : BlockHeader :=
  mkBlockHeader (bh_height h) t (bh_previous_hash h) (bh_transactions_root h)
    (bh_hash h) (bh_validator h) (bh_transaction_count h).

Definition add_signature (b : Block) (validator : PublicKey) (signature : Signature) : Block :=
  mkBlock (block_header b) (block_transactions b)
    (block_signatures b ++ [mkValidatorSignature validator signature]).

Definition has_signature_from (b : Block) (validator : PublicKey) : bool :=
  existsb (fun sig => bool_decide (vs_validator sig = validator)) (block_signatures b).

Definition signature_count (b : Block) : Z := len (block_signatures b).

Definition block_get_transaction (b : Block) (id : TxId) : option Transaction :=
  find_by (fun tx => bool_decide (tx_id tx = id)) (block_transactions b).

Definition block_contains_transaction (b : Block) (id : TxId) : bool :=
  bool_decide (is_Some (block_get_transaction b id)).

(** [tx_hashes]: the leaves of a block's Merkle tree. *)
Definition tx_leaves (txs : list Transaction) : list BlockHash :=
  (fun tx => mkBlockHash (tx_id_bytes (tx_id tx))) <$> txs.

Section blocks.
Context `{HashCrate, HexCrate, BincodeTx}.

Definition calculate_hash (h : BlockHeader) : BlockHash :=
  mkBlockHash (hash_data (header_input h)).

Definition calculate_transactions_root (txs : list Transaction) : VResult BlockHash :=
  match txs with
  | [] => Ok BlockHash_zero
  | _ => t ← MerkleTree_new (tx_leaves txs); Ok (mt_root t)
  end.

(** [Block::new]; [now] is the clock. *)
Definition Block_new (now height : Z) (previous_hash : BlockHash)
    (transactions : list Transaction) (validator : PublicKey) : VResult Block :=
  let transaction_count := wrap 32 (len transactions) in
  transactions_root ← calculate_transactions_root transactions;
  let header := mkBlockHeader height now previous_hash transactions_root BlockHash_zero
                  validator transaction_count in
  Ok (mkBlock (header_with_hash header (calculate_hash header)) transactions []).

(** [Block::validate]. *)
Definition Block_validate (b : Block) : VResult unit :=
  let calculated_hash := calculate_hash (block_header b) in
  _ ← ensure (bool_decide (block_hash b = calculated_hash))
        (InvalidBlockHash (BlockHash_to_hex calculated_hash) (BlockHash_to_hex (block_hash b)));
  _ ← ensure (bh_transaction_count (block_header b) =? wrap 32 (len (block_transactions b)))
        (InvalidBlock ("Transaction count mismatch: header says " ++
           pretty (bh_transaction_count (block_header b)) ++ ", actual is " ++
           pretty (len (block_transactions b))));
  calculated_root ← calculate_transactions_root (block_transactions b);
  _ ← ensure (bool_decide (bh_transactions_root (block_header b) = calculated_root))
        (InvalidBlock "Transactions merkle root mismatch");
  for_each Transaction_validate (block_transactions b).

(** [Block::validate_chain_link]. *)
Definition validate_chain_link (b previous : Block) : VResult unit :=
  let expected := u64_add (block_height previous) 1 in
  _ ← ensure (block_height b =? expected) (BlockHeightMismatch expected (block_height b));
  _ ← ensure (bool_decide (block_previous_hash b = block_hash previous))
        (InvalidPreviousHash ("Expected " ++ BlockHash_to_hex (block_hash previous) ++
           ", got " ++ BlockHash_to_hex (block_previous_hash b)));
  ensure (negb (block_timestamp b <? block_timestamp previous))
    (InvalidBlock "Block timestamp is before previous block").

(** ** Machine ranges and hashed inputs *)

Definition header_in_range (h : BlockHeader) : Prop :=
  is_u64 (bh_height h) /\ is_u64 (bh_timestamp h) /\ is_u32 (bh_transaction_count h).

(** A block whose fields are in range and whose list of transactions has a
    length that fits the header's counter. *)
Definition block_in_range (b : Block) : Prop :=
  header_in_range (block_header b) /\ Forall tx_in_range (block_transactions b) /\
  len (block_transactions b) < 2 ^ 32.

Definition block_inputs (b : Block) : list (list byte) :=
  [header_input (block_header b)] ++ tree_inputs (tx_leaves (block_transactions b)) ++
  (tx_input <$> block_transactions b).

(** ** Properties *)

Lemma transactions_root_total txs : exists r, calculate_transactions_root txs = Ok r.
Proof.
  unfold calculate_transactions_root. destruct txs; [by eexists|].
  destruct (MerkleTree_new_total (tx_leaves (t :: txs))) as [u ->]. by eexists.
Qed.

Lemma Block_validate_Ok b :
  Block_validate b = Ok tt <->
    block_hash b = calculate_hash (block_header b) /\
    bh_transaction_count (block_header b) = wrap 32 (len (block_transactions b)) /\
    calculate_transactions_root (block_transactions b) = Ok (bh_transactions_root (block_header b)) /\
    Forall (fun tx => Transaction_validate tx = Ok tt) (block_transactions b).
Proof.
  unfold Block_validate. destruct (transactions_root_total (block_transactions b)) as [r Hr].
  rewrite Hr, !ensure_bind. cbn [mbind result_bind].
  rewrite ensure_bind, for_each_Ok, !bool_decide_eq_true, Z.eqb_eq. naive_solver.
Qed.

Lemma validate_chain_link_Ok b p :
  validate_chain_link b p = Ok tt <->
    block_height b = u64_add (block_height p) 1 /\
    block_previous_hash b = block_hash p /\ block_timestamp p <= block_timestamp b.
Proof.
  unfold validate_chain_link.
  rewrite !ensure_bind, ensure_Ok, bool_decide_eq_true, Z.eqb_eq, negb_true_iff, Z.ltb_ge. done.
Qed.

Lemma validate_chain_link_no_panic b p : validate_chain_link b p <> Panic.
Proof. unfold validate_chain_link, ensure. repeat case_match; done. Qed.

Lemma Block_validate_no_panic `{!BincodeTxSpec} b : Block_validate b <> Panic.
Proof.
  unfold Block_validate. destruct (transactions_root_total (block_transactions b)) as [r ->].
  unfold ensure. repeat (case_match; cbn; try done).
  apply for_each_no_panic. intros tx Hp. apply Transaction_validate_Panic in Hp.
  destruct (bincode_tx_type_total (tx_type tx)). congruence.
Qed.

(** A block made by [Block::new] passes [Block::validate] exactly when its
    transactions do; making it never fails. *)
Theorem block_new_valid (now height : Z) (prev : BlockHash) (txs : list Transaction)
    (v : PublicKey) :
  exists b, Block_new now height prev txs v = Ok b /\
    block_height b = height /\ block_previous_hash b = prev /\ block_timestamp b = now /\
    block_transactions b = txs /\
    (Block_validate b = Ok tt <-> Forall (fun tx => Transaction_validate tx = Ok tt) txs).
Proof.
  unfold Block_new. destruct (transactions_root_total txs) as [r Hr]. rewrite Hr. cbn.
  eexists. split; [done|]. repeat (split; [done|]).
  rewrite Block_validate_Ok. cbn. rewrite Hr. naive_solver.
Qed.

(** Headers with the same hash are equal, without a collision. *)
Lemma header_input_inj h k :
  header_in_range h -> header_in_range k -> header_input h = header_input k ->
  header_with_hash h BlockHash_zero = header_with_hash k BlockHash_zero.
Proof.
  intros (Hh1 & Hh2 & Hh3) (Hk1 & Hk2 & Hk3). unfold header_input. intros E.
  apply app_inj_len in E as [E1 E]; [|by rewrite !length_u64_le].
  apply app_inj_len in E as [E2 E]; [|by rewrite !length_u64_le].
  apply app_inj_len in E as [E3 E]; [|by rewrite !length_array_list].
  apply app_inj_len in E as [E4 E]; [|by rewrite !length_array_list].
  apply app_inj_len in E as [E5 E6]; [|by rewrite !length_array_list].
  apply u64_le_inj in E1, E2; [|done..]. apply u32_le_inj in E6; [|done..].
  apply array_list_inj in E3, E4, E5.
  destruct h as [? ? [] [] ? [] ?], k as [? ? [] [] ? [] ?]. unfold header_with_hash. cbn in *.
  by subst.
Qed.

Lemma length_tx_leaves txs : length (tx_leaves txs) = length txs.
Proof. apply length_fmap. Qed.

Lemma tx_leaves_ids txs uxs :
  tx_leaves txs = tx_leaves uxs -> tx_id <$> txs = tx_id <$> uxs.
Proof.
  revert uxs. induction txs as [|tx txs IH]; intros [|ux uxs]; cbn; try done.
  intros [E E']%cons_eq. apply IH in E'. injection E as E. f_equal; [|done].
  destruct (tx_id tx), (tx_id ux). cbn in *. by subst.
Qed.

Lemma transactions_binding `{!BincodeTxSpec} txs uxs :
  Forall (fun tx => Transaction_validate tx = Ok tt) txs ->
  Forall (fun tx => Transaction_validate tx = Ok tt) uxs ->
  Forall tx_in_range txs -> Forall tx_in_range uxs ->
  no_collision (tx_input <$> txs) (tx_input <$> uxs) ->
  tx_id <$> txs = tx_id <$> uxs -> txs = uxs.
Proof.
  revert uxs. induction txs as [|tx txs IH]; intros [|ux uxs] Ht Hu Hrt Hru Hnc; cbn; try done.
  intros [E E']%cons_eq. rewrite Forall_cons in *.
  destruct Ht as [Ht1 Ht2], Hu as [Hu1 Hu2], Hrt as [Hrt1 Hrt2], Hru as [Hru1 Hru2]. f_equal.
  - apply tx_binding; try done. intros Ed. apply Hnc; [set_solver..|done].
  - apply IH; try done. eapply no_collision_mono; [..|exact Hnc]; set_solver.
Qed.

(** The header hash commits to the header and to all transactions. *)
Lemma block_binding `{!BincodeTxSpec} b c :
  Block_validate b = Ok tt -> Block_validate c = Ok tt ->
  block_in_range b -> block_in_range c ->
  no_collision (block_inputs b) (block_inputs c) -> block_hash b = block_hash c ->
  block_header b = block_header c /\ block_transactions b = block_transactions c.
Proof.
  rewrite !Block_validate_Ok.
  intros (Hbh & Hbn & Hbr & Hbt) (Hch & Hcn & Hcr & Hct) (Rb & Rbt & Lb) (Rc & Rct & Lc) Hnc E.
  assert (header_with_hash (block_header b) BlockHash_zero
          = header_with_hash (block_header c) BlockHash_zero) as Eh.
  { apply header_input_inj; [done..|]. apply Hnc; [set_solver..|].
    rewrite Hbh, Hch in E. by injection E. }
  assert (block_header b = block_header c) as Eheader.
  { unfold block_hash in E. destruct (block_header b), (block_header c).
    unfold header_with_hash in Eh. cbn in *. congruence. }
  split; [done|].
  assert (length (block_transactions b) = length (block_transactions c)) as Elen.
  { rewrite Eheader, Hcn in Hbn. rewrite !wrap_small in Hbn by (split; [apply len_nonneg|lia]).
    unfold len in Hbn. lia. }
  apply transactions_binding; try done.
  { eapply no_collision_mono; [..|exact Hnc]; unfold block_inputs; set_solver. }
  apply tx_leaves_ids. rewrite Eheader in Hbr. unfold calculate_transactions_root in Hbr, Hcr.
  destruct (block_transactions b) as [|tx txs] eqn:Eb, (block_transactions c) as [|ux uxs] eqn:Ec;
    try done.
  apply bind_Ok in Hbr as (t & Ht & [= Et]), Hcr as (u & Hu & [= Eu]).
  eapply merkle_new_binding; [exact Ht|exact Hu|by rewrite !length_tx_leaves|congruence|].
  eapply no_collision_mono; [..|exact Hnc]; unfold block_inputs; rewrite Eb || rewrite Ec; set_solver.
Qed.

Lemma block_get_transaction_Some b id tx :
  block_get_transaction b id = Some tx -> tx ∈ block_transactions b /\ tx_id tx = id.
Proof. intros [Hin Hid]%find_by_Some. by apply bool_decide_eq_true in Hid. Qed.

Lemma block_get_transaction_is_Some b tx :
  tx ∈ block_transactions b -> exists ux, block_get_transaction b (tx_id tx) = Some ux.
Proof. intros Hin. eapply find_by_is_Some; [done|]. by apply bool_decide_eq_true. Qed.
End blocks.
