(* ===== verification/Genesis.v ===== *)
(** * Genesis: crates/blockchain-core/src/genesis.rs

    The genesis configuration, its validation, the genesis block (one validator
    registration per initial validator) and the builder.  The clock, the file
    system and the JSON codec are arguments. *)
From stdpp Require Import prelude gmap strings list pretty.
From Stdlib Require Import Strings.Byte.
From S2P Require Import Prelude Floats64 Types Merkle Transaction Block.

Local Open Scope Z_scope.

Record GenesisConfig := mkGenesisConfig {
  gc_block_time : Z;
  gc_consensus_threshold : f64;
  gc_max_block_size : Z;
  gc_max_transactions_per_block : Z
}.

Definition GenesisConfig_default : GenesisConfig :=
  mkGenesisConfig 5 f64_0_67 (1024 * 1024) 1000.

Record GenesisBlock := mkGenesisBlock {
  gb_validators : list PublicKey;
  gb_timestamp : Z;
  gb_chain_id : string;
  gb_network_name : string;
  gb_config : GenesisConfig
}.

Definition GenesisBlock_new (validators : list PublicKey) (timestamp : Z) : GenesisBlock :=
  mkGenesisBlock validators timestamp "voting-chain-1" "Voting Network Mainnet" GenesisConfig_default.

Definition GenesisBlock_with_config (validators : list PublicKey) (timestamp : Z)
    (chain_id network_name : string) (config : GenesisConfig) : GenesisBlock :=
  mkGenesisBlock validators timestamp chain_id network_name config.

(** [GenesisBlock::validate]. *)
Definition GenesisBlock_validate (g : GenesisBlock) : VResult unit :=
  _ ← ensure (negb (bool_decide (gb_validators g = [])))
        (GenesisError "Must have at least one validator");
  _ ← ensure (negb (bool_decide (gb_chain_id g = ""))) (GenesisError "Chain ID cannot be empty");
  _ ← ensure (negb (bool_decide (gb_network_name g = "")))
        (GenesisError "Network name cannot be empty");
  _ ← ensure (negb (gc_block_time (gb_config g) =? 0))
        (GenesisError "Block time must be greater than 0");
  _ ← ensure (negb (f64_le (gc_consensus_threshold (gb_config g)) f64_zero ||
                    f64_gt (gc_consensus_threshold (gb_config g)) f64_one))
        (GenesisError "Consensus threshold must be between 0 and 1");
  _ ← ensure (negb (gc_max_block_size (gb_config g) =? 0))
        (GenesisError "Max block size must be greater than 0");
  ensure (negb (gc_max_transactions_per_block (gb_config g) =? 0))
    (GenesisError "Max transactions per block must be greater than 0").

Section genesis.
Context `{HashCrate, HexCrate, BincodeTx}.

(** The registration of the [i]-th validator (from 0). *)
Definition genesis_registration (i : Z) (validator_key : PublicKey) : TransactionType :=
  TxValidatorRegistration
    (mkValidatorRegistration validator_key
       (mkValidatorMetadata ("Genesis Validator " ++ pretty (i + 1)) (Some "Genesis") None)
       (mkSignature (array_fill 64 x00))).

(** The loop over [validators.iter().enumerate()], from index [i]. *)
Fixpoint genesis_transactions (timestamp i : Z) (validators : list PublicKey) : VResult (list Transaction) :=
  match validators with
  | [] => Ok []
  | validator_key :: rest =>
      tx ← Transaction_new_with_params (genesis_registration i validator_key) timestamp i;
      txs ← genesis_transactions timestamp (i + 1) rest;
      Ok (tx :: txs)
  end.

(** [GenesisBlock::create_block]; [now] is the clock read by [Block::new]. *)
Definition create_block (now : Z) (g : GenesisBlock) : VResult Block :=
  match gb_validators g with
  | [] => Err (GenesisError "Genesis must have at least one validator")
  | genesis_validator :: _ =>
      transactions ← genesis_transactions (gb_timestamp g) 0 (gb_validators g);
      block ← Block_new now 0 BlockHash_zero transactions genesis_validator;
      let header := header_with_timestamp (block_header block) (gb_timestamp g) in
      Ok (mkBlock (header_with_hash header (calculate_hash header))
            (block_transactions block) (block_signatures block))
  end.

(** [GenesisBlock::calculate_hash]. *)
Definition genesis_calculate_hash (now : Z) (g : GenesisBlock) : VResult BlockHash :=
  block ← create_block now g;
  Ok (block_hash block).
End genesis.

(** [GenesisBlock::from_file]: [read_to_string] and [from_str] are the file
    system and [serde_json], whose errors carry their message. *)
Definition from_file (read_to_string : string -> string + string)
    (from_str : string -> GenesisBlock + string) (path : string) : VResult GenesisBlock :=
  match read_to_string path with
  | inr e => Err (GenesisError ("Failed to read file: " ++ e))
  | inl contents =>
      match from_str contents with
      | inr e => Err (GenesisError ("Failed to parse JSON: " ++ e))
      | inl genesis => _ ← GenesisBlock_validate genesis; Ok genesis
      end
  end.

(** [GenesisBlock::to_file]: [write] returns the error of the file system. *)
Definition to_file (to_string_pretty : GenesisBlock -> string + string)
    (write : string -> string -> option string) (g : GenesisBlock) (path : string) : VResult unit :=
  _ ← GenesisBlock_validate g;
  match to_string_pretty g with
  | inr e => Err (GenesisError ("Failed to serialize: " ++ e))
  | inl json =>
      match write path json with
      | Some e => Err (GenesisError ("Failed to write file: " ++ e))
      | None => Ok tt
      end
  end.

(** ** The builder *)
Record GenesisBuilder := mkGenesisBuilder {
  gbd_validators : list PublicKey;
  gbd_timestamp : option Z;
  gbd_chain_id : option string;
  gbd_network_name : option string;
  gbd_config : GenesisConfig
}.

Definition GenesisBuilder_new : GenesisBuilder :=
  mkGenesisBuilder [] None None None GenesisConfig_default.

Definition builder_add_validator (b : GenesisBuilder) (v : PublicKey) : GenesisBuilder :=
  mkGenesisBuilder (gbd_validators b ++ [v]) (gbd_timestamp b) (gbd_chain_id b)
    (gbd_network_name b) (gbd_config b).

Definition builder_add_validators (b : GenesisBuilder) (vs : list PublicKey) : GenesisBuilder :=
  mkGenesisBuilder (gbd_validators b ++ vs) (gbd_timestamp b) (gbd_chain_id b)
    (gbd_network_name b) (gbd_config b).

Definition builder_timestamp (b : GenesisBuilder) (t : Z) : GenesisBuilder :=
  mkGenesisBuilder (gbd_validators b) (Some t) (gbd_chain_id b) (gbd_network_name b) (gbd_config b).

Definition builder_chain_id (b : GenesisBuilder) (s : string) : GenesisBuilder :=
  mkGenesisBuilder (gbd_validators b) (gbd_timestamp b) (Some s) (gbd_network_name b) (gbd_config b).

Definition builder_network_name (b : GenesisBuilder) (s : string) : GenesisBuilder :=
  mkGenesisBuilder (gbd_validators b) (gbd_timestamp b) (gbd_chain_id b) (Some s) (gbd_config b).

Definition builder_with_config (b : GenesisBuilder) (c : GenesisConfig) : GenesisBuilder :=
  mkGenesisBuilder (gbd_validators b) (gbd_timestamp b) (gbd_chain_id b) (gbd_network_name b) c.

Definition builder_block_time (b : GenesisBuilder) (seconds : Z) : GenesisBuilder :=
  let c := gbd_config b in
  builder_with_config b (mkGenesisConfig seconds (gc_consensus_threshold c)
    (gc_max_block_size c) (gc_max_transactions_per_block c)).

Definition builder_consensus_threshold (b : GenesisBuilder) (threshold : f64) : GenesisBuilder :=
  let c := gbd_config b in
  builder_with_config b (mkGenesisConfig (gc_block_time c) threshold
    (gc_max_block_size c) (gc_max_transactions_per_block c)).

Definition builder_max_block_size (b : GenesisBuilder) (bytes : Z) : GenesisBuilder :=
  let c := gbd_config b in
  builder_with_config b (mkGenesisConfig (gc_block_time c) (gc_consensus_threshold c)
    bytes (gc_max_transactions_per_block c)).

Definition builder_max_transactions_per_block (b : GenesisBuilder) (count : Z) : GenesisBuilder :=
  let c := gbd_config b in
  builder_with_config b (mkGenesisConfig (gc_block_time c) (gc_consensus_threshold c)
    (gc_max_block_size c) count).

(** [GenesisBuilder::build]; [now] is the clock. *)
Definition builder_build (now : Z) (b : GenesisBuilder) : GenesisBlock :=
  mkGenesisBlock (gbd_validators b) (default now (gbd_timestamp b))
    (default "voting-chain-1" (gbd_chain_id b)) (default "Voting Network" (gbd_network_name b))
    (gbd_config b).

(** ** Properties *)
Section genesis_properties.
Context `{HashCrate, HexCrate, BincodeTx}.

Lemma genesis_transactions_Ok timestamp i vs txs :
  genesis_transactions timestamp i vs = Ok txs ->
  length txs = length vs /\
  Forall (fun tx => Transaction_validate tx = Ok tt /\ tx_timestamp tx = timestamp) txs.
Proof.
  revert i txs. induction vs as [|v vs IH]; intros i txs; cbn [genesis_transactions].
  { intros [= <-]. done. }
  intros (tx & Htx & (txs' & Htxs & [= <-])%bind_Ok)%bind_Ok.
  apply IH in Htxs as [Hlen Hall]. split; [cbn; lia|]. constructor; [|done].
  unfold Transaction_new_with_params in Htx. apply bind_Ok in Htx as (id & Hid & [= <-]).
  split; [|done]. by apply Transaction_validate_Ok.
Qed.

Lemma genesis_transactions_total `{!BincodeTxSpec} timestamp i vs :
  exists txs, genesis_transactions timestamp i vs = Ok txs.
Proof.
  revert i. induction vs as [|v vs IH]; intros i; cbn [genesis_transactions]; [by eexists|].
  destruct (IH (i + 1)) as [txs Htxs].
  unfold Transaction_new_with_params, calculate_id, serialize_for_hashing. cbn.
  destruct (bincode_tx_type_total (genesis_registration i v)) as [d Hd].
  unfold genesis_registration in *. rewrite Hd. cbn. rewrite Htxs. by eexists.
Qed.

Lemma create_block_Ok now g b :
  create_block now g = Ok b ->
  Block_validate b = Ok tt /\ block_height b = 0 /\ block_previous_hash b = BlockHash_zero /\
  block_timestamp b = gb_timestamp g /\
  length (block_transactions b) = length (gb_validators g).
Proof.
  unfold create_block. destruct (gb_validators g) as [|v vs]; [done|].
  intros (txs & Htxs & (blk & Hb & [= <-])%bind_Ok)%bind_Ok.
  apply genesis_transactions_Ok in Htxs as [Hlen Hall].
  unfold Block_new in Hb. apply bind_Ok in Hb as (r & Hr & [= <-]). cbn.
  split; [|done]. rewrite Block_validate_Ok. cbn. split_and!; [done..|].
  eapply Forall_impl; [exact Hall|]. by intros ? [].
Qed.

Lemma create_block_total `{!BincodeTxSpec} now g :
  gb_validators g <> [] -> exists b, create_block now g = Ok b.
Proof.
  intros Hne. unfold create_block. destruct (gb_validators g) as [|v vs] eqn:E; [done|].
  destruct (genesis_transactions_total (gb_timestamp g) 0 (v :: vs)) as [txs Htxs].
  rewrite Htxs. cbn [mbind result_bind]. unfold Block_new.
  destruct (transactions_root_total txs) as [r Hr]. rewrite Hr. by eexists.
Qed.

(** The clock is read by [Block::new] and overwritten. *)
Lemma create_block_clock now now' g : create_block now g = create_block now' g.
Proof.
  unfold create_block. destruct (gb_validators g); [done|].
  destruct (genesis_transactions _ _ _) as [txs| |]; cbn; [|done..].
  unfold Block_new. destruct (transactions_root_total txs) as [r ->]. done.
Qed.

Lemma create_block_validator now g b v vs :
  create_block now g = Ok b -> gb_validators g = v :: vs -> bh_validator (block_header b) = v.
Proof.
  unfold create_block. intros Hb E. rewrite E in Hb.
  apply bind_Ok in Hb as (txs & _ & (blk & Hb & [= <-])%bind_Ok).
  unfold Block_new in Hb. by apply bind_Ok in Hb as (r & _ & [= <-]).
Qed.

(** A genesis configuration with a validator always yields a genesis block,
    and that block is structurally valid, has height 0, the zero previous hash, the
    configured time and one transaction per validator; without validators the
    result is the documented error.  The clock does not influence the result. *)
Theorem genesis_block_valid `{!BincodeTxSpec} (now now' : Z) (g : GenesisBlock) :
  match gb_validators g with
  | [] => create_block now g = Err (GenesisError "Genesis must have at least one validator")
  | _ => exists b, create_block now g = Ok b /\ create_block now' g = Ok b /\
           Block_validate b = Ok tt /\ block_height b = 0 /\
           block_previous_hash b = BlockHash_zero /\ block_timestamp b = gb_timestamp g /\
           length (block_transactions b) = length (gb_validators g)
  end.
Proof.
  destruct (gb_validators g) as [|v vs] eqn:E; [unfold create_block; by rewrite E|].
  destruct (create_block_total now g) as [b Hb]; [by rewrite E|]. exists b.
  split; [done|]. split.
  - rewrite <- Hb. apply create_block_clock.
  - rewrite <- E. by eapply create_block_Ok.
Qed.
End genesis_properties.

(** [from_file] only returns a configuration that passes [validate]; and
    [validate] accepts a NaN consensus threshold, which the builder can set, since
    both of its comparisons are false on NaN. *)
Theorem genesis_validation (read_to_string : string -> string + string)
    (from_str : string -> GenesisBlock + string) (path : string) (now : Z) (v : PublicKey) :
  (forall g, from_file read_to_string from_str path = Ok g -> GenesisBlock_validate g = Ok tt) /\
  GenesisBlock_validate
    (builder_build now (builder_consensus_threshold
       (builder_add_validator GenesisBuilder_new v) f64_nan)) = Ok tt.
Proof.
  split; [|by vm_compute]. intros g. unfold from_file.
  destruct (read_to_string path); [|done]. destruct (from_str _); [|done].
  intros ([] & Hv & [= <-])%bind_Ok. done.
Qed.
