(* ===== verification/Chain.v ===== *)
(** * The blockchain: crates/blockchain-core/src/chain.rs

    The chain keeps its blocks with two indices, from block hash and from
    transaction identifier to height.  [add_block] and [prune_old_blocks] are
    state-passing; slice indexing can panic. *)
From stdpp Require Import prelude gmap strings list pretty.
From S2P Require Import Prelude Floats64 Types Merkle Transaction Block Genesis.

Local Open Scope Z_scope.

Record Blockchain := mkBlockchain {
  bc_blocks : list Block;
  bc_hash_to_height : gmap BlockHash Z;
  bc_tx_to_block : gmap TxId Z;
  bc_height : Z;
  bc_genesis_hash : BlockHash
}.

(** The loop [for tx in txs { tx_to_block.insert(tx.id, height) }]. *)
Definition index_transactions (height : Z) (txs : list Transaction) (m : gmap TxId Z) : gmap TxId Z :=
  foldl (fun m tx => <[tx_id tx := height]> m) m txs.

Definition contains_transaction (c : Blockchain) (id : TxId) : bool :=
  bool_decide (is_Some (bc_tx_to_block c !! id)).

Definition latest_block (c : Blockchain) : VResult Block := unwrap (last (bc_blocks c)).

Definition get_block_by_height (c : Blockchain) (height : Z) : VResult (option Block) :=
  if height <=? bc_height c then
    b ← unwrap (bc_blocks c !! Z.to_nat height); Ok (Some b)
  else Ok None.

Definition get_block_by_hash (c : Blockchain) (hash : BlockHash) : VResult (option Block) :=
  match bc_hash_to_height c !! hash with
  | Some height => get_block_by_height c height
  | None => Ok None
  end.

Definition get_transaction (c : Blockchain) (id : TxId) : VResult (option Transaction) :=
  match bc_tx_to_block c !! id with
  | Some height =>
      ob ← get_block_by_height c height;
      Ok (match ob with Some b => block_get_transaction b id | None => None end)
  | None => Ok None
  end.

Definition get_transaction_block_height (c : Blockchain) (id : TxId) : option Z :=
  bc_tx_to_block c !! id.

(** [Blockchain::get_blocks_range]: the slice [blocks[start..=end]]. *)
Definition get_blocks_range (c : Blockchain) (start end_ : Z) : VResult (list Block) :=
  if (end_ <? start) || (bc_height c <? end_) then Ok []
  else if end_ <? len (bc_blocks c)
       then Ok (take (Z.to_nat (end_ - start + 1)) (drop (Z.to_nat start) (bc_blocks c)))
       else Panic.

Definition get_blocks_by_validator (c : Blockchain) (v : PublicKey) : list Block :=
  filter (fun b => bh_validator (block_header b) = v) (bc_blocks c).

Definition get_all_transactions (c : Blockchain) : list Transaction :=
  bc_blocks c ≫= block_transactions.

Definition get_transactions_in_range (c : Blockchain) (start end_ : Z) : VResult (list Transaction) :=
  bs ← get_blocks_range c start end_;
  Ok (bs ≫= block_transactions).

Definition transaction_count (c : Blockchain) : Z := Z.of_nat (size (bc_tx_to_block c)).

(** [get_block_at_height]: a linear search. *)
Definition get_block_at_height (c : Blockchain) (height : Z) : VResult Block :=
  ok_or (find_by (fun b => block_height b =? height) (bc_blocks c)) (BlockNotFound (pretty height)).

Definition get_best_block (c : Blockchain) : VResult Block :=
  ok_or (last (bc_blocks c)) (BlockNotFound "No blocks in chain").

Record BlockchainStats := mkBlockchainStats {
  bs_height : Z;
  bs_total_blocks : Z;
  bs_total_transactions : Z;
  bs_avg_tx_per_block : f64;
  bs_genesis_hash : BlockHash;
  bs_latest_block_hash : BlockHash;
  bs_latest_block_timestamp : Z
}.

Definition get_stats (c : Blockchain) : VResult BlockchainStats :=
  let total_blocks := len (bc_blocks c) in
  let total_transactions := transaction_count c in
  let avg := if 0 <? total_blocks
             then f64_div (f64_of_Z total_transactions) (f64_of_Z total_blocks) else f64_zero in
  latest ← latest_block c;
  Ok (mkBlockchainStats (bc_height c) total_blocks total_transactions avg (bc_genesis_hash c)
        (block_hash latest) (block_timestamp latest)).

(** The queries the code has not implemented yet. *)
Record ChainValidatorInfo := mkChainValidatorInfo {
  cvi_address : Address;
  cvi_public_key : PublicKey;
  cvi_stake : Z;
  cvi_is_active : bool;
  cvi_registered_at_height : Z;
  cvi_blocks_produced : Z;
  cvi_last_block_height : option Z
}.

Definition chain_validator_count (c : Blockchain) : Z := 0.
Definition chain_active_validator_count (c : Blockchain) : Z := 0.
Definition active_election_count (c : Blockchain) : Z := 0.
Definition get_validator_set_at_height (c : Blockchain) (height : Z) : VResult (list ChainValidatorInfo) :=
  Ok [].
Definition get_validator_by_address (c : Blockchain) (address : string) : option ChainValidatorInfo :=
  None.

(** One iteration of [prune_old_blocks] on the state of its loop: the blocks
    kept, the two indices and the count. *)
Definition prune_step (before : Z)
    (acc : list Block * gmap BlockHash Z * gmap TxId Z * Z) (b : Block)
  : list Block * gmap BlockHash Z * gmap TxId Z * Z :=
  let '(new_blocks, hashes, txs, pruned) := acc in
  if before <=? block_timestamp b then (new_blocks ++ [b], hashes, txs, pruned)
  else (new_blocks, delete (block_hash b) hashes,
        foldl (fun m tx => delete (tx_id tx) m) txs (block_transactions b), pruned + 1).

(** [Blockchain::prune_old_blocks]; [height] is left as it was. *)
Definition prune_old_blocks (before : Z) : VStM Blockchain Z := fun c =>
  match bc_blocks c with
  | [] => (Panic, c)
  | genesis :: rest =>
      let '(new_blocks, hashes, txs, pruned) :=
        foldl (prune_step before) ([genesis], bc_hash_to_height c, bc_tx_to_block c, 0) rest in
      (Ok pruned, mkBlockchain new_blocks hashes txs (bc_height c) (bc_genesis_hash c))
  end.

Section chain.
Context `{HashCrate, HexCrate, BincodeTx}.

(** [Blockchain::new]; [now] is the clock read when the block is made. *)
Definition Blockchain_new (now : Z) (genesis : GenesisBlock) : VResult Blockchain :=
  genesis_block ← create_block now genesis;
  let genesis_hash := block_hash genesis_block in
  Ok (mkBlockchain [genesis_block] {[ genesis_hash := 0 ]}
        (index_transactions 0 (block_transactions genesis_block) ∅) 0 genesis_hash).

(** The part of [add_block] after the checks. *)
Definition append_block (b : Block) (c : Blockchain) : Blockchain :=
  mkBlockchain (bc_blocks c ++ [b]) (<[block_hash b := block_height b]> (bc_hash_to_height c))
    (index_transactions (block_height b) (block_transactions b) (bc_tx_to_block c))
    (block_height b) (bc_genesis_hash c).

(** [Blockchain::add_block]. *)
Definition add_block (b : Block) : VStM Blockchain unit :=
  _ ← lift (Block_validate b);
  self ← get;
  latest ← lift (latest_block self);
  _ ← lift (validate_chain_link b latest);
  _ ← lift (for_each (fun tx => ensure (negb (contains_transaction self (tx_id tx)))
                                  (DuplicateTransaction (TxId_to_hex (tx_id tx))))
              (block_transactions b));
  modify (append_block b).

(** The loop of [verify] over the blocks after [previous]. *)
Fixpoint verify_links (previous : Block) (rest : list Block) : VResult unit :=
  match rest with
  | [] => Ok tt
  | current :: rest' =>
      _ ← Block_validate current;
      _ ← validate_chain_link current previous;
      verify_links current rest'
  end.

Definition verify_blocks (blocks : list Block) : VResult unit :=
  match blocks with
  | [] => Err (InvalidBlock "Blockchain is empty")
  | genesis :: rest =>
      _ ← ensure (block_height genesis =? 0) (GenesisError "Genesis height must be 0");
      _ ← ensure (bool_decide (block_previous_hash genesis = BlockHash_zero))
            (GenesisError "Genesis must have zero previous hash");
      _ ← Block_validate genesis;
      verify_links genesis rest
  end.

(** [Blockchain::verify]. *)
Definition verify (c : Blockchain) : VResult unit := verify_blocks (bc_blocks c).
End chain.
