(* ===== verification/ChainProperties.v ===== *)
(** * Properties of the blockchain

    The invariant [chain_wf], its preservation by the operations, the meaning of
    the lookups on reachable chains, tamper evidence, and what pruning breaks. *)
From stdpp Require Import prelude gmap strings list pretty.
From Stdlib Require Import Strings.Byte.
From S2P Require Import Prelude Floats64 Types Merkle Transaction Block Genesis Chain.

Local Open Scope Z_scope.

Section chain_properties.
Context `{HashCrate, HexCrate, BincodeTx}.

(** ** Verification of a list of blocks *)

Lemma verify_links_snoc p l b :
  verify_links p (l ++ [b]) = Ok tt <->
    verify_links p l = Ok tt /\ Block_validate b = Ok tt /\
    validate_chain_link b (default p (last l)) = Ok tt.
Proof.
  revert p. induction l as [|q l IH]; intros p; cbn [app verify_links].
  - rewrite !bind_unit. cbn. naive_solver.
  - rewrite !bind_unit, IH, last_cons. destruct (last l); cbn; naive_solver.
Qed.

Lemma verify_blocks_snoc l b :
  l <> [] ->
  verify_blocks (l ++ [b]) = Ok tt <->
    verify_blocks l = Ok tt /\ Block_validate b = Ok tt /\
    exists p, last l = Some p /\ validate_chain_link b p = Ok tt.
Proof.
  intros Hne. destruct l as [|g l]; [done|]. cbn [app verify_blocks]. rewrite last_cons.
  rewrite !bind_unit, verify_links_snoc. destruct (last l); cbn; naive_solver.
Qed.

Lemma verify_blocks_singleton b :
  verify_blocks [b] = Ok tt <->
    block_height b = 0 /\ block_previous_hash b = BlockHash_zero /\ Block_validate b = Ok tt.
Proof.
  cbn [verify_blocks verify_links].
  rewrite !bind_unit, !ensure_Ok, Z.eqb_eq, bool_decide_eq_true. naive_solver.
Qed.

(** In a verified list of at most [2^64] blocks the heights are the positions. *)
Lemma verify_blocks_heights l :
  verify_blocks l = Ok tt -> len l <= 2 ^ 64 ->
  forall i b, l !! i = Some b -> block_height b = Z.of_nat i.
Proof.
  induction l as [|b l IH] using rev_ind; [done|]. intros Hv Hlen i c Hc.
  destruct (decide (l = [])) as [->|Hne].
  { cbn [app] in *. apply verify_blocks_singleton in Hv as (Hh & _).
    by apply list_lookup_singleton_Some in Hc as [-> <-]. }
  apply verify_blocks_snoc in Hv as (Hv & _ & p & Hp & Hl); [|done].
  rewrite len_app in Hlen. change (len [b]) with 1 in Hlen.
  apply lookup_app_Some in Hc as [Hc|[Hi Hc]]; [apply IH; [done|lia|done]|].
  apply list_lookup_singleton_Some in Hc as [Hi' <-].
  apply validate_chain_link_Ok in Hl as [-> _].
  rewrite last_lookup in Hp. apply (IH Hv ltac:(lia)) in Hp as Hph.
  apply lookup_lt_Some in Hp as Hlt. unfold len in Hlen.
  rewrite Hph, u64_add_small by lia. lia.
Qed.

Lemma verify_blocks_valid l :
  verify_blocks l = Ok tt -> Forall (fun b => Block_validate b = Ok tt) l.
Proof.
  induction l as [|b l IH] using rev_ind; [done|]. intros Hv. rewrite Forall_app, Forall_singleton.
  destruct (decide (l = [])) as [->|Hne].
  - split; [done|]. by apply verify_blocks_singleton in Hv as (_ & _ & ?).
  - apply verify_blocks_snoc in Hv as (Hv & Hb & _); [|done]. auto.
Qed.

(** ** The transaction index *)

Lemma index_transactions_lookup h txs m id :
  index_transactions h txs m !! id =
    if decide (id ∈ tx_id <$> txs) then Some h else m !! id.
Proof.
  revert m. induction txs as [|tx txs IH]; intros m; cbn; [done|].
  unfold index_transactions in IH. rewrite IH. clear IH.
  destruct (decide (id = tx_id tx)) as [->|Hne].
  - rewrite lookup_insert_eq. by destruct (decide _), (decide _); set_solver.
  - rewrite lookup_insert_ne by done.
    destruct (decide (id ∈ tx_id <$> txs)), (decide (id ∈ tx_id tx :: (tx_id <$> txs)));
      done || set_solver.
Qed.

(** ** The invariant *)
Record chain_wf (c : Blockchain) : Prop := {
  wf_verified : verify c = Ok tt;
  wf_length : len (bc_blocks c) <= 2 ^ 64;
  wf_height : bc_height c = len (bc_blocks c) - 1;
  wf_genesis : block_hash <$> head (bc_blocks c) = Some (bc_genesis_hash c);
  wf_hash_sound : forall hash h, bc_hash_to_height c !! hash = Some h ->
    0 <= h /\ exists b, bc_blocks c !! Z.to_nat h = Some b /\ block_hash b = hash;
  wf_hash_complete : forall b, b ∈ bc_blocks c -> is_Some (bc_hash_to_height c !! block_hash b);
  wf_tx_sound : forall id h, bc_tx_to_block c !! id = Some h ->
    0 <= h /\ exists b tx, bc_blocks c !! Z.to_nat h = Some b /\
                tx ∈ block_transactions b /\ tx_id tx = id;
  wf_tx_complete : forall i b tx, bc_blocks c !! i = Some b -> tx ∈ block_transactions b ->
    bc_tx_to_block c !! tx_id tx = Some (Z.of_nat i)
}.

Lemma wf_nonempty c : chain_wf c -> bc_blocks c <> [].
Proof. intros Hwf E. pose proof (wf_verified c Hwf) as Hv. unfold verify in Hv. by rewrite E in Hv. Qed.

Lemma wf_block_height c i b :
  chain_wf c -> bc_blocks c !! i = Some b -> block_height b = Z.of_nat i.
Proof. intros Hwf. apply verify_blocks_heights; apply Hwf. Qed.

Lemma Blockchain_new_wf now g c : Blockchain_new now g = Ok c -> chain_wf c.
Proof.
  unfold Blockchain_new. intros (b & Hb & [= <-])%bind_Ok.
  apply create_block_Ok in Hb as (Hv & Hh & Hp & _).
  split; cbn; [|done|done|done|..].
  - by apply verify_blocks_singleton.
  - intros hash h Hl. apply lookup_singleton_Some in Hl as [<- <-]. split; [done|by exists b].
  - intros b' ->%list_elem_of_singleton. rewrite lookup_singleton_eq. by eexists.
  - intros id h Hl. rewrite index_transactions_lookup in Hl. destruct (decide _) as [Hin|]; [|done].
    injection Hl as <-. split; [done|]. apply list_elem_of_fmap in Hin as (tx & -> & Hin).
    by exists b, tx.
  - intros i b' tx [-> <-]%list_lookup_singleton_Some Htx. rewrite index_transactions_lookup.
    rewrite decide_True; [done|]. by apply list_elem_of_fmap_2.
Qed.

(** ** [add_block] *)

(** The checks of [add_block], as a predicate. *)
Definition block_acceptable (c : Blockchain) (b : Block) : Prop :=
  Block_validate b = Ok tt /\
  (exists p, last (bc_blocks c) = Some p /\ validate_chain_link b p = Ok tt) /\
  Forall (fun tx => bc_tx_to_block c !! tx_id tx = None) (block_transactions b).

Lemma duplicates_Ok c txs :
  for_each (fun tx => ensure (negb (contains_transaction c (tx_id tx)))
                        (DuplicateTransaction (TxId_to_hex (tx_id tx)))) txs = Ok tt
  <-> Forall (fun tx => bc_tx_to_block c !! tx_id tx = None) txs.
Proof.
  rewrite for_each_Ok. apply Forall_iff. intros tx. unfold contains_transaction.
  rewrite ensure_Ok, negb_bool_decide_true, eq_None_not_Some. done.
Qed.

Lemma add_block_Ok b c c' :
  add_block b c = (Ok tt, c') <-> block_acceptable c b /\ c' = append_block b c.
Proof.
  unfold add_block, block_acceptable, mbind, stM_bind, lift, get, modify, latest_block, unwrap.
  rewrite <- duplicates_Ok.
  destruct (Block_validate b) as [[]| |]; [|split; [by intros [=]|by intros [(? & ?) ?]]..].
  destruct (last (bc_blocks c)) as [p|];
    [|split; [by intros [=]|by intros [(? & (? & ? & ?) & ?) ?]]].
  destruct (validate_chain_link b p) as [[]| |] eqn:Hl;
    [|split; [by intros [=]|by intros [(? & (? & [= <-] & ?) & ?) ?]; congruence]..].
  destruct (for_each _ _) as [[]| |]; [|split; [by intros [=]|by intros [(? & ? & ?) ?]]..].
  split; [intros [= <-]; eauto 10|by intros [_ ->]].
Qed.

Lemma add_block_not_Ok b c r c' :
  add_block b c = (r, c') -> r <> Ok tt -> c' = c.
Proof.
  unfold add_block, mbind, stM_bind, lift, get, modify.
  destruct (Block_validate b) as [[]| |]; [|by intros [= <- <-]..].
  destruct (latest_block c) as [p| |]; [|by intros [= <- <-]..].
  destruct (validate_chain_link b p) as [[]| |]; [|by intros [= <- <-]..].
  destruct (for_each _ _) as [[]| |]; by intros [= <- <-].
Qed.

Lemma append_block_index_sound c b id h :
  bc_tx_to_block (append_block b c) !! id = Some h ->
  (id ∈ tx_id <$> block_transactions b /\ h = block_height b) \/ bc_tx_to_block c !! id = Some h.
Proof.
  cbn. rewrite index_transactions_lookup. destruct (decide _); [|auto].
  intros [= <-]. auto.
Qed.

Lemma append_block_wf c b :
  chain_wf c -> bc_height c < 2 ^ 64 - 1 -> block_acceptable c b -> chain_wf (append_block b c).
Proof.
  intros Hwf Hmax (Hv & (p & Hp & Hlink) & Hdup).
  pose proof (wf_nonempty c Hwf) as Hne. pose proof (wf_height c Hwf) as Hheight.
  assert (block_height b = len (bc_blocks c)) as Hh.
  { apply validate_chain_link_Ok in Hlink as [-> _].
    rewrite last_lookup in Hp. apply (wf_block_height _ _ _ Hwf) in Hp as ->.
    destruct (bc_blocks c) as [|g l]; [done|]. unfold len in *. cbn in *.
    rewrite u64_add_small; lia. }
  assert (Z.to_nat (block_height b) = length (bc_blocks c)) as Hn by (rewrite Hh; unfold len; lia).
  assert ((bc_blocks c ++ [b]) !! Z.to_nat (block_height b) = Some b) as Hb.
  { rewrite Hn, lookup_app_r, Nat.sub_diag by done. done. }
  pose proof (len_nonneg (bc_blocks c)).
  split; cbn.
  - apply verify_blocks_snoc; [done|]. split; [apply Hwf|eauto].
  - rewrite len_app. change (len [b]) with 1. lia.
  - rewrite len_app. change (len [b]) with 1. lia.
  - rewrite <- (wf_genesis c Hwf). by destruct (bc_blocks c).
  - intros hash h [[<- <-]|[_ Hl]]%lookup_insert_Some; [split; [lia|by exists b]|].
    apply (wf_hash_sound c Hwf) in Hl as (Hpos & b' & Hb' & Ehash).
    split; [done|]. exists b'. split; [by apply lookup_app_l_Some|done].
  - intros b' [Hb'|Hb']%elem_of_app.
    + apply lookup_insert_is_Some'. right. by apply (wf_hash_complete c Hwf).
    + apply list_elem_of_singleton in Hb' as ->. rewrite lookup_insert_eq. by eexists.
  - intros id h [[Hin ->]|Hl]%append_block_index_sound.
    + split; [lia|]. apply list_elem_of_fmap in Hin as (tx & -> & Hin). by exists b, tx.
    + apply (wf_tx_sound c Hwf) in Hl as (Hpos & b' & tx & Hb' & Htx).
      split; [done|]. exists b', tx. split; [by apply lookup_app_l_Some|done].
  - intros i b' tx Hb' Htx. rewrite index_transactions_lookup.
    apply lookup_app_Some in Hb' as [Hb'|[Hi Hb']].
    + apply (wf_tx_complete c Hwf _ _ _ Hb') in Htx as Hidx. rewrite decide_False; [done|].
      intros (ux & Eid & Hux)%list_elem_of_fmap. rewrite Forall_forall in Hdup.
      specialize (Hdup ux Hux). rewrite Eid in Hidx. congruence.
    + apply list_lookup_singleton_Some in Hb' as [Hi' <-].
      rewrite decide_True by by apply list_elem_of_fmap_2. f_equal. rewrite Hh. unfold len. lia.
Qed.

(** ** Reachable chains

    A chain is made from a genesis configuration and grows by [add_block], up to
    the largest height a [u64] can hold. *)
Inductive reachable : Blockchain -> Prop :=
| reachable_new now g c : Blockchain_new now g = Ok c -> reachable c
| reachable_add c b r c' :
    reachable c -> bc_height c < 2 ^ 64 - 1 -> add_block b c = (r, c') -> reachable c'.

Lemma reachable_wf c : reachable c -> chain_wf c.
Proof.
  induction 1 as [now g c Hc|c b r c' _ IH Hmax Hadd]; [by eapply Blockchain_new_wf|].
  destruct (decide (is_ok r = true)) as [Hok|Hok].
  - apply is_ok_true in Hok as [[] ->]. apply add_block_Ok in Hadd as [Hacc ->].
    by apply append_block_wf.
  - apply add_block_not_Ok in Hadd as ->; [done|]. intros ->. done.
Qed.

(** C2: every chain built by [Blockchain::new] and any sequence of [add_block]
    calls, accepted or refused, satisfies the invariant; in particular its blocks
    pass [verify], its height is the number of blocks minus one, and both indices
    agree with the blocks. *)
Theorem reachable_chain_invariant (c : Blockchain) : reachable c -> chain_wf c.
Proof. apply reachable_wf. Qed.

(** C6: [add_block] either accepts the block - then it is valid, extends the
    latest block and repeats no transaction of the chain, and the new state is the
    old one with the block appended and indexed - or returns an error and leaves the
    chain untouched.  On a reachable chain it does not panic. *)
Theorem add_block_spec `{!BincodeTxSpec} (c : Blockchain) (b : Block) :
  reachable c ->
  (block_acceptable c b /\ add_block b c = (Ok tt, append_block b c)) \/
  (~ block_acceptable c b /\ exists e, add_block b c = (Err e, c)).
Proof.
  intros Hwf%reachable_wf. destruct (add_block b c) as [r c'] eqn:Hadd.
  destruct r as [[]|e|].
  - left. apply add_block_Ok in Hadd as [? ->]. done.
  - right. split; [|apply add_block_not_Ok in Hadd as Hc; [subst; by exists e|done]].
    intros Hacc. assert (add_block b c = (Ok tt, append_block b c)) by by apply add_block_Ok.
    congruence.
  - exfalso. revert Hadd. unfold add_block, mbind, stM_bind, lift, get, modify.
    destruct (Block_validate b) as [[]| |] eqn:Hv; [|done|by apply Block_validate_no_panic in Hv].
    unfold latest_block. destruct (last (bc_blocks c)) as [p|] eqn:Hl; cbn [unwrap];
      [|by apply last_None in Hl; apply wf_nonempty in Hwf].
    destruct (validate_chain_link b p) as [[]| |] eqn:Hlk; [|done|].
    2:{ by apply validate_chain_link_no_panic in Hlk. }
    destruct (for_each _ _) as [[]| |] eqn:Hf; [done..|].
    apply for_each_no_panic in Hf; [done|]. intros. apply ensure_no_panic.
Qed.

(** ** Lookups *)

Lemma wf_lookup_height c h :
  chain_wf c -> 0 <= h -> get_block_by_height c h = Ok (bc_blocks c !! Z.to_nat h).
Proof.
  intros Hwf Hpos. unfold get_block_by_height. rewrite (wf_height c Hwf).
  destruct (Z.leb_spec h (len (bc_blocks c) - 1)).
  - destruct (lookup_lt_is_Some_2 (bc_blocks c) (Z.to_nat h)) as [b ->]; [unfold len in *; lia|done].
  - rewrite lookup_ge_None_2; [done|]. unfold len in *. lia.
Qed.

Lemma wf_search_height c h :
  chain_wf c -> 0 <= h ->
  find_by (fun b => block_height b =? h) (bc_blocks c) = bc_blocks c !! Z.to_nat h.
Proof.
  intros Hwf Hpos. destruct (find_by _ _) as [b|] eqn:E.
  - apply find_by_Some in E as [Hin Hh]. apply Z.eqb_eq in Hh.
    apply list_elem_of_lookup in Hin as [i Hi]. pose proof (wf_block_height c i b Hwf Hi) as Hb.
    replace (Z.to_nat h) with i by lia. done.
  - rewrite find_by_None in E. destruct (bc_blocks c !! Z.to_nat h) as [b|] eqn:Hb; [|done].
    apply (wf_block_height c _ _ Hwf) in Hb as Hh.
    apply list_elem_of_lookup_2, E, Z.eqb_neq in Hb. lia.
Qed.

(** On a reachable chain the direct access by height returns, for every
    height, exactly what a search through all blocks finds, and never indexes out of
    range; so do the latest block and the best block. *)
Theorem height_lookup_refines_search (c : Blockchain) (h : Z) :
  reachable c -> 0 <= h ->
  get_block_by_height c h = Ok (bc_blocks c !! Z.to_nat h) /\
  get_block_at_height c h = ok_or (bc_blocks c !! Z.to_nat h) (BlockNotFound (pretty h)) /\
  exists b, latest_block c = Ok b /\ get_best_block c = Ok b /\
            get_block_by_height c (bc_height c) = Ok (Some b).
Proof.
  intros Hwf%reachable_wf Hpos. split; [by apply wf_lookup_height|]. split.
  { unfold get_block_at_height. by rewrite wf_search_height. }
  pose proof (wf_height c Hwf) as Hh. pose proof (wf_nonempty c Hwf) as Hne.
  destruct (last (bc_blocks c)) as [b|] eqn:E; [|by apply last_None in E].
  exists b. unfold latest_block, get_best_block. rewrite E. split; [done|]. split; [done|].
  assert (0 <= bc_height c) by (rewrite Hh; destruct (bc_blocks c); [done|unfold len; cbn; lia]).
  rewrite wf_lookup_height by done. rewrite last_lookup in E.
  replace (Z.to_nat (bc_height c)) with (pred (length (bc_blocks c))) by (unfold len in Hh; lia).
  by rewrite E.
Qed.

Lemma wf_get_transaction c id :
  chain_wf c ->
  match bc_tx_to_block c !! id with
  | Some h => exists b tx, 0 <= h /\ bc_blocks c !! Z.to_nat h = Some b /\
                block_get_transaction b id = Some tx /\ get_transaction c id = Ok (Some tx)
  | None => get_transaction c id = Ok None
  end.
Proof.
  intros Hwf. unfold get_transaction. destruct (bc_tx_to_block c !! id) as [h|] eqn:E; [|done].
  apply (wf_tx_sound c Hwf) in E as (Hpos & b & tx & Hb & Hin & <-).
  destruct (block_get_transaction_is_Some b tx Hin) as [ux Hux].
  exists b, ux. rewrite wf_lookup_height, Hb by done. cbn. by rewrite Hux.
Qed.

Lemma elem_of_all_transactions c tx :
  tx ∈ get_all_transactions c <->
  exists i b, bc_blocks c !! i = Some b /\ tx ∈ block_transactions b.
Proof.
  unfold get_all_transactions. rewrite list_elem_of_bind. split.
  - intros (b & Htx & Hb). apply list_elem_of_lookup in Hb as [i Hi]. eauto.
  - intros (i & b & Hi & Htx). apply list_elem_of_lookup_2 in Hi. eauto.
Qed.

(** C14: On a reachable chain the transaction index is exact.  A transaction
    identifier is known iff some block holds a transaction with it; looking it up
    returns such a transaction, from the block at the indexed height, without a
    panic; and an unknown identifier gives nothing. *)
Theorem transaction_lookup_exact (c : Blockchain) (id : TxId) :
  reachable c ->
  (contains_transaction c id = true <->
     exists tx, tx ∈ get_all_transactions c /\ tx_id tx = id) /\
  (if contains_transaction c id
   then exists tx h b, get_transaction c id = Ok (Some tx) /\ tx_id tx = id /\
          get_transaction_block_height c id = Some h /\
          get_block_by_height c h = Ok (Some b) /\ tx ∈ block_transactions b
   else get_transaction c id = Ok None).
Proof.
  intros Hwf%reachable_wf. pose proof (wf_get_transaction c id Hwf) as Hget.
  unfold contains_transaction, get_transaction_block_height.
  destruct (bc_tx_to_block c !! id) as [h|] eqn:E.
  - rewrite bool_decide_eq_true_2 by done. destruct Hget as (b & tx & Hpos & Hb & Hbt & Hg).
    apply block_get_transaction_Some in Hbt as [Hin <-]. split.
    + split; [|done]. intros _. exists tx. split; [|done]. apply elem_of_all_transactions. eauto.
    + exists tx, h, b. rewrite wf_lookup_height, Hb by done. done.
  - rewrite bool_decide_eq_false_2 by by intros [].
    split; [|done]. split; [done|]. intros (tx & Hin & <-).
    apply elem_of_all_transactions in Hin as (i & b & Hi & Htx).
    rewrite (wf_tx_complete c Hwf i b tx Hi Htx) in E. done.
Qed.

(** No transaction is included in two blocks of a reachable chain (a vote
    cannot be replayed in a later block). *)
Theorem no_double_inclusion (c : Blockchain) (i j : nat) (b b' : Block) (tx tx' : Transaction) :
  reachable c -> bc_blocks c !! i = Some b -> bc_blocks c !! j = Some b' ->
  tx ∈ block_transactions b -> tx' ∈ block_transactions b' -> tx_id tx = tx_id tx' -> i = j.
Proof.
  intros Hwf%reachable_wf Hb Hb' Ht Ht' E.
  apply (wf_tx_complete c Hwf _ _ _ Hb) in Ht. apply (wf_tx_complete c Hwf _ _ _ Hb') in Ht'.
  rewrite E, Ht' in Ht. injection Ht. lia.
Qed.

(** Blocks are found by hash: on a reachable chain the lookup of a hash
    succeeds iff some block has it, and returns a block with that hash. *)
Theorem hash_lookup_exact (c : Blockchain) (hash : BlockHash) :
  reachable c ->
  (exists b, get_block_by_hash c hash = Ok (Some b) /\ b ∈ bc_blocks c /\ block_hash b = hash) \/
  (get_block_by_hash c hash = Ok None /\ forall b, b ∈ bc_blocks c -> block_hash b <> hash).
Proof.
  intros Hwf%reachable_wf. unfold get_block_by_hash.
  destruct (bc_hash_to_height c !! hash) as [h|] eqn:E.
  - left. apply (wf_hash_sound c Hwf) in E as (Hpos & b & Hb & <-). exists b.
    rewrite wf_lookup_height, Hb by done. split; [done|]. by apply list_elem_of_lookup_2 in Hb.
  - right. split; [done|]. intros b Hb <-. apply (wf_hash_complete c Hwf) in Hb as [h Hh]. congruence.
Qed.

(** ** Tamper evidence *)

Definition chain_inputs (l : list Block) : list (list byte) := l ≫= block_inputs.

Lemma chain_inputs_snoc l b : chain_inputs (l ++ [b]) = chain_inputs l ++ block_inputs b.
Proof.
  unfold chain_inputs. rewrite bind_app. cbn [mbind list_bind]. by rewrite app_nil_r.
Qed.

(** Equal in everything the hashes cover: all but the validators' signatures. *)
Definition same_content (b c : Block) : Prop :=
  block_header b = block_header c /\ block_transactions b = block_transactions c.

Lemma verified_lists_agree `{!BincodeTxSpec} l : forall k,
  verify_blocks l = Ok tt -> verify_blocks k = Ok tt ->
  Forall block_in_range l -> Forall block_in_range k ->
  no_collision (chain_inputs l) (chain_inputs k) ->
  length l = length k -> block_hash <$> last l = block_hash <$> last k ->
  Forall2 same_content l k.
Proof.
  induction l as [|b l IH] using rev_ind; intros k Hl Hk Rl Rk Hnc Hlen Hlast; [done|].
  destruct k as [|c k _] using rev_ind; [destruct l; discriminate|].
  rewrite !length_app in Hlen. cbn [length] in Hlen. rewrite !last_snoc in Hlast. injection Hlast as Hlast.
  rewrite !chain_inputs_snoc in Hnc.
  rewrite Forall_app, Forall_singleton in Rl, Rk. destruct Rl as [Rl Rb], Rk as [Rk Rc].
  assert (same_content b c) as Hbc.
  { apply verify_blocks_valid in Hl, Hk. rewrite Forall_app, Forall_singleton in Hl, Hk.
    apply block_binding; [apply Hl|apply Hk|done..| |done].
    eapply no_collision_mono; [..|exact Hnc]; set_solver. }
  apply Forall2_app; [|by apply Forall2_cons].
  destruct (decide (l = [])) as [->|Hne]; [destruct k; [done|cbn in Hlen; lia]|].
  assert (k <> []) as Hne' by (intros ->; destruct l; [done|cbn in Hlen; lia]).
  apply verify_blocks_snoc in Hl as (Hl & _ & p & Hp & Lp); [|done].
  apply verify_blocks_snoc in Hk as (Hk & _ & q & Hq & Lq); [|done].
  apply IH; try done.
  - eapply no_collision_mono; [..|exact Hnc]; set_solver.
  - lia.
  - rewrite Hp, Hq. cbn. f_equal. apply validate_chain_link_Ok in Lp as (_ & <- & _), Lq as (_ & <- & _).
    destruct Hbc as [Hbc _]. unfold block_previous_hash. by rewrite Hbc.
Qed.

Lemma verified_length l b :
  verify_blocks l = Ok tt -> len l <= 2 ^ 64 -> last l = Some b -> len l = block_height b + 1.
Proof.
  intros Hv Hlen Hb. rewrite last_lookup in Hb. apply verify_blocks_heights in Hb as Hh; [|done..].
  apply lookup_lt_Some in Hb. unfold len. lia.
Qed.

(** C3: tamper evidence.  Two chains that pass [verify] and have the same hash in
    their latest block have the same length and agree on every header and every
    transaction, unless two different inputs among those hashed for the two chains
    have the same Blake2b digest.  (Blocks are in machine range, and the chains have
    at most [2^64] blocks.) *)
Theorem chain_tamper_evident `{!BincodeTxSpec} (c d : Blockchain) (b b' : Block) :
  verify c = Ok tt -> verify d = Ok tt ->
  Forall block_in_range (bc_blocks c) -> Forall block_in_range (bc_blocks d) ->
  len (bc_blocks c) <= 2 ^ 64 -> len (bc_blocks d) <= 2 ^ 64 ->
  latest_block c = Ok b -> latest_block d = Ok b' -> block_hash b = block_hash b' ->
  no_collision (chain_inputs (bc_blocks c)) (chain_inputs (bc_blocks d)) ->
  Forall2 same_content (bc_blocks c) (bc_blocks d).
Proof.
  unfold verify, latest_block, unwrap. intros Hc Hd Rc Rd Lc Ld Hb Hb' E Hnc.
  destruct (last (bc_blocks c)) as [x|] eqn:Ec; [injection Hb as ->|done].
  destruct (last (bc_blocks d)) as [y|] eqn:Ed; [injection Hb' as ->|done].
  assert (block_header b = block_header b') as Eh.
  { apply last_Some in Ec as [l Ec], Ed as [k Ed]. rewrite Ec, Ed in *.
    apply verify_blocks_valid in Hc, Hd. rewrite Forall_app, Forall_singleton in *.
    eapply block_binding; [apply Hc|apply Hd|apply Rc|apply Rd| |done].
    rewrite !chain_inputs_snoc in Hnc. eapply no_collision_mono; [..|exact Hnc]; set_solver. }
  apply verified_lists_agree; try done; [|by rewrite Ec, Ed; cbn; rewrite E].
  pose proof (verified_length _ _ Hc Lc Ec). pose proof (verified_length _ _ Hd Ld Ed).
  unfold block_height in *. rewrite Eh in *. unfold len in *. lia.
Qed.

(** ** Pruning *)

(** [pruned before b]: the block is dropped by [prune_old_blocks before]. *)
Definition pruned (before : Z) (b : Block) : bool := negb (before <=? block_timestamp b).

Lemma delete_transactions_lookup (txs : list Transaction) (m : gmap TxId Z) id :
  foldl (fun m tx => delete (tx_id tx) m) m txs !! id =
    if decide (id ∈ tx_id <$> txs) then None else m !! id.
Proof.
  revert m. induction txs as [|tx txs IH]; intros m; cbn; [done|]. rewrite IH.
  destruct (decide (id = tx_id tx)) as [->|Hne].
  - rewrite lookup_delete_eq. by destruct (decide _), (decide _); set_solver.
  - rewrite lookup_delete_ne by done.
    destruct (decide (id ∈ tx_id <$> txs)), (decide (id ∈ tx_id tx :: (tx_id <$> txs)));
      done || set_solver.
Qed.

Lemma prune_loop before rest nb hs txs n nb' hs' txs' n' :
  foldl (prune_step before) (nb, hs, txs, n) rest = (nb', hs', txs', n') ->
  nb' = nb ++ List.filter (fun b => negb (pruned before b)) rest /\
  len nb' + n' = len nb + n + len rest /\ n <= n' /\
  (forall id, txs !! id = None -> txs' !! id = None) /\
  (forall b tx, b ∈ rest -> pruned before b = true -> tx ∈ block_transactions b ->
     txs' !! tx_id tx = None).
Proof.
  revert nb hs txs n. induction rest as [|b rest IH]; intros nb hs txs n; cbn [foldl].
  { intros [= <- <- <- <-]. rewrite app_nil_r. unfold len. cbn. split_and!; try done; try lia.
    intros ? ? []%not_elem_of_nil. }
  unfold prune_step at 2. unfold pruned. cbn [List.filter]. rewrite negb_involutive.
  destruct (before <=? block_timestamp b) eqn:E; intros (-> & Hlen & Hn & Hmono & Hdel)%IH.
  - rewrite <- app_assoc in *. cbn [app]. split_and!; try done.
    + unfold len in *. rewrite !length_app in *. cbn [length] in *. lia.
    + intros b' tx [->|Hb']%elem_of_cons Hp; [by rewrite E in Hp|by apply Hdel].
  - split_and!; try done; [unfold len in *; cbn [length] in *; lia|lia|..].
    + intros id Hid. apply Hmono. rewrite delete_transactions_lookup. by destruct (decide _).
    + intros b' tx [->|Hb']%elem_of_cons Hp Htx; [|by eapply Hdel].
      apply Hmono. rewrite delete_transactions_lookup, decide_True; [done|].
      by apply list_elem_of_fmap_2.
Qed.

Lemma prune_old_blocks_Ok before c c' n :
  prune_old_blocks before c = (Ok n, c') ->
  exists g rest, bc_blocks c = g :: rest /\ bc_height c' = bc_height c /\
    bc_blocks c' = g :: List.filter (fun b => negb (pruned before b)) rest /\
    len (bc_blocks c') + n = len (bc_blocks c) /\
    (forall b tx, b ∈ rest -> pruned before b = true -> tx ∈ block_transactions b ->
       bc_tx_to_block c' !! tx_id tx = None).
Proof.
  unfold prune_old_blocks. destruct (bc_blocks c) as [|g rest]; [done|].
  destruct (foldl _ _ _) as [[[nb hs] txs] k] eqn:E. intros [= <- <-]. cbn.
  apply prune_loop in E as (-> & Hlen & _ & _ & Hdel). exists g, rest.
  unfold len in *. cbn in *. split_and!; try done. lia.
Qed.

(** After pruning at least one block of a reachable chain, reading the block
    at the current height indexes out of range: the height is kept while the blocks
    move down, so the lookup by height panics. *)
Theorem prune_breaks_height_lookup (c c' : Blockchain) (before n : Z) :
  reachable c -> prune_old_blocks before c = (Ok n, c') -> 0 < n ->
  get_block_by_height c' (bc_height c') = Panic.
Proof.
  intros Hwf%reachable_wf Hp Hn. apply prune_old_blocks_Ok in Hp as (g & rest & _ & Hh & _ & Hlen & _).
  unfold get_block_by_height. rewrite Z.leb_refl, Hh, (wf_height c Hwf).
  rewrite lookup_ge_None_2; [done|]. unfold len in *. lia.
Qed.

(** Pruning forgets which transactions were included: afterwards a valid
    block that extends the chain is accepted although all its transactions are
    those of pruned blocks, so an old vote can be included again. *)
Theorem prune_allows_replay (c c' : Blockchain) (before n : Z) (b latest : Block) :
  prune_old_blocks before c = (Ok n, c') ->
  (forall tx, tx ∈ block_transactions b ->
     exists old ux, old ∈ tail (bc_blocks c) /\ pruned before old = true /\
       ux ∈ block_transactions old /\ tx_id ux = tx_id tx) ->
  Block_validate b = Ok tt -> latest_block c' = Ok latest ->
  validate_chain_link b latest = Ok tt ->
  add_block b c' = (Ok tt, append_block b c').
Proof.
  intros Hp Hold Hv Hl Hlink. apply add_block_Ok. split; [|done]. split; [done|].
  apply prune_old_blocks_Ok in Hp as (g & rest & Hc & _ & _ & _ & Hdel). split.
  - exists latest. split; [|done]. unfold latest_block, unwrap in Hl.
    destruct (last (bc_blocks c')); congruence.
  - rewrite Forall_forall. intros tx Htx. destruct (Hold tx Htx) as (old & ux & Ho & Ht & Hux & <-).
    rewrite Hc in Ho. by eapply Hdel.
Qed.
End chain_properties.
