(* ===== verification/ValidatorSet.v ===== *)
(** * Validator sets: crates/blockchain-core/src/consensus/validator_set.rs

    The set is kept three times: as an ordered list, as a map to the validators'
    records and as a set for membership.  [vset_wf] says that the three agree. *)
From stdpp Require Import prelude gmap strings list.
From S2P Require Import Prelude Types.

Local Open Scope Z_scope.

Record ValidatorInfo := mkValidatorInfo {
  vi_public_key : PublicKey;
  vi_added_at : Z;
  vi_blocks_produced : Z;
  vi_blocks_validated : Z;
  vi_is_active : bool
}.

Record ValidatorSet := mkValidatorSet {
  vset_validators : list PublicKey;
  vset_map : gmap PublicKey ValidatorInfo;
  vset_set : gset PublicKey
}.

Definition new_validator_info (now : Z) (v : PublicKey) : ValidatorInfo :=
  mkValidatorInfo v now 0 0 true.

(** [ValidatorSet::new]; [now] is the clock. *)
Definition ValidatorSet_new (now : Z) (validators : list PublicKey) : ValidatorSet :=
  let '(m, s) :=
    foldl (fun '(m, s) v => (<[v := new_validator_info now v]> m, {[v]} ∪ s))
      ((∅ : gmap PublicKey ValidatorInfo), (∅ : gset PublicKey)) validators in
  mkValidatorSet validators m s.

Definition ValidatorSet_empty : ValidatorSet := mkValidatorSet [] ∅ ∅.

Definition is_validator (s : ValidatorSet) (v : PublicKey) : bool := bool_decide (v ∈ vset_set s).
Definition validator_count (s : ValidatorSet) : Z := len (vset_validators s).
Definition get_validator_by_index (s : ValidatorSet) (i : nat) : option PublicKey :=
  vset_validators s !! i.
Definition get_validator_info (s : ValidatorSet) (v : PublicKey) : option ValidatorInfo :=
  vset_map s !! v.

Section operations.
Context `{HexCrate}.

(** [ValidatorSet::add_validator]; [now] is the clock. *)
Definition add_validator (now : Z) (v : PublicKey) : VStM ValidatorSet unit :=
  s ← get;
  _ ← lift (ensure (negb (is_validator s v))
              (ConsensusError ("Validator " ++ PublicKey_to_hex v ++ " already exists")));
  modify (fun s => mkValidatorSet (vset_validators s ++ [v])
                     (<[v := new_validator_info now v]> (vset_map s)) ({[v]} ∪ vset_set s)).

Definition not_found (v : PublicKey) : VotingError :=
  InvalidValidator ("Validator " ++ PublicKey_to_hex v ++ " not found").

Definition remove_validator (v : PublicKey) : VStM ValidatorSet unit :=
  s ← get;
  _ ← lift (ensure (is_validator s v) (not_found v));
  modify (fun s => mkValidatorSet (filter (fun w => w <> v) (vset_validators s))
                     (delete v (vset_map s)) (vset_set s ∖ {[v]})).

(** [get_validator_info_mut(v).ok_or(..)?] followed by an update of the record. *)
Definition update_info (v : PublicKey) (f : ValidatorInfo -> ValidatorInfo) : VStM ValidatorSet unit :=
  s ← get;
  info ← lift (ok_or (get_validator_info s v) (not_found v));
  modify (fun s => mkValidatorSet (vset_validators s) (<[v := f info]> (vset_map s)) (vset_set s)).

Definition record_block_produced (v : PublicKey) : VStM ValidatorSet unit :=
  update_info v (fun i => mkValidatorInfo (vi_public_key i) (vi_added_at i)
    (u64_add (vi_blocks_produced i) 1) (vi_blocks_validated i) (vi_is_active i)).

Definition record_block_validated (v : PublicKey) : VStM ValidatorSet unit :=
  update_info v (fun i => mkValidatorInfo (vi_public_key i) (vi_added_at i)
    (vi_blocks_produced i) (u64_add (vi_blocks_validated i) 1) (vi_is_active i)).

Definition set_validator_active (v : PublicKey) (active : bool) : VStM ValidatorSet unit :=
  update_info v (fun i => mkValidatorInfo (vi_public_key i) (vi_added_at i)
    (vi_blocks_produced i) (vi_blocks_validated i) active).
End operations.

Definition active_validators (s : ValidatorSet) : list PublicKey :=
  List.filter (fun v => match vset_map s !! v with Some i => vi_is_active i | None => false end)
    (vset_validators s).
Definition active_validator_count (s : ValidatorSet) : Z := len (active_validators s).

(** The sums over the map's values, in [u64]. *)
Definition total_blocks_produced (s : ValidatorSet) : Z :=
  map_fold (fun _ i acc => u64_add acc (vi_blocks_produced i)) 0 (vset_map s).
Definition total_blocks_validated (s : ValidatorSet) : Z :=
  map_fold (fun _ i acc => u64_add acc (vi_blocks_validated i)) 0 (vset_map s).

Record ValidatorSetStats := mkValidatorSetStats {
  vss_total_validators : Z;
  vss_active_validators : Z;
  vss_inactive_validators : Z;
  vss_total_blocks_produced : Z;
  vss_total_blocks_validated : Z
}.

Definition ValidatorSet_get_stats (s : ValidatorSet) : ValidatorSetStats :=
  mkValidatorSetStats (validator_count s) (active_validator_count s)
    (wrap 64 (validator_count s - active_validator_count s))
    (total_blocks_produced s) (total_blocks_validated s).

(** ** The invariant *)
Record vset_wf (s : ValidatorSet) : Prop := {
  vset_set_list : forall v, v ∈ vset_set s <-> v ∈ vset_validators s;
  vset_map_list : forall v, is_Some (vset_map s !! v) <-> v ∈ vset_validators s;
  vset_map_key : forall v i, vset_map s !! v = Some i -> vi_public_key i = v
}.

Lemma is_validator_true s v : vset_wf s -> is_validator s v = true <-> v ∈ vset_validators s.
Proof. intros Hwf. unfold is_validator. rewrite bool_decide_eq_true. apply Hwf. Qed.

Lemma ValidatorSet_new_validators now vs : vset_validators (ValidatorSet_new now vs) = vs.
Proof. unfold ValidatorSet_new. by destruct (foldl _ _ _). Qed.

Lemma ValidatorSet_new_wf now vs : vset_wf (ValidatorSet_new now vs).
Proof.
  unfold ValidatorSet_new.
  enough (forall pre rest m s,
    vset_wf (mkValidatorSet pre m s) ->
    vset_wf (let '(m', s') := foldl (fun '(m, s) v => (<[v := new_validator_info now v]> m, {[v]} ∪ s))
               (m, s) rest in mkValidatorSet (pre ++ rest) m' s')) as Hgen.
  { apply (Hgen [] vs). split; cbn; [set_solver| |set_solver].
    intros v. rewrite lookup_empty. split; [by intros []|set_solver]. }
  intros pre rest. revert pre. induction rest as [|v rest IH]; intros pre m s Hwf; cbn [foldl].
  { by rewrite app_nil_r. }
  specialize (IH (pre ++ [v]) (<[v := new_validator_info now v]> m) ({[v]} ∪ s)).
  rewrite <- app_assoc in IH. apply IH. destruct Hwf as [H1 H2 H3]. cbn in *. split; cbn.
  - set_solver.
  - intros w. rewrite lookup_insert_is_Some', H2. set_solver.
  - intros w i [[<- <-]|[_ Hw]]%lookup_insert_Some; [done|by apply H3].
Qed.

Section invariant.
Context `{HexCrate}.

Lemma add_validator_eq now v s :
  add_validator now v s =
    if is_validator s v then (Err (ConsensusError ("Validator " ++ PublicKey_to_hex v ++ " already exists")), s)
    else (Ok tt, mkValidatorSet (vset_validators s ++ [v])
                   (<[v := new_validator_info now v]> (vset_map s)) ({[v]} ∪ vset_set s)).
Proof. unfold add_validator, mbind, stM_bind, get, lift, modify, ensure. by destruct (is_validator s v). Qed.

Lemma remove_validator_eq v s :
  remove_validator v s =
    if is_validator s v
    then (Ok tt, mkValidatorSet (filter (fun w => w <> v) (vset_validators s))
                   (delete v (vset_map s)) (vset_set s ∖ {[v]}))
    else (Err (not_found v), s).
Proof. unfold remove_validator, mbind, stM_bind, get, lift, modify, ensure. by destruct (is_validator s v). Qed.

Lemma update_info_eq v f s :
  update_info v f s =
    match vset_map s !! v with
    | Some i => (Ok tt, mkValidatorSet (vset_validators s) (<[v := f i]> (vset_map s)) (vset_set s))
    | None => (Err (not_found v), s)
    end.
Proof.
  unfold update_info, mbind, stM_bind, get, lift, modify, ok_or, get_validator_info.
  by destruct (vset_map s !! v).
Qed.

Lemma update_info_wf v f s r s' :
  (forall i, vi_public_key (f i) = vi_public_key i) ->
  vset_wf s -> update_info v f s = (r, s') ->
  vset_wf s' /\ vset_validators s' = vset_validators s.
Proof.
  intros Hf [H1 H2 H3]. rewrite update_info_eq. destruct (vset_map s !! v) as [i|] eqn:E;
    intros [= <- <-]; [|done].
  split; [|done]. split; cbn; [done|..].
  - intros w. rewrite lookup_insert_is_Some', <- H2. split; [|by right].
    intros [<-|?]; [by rewrite E|done].
  - intros w j [[<- <-]|[_ Hw]]%lookup_insert_Some; [rewrite Hf|]; by apply H3.
Qed.

Lemma add_validator_wf now v s r s' :
  vset_wf s -> add_validator now v s = (r, s') -> vset_wf s'.
Proof.
  intros Hwf. rewrite add_validator_eq. destruct (is_validator s v); intros [= <- <-]; [done|].
  destruct Hwf as [H1 H2 H3]. split; cbn.
  - set_solver.
  - intros w. rewrite lookup_insert_is_Some', H2. set_solver.
  - intros w i [[<- <-]|[_ Hw]]%lookup_insert_Some; [done|by apply H3].
Qed.

Lemma remove_validator_wf v s r s' :
  vset_wf s -> remove_validator v s = (r, s') -> vset_wf s'.
Proof.
  intros Hwf. rewrite remove_validator_eq. destruct (is_validator s v); intros [= <- <-]; [|done].
  destruct Hwf as [H1 H2 H3]. split; cbn.
  - intros w. rewrite list_elem_of_filter. set_solver.
  - intros w. rewrite lookup_delete_is_Some, list_elem_of_filter, H2. naive_solver.
  - intros w i [_ Hw]%lookup_delete_Some. by apply H3.
Qed.

(** The operations a client can perform, as a step relation. *)
Inductive vset_step : ValidatorSet -> ValidatorSet -> Prop :=
| step_add now v s r s' : add_validator now v s = (r, s') -> vset_step s s'
| step_remove v s r s' : remove_validator v s = (r, s') -> vset_step s s'
| step_produced v s r s' : record_block_produced v s = (r, s') -> vset_step s s'
| step_validated v s r s' : record_block_validated v s = (r, s') -> vset_step s s'
| step_active v a s r s' : set_validator_active v a s = (r, s') -> vset_step s s'.

Lemma vset_step_wf s s' : vset_step s s' -> vset_wf s -> vset_wf s'.
Proof.
  intros [] Hwf; [by eapply add_validator_wf|by eapply remove_validator_wf|..];
    (eapply update_info_wf; [|done..]); done.
Qed.

Lemma vset_step_nodup s s' :
  vset_step s s' -> vset_wf s -> NoDup (vset_validators s) -> NoDup (vset_validators s').
Proof.
  intros [now v s0 r s1 E|v s0 r s1 E|v s0 r s1 E|v s0 r s1 E|v a s0 r s1 E] Hwf Hnd;
    [..|by eapply update_info_wf in E as [_ ->]|by eapply update_info_wf in E as [_ ->]
       |by eapply update_info_wf in E as [_ ->]].
  - rewrite add_validator_eq in E. destruct (is_validator s0 v) eqn:Ev; injection E as <- <-; [done|].
    cbn. apply NoDup_app. split_and!; [done| |apply NoDup_singleton].
    intros w Hw ->%list_elem_of_singleton. apply is_validator_true in Hw; [|done]. congruence.
  - rewrite remove_validator_eq in E. destruct (is_validator s0 v); injection E as <- <-; [|done].
    cbn. by apply NoDup_filter.
Qed.

(** C25: from any initial list, after any sequence of operations of a validator
    set, the list, the map and the membership set agree and each record carries its
    own key; and if the initial list has no duplicates, no validator is ever listed
    twice. *)
Theorem validator_set_invariant (now : Z) (vs : list PublicKey) (s : ValidatorSet) :
  rtc vset_step (ValidatorSet_new now vs) s ->
  vset_wf s /\ (NoDup vs -> NoDup (vset_validators s)).
Proof.
  assert (vset_wf (ValidatorSet_new now vs)) as Hwf0 by apply ValidatorSet_new_wf.
  assert (vset_validators (ValidatorSet_new now vs) = vs) as Hvs0.
  { unfold ValidatorSet_new. by destruct (foldl _ _ _). }
  rewrite <- Hvs0 at 2. clear Hvs0. revert Hwf0.
  generalize (ValidatorSet_new now vs). intros s0 Hwf0 Hsteps.
  induction Hsteps as [s0|s0 s1 s2 Hstep _ IH]; [done|].
  pose proof (vset_step_wf _ _ Hstep Hwf0) as Hwf1. apply IH in Hwf1 as [Hwf2 Hnd].
  split; [done|]. intros Hnd0. apply Hnd. by eapply vset_step_nodup.
Qed.

(** Adding and removing validators do what they say: adding a new key makes
    it a validator at the end of the order and changes nobody else, adding a known one
    is refused; removing a known key removes it and nobody else, removing an unknown
    one is refused; refused operations change nothing. *)
Theorem add_remove_validator_spec (now : Z) (v : PublicKey) (s : ValidatorSet) :
  (if is_validator s v
   then exists e, add_validator now v s = (Err e, s)
   else exists s', add_validator now v s = (Ok tt, s') /\
          vset_validators s' = vset_validators s ++ [v] /\
          forall w, is_validator s' w = bool_decide (w = v) || is_validator s w) /\
  (if is_validator s v
   then exists s', remove_validator v s = (Ok tt, s') /\
          forall w, is_validator s' w = negb (bool_decide (w = v)) && is_validator s w
   else exists e, remove_validator v s = (Err e, s)).
Proof.
  rewrite add_validator_eq, remove_validator_eq.
  destruct (is_validator s v).
  - split; [by eexists|]. eexists. split; [done|]. intros w. unfold is_validator. cbn.
    repeat case_bool_decide; cbn; try done; set_solver.
  - split; [|by eexists]. eexists. split; [done|]. split; [done|]. intros w.
    unfold is_validator. cbn. repeat case_bool_decide; cbn; try done; set_solver.
Qed.
End invariant.
