(* ===== verification/ProofOfAuthority.v ===== *)
(** * Proof of authority: crates/blockchain-core/src/consensus/proof_of_authority.rs
      and the [Consensus] trait of consensus/mod.rs

    Validators take turns by height, in the order of their key bytes.  The trait is
    a type class; the clock is an argument of the methods that read it.  Division
    by a zero block time panics. *)
From stdpp Require Import prelude gmap strings list pretty.
From S2P Require Import Prelude Types Merkle Transaction Block ValidatorSet.

Local Open Scope Z_scope.

(** The trait [Consensus]. *)
Class Consensus (M : Type) := {
  validate_block : M -> Block -> VResult unit;
  can_produce_block : M -> Z -> PublicKey -> VResult bool;
  get_current_validator : M -> Z -> VResult PublicKey;
  is_finalized : M -> Block -> bool;
  required_signatures : M -> Z
}.

Record ProofOfAuthority := mkProofOfAuthority {
  poa_validator_set : ValidatorSet;
  poa_block_time : Z;
  poa_current_round : Z
}.

Definition ProofOfAuthority_new (s : ValidatorSet) : ProofOfAuthority := mkProofOfAuthority s 5 0.
Definition ProofOfAuthority_with_block_time (s : ValidatorSet) (block_time : Z) : ProofOfAuthority :=
  mkProofOfAuthority s block_time 0.

(** The comparison [a.as_bytes().cmp(b.as_bytes())]. *)
Definition key_leb (a b : PublicKey) : bool :=
  bytes_leb (array_list (public_key_bytes a)) (array_list (public_key_bytes b)).

Definition sorted_validators (poa : ProofOfAuthority) : list PublicKey :=
  sort_by key_leb (vset_validators (poa_validator_set poa)).

(** [get_block_producer]: the validator whose turn it is at a height. *)
Definition get_block_producer (poa : ProofOfAuthority) (block_height : Z) : VResult PublicKey :=
  if validator_count (poa_validator_set poa) =? 0
  then Err (ConsensusError "No validators available")
  else
    let sorted := sorted_validators poa in
    unwrap (sorted !! Z.to_nat (block_height mod len sorted)).

Definition get_validator_at_time (poa : ProofOfAuthority) (timestamp : Z) : VResult PublicKey :=
  if validator_count (poa_validator_set poa) =? 0
  then Err (ConsensusError "No validators available")
  else if poa_block_time poa =? 0 then Panic
  else
    let round := timestamp / poa_block_time poa in
    let sorted := sorted_validators poa in
    unwrap (sorted !! Z.to_nat (round mod len sorted)).

Definition is_validator_turn_by_height (poa : ProofOfAuthority) (v : PublicKey) (h : Z) : VResult bool :=
  expected ← get_block_producer poa h;
  Ok (bool_decide (expected = v)).

Definition is_validator_turn (poa : ProofOfAuthority) (v : PublicKey) (timestamp : Z) : VResult bool :=
  expected ← get_validator_at_time poa timestamp;
  Ok (bool_decide (expected = v)).

Definition get_validator_time_slot (poa : ProofOfAuthority) (timestamp : Z) : VResult (Z * Z) :=
  if poa_block_time poa =? 0 then Panic
  else
    let slot_start := u64_mul (timestamp / poa_block_time poa) (poa_block_time poa) in
    Ok (slot_start, u64_add slot_start (poa_block_time poa)).

Definition validate_block_timing (poa : ProofOfAuthority) (b : Block) : VResult unit :=
  slot ← get_validator_time_slot poa (block_timestamp b);
  let '(slot_start, slot_end) := slot in
  ensure (negb ((block_timestamp b <? slot_start) || (slot_end <=? block_timestamp b)))
    (ConsensusError ("Block timestamp " ++ pretty (block_timestamp b) ++
       " is outside validator time slot [" ++ pretty slot_start ++ ", " ++ pretty slot_end ++ ")")).

Definition poa_is_validator (poa : ProofOfAuthority) (v : PublicKey) : bool :=
  is_validator (poa_validator_set poa) v.

Definition poa_required_signatures (poa : ProofOfAuthority) : Z :=
  (validator_count (poa_validator_set poa) * 2) / 3 + 1.

Definition poa_is_finalized (poa : ProofOfAuthority) (b : Block) : bool :=
  poa_required_signatures poa <=? signature_count b.

Definition poa_can_produce_block (poa : ProofOfAuthority) (now : Z) (v : PublicKey) : VResult bool :=
  if negb (poa_is_validator poa v) then Ok false else is_validator_turn poa v now.

Section poa.
Context `{HexCrate}.

(** [<ProofOfAuthority as Consensus>::validate_block]. *)
Definition poa_validate_block (poa : ProofOfAuthority) (b : Block) : VResult unit :=
  let v := bh_validator (block_header b) in
  _ ← ensure (poa_is_validator poa v)
        (InvalidValidator ("Validator " ++ PublicKey_to_hex v ++ " is not authorized"));
  turn ← is_validator_turn_by_height poa v (block_height b);
  _ ← (if negb turn then
         expected ← get_block_producer poa (block_height b);
         Err (ConsensusError ("Wrong validator turn. Expected " ++ PublicKey_to_hex expected ++
                ", got " ++ PublicKey_to_hex v))
       else Ok tt);
  validate_block_timing poa b.

Global Instance poa_consensus : Consensus ProofOfAuthority := {|
  validate_block := poa_validate_block;
  can_produce_block := poa_can_produce_block;
  get_current_validator := get_validator_at_time;
  is_finalized := poa_is_finalized;
  required_signatures := poa_required_signatures
|}.
End poa.

(** ** The turn order *)

Lemma key_leb_total a b : key_leb a b = true \/ key_leb b a = true.
Proof. apply bytes_leb_total. Qed.

Lemma key_leb_trans a b c : key_leb a b = true -> key_leb b c = true -> key_leb a c = true.
Proof. apply bytes_leb_trans. Qed.

Lemma key_leb_anti a b : key_leb a b = true -> key_leb b a = true -> a = b.
Proof.
  unfold key_leb. intros E1 E2. pose proof (bytes_leb_anti _ _ E1 E2) as E.
  destruct a, b. cbn in E. by apply array_list_inj in E as ->.
Qed.

Lemma len_sorted poa : len (sorted_validators poa) = validator_count (poa_validator_set poa).
Proof. unfold len, sorted_validators. by rewrite length_sort_by. Qed.

Lemma get_block_producer_index poa h :
  vset_validators (poa_validator_set poa) <> [] ->
  exists v, sorted_validators poa !! Z.to_nat (h mod len (sorted_validators poa)) = Some v /\
    get_block_producer poa h = Ok v.
Proof.
  intros Hne. assert (0 < len (sorted_validators poa)) as Hpos.
  { rewrite len_sorted. unfold validator_count, len. destruct (vset_validators _); [done|cbn; lia]. }
  destruct (lookup_lt_is_Some_2 (sorted_validators poa)
              (Z.to_nat (h mod len (sorted_validators poa)))) as [v Hv].
  { pose proof (Z.mod_pos_bound h _ Hpos). unfold len in *. lia. }
  exists v. split; [done|]. unfold get_block_producer.
  rewrite <- len_sorted. destruct (Z.eqb_spec (len (sorted_validators poa)) 0); [lia|]. by rewrite Hv.
Qed.

Lemma producer_is_validator poa h v :
  get_block_producer poa h = Ok v -> v ∈ vset_validators (poa_validator_set poa).
Proof.
  unfold get_block_producer, unwrap. destruct (_ =? 0); [done|].
  destruct (_ !! _) as [w|] eqn:E; [|done]. intros [= ->].
  apply list_elem_of_lookup_2 in E. unfold sorted_validators in E. by rewrite sort_by_perm in E.
Qed.

(** The turn order does not depend on the order in which a node lists the
    validators: two nodes with the same validators agree on the producer of every
    height, and without validators both report the same error. *)
Theorem producer_deterministic (p q : ProofOfAuthority) (h : Z) :
  vset_validators (poa_validator_set p) ≡ₚ vset_validators (poa_validator_set q) ->
  get_block_producer p h = get_block_producer q h.
Proof.
  intros Hp. unfold get_block_producer.
  assert (sorted_validators p = sorted_validators q) as ->.
  { apply sort_by_unique; [apply key_leb_total|apply key_leb_trans|apply key_leb_anti|done]. }
  unfold validator_count, len. by rewrite Hp.
Qed.

Lemma mod_window (n h i : Z) :
  0 < n -> 0 <= i < n -> exists k, h <= k < h + n /\ k mod n = i.
Proof.
  intros Hn Hi. exists (h + (i - h) mod n).
  pose proof (Z.mod_pos_bound (i - h) n Hn). split; [lia|].
  rewrite Zplus_mod_idemp_r. replace (h + (i - h)) with i by lia. by apply Z.mod_small.
Qed.

Lemma mod_window_inj (n h k k' : Z) :
  0 < n -> h <= k < h + n -> h <= k' < h + n -> k mod n = k' mod n -> k = k'.
Proof.
  intros Hn Hk Hk' E. pose proof (Z.div_mod k n ltac:(lia)). pose proof (Z.div_mod k' n ltac:(lia)).
  rewrite E in *. assert (k / n = k' / n \/ k / n < k' / n \/ k' / n < k / n) as [|[]] by lia; nia.
Qed.

(** A window of [n] consecutive heights has every remainder modulo [n] once. *)
Lemma window_mods (n h : Z) : 0 < n -> (fun k => k mod n) <$> seqZ h n ≡ₚ seqZ 0 n.
Proof.
  intros Hn. apply NoDup_Permutation.
  - apply NoDup_fmap_2_strong; [|apply NoDup_seqZ]. intros x y Hx Hy. rewrite elem_of_seqZ in Hx, Hy.
    by apply (mod_window_inj n h).
  - apply NoDup_seqZ.
  - intros i. rewrite list_elem_of_fmap, elem_of_seqZ. split.
    + intros (k & -> & _). pose proof (Z.mod_pos_bound k n Hn). lia.
    + intros Hi. destruct (mod_window n h i Hn ltac:(lia)) as (k & Hk & <-). exists k. by rewrite elem_of_seqZ.
Qed.

Lemma lookup_all {A} (l : list A) : (fun i => l !! Z.to_nat i) <$> seqZ 0 (len l) = Some <$> l.
Proof.
  apply list_eq. intros j. rewrite !list_lookup_fmap. destruct (decide (j < length l)%nat) as [Hj|Hj].
  - rewrite lookup_seqZ_lt by (unfold len; lia). destruct (lookup_lt_is_Some_2 l j Hj) as [x Hx]. cbn.
    by rewrite Z.add_0_l, Nat2Z.id, Hx.
  - rewrite lookup_seqZ_ge by (unfold len; lia). by rewrite lookup_ge_None_2 by lia.
Qed.

(** The producer of a height, as the entry of the sorted validators at its remainder. *)
Definition nth_validator (poa : ProofOfAuthority) (i : Z) : VResult PublicKey := unwrap (sorted_validators poa !! Z.to_nat i).

Lemma producers_window (poa : ProofOfAuthority) (h : Z) :
  get_block_producer poa <$> seqZ h (validator_count (poa_validator_set poa)) ≡ₚ
  Ok <$> vset_validators (poa_validator_set poa).
Proof.
  rewrite <- len_sorted. destruct (decide (vset_validators (poa_validator_set poa) = [])) as [E|Hne].
  { rewrite len_sorted. unfold validator_count. by rewrite E. }
  assert (0 < len (sorted_validators poa)) as Hn.
  { rewrite len_sorted. unfold validator_count, len. destruct (vset_validators _); [done|cbn; lia]. }
  trans (nth_validator poa <$> ((fun k => k mod len (sorted_validators poa)) <$> seqZ h (len (sorted_validators poa)))).
  - rewrite <- list_fmap_compose. erewrite list_fmap_ext; [reflexivity|]. intros i k _. cbn.
    destruct (get_block_producer_index poa k Hne) as (w & Hw & ->). unfold nth_validator. by rewrite Hw.
  - rewrite (window_mods _ h Hn).
    change (nth_validator poa) with (unwrap (E := VotingError) ∘ fun i => sorted_validators poa !! Z.to_nat i).
    rewrite list_fmap_compose, lookup_all, <- list_fmap_compose.
    change (Ok <$> sorted_validators poa ≡ₚ Ok (E := VotingError) <$> vset_validators (poa_validator_set poa)).
    unfold sorted_validators. by rewrite sort_by_perm.
Qed.

(** C23: round robin is fair: in every window of as many consecutive heights as the set lists
    validators, the producers are the listed validators, each as many times as it is listed
    (a set may be created with repeated keys, and such a key then has that many turns); so
    when the keys are distinct each validator produces exactly one block of the window. *)
Theorem round_robin_fair (poa : ProofOfAuthority) (h : Z) :
  let validators := vset_validators (poa_validator_set poa) in
  let n := validator_count (poa_validator_set poa) in
  get_block_producer poa <$> seqZ h n ≡ₚ Ok <$> validators /\
  (NoDup validators -> forall v, v ∈ validators ->
     exists k, (h <= k < h + n /\ get_block_producer poa k = Ok v) /\
       forall k', h <= k' < h + n -> get_block_producer poa k' = Ok v -> k' = k).
Proof.
  intros validators n. pose proof (producers_window poa h) as Hperm. split; [done|]. intros Hnd v Hv.
  assert (NoDup (get_block_producer poa <$> seqZ h n)) as Hd. { unfold n. rewrite Hperm. apply NoDup_fmap_2; [|done]. by intros ?? [=]. }
  assert (Ok v ∈ get_block_producer poa <$> seqZ h n) as (i & Hi)%list_elem_of_lookup.
  { unfold n. rewrite Hperm. by apply list_elem_of_fmap_2. }
  pose proof Hi as (k & Ev & [-> Hlt]%lookup_seqZ)%list_lookup_fmap_Some.
  exists (h + Z.of_nat i). split; [split; [lia|done]|]. intros k' Hk' Ek'.
  assert ((get_block_producer poa <$> seqZ h n) !! Z.to_nat (k' - h) = Some (Ok v)) as Hi'.
  { apply list_lookup_fmap_Some. exists k'. split; [done|]. apply lookup_seqZ. lia. }
  pose proof (NoDup_lookup _ _ _ _ Hd Hi Hi'). lia.
Qed.

(** ** Block validation *)
Section poa_validation.
Context `{HexCrate}.

(** The slot is computed from the block's own timestamp, so the timestamp is in it. *)
Lemma slot_contains (poa : ProofOfAuthority) (t : Z) :
  0 < poa_block_time poa -> is_u64 t -> t + poa_block_time poa < 2 ^ 64 ->
  exists s e, get_validator_time_slot poa t = Ok (s, e) /\ s <= t < e.
Proof.
  intros Hbt Ht Hmax. unfold is_u64 in Ht. unfold get_validator_time_slot.
  destruct (Z.eqb_spec (poa_block_time poa) 0); [lia|]. do 2 eexists. split; [done|].
  pose proof (Z.div_mod t (poa_block_time poa) ltac:(lia)).
  pose proof (Z.mod_pos_bound t (poa_block_time poa) Hbt).
  assert (0 <= t / poa_block_time poa) by (apply Z.div_pos; lia).
  unfold u64_add, u64_mul. rewrite (wrap_small 64 (_ * _)) by nia.
  rewrite wrap_small by nia. nia.
Qed.

Lemma validate_block_timing_Ok poa b :
  0 < poa_block_time poa -> is_u64 (block_timestamp b) ->
  block_timestamp b + poa_block_time poa < 2 ^ 64 -> validate_block_timing poa b = Ok tt.
Proof.
  intros Hbt Ht Hmax. destruct (slot_contains poa (block_timestamp b)) as (s & e & Hs & Hin); [done..|].
  unfold validate_block_timing. rewrite Hs. cbn [mbind result_bind]. apply ensure_Ok.
  rewrite negb_true_iff, orb_false_iff, Z.ltb_ge, Z.leb_gt. lia.
Qed.

Lemma poa_validate_block_Ok poa b :
  vset_wf (poa_validator_set poa) -> 0 < poa_block_time poa ->
  is_u64 (block_timestamp b) -> block_timestamp b + poa_block_time poa < 2 ^ 64 ->
  poa_validate_block poa b = Ok tt <->
  get_block_producer poa (block_height b) = Ok (bh_validator (block_header b)).
Proof.
  intros Hwf Hbt Ht Hmax. unfold poa_validate_block, is_validator_turn_by_height.
  rewrite ensure_bind. unfold poa_is_validator. rewrite is_validator_true by done.
  split.
  - intros [_ Hturn]. apply bind_Ok in Hturn as (turn & Hturn & Hrest).
    apply bind_Ok in Hturn as (w & Hw & [= <-]). rewrite Hw.
    case_bool_decide; [by subst|]. cbn in Hrest. by rewrite Hw in Hrest.
  - intros Hp. rewrite Hp. cbn [mbind result_bind]. rewrite bool_decide_eq_true_2 by done. cbn [negb].
    split; [by eapply producer_is_validator|]. by apply validate_block_timing_Ok.
Qed.

(** With a positive block time and a timestamp that does not reach the end of
    the [u64] range, proof of authority accepts a block exactly when its validator is
    the one whose turn it is at the block's height.  The timestamp never causes a
    rejection: the time slot is derived from the block's own timestamp, so the
    secondary timing check always passes. *)
Theorem poa_accepts_turn (poa : ProofOfAuthority) (b : Block) :
  vset_wf (poa_validator_set poa) -> 0 < poa_block_time poa ->
  is_u64 (block_timestamp b) -> block_timestamp b + poa_block_time poa < 2 ^ 64 ->
  (validate_block poa b = Ok tt <->
     get_block_producer poa (block_height b) = Ok (bh_validator (block_header b))) /\
  validate_block_timing poa b = Ok tt.
Proof. intros. split; [by apply poa_validate_block_Ok|by apply validate_block_timing_Ok]. Qed.

(** C24: quorum intersection.  Any two groups of validators that reach the
    required number of signatures share more members than the Byzantine faults the
    set tolerates, that is at least [f + 1] where [f = (n - 1) / 3]; and the honest
    validators alone reach the required number. *)
Theorem poa_quorum_intersection (poa : ProofOfAuthority) (Q1 Q2 : gset PublicKey) :
  let n := validator_count (poa_validator_set poa) in
  let f := (n - 1) / 3 in
  NoDup (vset_validators (poa_validator_set poa)) -> 0 < n ->
  (forall v, v ∈ Q1 ∪ Q2 -> v ∈ vset_validators (poa_validator_set poa)) ->
  required_signatures poa <= Z.of_nat (size Q1) -> required_signatures poa <= Z.of_nat (size Q2) ->
  f + 1 <= Z.of_nat (size (Q1 ∩ Q2)) /\ required_signatures poa <= n - f.
Proof.
  cbn. intros Hnd Hn Hsub H1 H2. unfold poa_required_signatures in *.
  assert (size (Q1 ∪ Q2) <= length (vset_validators (poa_validator_set poa)))%nat as Hu.
  { rewrite <- (size_list_to_set (C := gset PublicKey) (vset_validators _)) by done.
    apply subseteq_size. intros v Hv. apply elem_of_list_to_set. by apply Hsub. }
  pose proof (size_union_alt Q1 Q2) as Hs1.
  assert (size (Q2 ∖ Q1) + size (Q1 ∩ Q2) = size Q2)%nat as Hs2.
  { rewrite <- size_union by set_solver. f_equal. apply set_eq. intros v.
    destruct (decide (v ∈ Q1)); set_solver. }
  unfold validator_count, len in *.
  set (n := length (vset_validators (poa_validator_set poa))) in *.
  clearbody n. clear Hsub Hnd. Z.to_euclidean_division_equations. lia.
Qed.

(** [is_finalized] counts signatures, not signers: a block that carries the
    signature of a single key often enough is finalized, whether or not the key is a
    validator. *)
Theorem poa_finality_counts_duplicates (poa : ProofOfAuthority) (b : Block) (v : PublicKey)
    (sig : Signature) :
  is_finalized poa (Nat.iter (Z.to_nat (required_signatures poa))
                      (fun b => add_signature b v sig) b) = true.
Proof.
  assert (forall n, signature_count (Nat.iter n (fun b => add_signature b v sig) b)
                    = signature_count b + Z.of_nat n) as Hn.
  { induction n as [|n IH]; [change (signature_count b = signature_count b + 0); lia|].
    rewrite Nat.iter_succ. unfold signature_count, len in *.
    cbn [add_signature block_signatures]. rewrite length_app. cbn [length]. lia. }
  change (poa_is_finalized poa (Nat.iter (Z.to_nat (poa_required_signatures poa))
            (fun b => add_signature b v sig) b) = true).
  unfold poa_is_finalized. apply Z.leb_le. rewrite Hn.
  pose proof (len_nonneg (block_signatures b)). unfold signature_count. lia.
Qed.
End poa_validation.
