(* ===== verification/Finality.v ===== *)
(** * Finality: crates/blockchain-core/src/consensus/finality.rs

    A block is final once enough different keys signed it.  The threshold is an
    [f64] and the required number of signatures is computed in [f64] arithmetic,
    modelled bit-exactly by [Floats64]. *)
From stdpp Require Import prelude gmap strings list.
From S2P Require Import Prelude Floats64 Types Merkle Transaction Block.

Local Open Scope Z_scope.

Record FinalityInfo := mkFinalityInfo {
  fi_block_hash : BlockHash;
  fi_height : Z;
  fi_signatures : gset PublicKey;
  fi_total_validators : Z;
  fi_is_finalized : bool;
  fi_finalized_at : option Z
}.

Record FinalityTracker := mkFinalityTracker {
  ft_threshold : f64;
  ft_map : gmap BlockHash FinalityInfo;
  ft_highest_finalized_height : Z;
  ft_highest_finalized_hash : BlockHash
}.

Inductive FinalityStatus :=
| Finalized
| Pending (signatures required : Z).

Definition FinalityTracker_new (threshold : f64) : FinalityTracker :=
  mkFinalityTracker threshold ∅ 0 BlockHash_zero.

(** [calculate_required_signatures]. *)
Definition calculate_required_signatures (threshold : f64) (total_validators : Z) : Z :=
  if total_validators =? 0 then 0
  else Z.max 1 (f64_to_usize (f64_ceil (f64_mul (f64_of_Z total_validators) threshold))).

(** The entry [or_insert_with] makes for a block seen for the first time. *)
Definition new_finality_info (b : Block) (total_validators : Z) : FinalityInfo :=
  mkFinalityInfo (block_hash b) (block_height b) ∅ total_validators false None.

Definition signers (b : Block) : gset PublicKey := list_to_set (vs_validator <$> block_signatures b).

(** [FinalityTracker::check_finality]; [now] is the clock. *)
Definition check_finality (now : Z) (b : Block) (total_validators : Z) (t : FinalityTracker)
  : FinalityStatus * FinalityTracker :=
  let hash := block_hash b in
  let required := calculate_required_signatures (ft_threshold t) total_validators in
  let info := default (new_finality_info b total_validators) (ft_map t !! hash) in
  let sigs := foldl (fun s sig => {[vs_validator sig]} ∪ s) (fi_signatures info) (block_signatures b) in
  let count := Z.of_nat (size sigs) in
  if (required <=? count) && negb (fi_is_finalized info) then
    let info' := mkFinalityInfo (fi_block_hash info) (fi_height info) sigs
                   (fi_total_validators info) true (Some now) in
    let higher := ft_highest_finalized_height t <? block_height b in
    (Finalized,
     mkFinalityTracker (ft_threshold t) (<[hash := info']> (ft_map t))
       (if higher then block_height b else ft_highest_finalized_height t)
       (if higher then hash else ft_highest_finalized_hash t))
  else
    let info' := mkFinalityInfo (fi_block_hash info) (fi_height info) sigs
                   (fi_total_validators info) (fi_is_finalized info) (fi_finalized_at info) in
    let t' := mkFinalityTracker (ft_threshold t) (<[hash := info']> (ft_map t))
                (ft_highest_finalized_height t) (ft_highest_finalized_hash t) in
    if fi_is_finalized info then (Finalized, t') else (Pending count required, t').

Definition tracker_is_finalized (t : FinalityTracker) (hash : BlockHash) : bool :=
  match ft_map t !! hash with Some info => fi_is_finalized info | None => false end.

Definition get_finality_info (t : FinalityTracker) (hash : BlockHash) : option FinalityInfo :=
  ft_map t !! hash.

(** [finality_map.values().filter(..)]; the order of a hash map is unspecified,
    here it is the order of [map_to_list]. *)
Definition get_finalized_blocks (t : FinalityTracker) : list FinalityInfo :=
  filter (fun i => fi_is_finalized i = true) (snd <$> map_to_list (ft_map t)).
Definition get_pending_blocks (t : FinalityTracker) : list FinalityInfo :=
  filter (fun i => fi_is_finalized i = false) (snd <$> map_to_list (ft_map t)).
Definition finalized_count (t : FinalityTracker) : Z := len (get_finalized_blocks t).
Definition pending_count (t : FinalityTracker) : Z := len (get_pending_blocks t).

Definition prune_below_height (min_height : Z) (t : FinalityTracker) : FinalityTracker :=
  mkFinalityTracker (ft_threshold t)
    (filter (fun '(_, i) => min_height <= fi_height i) (ft_map t))
    (ft_highest_finalized_height t) (ft_highest_finalized_hash t).

Definition tracker_clear (t : FinalityTracker) : FinalityTracker :=
  mkFinalityTracker (ft_threshold t) ∅ 0 BlockHash_zero.

Record FinalityStats := mkFinalityStats {
  fs_total_blocks : Z;
  fs_finalized_blocks : Z;
  fs_pending_blocks : Z;
  fs_highest_finalized_height : Z;
  fs_highest_finalized_hash : BlockHash;
  fs_threshold : f64
}.

Definition tracker_get_stats (t : FinalityTracker) : FinalityStats :=
  mkFinalityStats (Z.of_nat (size (ft_map t))) (finalized_count t) (pending_count t)
    (ft_highest_finalized_height t) (ft_highest_finalized_hash t) (ft_threshold t).

Definition status_is_finalized (s : FinalityStatus) : bool :=
  match s with Finalized => true | Pending _ _ => false end.
Definition status_signature_count (s : FinalityStatus) : option Z :=
  match s with Pending signatures _ => Some signatures | Finalized => None end.
Definition status_required_count (s : FinalityStatus) : option Z :=
  match s with Pending _ required => Some required | Finalized => None end.

(** ** Properties *)

Lemma insert_signers (l : list ValidatorSignature) (s : gset PublicKey) :
  foldl (fun s sig => {[vs_validator sig]} ∪ s) s l = s ∪ list_to_set (vs_validator <$> l).
Proof.
  revert s. induction l as [|sig l IH]; intros s; cbn; [set_solver|]. rewrite IH. set_solver.
Qed.

(** The signers known for a block so far. *)
Definition known_signers (t : FinalityTracker) (hash : BlockHash) : gset PublicKey :=
  match ft_map t !! hash with Some i => fi_signatures i | None => ∅ end.

(** [check_finality] adds the block's signers to those already known, each
    key counted once, and reports [Finalized] exactly when the block was final before
    or the number of distinct signers reaches the required one; otherwise it reports
    both numbers.  Afterwards the tracker's answer for the block is the reported one
    (finality is permanent), and the answers for all other blocks are unchanged. *)
Theorem check_finality_spec (now : Z) (b : Block) (total : Z) (t : FinalityTracker) :
  let '(status, t') := check_finality now b total t in
  let sigs := known_signers t (block_hash b) ∪ signers b in
  let required := calculate_required_signatures (ft_threshold t) total in
  known_signers t' (block_hash b) = sigs /\
  status = (if tracker_is_finalized t (block_hash b) || (required <=? Z.of_nat (size sigs))
            then Finalized else Pending (Z.of_nat (size sigs)) required) /\
  tracker_is_finalized t' (block_hash b) = status_is_finalized status /\
  forall hash, hash <> block_hash b -> ft_map t' !! hash = ft_map t !! hash.
Proof.
  unfold check_finality, known_signers, tracker_is_finalized, signers. rewrite insert_signers.
  destruct (ft_map t !! block_hash b) as [[bh h s tot fin at_]|]; cbn [default from_option id];
    cbn [fi_signatures fi_is_finalized new_finality_info];
    destruct (_ <=? _) eqn:Er; [destruct fin..| |]; cbn;
    rewrite lookup_insert_eq; split_and!; try done; intros hash Hne; by rewrite lookup_insert_ne.
Qed.

(** ** The highest final block

    Steps of a tracker; a block hash identifies a height, which holds for valid
    blocks since the height is part of the hashed header. *)
Inductive tracker_step : FinalityTracker -> FinalityTracker -> Prop :=
| step_check now b total t :
    (forall i, ft_map t !! block_hash b = Some i -> fi_height i = block_height b) ->
    tracker_step t (snd (check_finality now b total t))
| step_prune min_height t : tracker_step t (prune_below_height min_height t).

Definition highest_bound (t : FinalityTracker) : Prop :=
  forall hash i, ft_map t !! hash = Some i -> fi_is_finalized i = true ->
    fi_height i <= ft_highest_finalized_height t.

Lemma check_finality_highest now b total t :
  ft_highest_finalized_height t <= ft_highest_finalized_height (snd (check_finality now b total t)).
Proof. unfold check_finality. repeat case_match; cbn; lia. Qed.

Lemma tracker_step_bound t t' : tracker_step t t' -> highest_bound t -> highest_bound t'.
Proof.
  intros [now b total t0 Hheight|min_height t0] Hb hash i.
  - unfold check_finality. rewrite insert_signers.
    set (info := default _ _). assert (fi_height info = block_height b) as Hi.
    { unfold info. destruct (ft_map t0 !! block_hash b) as [j|] eqn:E; [by apply Hheight|done]. }
    assert (fi_is_finalized info = true -> fi_height info <= ft_highest_finalized_height t0) as Hold.
    { unfold info. destruct (ft_map t0 !! block_hash b) as [j|] eqn:E; [by apply Hb in E|done]. }
    destruct (_ && _) eqn:E; [|destruct (fi_is_finalized info) eqn:Ef]; cbn;
      intros [[<- <-]|[_ Hl]]%lookup_insert_Some; cbn; intros Hf.
    + destruct (Z.ltb_spec (ft_highest_finalized_height t0) (block_height b)); lia.
    + specialize (Hb _ _ Hl Hf).
      destruct (Z.ltb_spec (ft_highest_finalized_height t0) (block_height b)); lia.
    + by apply Hold.
    + by eapply Hb.
    + done.
    + by eapply Hb.
  - cbn. intros [Hl _]%map_lookup_filter_Some. by eapply Hb.
Qed.

(** Along any sequence of checks and prunings the highest final height never
    decreases, and no final block the tracker knows is above it. *)
Theorem highest_finalized_monotone (threshold : f64) (t t' : FinalityTracker) :
  rtc tracker_step (FinalityTracker_new threshold) t -> rtc tracker_step t t' ->
  ft_highest_finalized_height t <= ft_highest_finalized_height t' /\ highest_bound t'.
Proof.
  intros H0 H1. split.
  - induction H1 as [t|t t1 t' Hs _ IH]; [done|].
    etrans; [|apply IH; by eapply rtc_r]. destruct Hs; [apply check_finality_highest|done].
  - assert (rtc tracker_step (FinalityTracker_new threshold) t') as Hr by by etrans.
    assert (highest_bound (FinalityTracker_new threshold)) as Hb.
    { intros hash i Hl. cbn in Hl. by rewrite lookup_empty in Hl. }
    clear H0 H1. induction Hr as [|x y z Hs _ IH]; [done|]. apply IH. by eapply tracker_step_bound.
Qed.

(** The required numbers for the default threshold, for set sizes up to [k]. *)
Definition two_thirds_check (k : nat) : bool :=
  forallb (fun n => let r := calculate_required_signatures f64_0_67 (Z.of_nat n) in
                    (2 * Z.of_nat n <? 3 * r) && (r <=? Z.of_nat n)) (seq 1 k).

Lemma two_thirds_check_sound k n :
  two_thirds_check k = true -> (1 <= n <= k)%nat ->
  let r := calculate_required_signatures f64_0_67 (Z.of_nat n) in
  2 * Z.of_nat n < 3 * r /\ r <= Z.of_nat n.
Proof.
  unfold two_thirds_check. rewrite forallb_forall. intros Hc Hn.
  destruct (andb_prop _ _ (Hc n ltac:(apply in_seq; lia))) as [H1 H2].
  cbn zeta in *. lia.
Qed.

Lemma two_thirds_1000 : two_thirds_check 1000 = true.
Proof. by vm_compute. Qed.

(** With the default threshold 0.67, in [f64] arithmetic, for every validator
    set of 1 to 1000 members the required number of signatures is more than two thirds
    of the set and at most the whole set.  For three validators it is three, not the
    two the unit tests of this module expect.  With no validators it is zero, so that
    an unsigned block is final. *)
Theorem default_threshold_two_thirds (n : Z) :
  1 <= n <= 1000 ->
  (2 * n < 3 * calculate_required_signatures f64_0_67 n /\
   calculate_required_signatures f64_0_67 n <= n) /\
  calculate_required_signatures f64_0_67 3 = 3 /\
  forall threshold, calculate_required_signatures threshold 0 = 0.
Proof.
  intros Hn. split; [|split; [by vm_compute|done]].
  rewrite <- (Z2Nat.id n) by lia. eapply two_thirds_check_sound; [exact two_thirds_1000|lia].
Qed.
