(* ===== verification/ConsensusEngine.v ===== *)
(** * The consensus engine: crates/blockchain-core/src/consensus/mod.rs

    The engine combines a mechanism (any instance of [Consensus]), a validator set
    and a finality tracker.  [new_poa] gives the mechanism its own copy of the
    validator set; the engine's [add_validator] and [remove_validator] change only
    the engine's set. *)
From stdpp Require Import prelude gmap strings list.
From S2P Require Import Prelude Floats64 Types Merkle Transaction Block ValidatorSet ProofOfAuthority Finality.

Local Open Scope Z_scope.

Record ConsensusEngine (M : Type) := mkConsensusEngine {
  ce_mechanism : M;
  ce_validator_set : ValidatorSet;
  ce_finality_tracker : FinalityTracker
}.
Arguments mkConsensusEngine {M}.
Arguments ce_mechanism {M}.
Arguments ce_validator_set {M}.
Arguments ce_finality_tracker {M}.

(** [ConsensusEngine::new_poa]; [now] is the clock. *)
Definition new_poa (now : Z) (validators : list PublicKey) (finality_threshold : f64)
  : VResult (ConsensusEngine ProofOfAuthority) :=
  if bool_decide (validators = [])
  then Err (ConsensusError "Validator set cannot be empty")
  else
    let validator_set := ValidatorSet_new now validators in
    Ok (mkConsensusEngine (ProofOfAuthority_new validator_set) validator_set
          (FinalityTracker_new finality_threshold)).

Section engine.
Context `{HexCrate} {M : Type} `{Consensus M}.

(** [ConsensusEngine::validate_block]. *)
Definition engine_validate_block (e : ConsensusEngine M) (b : Block) : VResult unit :=
  _ ← validate_block (ce_mechanism e) b;
  _ ← ensure (is_validator (ce_validator_set e) (bh_validator (block_header b)))
        (InvalidValidator ("Unknown validator: " ++ PublicKey_to_hex (bh_validator (block_header b))));
  for_each (fun sig => ensure (is_validator (ce_validator_set e) (vs_validator sig))
                         (InvalidValidator ("Unknown validator signature: " ++
                            PublicKey_to_hex (vs_validator sig))))
    (block_signatures b).

Definition engine_check_finality (now : Z) (b : Block) : VStM (ConsensusEngine M) FinalityStatus := fun e =>
  let '(status, t) := check_finality now b (validator_count (ce_validator_set e)) (ce_finality_tracker e) in
  (Ok status, mkConsensusEngine (ce_mechanism e) (ce_validator_set e) t).

Definition engine_add_validator (now : Z) (v : PublicKey) : VStM (ConsensusEngine M) unit := fun e =>
  let '(r, s) := add_validator now v (ce_validator_set e) in
  (r, mkConsensusEngine (ce_mechanism e) s (ce_finality_tracker e)).

Definition engine_remove_validator (v : PublicKey) : VStM (ConsensusEngine M) unit := fun e =>
  let '(r, s) := remove_validator v (ce_validator_set e) in
  (r, mkConsensusEngine (ce_mechanism e) s (ce_finality_tracker e)).

Definition engine_get_current_validator (e : ConsensusEngine M) (now : Z) : VResult PublicKey :=
  get_current_validator (ce_mechanism e) now.

Definition engine_can_produce_block (e : ConsensusEngine M) (now : Z) (v : PublicKey) : VResult bool :=
  can_produce_block (ce_mechanism e) now v.

Definition engine_required_signatures (e : ConsensusEngine M) : Z :=
  required_signatures (ce_mechanism e).

(** A use of [validator_set_mut]: the set is replaced by what [f] makes of it. *)
Definition validator_set_mut (f : ValidatorSet -> ValidatorSet) (e : ConsensusEngine M) : ConsensusEngine M :=
  mkConsensusEngine (ce_mechanism e) (f (ce_validator_set e)) (ce_finality_tracker e).

Inductive engine_step : ConsensusEngine M -> ConsensusEngine M -> Prop :=
| step_engine_add now v e : engine_step e (snd (engine_add_validator now v e))
| step_engine_remove v e : engine_step e (snd (engine_remove_validator v e))
| step_engine_check now b e : engine_step e (snd (engine_check_finality now b e))
| step_engine_set_mut f e :
    vset_step (ce_validator_set e) (f (ce_validator_set e)) -> engine_step e (validator_set_mut f e).

(** Whatever the mechanism, the engine accepts a block only if the mechanism does
    and the producer and all signers are in the engine's current set. *)
Lemma engine_validate_block_Ok e b :
  engine_validate_block e b = Ok tt <->
    validate_block (ce_mechanism e) b = Ok tt /\
    is_validator (ce_validator_set e) (bh_validator (block_header b)) = true /\
    Forall (fun sig => is_validator (ce_validator_set e) (vs_validator sig) = true) (block_signatures b).
Proof.
  unfold engine_validate_block. rewrite bind_unit, ensure_bind, for_each_Ok.
  assert (forall sig, ensure (is_validator (ce_validator_set e) (vs_validator sig))
      (InvalidValidator ("Unknown validator signature: " ++ PublicKey_to_hex (vs_validator sig))) = Ok tt
      <-> is_validator (ce_validator_set e) (vs_validator sig) = true) as Hs by (intros; apply ensure_Ok).
  by setoid_rewrite Hs.
Qed.

Lemma engine_step_mechanism e e' :
  engine_step e e' -> ce_mechanism e' = ce_mechanism e.
Proof.
  intros []; unfold engine_add_validator, engine_remove_validator, engine_check_finality;
    [by case_match..|done].
Qed.

Lemma engine_steps_mechanism e e' : rtc engine_step e e' -> ce_mechanism e' = ce_mechanism e.
Proof. induction 1 as [|x y z Hs _ IH]; [done|]. rewrite IH. by apply engine_step_mechanism. Qed.

Lemma engine_step_wf e e' :
  engine_step e e' -> vset_wf (ce_validator_set e) -> vset_wf (ce_validator_set e').
Proof.
  intros [now v e0|v e0|now b e0|f e0 Hf] Hwf; cbn.
  - unfold engine_add_validator. destruct (add_validator _ _ _) eqn:E. by eapply add_validator_wf.
  - unfold engine_remove_validator. destruct (remove_validator _ _) eqn:E. by eapply remove_validator_wf.
  - unfold engine_check_finality. by destruct (check_finality _ _ _ _).
  - by eapply vset_step_wf.
Qed.
End engine.

Section poa_engine.
Context `{HexCrate}.

Lemma new_poa_Ok now vs threshold e :
  new_poa now vs threshold = Ok e ->
  vs <> [] /\ ce_mechanism e = ProofOfAuthority_new (ce_validator_set e) /\
  vset_wf (ce_validator_set e) /\ vset_validators (ce_validator_set e) = vs.
Proof.
  unfold new_poa. case_bool_decide as Hvs; [done|]. intros [= <-]. cbn.
  split_and!; [done|done|apply ValidatorSet_new_wf|].
  unfold ValidatorSet_new. by destruct (foldl _ _ _).
Qed.

(** A new engine has at least one validator and accepts exactly the blocks
    produced by the validator whose turn it is and signed by validators only; the
    signatures themselves are not checked. *)
Theorem new_engine_accepts (now : Z) (vs : list PublicKey) (threshold : f64)
    (e : ConsensusEngine ProofOfAuthority) (b : Block) :
  new_poa now vs threshold = Ok e -> is_u64 (block_timestamp b) ->
  block_timestamp b + 5 < 2 ^ 64 ->
  vs <> [] /\
  (engine_validate_block e b = Ok tt <->
     get_block_producer (ce_mechanism e) (block_height b) = Ok (bh_validator (block_header b)) /\
     forall sig, sig ∈ block_signatures b -> vs_validator sig ∈ vs).
Proof.
  intros (Hne & Hm & Hwf & Hvs)%new_poa_Ok Ht Hmax. split; [done|].
  rewrite engine_validate_block_Ok. cbn [validate_block poa_consensus].
  rewrite poa_validate_block_Ok by (rewrite ?Hm; done).
  rewrite Forall_forall. setoid_rewrite is_validator_true; [|done..]. rewrite Hvs.
  split; [naive_solver|]. intros [Hp Hs]. split_and!; [done| |done].
  apply producer_is_validator in Hp. rewrite Hm in Hp. cbn in Hp. congruence.
Qed.

(** Changes of the validator set do not reach the mechanism.  After any
    operations of an engine, a block produced by a validator that was not in the
    initial list is refused, also if the validator was added since; and at a height
    that is the turn of a validator removed since, no block is accepted at all. *)
Theorem engine_ignores_set_changes (now : Z) (vs : list PublicKey) (threshold : f64)
    (e0 e : ConsensusEngine ProofOfAuthority) (b : Block) :
  new_poa now vs threshold = Ok e0 -> rtc engine_step e0 e ->
  (bh_validator (block_header b) ∉ vs -> engine_validate_block e b <> Ok tt) /\
  (forall v, get_block_producer (ce_mechanism e0) (block_height b) = Ok v ->
     is_validator (ce_validator_set e) v = false -> engine_validate_block e b <> Ok tt).
Proof.
  intros (_ & Hm & Hwf & Hvs)%new_poa_Ok Hsteps%engine_steps_mechanism.
  split.
  - intros Hnot (Hv & _ & _)%engine_validate_block_Ok. rewrite Hsteps in Hv.
    cbn [validate_block poa_consensus] in Hv. unfold poa_validate_block in Hv.
    apply ensure_bind in Hv as [Hv _]. unfold poa_is_validator in Hv. rewrite Hm in Hv. cbn in Hv.
    apply is_validator_true in Hv; [|done]. by rewrite Hvs in Hv.
  - intros v Hp Hrem (Hv & Hin & _)%engine_validate_block_Ok. rewrite Hsteps in Hv.
    cbn [validate_block poa_consensus] in Hv. unfold poa_validate_block in Hv.
    apply ensure_bind in Hv as [_ Hv]. apply bind_Ok in Hv as (turn & Ht & Hv).
    unfold is_validator_turn_by_height in Ht. rewrite Hp in Ht. injection Ht as <-.
    case_bool_decide; [congruence|]. cbn in Hv. by rewrite Hp in Hv.
Qed.
End poa_engine.
