(* ===== verification/Crypto.v ===== *)
(** * The parts of crates/crypto the voting code calls

    Hashing (hash.rs), Ed25519 signatures (signatures.rs, keys.rs), hash commitments,
    the simplified Schnorr proof and the constant-time comparison (zkp/mod.rs), and
    ChaCha20-Poly1305 encryption (encryption.rs).  The crates [ed25519_dalek] and
    [chacha20poly1305] are parameters.  The wrappers [crypto::signatures::Signature]
    and [crypto::keys::PublicKey] hold the same bytes as their counterparts in
    [common], and [from_common]/[to_common] copy them, so the model uses the latter. *)
From stdpp Require Import prelude gmap strings list pretty.
From Stdlib Require Import Strings.Byte.
From S2P Require Import Prelude Types.

Local Open Scope Z_scope.

(** ** External crates *)

(** [ed25519_dalek]: the public key of a secret key, signing, the parsing of a
    public key ([Some e] is an error message) and verification. *)
Class Ed25519Crate := {
  ed_public : array 32 -> array 32;
  ed_sign : array 32 -> list byte -> array 64;
  ed_key_error : array 32 -> option string;
  ed_verify : array 32 -> list byte -> array 64 -> bool
}.

(** Documented: a signature made with a secret key verifies under its public key. *)
Class Ed25519Spec `{Ed25519Crate} := {
  ed_public_valid : forall sk, ed_key_error (ed_public sk) = None;
  ed_sign_verify : forall sk msg, ed_verify (ed_public sk) msg (ed_sign sk msg) = true
}.

(** [chacha20poly1305]: authenticated encryption under a key and a nonce. *)
Class AeadCrate := {
  aead_encrypt : array 32 -> array 12 -> list byte -> list byte + string;
  aead_decrypt : array 32 -> array 12 -> list byte -> list byte + string
}.

Class AeadSpec `{AeadCrate} := {
  aead_decrypt_encrypt : forall k n p c, aead_encrypt k n p = inl c -> aead_decrypt k n c = inl p
}.

(** ** hash.rs *)
Section hashing.
Context `{HashCrate}.

Definition hash_blake2b (data : list byte) : array 32 := blake2b256 data.
Definition hash_blake2b_multiple (data_pieces : list (list byte)) : array 32 :=
  blake2b256 (concat data_pieces).
End hashing.

(** ** keys.rs and signatures.rs *)
Record KeyPair := mkKeyPair { kp_private : array 32; kp_public : PublicKey }.

Section signatures.
Context `{Ed25519Crate}.

(** [KeyPair::from_private_key]. *)
Definition KeyPair_from_private_key (private : array 32) : KeyPair :=
  mkKeyPair private (mkPublicKey (ed_public private)).

Definition sign (message : list byte) (keypair : KeyPair) : VResult Signature :=
  Ok (mkSignature (ed_sign (kp_private keypair) message)).

Definition verify_signature (message : list byte) (sig : Signature) (key : PublicKey) : VResult unit :=
  match ed_key_error (public_key_bytes key) with
  | Some e => Err (CryptoError ("Invalid public key: " ++ e))
  | None =>
      ensure (ed_verify (public_key_bytes key) message (signature_bytes sig)) SignatureVerificationFailed
  end.

Definition verify_batch (items : list (list byte * Signature * PublicKey)) : VResult unit :=
  for_each (fun '(message, sig, key) => verify_signature message sig key) items.

(** [MultiSignature]. *)
Record MultiSignature := mkMultiSignature {
  ms_threshold : Z;
  ms_signatures : list (PublicKey * Signature)
}.

Definition MultiSignature_new (threshold : Z) : MultiSignature := mkMultiSignature threshold [].

Definition ms_add_signature (m : MultiSignature) (key : PublicKey) (sig : Signature) : MultiSignature :=
  mkMultiSignature (ms_threshold m) (ms_signatures m ++ [(key, sig)]).

Definition ms_verify (m : MultiSignature) (message : list byte) : VResult unit :=
  _ ← ensure (negb (len (ms_signatures m) <? ms_threshold m))
        (CryptoError ("Need " ++ pretty (ms_threshold m) ++ " signatures, got " ++
           pretty (len (ms_signatures m))));
  for_each (fun '(key, sig) => verify_signature message sig key) (ms_signatures m).

Definition ms_is_threshold_met (m : MultiSignature) (message : list byte) : bool :=
  if len (ms_signatures m) <? ms_threshold m then false else is_ok (ms_verify m message).

Lemma verify_own_signature `{!Ed25519Spec} sk message sig :
  sign message (KeyPair_from_private_key sk) = Ok sig ->
  verify_signature message sig (kp_public (KeyPair_from_private_key sk)) = Ok tt.
Proof.
  intros [= <-]. unfold verify_signature. cbn. by rewrite ed_public_valid, ed_sign_verify.
Qed.
End signatures.

(** ** zkp/mod.rs *)

(** [constant_time_eq]: the differences of all byte pairs are collected with
    bitwise or, without an early exit. *)
Definition constant_time_eq (a b : list byte) : bool :=
  if negb (len a =? len b) then false
  else foldl (fun result '(x, y) => Z.lor result (Z.lxor (byte_val x) (byte_val y))) 0 (zip a b) =? 0.

Lemma fold_differences (l : list (byte * byte)) r :
  0 <= r ->
  foldl (fun result '(x, y) => Z.lor result (Z.lxor (byte_val x) (byte_val y))) r l = 0 <->
  r = 0 /\ Forall (fun '(x, y) => x = y) l.
Proof.
  revert r. induction l as [|[x y] l IH]; intros r Hr; cbn;
    [split; [by intros ->|by intros []]|].
  assert (0 <= Z.lxor (byte_val x) (byte_val y)) as Hx.
  { apply Z.lxor_nonneg. pose proof (byte_val_range x). pose proof (byte_val_range y). lia. }
  rewrite IH, Forall_cons by (apply Z.lor_nonneg; lia).
  rewrite Z.lor_eq_0_iff, Z.lxor_eq_0_iff. split; [|naive_solver].
  intros [[-> E%byte_val_inj] Hl]. done.
Qed.

Lemma constant_time_eq_spec a b : constant_time_eq a b = true <-> a = b.
Proof.
  unfold constant_time_eq, len. destruct (Z.eqb_spec (Z.of_nat (length a)) (Z.of_nat (length b))); cbn.
  - rewrite Z.eqb_eq, fold_differences by done.
    assert (length a = length b) as Hlen by lia. clear e. split.
    + intros [_ Hl]. revert b Hlen Hl.
      induction a as [|x a IH]; intros [|y b] Hlen Hl; try done. cbn in Hl.
      apply Forall_cons in Hl as [-> Hl]. f_equal. apply IH; [by injection Hlen|done].
    + intros ->. split; [done|]. clear Hlen. induction b; cbn; by constructor.
  - split; [done|]. intros ->. lia.
Qed.

Record Commitment := mkCommitment {
  cm_value : list byte;
  cm_randomness : option (list byte)
}.

Section commitments.
Context `{HashCrate}.

Definition Commitment_new (value randomness : list byte) : Commitment :=
  mkCommitment (array_list (hash_blake2b_multiple [value; randomness])) (Some randomness).

Definition Commitment_from_value (value : list byte) : Commitment := mkCommitment value None.

Definition Commitment_open (c : Commitment) (value : list byte) : VResult bool :=
  randomness ← ok_or (cm_randomness c) (CryptoError "No randomness available");
  Ok (bool_decide (cm_value c = cm_value (Commitment_new value randomness))).

Definition verify_opening (commitment value randomness : list byte) : bool :=
  bool_decide (array_list (hash_blake2b_multiple [value; randomness]) = commitment).
End commitments.

Record SchnorrProof := mkSchnorrProof { sp_challenge : list byte; sp_response : list byte }.

(** [SchnorrProof::verify]: the "simplified verification". *)
Definition SchnorrProof_verify (p : SchnorrProof) (public_value : list byte) : VResult bool :=
  if bool_decide (sp_challenge p = []) || bool_decide (sp_response p = []) then Ok false else Ok true.

(** ** encryption.rs *)
Record EncryptedData := mkEncryptedData {
  ed_nonce : array 12;
  ed_ciphertext : list byte;
  ed_associated_data : option (list byte)
}.

Definition EncryptedData_new (nonce : array 12) (ciphertext : list byte) : EncryptedData :=
  mkEncryptedData nonce ciphertext None.

Definition EncryptedData_to_bytes (d : EncryptedData) : list byte :=
  array_list (ed_nonce d) ++ ed_ciphertext d.

(** [EncryptedData::from_bytes]: at least a nonce (12 bytes) and a tag (16). *)
Definition EncryptedData_from_bytes (bytes : list byte) : VResult EncryptedData :=
  _ ← ensure (negb (len bytes <? 12 + 16)) (CryptoError "Encrypted data too short");
  nonce ← unwrap (array_of 12 (take 12 bytes));
  Ok (EncryptedData_new nonce (drop 12 bytes)).

Section encryption.
Context `{AeadCrate}.

(** [encrypt]; [nonce] is the generated one. *)
Definition encrypt (nonce : array 12) (plaintext : list byte) (key : array 32) : VResult EncryptedData :=
  match aead_encrypt key nonce plaintext with
  | inl ciphertext => Ok (EncryptedData_new nonce ciphertext)
  | inr e => Err (CryptoError ("Encryption failed: " ++ e))
  end.

Definition decrypt (d : EncryptedData) (key : array 32) : VResult (list byte) :=
  match aead_decrypt key (ed_nonce d) (ed_ciphertext d) with
  | inl plaintext => Ok plaintext
  | inr e => Err (CryptoError ("Decryption failed: " ++ e))
  end.

(** Decryption inverts encryption, also through the byte form of the
    encrypted data when the ciphertext carries its 16-byte tag. *)
Theorem encrypt_decrypt_round_trip `{!AeadSpec} (nonce : array 12) (plaintext : list byte)
    (key : array 32) (d : EncryptedData) :
  encrypt nonce plaintext key = Ok d -> 16 <= len (ed_ciphertext d) ->
  decrypt d key = Ok plaintext /\ EncryptedData_from_bytes (EncryptedData_to_bytes d) = Ok d.
Proof.
  unfold encrypt, decrypt. destruct (aead_encrypt key nonce plaintext) as [c|] eqn:E; [|done].
  intros [= <-] Htag. cbn in *. split; [by rewrite (aead_decrypt_encrypt _ _ _ _ E)|].
  unfold EncryptedData_from_bytes, EncryptedData_to_bytes. cbn [ed_nonce ed_ciphertext EncryptedData_new].
  pose proof (length_array_list nonce) as Hn.
  assert (len (array_list nonce ++ c) = 12 + len c) as Hlen.
  { unfold len. rewrite length_app, Hn. lia. }
  rewrite Hlen. destruct (Z.ltb_spec (12 + len c) (12 + 16)); [lia|]. cbn [negb ensure mbind result_bind].
  rewrite take_app_length', drop_app_length' by done.
  by rewrite array_of_list.
Qed.
End encryption.

(** The constant-time comparison decides equality of byte strings. *)
Theorem constant_time_eq_decides_equality (a b : list byte) :
  constant_time_eq a b = bool_decide (a = b).
Proof.
  case_bool_decide as E; [by apply constant_time_eq_spec|].
  apply not_true_iff_false. by rewrite constant_time_eq_spec.
Qed.
