(* ===== verification/Threshold.v ===== *)
(** * Threshold signatures: crates/crypto/src/threshold.rs

    A scheme (t of n participants), the container of partial signatures and the
    aggregator that collects them.  Random key generation is an argument. *)
From stdpp Require Import prelude gmap strings list pretty.
From Stdlib Require Import Strings.Byte.
From S2P Require Import Prelude Floats64 Types Crypto.

Local Open Scope Z_scope.

Record ThresholdScheme := mkThresholdScheme {
  ts_total_participants : Z;
  ts_threshold : Z;
  ts_participants : list PublicKey
}.

Record PartialSignature := mkPartialSignature {
  ps_signer : PublicKey;
  ps_signature : Signature;
  ps_participant_index : nat
}.

Record ThresholdSignature := mkThresholdSignature {
  tsig_scheme : ThresholdScheme;
  tsig_partials : list PartialSignature;
  tsig_message_hash : array 32
}.

Record ThresholdAggregator := mkThresholdAggregator {
  ta_scheme : ThresholdScheme;
  ta_message : list byte;
  ta_message_hash : array 32;
  ta_signatures : gmap PublicKey PartialSignature
}.

(** [ThresholdScheme::new]; duplicates are found through a set. *)
Definition ThresholdScheme_new (threshold : Z) (participants : list PublicKey) : VResult ThresholdScheme :=
  let total := len participants in
  _ ← ensure (negb (threshold =? 0)) (CryptoError "Threshold must be at least 1");
  _ ← ensure (negb (total <? threshold))
        (CryptoError ("Threshold " ++ pretty threshold ++ " cannot exceed total participants " ++ pretty total));
  _ ← ensure (negb (total =? 0)) (CryptoError "Must have at least one participant");
  _ ← ensure (Z.of_nat (size (list_to_set participants : gset PublicKey)) =? total)
        (CryptoError "Duplicate participants not allowed");
  Ok (mkThresholdScheme total threshold participants).

Definition is_participant (s : ThresholdScheme) (k : PublicKey) : bool :=
  bool_decide (k ∈ ts_participants s).

(** [iter().position(..)]. *)
Fixpoint position (k : PublicKey) (l : list PublicKey) : option nat :=
  match l with
  | [] => None
  | x :: l' => if bool_decide (x = k) then Some O else S <$> position k l'
  end.

Definition participant_index (s : ThresholdScheme) (k : PublicKey) : option nat :=
  position k (ts_participants s).

Definition is_threshold_met (s : ThresholdScheme) (signature_count : Z) : bool :=
  ts_threshold s <=? signature_count.

Definition threshold_fraction (s : ThresholdScheme) : f64 :=
  f64_div (f64_of_Z (ts_threshold s)) (f64_of_Z (ts_total_participants s)).

Definition tsig_is_complete (t : ThresholdSignature) : bool :=
  is_threshold_met (tsig_scheme t) (len (tsig_partials t)).

Definition ThresholdSignature_new (scheme : ThresholdScheme) (message_hash : array 32) : ThresholdSignature :=
  mkThresholdSignature scheme [] message_hash.

Definition tsig_signers (t : ThresholdSignature) : list PublicKey := ps_signer <$> tsig_partials t.
Definition tsig_has_signed (t : ThresholdSignature) (k : PublicKey) : bool :=
  existsb (fun ps => bool_decide (ps_signer ps = k)) (tsig_partials t).

Definition ta_is_complete (a : ThresholdAggregator) : bool :=
  is_threshold_met (ta_scheme a) (Z.of_nat (size (ta_signatures a))).

Definition ta_progress (a : ThresholdAggregator) : Z * Z :=
  (Z.of_nat (size (ta_signatures a)), ts_threshold (ta_scheme a)).

(** [finalize]: the values of the map, in the map's order. *)
Definition finalize (a : ThresholdAggregator) : VResult ThresholdSignature :=
  _ ← ensure (ta_is_complete a) InsufficientValidators;
  Ok (mkThresholdSignature (ta_scheme a) (snd <$> map_to_list (ta_signatures a)) (ta_message_hash a)).

Section threshold.
Context `{HashCrate, Ed25519Crate}.

Definition ps_verify (ps : PartialSignature) (message : list byte) : VResult unit :=
  verify_signature message (ps_signature ps) (ps_signer ps).

(** [ThresholdSignature::add_partial_signature]. *)
Definition add_partial_signature (ps : PartialSignature) : VStM ThresholdSignature bool :=
  self ← get;
  _ ← lift (ensure (is_participant (tsig_scheme self) (ps_signer ps))
              (InvalidValidator "Signer not in threshold scheme"));
  _ ← lift (ensure (negb (tsig_has_signed self (ps_signer ps)))
              (CryptoError "Duplicate signature from same participant"));
  _ ← lift (ps_verify ps (array_list (tsig_message_hash self)));
  _ ← modify (fun t => mkThresholdSignature (tsig_scheme t) (tsig_partials t ++ [ps]) (tsig_message_hash t));
  self ← get;
  mret (tsig_is_complete self).

Definition tsig_verify (t : ThresholdSignature) : VResult unit :=
  _ ← ensure (tsig_is_complete t) InsufficientValidators;
  for_each (fun ps => ps_verify ps (array_list (tsig_message_hash t))) (tsig_partials t).

Definition ThresholdAggregator_new (scheme : ThresholdScheme) (message : list byte) : ThresholdAggregator :=
  mkThresholdAggregator scheme message (hash_blake2b message) ∅.

(** [ThresholdAggregator::add_signature]. *)
Definition ta_add_signature (signer : PublicKey) (sig : Signature) : VStM ThresholdAggregator bool :=
  self ← get;
  index ← lift (ok_or (participant_index (ta_scheme self) signer)
                  (InvalidValidator "Signer not in threshold scheme"));
  _ ← lift (ensure (negb (bool_decide (is_Some (ta_signatures self !! signer))))
              (CryptoError "Duplicate signature from participant"));
  _ ← lift (verify_signature (array_list (ta_message_hash self)) sig signer);
  _ ← modify (fun a => mkThresholdAggregator (ta_scheme a) (ta_message a) (ta_message_hash a)
                         (<[signer := mkPartialSignature signer sig index]> (ta_signatures a)));
  self ← get;
  mret (ta_is_complete self).

(** [create_threshold_signature]. *)
Definition create_threshold_signature (scheme : ThresholdScheme) (message : list byte)
    (partial_sigs : list PartialSignature) : VResult ThresholdSignature :=
  let '(r, t) := st_for_each add_partial_signature partial_sigs
                   (ThresholdSignature_new scheme (hash_blake2b message)) in
  _ ← r;
  _ ← ensure (tsig_is_complete t) InsufficientValidators;
  Ok t.

Definition verify_threshold_signature (t : ThresholdSignature) : VResult unit := tsig_verify t.

(** [DistributedKeyGen::generate]: [keys] are the generated secret keys, one per
    participant. *)
Definition DistributedKeyGen_generate (threshold : Z) (keys : list (array 32))
  : VResult (ThresholdScheme * list (array 32)) :=
  _ ← ensure (negb (len keys <? threshold)) (CryptoError "Threshold exceeds total participants");
  scheme ← ThresholdScheme_new threshold ((fun k => kp_public (KeyPair_from_private_key k)) <$> keys);
  Ok (scheme, keys).

(** ** Properties *)

(** What a threshold signature should be: partial signatures of different
    participants, each valid for the message hash. *)
Definition tsig_good (t : ThresholdSignature) : Prop :=
  NoDup (tsig_signers t) /\
  Forall (fun ps => ps_signer ps ∈ ts_participants (tsig_scheme t) /\
                    ps_verify ps (array_list (tsig_message_hash t)) = Ok tt) (tsig_partials t).

Lemma tsig_has_signed_false t k : tsig_has_signed t k = false -> k ∉ tsig_signers t.
Proof.
  unfold tsig_has_signed, tsig_signers. intros Hf (ps & -> & Hin)%list_elem_of_fmap.
  apply not_true_iff_false in Hf. apply Hf. apply existsb_exists. exists ps.
  split; [by apply list_elem_of_In|by apply bool_decide_eq_true].
Qed.

Lemma add_partial_signature_good ps t r t' :
  tsig_good t -> add_partial_signature ps t = (r, t') ->
  tsig_good t' /\ tsig_scheme t' = tsig_scheme t /\ tsig_message_hash t' = tsig_message_hash t.
Proof.
  intros [Hnd Hall]. unfold add_partial_signature, mbind, stM_bind, get, lift, modify, mret, stM_ret, ensure.
  destruct (is_participant _ _) eqn:Hp; [|by intros [= <- <-]].
  destruct (tsig_has_signed _ _) eqn:Hs; [by intros [= <- <-]|]. cbn [negb].
  destruct (ps_verify _ _) as [[]| |] eqn:Hv; intros [= <- <-]; [|done..].
  cbn. split; [|done]. split.
  - unfold tsig_signers. cbn. rewrite fmap_app. apply NoDup_app. split_and!; [done| |apply NoDup_singleton].
    intros k Hk ->%list_elem_of_singleton. by apply tsig_has_signed_false in Hs.
  - cbn. apply Forall_app. split; [done|]. apply Forall_singleton. split; [|done].
    by apply bool_decide_eq_true in Hp.
Qed.

Lemma add_partials_good l t r t' :
  tsig_good t -> st_for_each add_partial_signature l t = (r, t') ->
  tsig_good t' /\ tsig_scheme t' = tsig_scheme t /\ tsig_message_hash t' = tsig_message_hash t.
Proof.
  revert t. induction l as [|ps l IH]; intros t Hg; cbn.
  { by intros [= <- <-]. }
  destruct (add_partial_signature ps t) as [r1 t1] eqn:E.
  apply add_partial_signature_good in E as (Hg1 & Es & Eh); [|done]. rewrite <- Es, <- Eh.
  destruct r1; [by apply IH|by intros [= <- <-]..].
Qed.

Lemma good_complete_verifies t : tsig_good t -> tsig_is_complete t = true -> tsig_verify t = Ok tt.
Proof.
  intros [_ Hall] Hc. unfold tsig_verify. rewrite Hc. cbn. apply for_each_Ok.
  eapply Forall_impl; [exact Hall|]. by intros ps [].
Qed.

(** A threshold signature assembled from partial signatures is sound: it
    verifies, its signers are different participants of the scheme, each of their
    signatures is valid for the message's hash, and there are at least as many as the
    threshold. *)
Theorem create_threshold_signature_sound (scheme : ThresholdScheme) (message : list byte)
    (partials : list PartialSignature) (t : ThresholdSignature) :
  create_threshold_signature scheme message partials = Ok t ->
  verify_threshold_signature t = Ok tt /\ tsig_good t /\
  ts_threshold scheme <= len (tsig_signers t) /\
  tsig_message_hash t = hash_blake2b message.
Proof.
  unfold create_threshold_signature.
  destruct (st_for_each _ _ _) as [r t'] eqn:E.
  apply add_partials_good in E as (Hg & Es & Eh); [|by repeat constructor].
  destruct r; [|done..]. rewrite bind_unit, ensure_bind. intros (_ & Hc & [= <-]).
  split; [by apply good_complete_verifies|]. split; [done|]. split; [|done].
  unfold tsig_is_complete, is_threshold_met in Hc. rewrite Es in Hc. cbn in Hc.
  unfold tsig_signers, len. rewrite length_fmap. unfold len in Hc. lia.
Qed.

(** ** The aggregator *)
Inductive aggregator_step : ThresholdAggregator -> ThresholdAggregator -> Prop :=
| step_add_signature signer sig a r a' :
    ta_add_signature signer sig a = (r, a') -> aggregator_step a a'.

Lemma position_elem k l i : position k l = Some i -> k ∈ l.
Proof.
  revert i. induction l as [|x l IH]; intros i; cbn; [done|].
  case_bool_decide; [subst; set_solver|].
  destruct (position k l) eqn:E; [|done]. intros _. eapply list_elem_of_further. by eapply IH.
Qed.

(** Each entry is a valid signature of its key, a participant. *)
Definition ta_good (a : ThresholdAggregator) : Prop :=
  forall k ps, ta_signatures a !! k = Some ps ->
    ps_signer ps = k /\ k ∈ ts_participants (ta_scheme a) /\
    ps_verify ps (array_list (ta_message_hash a)) = Ok tt.

Lemma ta_add_signature_good signer sig a r a' :
  ta_good a -> ta_add_signature signer sig a = (r, a') ->
  ta_good a' /\ ta_scheme a' = ta_scheme a /\ ta_message_hash a' = ta_message_hash a.
Proof.
  intros Hg. unfold ta_add_signature, mbind, stM_bind, get, lift, modify, mret, stM_ret, ensure, ok_or.
  destruct (participant_index _ _) as [i|] eqn:Hi; [|by intros [= <- <-]].
  destruct (bool_decide _); cbn [negb]; [by intros [= <- <-]|].
  destruct (verify_signature _ _ _) as [[]| |] eqn:Hv; intros [= <- <-]; [|done..].
  cbn. split; [|done]. intros k ps Hl. cbn in Hl.
  apply lookup_insert_Some in Hl as [[<- <-]|[_ Hl]]; [|by apply Hg].
  cbn. split_and!; [done|by eapply position_elem|done].
Qed.

Lemma aggregator_steps_good a a' :
  rtc aggregator_step a a' -> ta_good a ->
  ta_good a' /\ ta_scheme a' = ta_scheme a /\ ta_message_hash a' = ta_message_hash a.
Proof.
  induction 1 as [|x y z [signer sig a0 r a1 E] _ IH]; intros Hg; [done|].
  apply ta_add_signature_good in E as (Hg1 & Es & Eh); [|done].
  rewrite <- Es, <- Eh. by apply IH.
Qed.

Lemma map_values_nodup (m : gmap PublicKey PartialSignature) :
  (forall k ps, m !! k = Some ps -> ps_signer ps = k) ->
  NoDup (ps_signer <$> (snd <$> map_to_list m)).
Proof.
  intros Hk. rewrite <- list_fmap_compose.
  assert ((ps_signer ∘ snd) <$> map_to_list m = fst <$> map_to_list m) as ->.
  { apply list_fmap_ext. intros i [k ps] Hl. cbn. apply Hk.
    apply elem_of_map_to_list. by eapply list_elem_of_lookup_2. }
  apply NoDup_fst_map_to_list.
Qed.

(** An aggregator never collects a wrong signature: whatever calls of
    [add_signature] precede it, a successful [finalize] yields a threshold signature
    for the message that verifies, with different participants as signers and at
    least the threshold of them; before the threshold is reached it is refused. *)
Theorem aggregator_finalize_sound (scheme : ThresholdScheme) (message : list byte)
    (a : ThresholdAggregator) :
  rtc aggregator_step (ThresholdAggregator_new scheme message) a ->
  if ts_threshold scheme <=? Z.of_nat (size (ta_signatures a))
  then exists t, finalize a = Ok t /\ tsig_verify t = Ok tt /\ tsig_good t /\
         tsig_message_hash t = hash_blake2b message /\
         ts_threshold scheme <= len (tsig_signers t)
  else finalize a = Err InsufficientValidators.
Proof.
  intros Hr. apply aggregator_steps_good in Hr as (Hg & Es & Eh).
  2:{ intros k ps Hl. cbn in Hl. by rewrite lookup_empty in Hl. }
  unfold finalize, ta_is_complete, is_threshold_met. rewrite Es. cbn [ta_scheme ThresholdAggregator_new].
  destruct (Z.leb_spec (ts_threshold scheme) (Z.of_nat (size (ta_signatures a)))) as [Hle|]; [|done].
  eexists. split; [done|].
  assert (length (map_to_list (ta_signatures a)) = size (ta_signatures a)) as Hsize
    by apply length_map_to_list.
  match goal with |- tsig_verify ?t = _ /\ _ => set (ts := t) end.
  assert (tsig_good ts) as Hgood.
  { split; [apply map_values_nodup; intros k ps Hl; by apply Hg in Hl as (? & _)|].
    cbn. apply Forall_fmap, Forall_forall. intros [k ps] Hin%elem_of_map_to_list. cbn.
    apply Hg in Hin as (<- & Hp & Hv). rewrite Es in Hp. done. }
  split_and!; try done.
  - apply good_complete_verifies; [done|]. unfold tsig_is_complete, is_threshold_met, len. cbn.
    rewrite length_fmap, Hsize. lia.
  - unfold tsig_signers, len. cbn. rewrite !length_fmap, Hsize. lia.
Qed.

(** Verification of a threshold signature does not check that the signers
    differ or belong to the scheme: one valid signature, of any key, repeated often
    enough verifies.  A signature received from elsewhere is therefore not evidence
    that the threshold was met. *)
Theorem verify_threshold_counts_duplicates (scheme : ThresholdScheme) (hash : array 32)
    (ps : PartialSignature) :
  ps_verify ps (array_list hash) = Ok tt ->
  verify_threshold_signature
    (mkThresholdSignature scheme (replicate (Z.to_nat (ts_threshold scheme)) ps) hash) = Ok tt.
Proof.
  intros Hv. unfold verify_threshold_signature, tsig_verify, tsig_is_complete, is_threshold_met, len. cbn.
  rewrite length_replicate. destruct (Z.leb_spec (ts_threshold scheme)
    (Z.of_nat (Z.to_nat (ts_threshold scheme)))); [|lia].
  cbn. apply for_each_Ok. by apply Forall_replicate.
Qed.
End threshold.
