(* ===== verification/Election.v ===== *)
(** * Elections and tallies: crates/voting/src/lib.rs

    The description of an election with its validity window and configuration, and
    the tally: [ElectionResults] keeps one counter per candidate in the order of
    first appearance, with a total. *)
From stdpp Require Import prelude gmap strings list.
From Stdlib Require Import Strings.Byte Sorting.Sorted.
From S2P Require Import Prelude Types.

Local Open Scope Z_scope.

(** ** Data *)
Record Candidate := mkCandidate {
  c_id : string;
  c_name : string;
  c_party : option string;
  c_description : option string;
  c_metadata : option string
}.

Definition Candidate_new (id name : string) : Candidate := mkCandidate id name None None None.
Definition Candidate_with_party (id name party : string) : Candidate :=
  mkCandidate id name (Some party) None None.

Record ElectionConfig := mkElectionConfig {
  allow_write_in : bool;
  require_registration : bool;
  ballot_secrecy : bool;
  receipt_free : bool;
  max_votes_per_voter : Z;
  ranked_choice : bool;
  min_voters : option Z;
  max_voters : option Z
}.

Definition ElectionConfig_default : ElectionConfig :=
  mkElectionConfig false true true true 1 false None None.

Record Election := mkElection {
  el_id : ElectionId;
  el_title : string;
  el_description : string;
  el_candidates : list Candidate;
  el_start_time : Z;
  el_end_time : Z;
  el_authority_key : PublicKey;
  el_config : ElectionConfig
}.

Definition Election_new (id : ElectionId) (title description : string) (candidates : list Candidate)
    (start_time end_time : Z) (authority_key : PublicKey) : Election :=
  mkElection id title description candidates start_time end_time authority_key ElectionConfig_default.

Definition is_active (e : Election) (current_time : Z) : bool :=
  (el_start_time e <=? current_time) && (current_time <=? el_end_time e).
Definition has_started (e : Election) (current_time : Z) : bool := el_start_time e <=? current_time.
Definition has_ended (e : Election) (current_time : Z) : bool := el_end_time e <? current_time.

Definition get_candidate (e : Election) (candidate_id : string) : option Candidate :=
  find_by (fun c => bool_decide (c_id c = candidate_id)) (el_candidates e).

Definition election_validate (e : Election) : VResult unit :=
  _ ← ensure (negb (bool_decide (el_title e = ""%string))) (InvalidInput "Election title cannot be empty");
  _ ← ensure (negb (len (el_candidates e) =? 0)) (InvalidInput "Election must have at least one candidate");
  ensure (negb (el_end_time e <=? el_start_time e))
    (InvalidInput "Election end time must be after start time").

Record CandidateTally := mkCandidateTally { ct_candidate_id : string; ct_vote_count : Z }.

Global Instance CandidateTally_eq_dec : EqDecision CandidateTally.
Proof. solve_decision. Defined.

Record ElectionResults := mkElectionResults {
  er_election_id : ElectionId;
  er_total_votes : Z;
  er_candidate_tallies : list CandidateTally;
  er_tallied_at : Z;
  er_is_final : bool
}.

Definition ElectionResults_new (now : Z) (election_id : ElectionId) : ElectionResults :=
  mkElectionResults election_id 0 [] now false.

(** The search for the candidate's counter with [iter_mut().find], its increment,
    and the push of a new counter when the search fails. *)
Fixpoint bump_tally (candidate_id : string) (tallies : list CandidateTally) : list CandidateTally :=
  match tallies with
  | [] => [mkCandidateTally candidate_id 1]
  | t :: tallies' =>
      if bool_decide (ct_candidate_id t = candidate_id)
      then mkCandidateTally (ct_candidate_id t) (u64_add (ct_vote_count t) 1) :: tallies'
      else t :: bump_tally candidate_id tallies'
  end.

Definition add_vote (candidate_id : string) (r : ElectionResults) : ElectionResults :=
  mkElectionResults (er_election_id r) (u64_add (er_total_votes r) 1)
    (bump_tally candidate_id (er_candidate_tallies r)) (er_tallied_at r) (er_is_final r).

(** [Iterator::max_by_key]: the last of the elements with the greatest key. *)
Fixpoint max_by_key {A} (key : A -> Z) (l : list A) : option A :=
  match l with
  | [] => None
  | x :: l' =>
      match max_by_key key l' with
      | None => Some x
      | Some y => if key y <? key x then Some x else Some y
      end
  end.

Definition get_winner (r : ElectionResults) : option CandidateTally :=
  max_by_key ct_vote_count (er_candidate_tallies r).

Definition votes_descending (a b : CandidateTally) : bool := ct_vote_count b <=? ct_vote_count a.

Definition sort_by_votes (r : ElectionResults) : ElectionResults :=
  mkElectionResults (er_election_id r) (er_total_votes r)
    (sort_by votes_descending (er_candidate_tallies r)) (er_tallied_at r) (er_is_final r).

(** ** The counters *)

(** The abstract tally: how often a candidate occurs among the votes. *)
Definition votes_for (c : string) (votes : list string) : Z :=
  len (filter (fun v => v = c) votes).

(** The votes counted one after the other. *)
Definition tally (r : ElectionResults) (votes : list string) : ElectionResults :=
  foldl (fun r v => add_vote v r) r votes.

Definition count_in (c : string) (tallies : list CandidateTally) : Z :=
  match find_by (fun t => bool_decide (ct_candidate_id t = c)) tallies with
  | Some t => ct_vote_count t
  | None => 0
  end.

Fixpoint tally_sum (tallies : list CandidateTally) : Z :=
  match tallies with
  | [] => 0
  | t :: tallies' => ct_vote_count t + tally_sum tallies'
  end.

Lemma votes_for_cons c v votes :
  votes_for c (v :: votes) = (if bool_decide (v = c) then 1 else 0) + votes_for c votes.
Proof. unfold votes_for, len. rewrite filter_cons. case_decide; case_bool_decide; cbn; (done || lia). Qed.

Lemma votes_for_app c l k : votes_for c (l ++ k) = votes_for c l + votes_for c k.
Proof. unfold votes_for. by rewrite filter_app, len_app. Qed.

Lemma votes_for_le c votes : 0 <= votes_for c votes <= len votes.
Proof. unfold votes_for, len. pose proof (length_filter (fun v => v = c) votes). lia. Qed.

(** The counters represent the votes counted so far. *)
Definition represents (r : ElectionResults) (votes : list string) : Prop :=
  er_total_votes r = len votes /\
  NoDup (ct_candidate_id <$> er_candidate_tallies r) /\
  tally_sum (er_candidate_tallies r) = len votes /\
  Forall (fun t => 0 < ct_vote_count t) (er_candidate_tallies r) /\
  forall c, count_in c (er_candidate_tallies r) = votes_for c votes.

Lemma count_in_le c tallies :
  Forall (fun t => 0 < ct_vote_count t) tallies ->
  0 <= count_in c tallies <= tally_sum tallies.
Proof.
  unfold count_in. induction 1 as [|t tallies Ht Hl IH]; [cbn; lia|].
  cbn [find_by tally_sum]. case_bool_decide; [|lia].
  assert (0 <= tally_sum tallies) by lia. lia.
Qed.

Lemma count_in_elem tallies c n :
  NoDup (ct_candidate_id <$> tallies) -> mkCandidateTally c n ∈ tallies -> count_in c tallies = n.
Proof.
  unfold count_in. induction tallies as [|t tallies IH]; cbn; [set_solver|].
  intros [Hn Hd]%NoDup_cons [<-|Hin]%elem_of_cons; cbn; [by rewrite bool_decide_true|].
  rewrite bool_decide_false; [by apply IH|]. intros <-.
  apply Hn. by apply (list_elem_of_fmap_2 ct_candidate_id) in Hin.
Qed.

Lemma count_in_pos tallies c :
  0 < count_in c tallies -> mkCandidateTally c (count_in c tallies) ∈ tallies.
Proof.
  unfold count_in. destruct (find_by _ tallies) as [[c' n]|] eqn:E; [|lia]. intros _.
  apply find_by_Some in E as [Hin Hc]. cbn in Hc. apply bool_decide_eq_true in Hc as ->. done.
Qed.

(** One more vote, when no counter is at its limit. *)
Lemma bump_tally_spec v tallies :
  Forall (fun t => 0 < ct_vote_count t) tallies -> tally_sum tallies < 2 ^ 64 - 1 ->
  (forall c, count_in c (bump_tally v tallies) =
     (if bool_decide (v = c) then 1 else 0) + count_in c tallies) /\
  tally_sum (bump_tally v tallies) = tally_sum tallies + 1 /\
  Forall (fun t => 0 < ct_vote_count t) (bump_tally v tallies) /\
  (forall i, i ∈ ct_candidate_id <$> bump_tally v tallies <->
     i = v \/ i ∈ ct_candidate_id <$> tallies).
Proof.
  unfold count_in. induction 1 as [|t tallies Ht Hl IH]; intros Hsum.
  { cbn. split_and!; [|lia|by repeat constructor|set_solver]. intros c. by case_bool_decide. }
  cbn in Hsum. pose proof (count_in_le (ct_candidate_id t) tallies Hl) as Hle.
  assert (u64_add (ct_vote_count t) 1 = ct_vote_count t + 1) as Hadd by (apply u64_add_small; lia).
  cbn [bump_tally]. case_bool_decide as Ev; cbn [find_by tally_sum ct_candidate_id ct_vote_count].
  - subst v. rewrite Hadd. split_and!; [|lia|constructor; [cbn; lia|done]|set_solver].
    intros c. repeat case_bool_decide; cbn; (done || lia).
  - destruct IH as (Hc & Hs & Hp & Hi); [lia|]. split_and!.
    + intros c. case_bool_decide; [|apply Hc]. case_bool_decide; [congruence|lia].
    + lia.
    + by constructor.
    + intros i. cbn. rewrite !elem_of_cons, Hi. tauto.
Qed.

Lemma bump_tally_nodup v tallies :
  NoDup (ct_candidate_id <$> tallies) -> NoDup (ct_candidate_id <$> bump_tally v tallies).
Proof.
  induction tallies as [|t tallies IH]; cbn; [intros _; repeat constructor; set_solver|].
  case_bool_decide as Ev; cbn; [done|]. intros [Hn Hd]%NoDup_cons. constructor; [|by apply IH].
  assert (forall i, i ∈ ct_candidate_id <$> bump_tally v tallies ->
            i = v \/ i ∈ ct_candidate_id <$> tallies) as Hi.
  { clear. induction tallies as [|t tallies IH]; intros i; cbn; [set_solver|].
    case_bool_decide; cbn; rewrite !elem_of_cons; [set_solver|]. intros [->|?%IH]; tauto. }
  intros [?|?]%Hi; done.
Qed.

Lemma add_vote_represents v r votes :
  represents r votes -> len votes < 2 ^ 64 - 1 -> represents (add_vote v r) (votes ++ [v]).
Proof.
  intros (Ht & Hd & Hs & Hp & Hc) Hlen.
  destruct (bump_tally_spec v (er_candidate_tallies r)) as (Hc' & Hs' & Hp' & _); [done|lia|].
  assert (len (votes ++ [v]) = len votes + 1) as Hl by (rewrite len_app; done).
  unfold represents. cbn [add_vote er_total_votes er_candidate_tallies]. rewrite Hl. split_and!.
  - rewrite Ht. apply u64_add_small. pose proof (len_nonneg votes). lia.
  - by apply bump_tally_nodup.
  - lia.
  - done.
  - intros c. rewrite Hc', Hc, votes_for_app, votes_for_cons. unfold votes_for, len. cbn. lia.
Qed.

Lemma tally_represents r votes more :
  represents r votes -> len (votes ++ more) < 2 ^ 64 -> represents (tally r more) (votes ++ more).
Proof.
  revert r votes. induction more as [|v more IH]; intros r votes Hr Hlen; cbn.
  { by rewrite app_nil_r. }
  rewrite (cons_middle v votes more), app_assoc.
  rewrite len_app in Hlen. unfold len in Hlen. cbn in Hlen.
  apply IH; [apply add_vote_represents; [done|unfold len; lia]|].
  rewrite !len_app. unfold len. cbn. lia.
Qed.

(** C8: whatever votes are counted, in whatever order, the tally is exact: the
    total and the sum of the counters are the number of votes, there is one
    positive counter per candidate voted for, and a candidate's counter is the
    number of votes for it.  (The counters are 64 bits wide; the bound rules out
    their wrap-around.) *)
Theorem tally_exact (now : Z) (election_id : ElectionId) (votes : list string) :
  len votes < 2 ^ 64 ->
  let r := tally (ElectionResults_new now election_id) votes in
  er_total_votes r = len votes /\
  tally_sum (er_candidate_tallies r) = len votes /\
  NoDup (ct_candidate_id <$> er_candidate_tallies r) /\
  (forall c n, mkCandidateTally c n ∈ er_candidate_tallies r <-> n = votes_for c votes /\ 0 < n).
Proof.
  intros Hlen r. destruct (tally_represents (ElectionResults_new now election_id) [] votes)
    as (Ht & Hd & Hs & Hp & Hc); [|done|].
  { split_and!; try done; constructor. }
  fold r in Ht, Hd, Hs, Hp, Hc. cbn in Ht, Hs, Hc. split_and!; try done.
  intros c n. split.
  - intros Hin. rewrite <- Hc. pose proof Hin as Hpos. rewrite Forall_forall in Hp. apply Hp in Hpos.
    split; [|done]. by rewrite (count_in_elem _ c n).
  - intros [-> Hpos]. rewrite <- Hc in *. by apply count_in_pos.
Qed.

(** ** Winners and ranking *)
Lemma max_by_key_None {A} (key : A -> Z) l : max_by_key key l = None -> l = [].
Proof. destruct l as [|x l]; cbn; [done|]. destruct (max_by_key key l); [case_match|]; done. Qed.

Lemma max_by_key_Some {A} (key : A -> Z) l w :
  max_by_key key l = Some w ->
  exists before after, l = before ++ w :: after /\
    Forall (fun x => key x <= key w) before /\ Forall (fun x => key x < key w) after.
Proof.
  revert w. induction l as [|x l IH]; intros w; cbn; [done|].
  destruct (max_by_key key l) as [y|] eqn:E.
  - destruct (IH y eq_refl) as (b & a & -> & Hb & Ha).
    destruct (Z.ltb_spec (key y) (key x)); intros [= <-].
    + exists [], (b ++ y :: a). split_and!; [done|constructor|].
      apply Forall_app. split; [eapply Forall_impl; [exact Hb|cbn; lia]|].
      constructor; [done|]. eapply Forall_impl; [exact Ha|cbn; lia].
    + exists (x :: b), a. split_and!; [done|by constructor|done].
  - apply max_by_key_None in E as ->. intros [= <-]. exists [], []. by repeat constructor.
Qed.

Lemma votes_descending_total a b : votes_descending a b = true \/ votes_descending b a = true.
Proof. unfold votes_descending. lia. Qed.

Lemma votes_descending_trans a b c :
  votes_descending a b = true -> votes_descending b c = true -> votes_descending a c = true.
Proof. unfold votes_descending. lia. Qed.

(** The first of the sorted tallies is the first of the greatest ones. *)
Lemma sort_head l :
  match sort_by votes_descending l with
  | [] => l = []
  | f :: _ => exists before after, l = before ++ f :: after /\
      Forall (fun t => ct_vote_count t < ct_vote_count f) before /\
      Forall (fun t => ct_vote_count t <= ct_vote_count f) after
  end.
Proof.
  induction l as [|x l IH]; [done|].
  change (sort_by _ (x :: l)) with (insert_by votes_descending x (sort_by votes_descending l)).
  destruct (sort_by votes_descending l) as [|f k]; cbn [insert_by].
  { subst l. exists [], []. by repeat constructor. }
  destruct IH as (b & a & -> & Hb & Ha). unfold votes_descending.
  destruct (Z.leb_spec (ct_vote_count f) (ct_vote_count x)).
  - exists [], (b ++ f :: a). split_and!; [done|constructor|].
    apply Forall_app. split; [eapply Forall_impl; [exact Hb|cbn; lia]|].
    constructor; [done|]. eapply Forall_impl; [exact Ha|cbn; lia].
  - exists (x :: b), a. split_and!; [done|by constructor|done].
Qed.

(** C9: [get_winner] is [None] only without votes; otherwise it is a candidate with
    the most votes, of several the one whose first vote came last.  [sort_by_votes]
    orders the same tallies by decreasing votes, and puts the candidate with the
    most votes whose first vote came first on top: with a tie the two differ. *)
Theorem winner_and_ranking (r : ElectionResults) :
  match get_winner r, er_candidate_tallies (sort_by_votes r) with
  | None, [] => er_candidate_tallies r = []
  | Some w, f :: rest =>
      (exists before after, er_candidate_tallies r = before ++ w :: after /\
         Forall (fun t => ct_vote_count t <= ct_vote_count w) before /\
         Forall (fun t => ct_vote_count t < ct_vote_count w) after) /\
      (exists before after, er_candidate_tallies r = before ++ f :: after /\
         Forall (fun t => ct_vote_count t < ct_vote_count f) before /\
         Forall (fun t => ct_vote_count t <= ct_vote_count f) after) /\
      f :: rest ≡ₚ er_candidate_tallies r /\
      StronglySorted (fun a b => ct_vote_count b <= ct_vote_count a) (f :: rest)
  | _, _ => False
  end.
Proof.
  unfold get_winner, sort_by_votes. cbn [er_candidate_tallies].
  pose proof (sort_head (er_candidate_tallies r)) as Hh.
  pose proof (sort_by_perm votes_descending (er_candidate_tallies r)) as Hp.
  pose proof (sort_by_sorted votes_descending votes_descending_total votes_descending_trans
    (er_candidate_tallies r)) as Hs.
  destruct (max_by_key _ _) as [w|] eqn:E, (sort_by _ _) as [|f rest].
  - rewrite Hh in E. done.
  - split_and!; [by apply max_by_key_Some|done|done|]. clear -Hs.
    induction Hs as [|a l _ IH Ha]; constructor; [done|].
    eapply Forall_impl; [exact Ha|]. intros b. unfold votes_descending. cbn. lia.
  - done.
  - apply max_by_key_None in E. rewrite E in Hp. by apply Permutation_nil_r in Hp.
Qed.
