(* ===== verification/Voter.v ===== *)
(** * Voters: crates/voting/src/voter.rs

    A voter's life cycle ([VoterStatus]), credentials with their hash, the signed
    registration, and [VoterRegistry], a vector of voters with an index by
    identifier.  Methods with a [&mut self] receiver that return nothing are
    functions on the record. *)
From stdpp Require Import prelude gmap strings list.
From Stdlib Require Import Strings.Byte.
From S2P Require Import Prelude Types Crypto.

Local Open Scope Z_scope.

(** ** Identifiers *)
Record VoterId := mkVoterId { voter_id_bytes : array 32 }.

Global Instance VoterId_eq_dec : EqDecision VoterId.
Proof. solve_decision. Defined.
Global Instance VoterId_countable : Countable VoterId.
Proof. by apply (inj_countable' voter_id_bytes mkVoterId); intros []. Defined.

Definition VoterId_from_address (a : Address) : VoterId := mkVoterId (address_bytes a).

(** The [from_hex] of the identifiers in crates/voting: the error of [hex] and the
    wrong length become [CryptoError]s. *)
Definition id_from_hex `{HexCrate} (wrong_length s : string) : VResult (array 32) :=
  match hex_decode s with
  | Ok bytes => ok_or (array_of 32 bytes) (CryptoError wrong_length)
  | Err e => Err (CryptoError ("Invalid hex: " ++ hex_error_display e))
  | Panic => Panic
  end.

Definition VoterId_to_hex `{HexCrate} (i : VoterId) : string := hex_encode (array_list (voter_id_bytes i)).
Definition VoterId_from_hex `{HexCrate} (s : string) : VResult VoterId :=
  mkVoterId <$> id_from_hex "Invalid voter ID length" s.

(** ** Voters *)
Inductive VoterStatus :=
| Unregistered
| Registered
| Verified
| Suspended (reason : string)
| Revoked.

Global Instance VoterStatus_eq_dec : EqDecision VoterStatus.
Proof. solve_decision. Defined.

Definition VoterStatus_display (s : VoterStatus) : string :=
  match s with
  | Unregistered => "unregistered"
  | Registered => "registered"
  | Verified => "verified"
  | Suspended reason => "suspended: " ++ reason
  | Revoked => "revoked"
  end.

Record VoterCredentials := mkVoterCredentials {
  vc_voter_id : VoterId;
  vc_jurisdiction : string;
  vc_issued_at : Z;
  vc_expires_at : option Z;
  vc_credential_hash : list byte
}.

Record Voter := mkVoter {
  v_id : VoterId;
  v_public_key : PublicKey;
  v_address : Address;
  v_status : VoterStatus;
  v_credentials : option VoterCredentials;
  v_registered_at : Z;
  v_elections_voted : gset ElectionId
}.

Definition set_status (s : VoterStatus) (v : Voter) : Voter :=
  mkVoter (v_id v) (v_public_key v) (v_address v) s (v_credentials v) (v_registered_at v)
    (v_elections_voted v).
Definition set_credentials (c : option VoterCredentials) (v : Voter) : Voter :=
  mkVoter (v_id v) (v_public_key v) (v_address v) (v_status v) c (v_registered_at v)
    (v_elections_voted v).
Definition set_elections_voted (es : gset ElectionId) (v : Voter) : Voter :=
  mkVoter (v_id v) (v_public_key v) (v_address v) (v_status v) (v_credentials v)
    (v_registered_at v) es.

(** [register]: only a voter that is [Registered] already is refused. *)
Definition voter_register (credentials : VoterCredentials) : VStM Voter unit :=
  v ← get;
  _ ← lift (ensure (negb (bool_decide (v_status v = Registered))) (InvalidInput "Voter already registered"));
  _ ← modify (set_credentials (Some credentials));
  modify (set_status Registered).

Definition voter_is_registered (v : Voter) : bool :=
  match v_status v with Registered | Verified => true | _ => false end.

Definition voter_has_voted (v : Voter) (election_id : ElectionId) : bool :=
  bool_decide (election_id ∈ v_elections_voted v).

Definition voter_is_eligible (v : Voter) (election_id : ElectionId) : bool :=
  voter_is_registered v && negb (voter_has_voted v election_id).

Definition voter_mark_voted (election_id : ElectionId) : VStM Voter unit :=
  v ← get;
  _ ← lift (ensure (negb (voter_has_voted v election_id)) AlreadyVoted);
  modify (fun v => set_elections_voted ({[election_id]} ∪ v_elections_voted v) v).

Definition voter_revoke (v : Voter) : Voter := set_status Revoked v.
Definition voter_verify (v : Voter) : Voter :=
  if bool_decide (v_status v = Registered) then set_status Verified v else v.
Definition voter_suspend (reason : string) (v : Voter) : Voter := set_status (Suspended reason) v.

Section voter.
Context `{HashCrate, Ed25519Crate}.

(** [Voter::new]: [now] is the clock. *)
Definition Voter_new (now : Z) (keypair : KeyPair) : Voter :=
  let address := PublicKey_to_address (kp_public keypair) in
  mkVoter (VoterId_from_address address) (kp_public keypair) address Unregistered None now ∅.

Definition Voter_with_credentials (now : Z) (keypair : KeyPair) (credentials : VoterCredentials) : Voter :=
  set_status Registered (set_credentials (Some credentials) (Voter_new now keypair)).

(** ** Credentials *)
Definition credentials_compute_hash (voter_id : VoterId) (jurisdiction : string) (issued_at : Z) : list byte :=
  array_list (hash_blake2b_multiple
    [array_list (voter_id_bytes voter_id); String.list_byte_of_string jurisdiction; u64_le issued_at]).

Definition VoterCredentials_new (now : Z) (voter_id : VoterId) (jurisdiction : string) : VoterCredentials :=
  mkVoterCredentials voter_id jurisdiction now None (credentials_compute_hash voter_id jurisdiction now).

Definition VoterCredentials_with_expiration (now : Z) (voter_id : VoterId) (jurisdiction : string)
    (expires_at : Z) : VoterCredentials :=
  let c := VoterCredentials_new now voter_id jurisdiction in
  mkVoterCredentials (vc_voter_id c) (vc_jurisdiction c) (vc_issued_at c) (Some expires_at)
    (vc_credential_hash c).

Definition credentials_is_valid (c : VoterCredentials) (current_time : Z) : bool :=
  match vc_expires_at c with Some expires_at => current_time <? expires_at | None => true end.

Definition credentials_is_expired (c : VoterCredentials) (current_time : Z) : bool :=
  negb (credentials_is_valid c current_time).

Definition verify_hash (c : VoterCredentials) : bool :=
  constant_time_eq (credentials_compute_hash (vc_voter_id c) (vc_jurisdiction c) (vc_issued_at c))
    (vc_credential_hash c).

(** ** Registrations *)
Record VoterRegistration := mkVoterRegistration {
  vreg_voter_id : VoterId;
  vreg_public_key : PublicKey;
  vreg_credentials : VoterCredentials;
  vreg_signature : Signature;
  vreg_timestamp : Z
}.

Definition registration_compute_message (voter_id : VoterId) (public_key : PublicKey)
    (credentials : VoterCredentials) (timestamp : Z) : list byte :=
  array_list (hash_blake2b_multiple
    [array_list (voter_id_bytes voter_id); array_list (public_key_bytes public_key);
     vc_credential_hash credentials; u64_le timestamp]).

(** [VoterRegistration::create]. *)
Definition VoterRegistration_create (now : Z) (voter : Voter) (keypair : KeyPair) : VResult VoterRegistration :=
  credentials ← ok_or (v_credentials voter) (InvalidInput "Voter has no credentials");
  signature ← sign (registration_compute_message (v_id voter) (v_public_key voter) credentials now) keypair;
  Ok (mkVoterRegistration (v_id voter) (v_public_key voter) credentials signature now).

Definition registration_verify (r : VoterRegistration) : VResult unit :=
  _ ← ensure (verify_hash (vreg_credentials r)) (InvalidInput "Invalid credential hash");
  verify_signature
    (registration_compute_message (vreg_voter_id r) (vreg_public_key r) (vreg_credentials r)
       (vreg_timestamp r))
    (vreg_signature r) (vreg_public_key r).
End voter.

(** ** The registry *)
Record VoterRegistry := mkVoterRegistry {
  vrs_voters : list Voter;
  vrs_voter_index : gmap VoterId nat
}.

Definition VoterRegistry_new : VoterRegistry := mkVoterRegistry [] ∅.

Definition register_voter (voter : Voter) : VStM VoterRegistry unit :=
  r ← get;
  _ ← lift (ensure (negb (bool_decide (is_Some (vrs_voter_index r !! v_id voter))))
              (InvalidInput "Voter already exists in registry"));
  let index := length (vrs_voters r) in
  modify (fun r => mkVoterRegistry (vrs_voters r ++ [voter])
                     (<[v_id voter := index]> (vrs_voter_index r))).

Definition get_voter (r : VoterRegistry) (voter_id : VoterId) : option Voter :=
  index ← vrs_voter_index r !! voter_id; vrs_voters r !! index.

(** A use of [get_voter_mut]: [not_found] when there is no such voter, otherwise
    [f] runs on the voter in its place in the vector. *)
Definition with_voter_mut {A} (voter_id : VoterId) (not_found : VotingError) (f : VStM Voter A)
    : VStM VoterRegistry A := fun r =>
  match vrs_voter_index r !! voter_id with
  | None => (Err not_found, r)
  | Some index =>
      match vrs_voters r !! index with
      | None => (Err not_found, r)
      | Some v =>
          let '(res, v') := f v in
          (res, mkVoterRegistry (<[index := v']> (vrs_voters r)) (vrs_voter_index r))
      end
  end.

Definition registry_is_registered (r : VoterRegistry) (voter_id : VoterId) : bool :=
  match get_voter r voter_id with Some v => voter_is_registered v | None => false end.

Definition registry_is_eligible (r : VoterRegistry) (voter_id : VoterId) (election_id : ElectionId) : bool :=
  match get_voter r voter_id with Some v => voter_is_eligible v election_id | None => false end.

Definition registry_mark_voted (voter_id : VoterId) (election_id : ElectionId) : VStM VoterRegistry unit :=
  with_voter_mut voter_id (VoterNotEligible "Voter not found") (voter_mark_voted election_id).

Definition voter_count (r : VoterRegistry) : Z := len (vrs_voters r).
Definition registered_count (r : VoterRegistry) : Z :=
  len (filter (fun v => voter_is_registered v = true) (vrs_voters r)).
Definition voters_by_status (r : VoterRegistry) (status : VoterStatus) : list Voter :=
  filter (fun v => v_status v = status) (vrs_voters r).

(** ** The life cycle of a voter *)
Inductive voter_step : Voter -> Voter -> Prop :=
| vstep_register credentials v r v' : voter_register credentials v = (r, v') -> voter_step v v'
| vstep_mark_voted election_id v r v' : voter_mark_voted election_id v = (r, v') -> voter_step v v'
| vstep_revoke v : voter_step v (voter_revoke v)
| vstep_verify v : voter_step v (voter_verify v)
| vstep_suspend reason v : voter_step v (voter_suspend reason v).

Lemma voter_register_cases credentials v :
  voter_register credentials v =
    if decide (v_status v = Registered) then (Err (InvalidInput "Voter already registered"), v)
    else (Ok tt, set_status Registered (set_credentials (Some credentials) v)).
Proof.
  unfold voter_register, mbind, stM_bind, get, lift, modify, ensure.
  destruct (decide (v_status v = Registered)) as [E|E];
    [rewrite bool_decide_true by done|rewrite bool_decide_false by done]; done.
Qed.

Lemma voter_mark_voted_cases e v :
  voter_mark_voted e v =
    if decide (e ∈ v_elections_voted v) then (Err AlreadyVoted, v)
    else (Ok tt, set_elections_voted ({[e]} ∪ v_elections_voted v) v).
Proof.
  unfold voter_mark_voted, voter_has_voted, mbind, stM_bind, get, lift, modify, ensure.
  destruct (decide (e ∈ v_elections_voted v)) as [E|E];
    [rewrite bool_decide_true by done|rewrite bool_decide_false by done]; done.
Qed.

(** No operation changes who the voter is, or forgets a vote. *)
Lemma voter_step_mono v v' :
  voter_step v v' ->
  v_id v' = v_id v /\ v_public_key v' = v_public_key v /\ v_elections_voted v ⊆ v_elections_voted v'.
Proof.
  destruct 1 as [c v r v' E|e v r v' E|v|v|reason v].
  - rewrite voter_register_cases in E. destruct (decide _); injection E as <- <-; set_solver.
  - rewrite voter_mark_voted_cases in E. destruct (decide _); injection E as <- <-; set_solver.
  - set_solver.
  - unfold voter_verify. case_bool_decide; set_solver.
  - set_solver.
Qed.

Lemma voter_steps_mono v v' :
  rtc voter_step v v' -> v_id v' = v_id v /\ v_elections_voted v ⊆ v_elections_voted v'.
Proof.
  induction 1 as [|x y z Hs _ [IH1 IH2]]; [done|].
  apply voter_step_mono in Hs as (? & _ & ?). split; [congruence|set_solver].
Qed.

(** A voter votes at most once in an election: the first [mark_voted] is
    accepted, and whatever happens to the voter afterwards, registration,
    verification, suspension or revocation included, the voter is not eligible for
    that election again and a second [mark_voted] is refused and changes nothing. *)
Theorem voter_votes_once (e : ElectionId) (v v1 v2 : Voter) (r : VResult unit) :
  e ∉ v_elections_voted v ->
  voter_mark_voted e v = (r, v1) -> rtc voter_step v1 v2 ->
  r = Ok tt /\ voter_has_voted v2 e = true /\ voter_is_eligible v2 e = false /\
  voter_mark_voted e v2 = (Err AlreadyVoted, v2).
Proof.
  intros Hn Hm Hs. rewrite voter_mark_voted_cases, decide_False in Hm by done.
  injection Hm as <- <-. apply voter_steps_mono in Hs as [_ Hs]. cbn in Hs.
  assert (e ∈ v_elections_voted v2) as He by set_solver.
  unfold voter_is_eligible, voter_has_voted. rewrite bool_decide_true by done.
  rewrite voter_mark_voted_cases, decide_True by done. rewrite andb_false_r. done.
Qed.

(** Revocation and suspension are not final: [register] refuses only voters
    whose status is [Registered], so a revoked, suspended or verified voter that
    presents credentials is registered again. *)
Theorem revoked_voter_can_register (v : Voter) (c : VoterCredentials) (e : ElectionId) (reason : string) :
  (exists v', voter_register c (voter_revoke v) = (Ok tt, v') /\ voter_is_registered v' = true /\
     voter_is_eligible v' e = negb (voter_has_voted v e)) /\
  (exists v', voter_register c (voter_suspend reason v) = (Ok tt, v') /\ voter_is_registered v' = true /\
     voter_is_eligible v' e = negb (voter_has_voted v e)).
Proof.
  rewrite !voter_register_cases, !decide_False by done.
  split; eexists; split_and!; try done.
Qed.

(** ** The registry as a finite map *)
Inductive registry_step : VoterRegistry -> VoterRegistry -> Prop :=
| rstep_register voter r res r' : register_voter voter r = (res, r') -> registry_step r r'
| rstep_voter_mut voter_id err (f : VStM Voter unit) r res r' :
    (forall v, voter_step v (snd (f v))) ->
    with_voter_mut voter_id err f r = (res, r') -> registry_step r r'.

Definition registry_ok (r : VoterRegistry) : Prop := index_ok v_id (vrs_voters r) (vrs_voter_index r).

(** The abstraction: identifiers to voters. *)
Definition registry_map (r : VoterRegistry) : gmap VoterId Voter := keyed v_id (vrs_voters r).

Lemma register_voter_cases v r :
  register_voter v r =
    match vrs_voter_index r !! v_id v with
    | Some _ => (Err (InvalidInput "Voter already exists in registry"), r)
    | None => (Ok tt, mkVoterRegistry (vrs_voters r ++ [v])
                        (<[v_id v := length (vrs_voters r)]> (vrs_voter_index r)))
    end.
Proof.
  unfold register_voter, mbind, stM_bind, get, lift, modify, ensure.
  destruct (vrs_voter_index r !! v_id v) eqn:E.
  - rewrite bool_decide_true by eauto. done.
  - rewrite bool_decide_false by (intros [? ?]; done). done.
Qed.

Lemma get_voter_map r k : registry_ok r -> get_voter r k = registry_map r !! k.
Proof. apply indexed_lookup_keyed. Qed.

Lemma register_voter_refines v r :
  registry_ok r ->
  match registry_map r !! v_id v with
  | Some _ => register_voter v r = (Err (InvalidInput "Voter already exists in registry"), r)
  | None => exists r', register_voter v r = (Ok tt, r') /\ registry_ok r' /\
              registry_map r' = <[v_id v := v]> (registry_map r)
  end.
Proof.
  intros Hok. rewrite register_voter_cases. rewrite <- get_voter_map by done. unfold get_voter.
  destruct (vrs_voter_index r !! v_id v) as [i|] eqn:E; cbn.
  - apply Hok in E as (x & -> & _). done.
  - eexists. split; [done|]. split; [by apply index_ok_snoc|].
    apply keyed_snoc. by apply (index_ok_keys _ _ _ _ Hok).
Qed.

(** A method run through [get_voter_mut] acts on the one voter. *)
Lemma with_voter_mut_refines {A} k err (f : VStM Voter A) r :
  (forall v, v_id (snd (f v)) = v_id v) -> registry_ok r ->
  match registry_map r !! k with
  | None => with_voter_mut k err f r = (Err err, r)
  | Some v => exists r', with_voter_mut k err f r = (fst (f v), r') /\ registry_ok r' /\
                registry_map r' = <[k := snd (f v)]> (registry_map r)
  end.
Proof.
  intros Hf Hok. rewrite <- get_voter_map by done. unfold get_voter, with_voter_mut.
  destruct (vrs_voter_index r !! k) as [i|] eqn:E; cbn; [|done].
  apply Hok in E as (v & Hv & <-). rewrite Hv. specialize (Hf v).
  destruct (f v) as [res v'] eqn:Ef. cbn in *. eexists. split; [done|].
  split; [by eapply index_ok_update|]. by eapply keyed_update.
Qed.

Lemma registry_step_ok r r' : registry_step r r' -> registry_ok r -> registry_ok r'.
Proof.
  destruct 1 as [v r res r' E|k err f r res r' Hf E]; intros Hok.
  - pose proof (register_voter_refines v r Hok) as H. rewrite E in H.
    case_match; [by injection H as -> ->|]. by destruct H as (r1 & [= -> ->] & ? & _).
  - pose proof (with_voter_mut_refines k err f r) as H. rewrite E in H.
    specialize (H (fun v => proj1 (voter_step_mono _ _ (Hf v))) Hok).
    case_match; [|by injection H as -> ->]. by destruct H as (r1 & [= -> ->] & ? & _).
Qed.

Lemma registry_reachable_ok r : rtc registry_step VoterRegistry_new r -> registry_ok r.
Proof.
  intros Hr. assert (registry_ok VoterRegistry_new) as H0 by apply index_ok_nil.
  induction Hr; eauto using registry_step_ok.
Qed.

(** C26: in every reachable state the registry implements a finite map from
    identifiers to voters: lookup is the map's lookup and the count its size;
    registering adds a new identifier and refuses a known one without effect;
    marking a vote changes that voter only. *)
Theorem registry_refines_map (r : VoterRegistry) :
  rtc registry_step VoterRegistry_new r ->
  (forall k, get_voter r k = registry_map r !! k) /\
  voter_count r = Z.of_nat (size (registry_map r)) /\
  (forall v, match registry_map r !! v_id v with
     | Some _ => register_voter v r = (Err (InvalidInput "Voter already exists in registry"), r)
     | None => exists r', register_voter v r = (Ok tt, r') /\
                 registry_map r' = <[v_id v := v]> (registry_map r)
     end) /\
  (forall k e, match registry_map r !! k with
     | None => registry_mark_voted k e r = (Err (VoterNotEligible "Voter not found"), r)
     | Some v => exists r', registry_mark_voted k e r = (fst (voter_mark_voted e v), r') /\
                   registry_map r' = <[k := snd (voter_mark_voted e v)]> (registry_map r)
     end).
Proof.
  intros Hok%registry_reachable_ok. split_and!.
  - intros k. by apply get_voter_map.
  - unfold voter_count, registry_map, len. rewrite keyed_size; [done|]. by eapply index_ok_nodup.
  - intros v. pose proof (register_voter_refines v r Hok). case_match; naive_solver.
  - intros k e. pose proof (with_voter_mut_refines k (VoterNotEligible "Voter not found")
      (voter_mark_voted e) r) as H. unfold registry_mark_voted.
    specialize (H ltac:(intros v; by eapply voter_step_mono, (vstep_mark_voted e v), surjective_pairing) Hok).
    case_match; naive_solver.
Qed.

Lemma registry_step_voted r r' k v e :
  registry_step r r' -> registry_ok r ->
  registry_map r !! k = Some v -> e ∈ v_elections_voted v ->
  exists v', registry_map r' !! k = Some v' /\ e ∈ v_elections_voted v'.
Proof.
  destruct 1 as [u r res r' E|k' err f r res r' Hf E]; intros Hok Hv He.
  - pose proof (register_voter_refines u r Hok) as H. rewrite E in H.
    destruct (registry_map r !! v_id u) eqn:Eu; [injection H as -> ->; eauto|].
    destruct H as (r1 & [= -> ->] & _ & ->). exists v. split; [|done].
    rewrite lookup_insert_ne; [done|congruence].
  - pose proof (with_voter_mut_refines k' err f r) as H. rewrite E in H.
    specialize (H (fun v => proj1 (voter_step_mono _ _ (Hf v))) Hok).
    destruct (registry_map r !! k') as [w|] eqn:Ek; [|injection H as -> ->; eauto].
    destruct H as (r1 & [= -> ->] & _ & ->).
    destruct (decide (k = k')) as [->|]; [|rewrite lookup_insert_ne by done; eauto].
    rewrite lookup_insert_eq. eexists. split; [done|].
    destruct (voter_step_mono _ _ (Hf w)) as (_ & _ & Hsub). set_solver.
Qed.

(** The registry never lets a voter vote twice in an election: once a
    [mark_voted] was accepted, every later one for the same voter and election is
    refused, whatever operations come in between. *)
Theorem registry_votes_once (k : VoterId) (e : ElectionId) (r r1 r2 : VoterRegistry) :
  rtc registry_step VoterRegistry_new r ->
  registry_mark_voted k e r = (Ok tt, r1) -> rtc registry_step r1 r2 ->
  registry_is_eligible r2 k e = false /\ fst (registry_mark_voted k e r2) = Err AlreadyVoted /\
  registry_map (snd (registry_mark_voted k e r2)) = registry_map r2.
Proof.
  intros Hok%registry_reachable_ok Hm Hs.
  assert (forall v, v_id (snd (voter_mark_voted e v)) = v_id v) as Hid.
  { intros v. by eapply voter_step_mono, (vstep_mark_voted e v), surjective_pairing. }
  pose proof (with_voter_mut_refines k (VoterNotEligible "Voter not found") (voter_mark_voted e) r Hid Hok) as H.
  unfold registry_mark_voted in *. rewrite Hm in H.
  destruct (registry_map r !! k) as [v|] eqn:Ek; [|done].
  destruct H as (r1' & [= Hv <-] & Hok1 & Hmap).
  rewrite voter_mark_voted_cases in Hv, Hmap. destruct (decide _); [done|]. cbn in Hmap.
  assert (exists v', registry_map r2 !! k = Some v' /\ e ∈ v_elections_voted v') as (v' & Hv' & He).
  { assert (exists v', registry_map r1 !! k = Some v' /\ e ∈ v_elections_voted v') as Hex.
    { rewrite Hmap, lookup_insert_eq. eexists. split; [done|]. set_solver. }
    clear -Hs Hok1 Hex. induction Hs as [|x y z Hxy _ IH]; [done|].
    destruct Hex as (v' & Hv' & He). apply IH; [by eapply registry_step_ok|].
    by eapply registry_step_voted. }
  assert (registry_ok r2) as Hok2 by (clear -Hs Hok1; induction Hs; eauto using registry_step_ok).
  pose proof (with_voter_mut_refines k (VoterNotEligible "Voter not found") (voter_mark_voted e) r2 Hid Hok2) as H.
  rewrite Hv' in H. destruct H as (r3 & -> & _ & Hm3).
  rewrite voter_mark_voted_cases, decide_True in Hm3 |- * by done. cbn in *. split_and!; [|done|].
  - unfold registry_is_eligible. rewrite get_voter_map, Hv' by done.
    unfold voter_is_eligible, voter_has_voted. rewrite bool_decide_true by done. by rewrite andb_false_r.
  - rewrite Hm3. by apply insert_id.
Qed.

(** ** Registrations *)
Section registration.
Context `{HashCrate, Ed25519Spec}.

Lemma verify_hash_new now voter_id jurisdiction :
  verify_hash (VoterCredentials_new now voter_id jurisdiction) = true.
Proof. by apply constant_time_eq_spec. Qed.

(** A voter that holds credentials and signs with its own key makes a
    registration that verifies.  Nothing ties the identifier to the key or to the
    credentials: it verifies for any identifier in the voter record and for
    credentials issued to any identifier. *)
Theorem registration_verifies (sk : array 32) (v : Voter) (id : VoterId) (jurisdiction : string)
    (issued now : Z) :
  let kp := KeyPair_from_private_key sk in
  v_public_key v = kp_public kp ->
  v_credentials v = Some (VoterCredentials_new issued id jurisdiction) ->
  exists reg, VoterRegistration_create now v kp = Ok reg /\ registration_verify reg = Ok tt /\
    vreg_voter_id reg = v_id v /\ vreg_public_key reg = kp_public kp.
Proof.
  intros kp Hk Hc. unfold VoterRegistration_create. rewrite Hc. cbn. eexists. split; [done|].
  split; [|split; [done|exact Hk]]. unfold registration_verify. cbn [vreg_credentials]. rewrite verify_hash_new.
  cbn. rewrite Hk. by apply verify_own_signature.
Qed.
End registration.
