(* ===== verification/Ballot.v ===== *)
(** * Ballots: crates/voting/src/ballot.rs

    The ballot with its rules per type, the builder, the encrypted and signed
    [CastBallot], and the ballot box, a vector with an index by ballot identifier.
    Ballots are serialized by the external crate [bincode]. *)
From stdpp Require Import prelude gmap strings list pretty.
From Stdlib Require Import Strings.Byte.
From S2P Require Import Prelude Types Crypto Voter.

Local Open Scope Z_scope.

(** ** Data *)
Record BallotId := mkBallotId { ballot_id_bytes : array 32 }.

Global Instance BallotId_eq_dec : EqDecision BallotId.
Proof. solve_decision. Defined.
Global Instance BallotId_countable : Countable BallotId.
Proof. by apply (inj_countable' ballot_id_bytes mkBallotId); intros []. Defined.

Definition BallotId_to_hex `{HexCrate} (i : BallotId) : string := hex_encode (array_list (ballot_id_bytes i)).
Definition BallotId_from_hex `{HexCrate} (s : string) : VResult BallotId :=
  mkBallotId <$> id_from_hex "Invalid ballot ID length" s.

Inductive BallotType :=
| SingleChoice
| MultipleChoice (max_choices : Z)
| RankedChoice (max_ranks : Z)
| Approval
| WriteIn.

Global Instance BallotType_eq_dec : EqDecision BallotType.
Proof. solve_decision. Defined.

Definition BallotType_display (t : BallotType) : string :=
  match t with
  | SingleChoice => "single_choice"
  | MultipleChoice max_choices => "multiple_choice(" ++ pretty max_choices ++ ")"
  | RankedChoice max_ranks => "ranked_choice(" ++ pretty max_ranks ++ ")"
  | Approval => "approval"
  | WriteIn => "write_in"
  end.

Record BallotChoice := mkBallotChoice {
  bc_candidate_id : string;
  bc_rank : option Z;
  bc_write_in_name : option string
}.

Definition BallotChoice_new (candidate_id : string) : BallotChoice :=
  mkBallotChoice candidate_id None None.
Definition BallotChoice_with_rank (candidate_id : string) (rank : Z) : BallotChoice :=
  mkBallotChoice candidate_id (Some rank) None.
Definition BallotChoice_write_in (name : string) : BallotChoice :=
  mkBallotChoice "write_in" None (Some name).

Record Ballot := mkBallot {
  b_ballot_id : BallotId;
  b_election_id : ElectionId;
  b_ballot_type : BallotType;
  b_choices : list BallotChoice;
  b_timestamp : Z;
  b_version : Z
}.

(** [Ballot::new]: [rand] is the generated identifier. *)
Definition Ballot_new (now : Z) (rand : array 32) (election_id : ElectionId) (ballot_type : BallotType) : Ballot :=
  mkBallot (mkBallotId rand) election_id ballot_type [] now 1.

Definition push_choice (c : BallotChoice) (b : Ballot) : Ballot :=
  mkBallot (b_ballot_id b) (b_election_id b) (b_ballot_type b) (b_choices b ++ [c])
    (b_timestamp b) (b_version b).

(** The limit [add_choice] checks before it pushes. *)
Definition choice_allowed (b : Ballot) : VResult unit :=
  match b_ballot_type b with
  | SingleChoice =>
      ensure (len (b_choices b) =? 0) (InvalidBallot "Single choice ballot can only have one choice")
  | MultipleChoice max_choices =>
      ensure (negb (max_choices <=? len (b_choices b)))
        (InvalidBallot ("Cannot exceed " ++ pretty max_choices ++ " choices"))
  | RankedChoice max_ranks =>
      ensure (negb (max_ranks <=? len (b_choices b)))
        (InvalidBallot ("Cannot exceed " ++ pretty max_ranks ++ " ranks"))
  | Approval => Ok tt
  | WriteIn => Ok tt
  end.

Definition add_choice (choice : BallotChoice) : VStM Ballot unit :=
  b ← get;
  _ ← lift (choice_allowed b);
  modify (push_choice choice).

(** The loop over [choices.iter().enumerate()] that checks the ranks; [i] is the
    position of the first choice of [choices]. *)
Fixpoint validate_ranks (i : Z) (choices : list BallotChoice) : VResult unit :=
  match choices with
  | [] => Ok tt
  | choice :: choices' =>
      match bc_rank choice with
      | Some rank =>
          if rank =? i + 1 then validate_ranks (i + 1) choices'
          else Err (InvalidBallot "Ranks must be sequential")
      | None => Err (InvalidBallot "Ranked choice ballot must have ranks")
      end
  end.

Definition ballot_validate (b : Ballot) : VResult unit :=
  _ ← ensure (negb (len (b_choices b) =? 0)) (InvalidBallot "Ballot must have at least one choice");
  match b_ballot_type b with
  | SingleChoice =>
      ensure (len (b_choices b) =? 1) (InvalidBallot "Single choice ballot must have exactly one choice")
  | MultipleChoice max_choices =>
      ensure (negb (max_choices <? len (b_choices b)))
        (InvalidBallot ("Too many choices: " ++ pretty (len (b_choices b)) ++ " (max " ++
           pretty max_choices ++ ")"))
  | RankedChoice max_ranks =>
      _ ← ensure (negb (max_ranks <? len (b_choices b))) (InvalidBallot "Too many ranks");
      validate_ranks 0 (b_choices b)
  | Approval | WriteIn => Ok tt
  end.

(** [bincode] on ballots; [inr] is the message of an encoding or decoding error. *)
Class BincodeBallot := {
  bincode_ballot : Ballot -> list byte + string;
  bincode_ballot_decode : list byte -> Ballot + string
}.

(** Documented: decoding inverts encoding, for numbers that fit their fields. *)
Definition ballot_in_range (b : Ballot) : Prop :=
  is_u64 (b_timestamp b) /\ is_u32 (b_version b) /\
  match b_ballot_type b with MultipleChoice m | RankedChoice m => is_u64 m | _ => True end /\
  Forall (fun c => match bc_rank c with Some r => is_u32 r | None => True end) (b_choices b).

Class BincodeBallotSpec `{BincodeBallot} := {
  bincode_ballot_decode_encode : forall b data,
    ballot_in_range b -> bincode_ballot b = inl data -> bincode_ballot_decode data = inl b
}.

(** [bincode::serialize(self).expect("Failed to serialize ballot")]. *)
Definition ballot_serialize `{BincodeBallot} (b : Ballot) : VResult (list byte) :=
  match bincode_ballot b with
  | inl data => Ok data
  | inr _ => Panic
  end.
Definition ballot_deserialize `{BincodeBallot} (data : list byte) : VResult Ballot :=
  match bincode_ballot_decode data with
  | inl b => Ok b
  | inr e => Err (SerializationError ("Failed to deserialize: " ++ e))
  end.

(** ** The builder *)
Record BallotBuilder := mkBallotBuilder {
  bb_election_id : ElectionId;
  bb_ballot_type : BallotType;
  bb_choices : list BallotChoice
}.

Definition BallotBuilder_new (election_id : ElectionId) (ballot_type : BallotType) : BallotBuilder :=
  mkBallotBuilder election_id ballot_type [].

Definition builder_push (c : BallotChoice) (b : BallotBuilder) : BallotBuilder :=
  mkBallotBuilder (bb_election_id b) (bb_ballot_type b) (bb_choices b ++ [c]).

Definition builder_add_choice (candidate_id : string) : BallotBuilder -> BallotBuilder :=
  builder_push (BallotChoice_new candidate_id).
Definition builder_add_ranked_choice (candidate_id : string) (rank : Z) : BallotBuilder -> BallotBuilder :=
  builder_push (BallotChoice_with_rank candidate_id rank).
Definition builder_add_write_in (name : string) : BallotBuilder -> BallotBuilder :=
  builder_push (BallotChoice_write_in name).

(** [build]: the choices are added one by one to a new ballot, which is validated. *)
Definition build (now : Z) (rand : array 32) (b : BallotBuilder) : VResult Ballot :=
  let '(r, ballot) := st_for_each add_choice (bb_choices b)
                        (Ballot_new now rand (bb_election_id b) (bb_ballot_type b)) in
  _ ← r;
  _ ← ballot_validate ballot;
  Ok ballot.

(** ** Cast ballots *)
Record CastBallot := mkCastBallot {
  cb_ballot_id : BallotId;
  cb_election_id : ElectionId;
  cb_voter_id : VoterId;
  cb_encrypted_ballot : EncryptedData;
  cb_ballot_commitment : list byte;
  cb_voter_signature : Signature;
  cb_cast_at : Z;
  cb_transaction_id : option TxId
}.

Definition set_transaction_id (tx_id : TxId) (b : CastBallot) : CastBallot :=
  mkCastBallot (cb_ballot_id b) (cb_election_id b) (cb_voter_id b) (cb_encrypted_ballot b)
    (cb_ballot_commitment b) (cb_voter_signature b) (cb_cast_at b) (Some tx_id).

Section cast_ballot.
Context `{HashCrate, Ed25519Crate, AeadCrate, BincodeBallot}.

Definition ballot_compute_message (ballot_id : BallotId) (election_id : ElectionId) (voter_id : VoterId)
    (encrypted_ballot : EncryptedData) (ballot_commitment : list byte) : list byte :=
  array_list (hash_blake2b_multiple
    [array_list (ballot_id_bytes ballot_id); array_list (election_id_bytes election_id);
     array_list (voter_id_bytes voter_id); EncryptedData_to_bytes encrypted_ballot; ballot_commitment]).

(** [CastBallot::create]: [nonce] and [randomness] are the generated encryption
    nonce and commitment randomness, [now] the clock at the end. *)
Definition CastBallot_create (nonce : array 12) (randomness : list byte) (now : Z)
    (ballot : Ballot) (voter_id : VoterId) (election_key : array 32) (voter_keypair : KeyPair)
    : VResult CastBallot :=
  ballot_data ← ballot_serialize ballot;
  encrypted_ballot ← encrypt nonce ballot_data election_key;
  let ballot_commitment := cm_value (Commitment_new ballot_data randomness) in
  let message := ballot_compute_message (b_ballot_id ballot) (b_election_id ballot) voter_id
                   encrypted_ballot ballot_commitment in
  voter_signature ← sign message voter_keypair;
  Ok (mkCastBallot (b_ballot_id ballot) (b_election_id ballot) voter_id encrypted_ballot
        ballot_commitment voter_signature now None).

Definition cast_ballot_verify (b : CastBallot) (voter_public_key : PublicKey) : VResult unit :=
  verify_signature
    (ballot_compute_message (cb_ballot_id b) (cb_election_id b) (cb_voter_id b)
       (cb_encrypted_ballot b) (cb_ballot_commitment b))
    (cb_voter_signature b) voter_public_key.
End cast_ballot.

(** ** The ballot box *)
Record BallotBox := mkBallotBox {
  bx_ballots : list CastBallot;
  bx_ballot_index : gmap BallotId nat
}.

Definition BallotBox_new : BallotBox := mkBallotBox [] ∅.

Definition add_ballot (ballot : CastBallot) : VStM BallotBox unit :=
  bx ← get;
  _ ← lift (ensure (negb (bool_decide (is_Some (bx_ballot_index bx !! cb_ballot_id ballot))))
              (InvalidBallot "Ballot already exists"));
  let index := length (bx_ballots bx) in
  modify (fun bx => mkBallotBox (bx_ballots bx ++ [ballot])
                      (<[cb_ballot_id ballot := index]> (bx_ballot_index bx))).

Definition get_ballot (bx : BallotBox) (ballot_id : BallotId) : option CastBallot :=
  index ← bx_ballot_index bx !! ballot_id; bx_ballots bx !! index.

Definition ballot_count (bx : BallotBox) : Z := len (bx_ballots bx).
Definition ballots_for_election (bx : BallotBox) (election_id : ElectionId) : list CastBallot :=
  filter (fun b => cb_election_id b = election_id) (bx_ballots bx).
Definition contains_ballot (bx : BallotBox) (ballot_id : BallotId) : bool :=
  bool_decide (is_Some (bx_ballot_index bx !! ballot_id)).
Definition all_ballots (bx : BallotBox) : list CastBallot := bx_ballots bx.

(** ** The rules of ballots *)

(** What a ballot of each type must look like. *)
Definition well_formed (t : BallotType) (choices : list BallotChoice) : Prop :=
  choices <> [] /\
  match t with
  | SingleChoice => len choices = 1
  | MultipleChoice max_choices => len choices <= max_choices
  | RankedChoice max_ranks =>
      len choices <= max_ranks /\ bc_rank <$> choices = Some <$> seqZ 1 (len choices)
  | Approval | WriteIn => True
  end.

Lemma validate_ranks_spec i choices :
  (validate_ranks i choices = Ok tt <-> bc_rank <$> choices = Some <$> seqZ (i + 1) (len choices)) /\
  (validate_ranks i choices = Ok tt \/ exists msg, validate_ranks i choices = Err (InvalidBallot msg)).
Proof.
  revert i. induction choices as [|c choices IH]; intros i; [by split; [|left]|].
  assert (len (c :: choices) = len choices + 1) as -> by (unfold len; cbn; lia).
  pose proof (len_nonneg choices). rewrite (seqZ_cons (i + 1)) by lia.
  rewrite !fmap_cons. replace (Z.pred (len choices + 1)) with (len choices) by lia.
  replace (Z.succ (i + 1)) with (i + 1 + 1) by lia. cbn [validate_ranks].
  destruct (bc_rank c) as [rank|]; [|split; [split; by intros|right; eauto]].
  destruct (Z.eqb_spec rank (i + 1)) as [->|Hne].
  - destruct (IH (i + 1)) as [IH1 IH2]. split; [|done]. rewrite IH1. split; [by intros ->|by intros [= ->]].
  - split; [|by right; eauto]. split; [done|]. intros [= ? ?]. done.
Qed.

Lemma ballot_validate_decides b :
  (ballot_validate b = Ok tt <-> well_formed (b_ballot_type b) (b_choices b)) /\
  (ballot_validate b = Ok tt \/ exists msg, ballot_validate b = Err (InvalidBallot msg)).
Proof.
  unfold ballot_validate, well_formed. rewrite <- (len_nonzero_iff (b_choices b)).
  destruct (len (b_choices b) =? 0); cbn; [split; [split; [done|by intros [? _]]|right; eauto]|].
  destruct (b_ballot_type b) as [|m|m| |]; [| | |split; [done|by left]..].
  - destruct (Z.eqb_spec (len (b_choices b)) 1); cbn; (split; [|eauto]); split; try done.
    by intros [_ ?].
  - destruct (Z.ltb_spec m (len (b_choices b))); cbn; (split; [|eauto]).
    + split; [done|lia].
    + split; [split; [done|lia]|done].
  - destruct (validate_ranks_spec 0 (b_choices b)) as [H1 H2].
    destruct (Z.ltb_spec m (len (b_choices b))); cbn; [split; [|eauto]; split; [done|lia]|].
    split; [|done]. rewrite H1. split; [intros ?; split_and!; [done|lia|done]|by intros (_ & _ & ?)].
Qed.

Definition with_choices (b : Ballot) (choices : list BallotChoice) : Ballot :=
  mkBallot (b_ballot_id b) (b_election_id b) (b_ballot_type b) choices (b_timestamp b) (b_version b).

(** The number of choices [add_choice] lets through. *)
Definition within_limit (t : BallotType) (n : Z) : Prop :=
  match t with
  | SingleChoice => n <= 1
  | MultipleChoice m | RankedChoice m => n <= m
  | Approval | WriteIn => True
  end.

Lemma choice_allowed_spec b :
  (choice_allowed b = Ok tt /\ within_limit (b_ballot_type b) (len (b_choices b) + 1)) \/
  ((exists msg, choice_allowed b = Err (InvalidBallot msg)) /\
   ~ within_limit (b_ballot_type b) (len (b_choices b) + 1)).
Proof.
  unfold choice_allowed, within_limit. pose proof (len_nonneg (b_choices b)).
  destruct (b_ballot_type b) as [|m|m| |]; try by left.
  - destruct (Z.eqb_spec (len (b_choices b)) 0); cbn; [left|right; split; [eauto|]]; lia || (split; [done|lia]).
  - destruct (Z.leb_spec m (len (b_choices b))); cbn; [right; split; [eauto|lia]|left; split; [done|lia]].
  - destruct (Z.leb_spec m (len (b_choices b))); cbn; [right; split; [eauto|lia]|left; split; [done|lia]].
Qed.

Lemma within_limit_mono t n n' : n' <= n -> within_limit t n -> within_limit t n'.
Proof. unfold within_limit. destruct t; try done; lia. Qed.

Lemma add_choices_spec choices b :
  (within_limit (b_ballot_type b) (len (b_choices b)) \/ choices <> []) ->
  (st_for_each add_choice choices b = (Ok tt, with_choices b (b_choices b ++ choices)) /\
   within_limit (b_ballot_type b) (len (b_choices b ++ choices))) \/
  ((exists msg b', st_for_each add_choice choices b = (Err (InvalidBallot msg), b')) /\
   ~ within_limit (b_ballot_type b) (len (b_choices b ++ choices))).
Proof.
  revert b. induction choices as [|c choices IH]; intros b Hb; cbn.
  { left. rewrite app_nil_r. destruct Hb as [Hb|Hb]; [|done]. split; [by destruct b|done]. }
  unfold add_choice at 1 3, mbind, stM_bind, get, lift, modify.
  assert (len (b_choices b ++ c :: choices) = len (b_choices b) + 1 + len choices) as Hlen.
  { rewrite len_app. unfold len. cbn. lia. }
  destruct (choice_allowed_spec b) as [[-> Hl]|[(msg & ->) Hl]].
  - destruct (IH (push_choice c b)) as [[-> H]|[(msg & b' & ->) H]].
    + left. cbn. rewrite len_app. exact Hl.
    + left. cbn in *. rewrite <- app_assoc in *. done.
    + right. cbn in *. rewrite <- app_assoc in *. eauto.
  - right. split; [eauto|]. intros H. apply Hl. eapply within_limit_mono; [|exact H].
    rewrite Hlen. pose proof (len_nonneg choices). lia.
Qed.

(** C10: validation and the builder implement the rules of each ballot type, the
    ranks 1, 2, ... in order for ranked ballots: [validate] accepts exactly the
    well-formed ballots, and [build] yields the ballot with exactly the requested
    choices when they are well formed and [InvalidBallot] otherwise. *)
Theorem ballot_rules (now : Z) (rand : array 32) (bb : BallotBuilder) :
  let b := mkBallot (mkBallotId rand) (bb_election_id bb) (bb_ballot_type bb) (bb_choices bb) now 1 in
  (ballot_validate b = Ok tt <-> well_formed (bb_ballot_type bb) (bb_choices bb)) /\
  ((well_formed (bb_ballot_type bb) (bb_choices bb) /\ build now rand bb = Ok b) \/
   (~ well_formed (bb_ballot_type bb) (bb_choices bb) /\
    exists msg, build now rand bb = Err (InvalidBallot msg))).
Proof.
  intros b. destruct (ballot_validate_decides b) as [Hv Hr]. split; [exact Hv|].
  destruct bb as [e t cs]. cbn in *. unfold build. cbn.
  destruct cs as [|c cs].
  { right. split; [by intros [? _]|]. cbn. eauto. }
  destruct (add_choices_spec (c :: cs) (Ballot_new now rand e t)) as [[-> Hl]|[(msg & b' & ->) Hl]];
    [by right|..]; cbn.
  - fold b. change (with_choices _ _) with b.
    destruct Hr as [Hr|[msg Hr]]; rewrite Hr; cbn; [left; split; [by apply Hv|done]|right].
    split; [|by eauto]. rewrite <- Hv, Hr. done.
  - right. split; [|by eauto]. intros [_ Hw]. apply Hl. unfold within_limit. cbn in *.
    destruct t; try done; lia.
Qed.

(** ** Casting *)
Section casting.
Context `{HashCrate, Ed25519Spec, AeadSpec, BincodeBallotSpec}.

Lemma CastBallot_create_inv nonce randomness now ballot voter_id key kp cb :
  CastBallot_create nonce randomness now ballot voter_id key kp = Ok cb ->
  cb_ballot_id cb = b_ballot_id ballot /\ cb_election_id cb = b_election_id ballot /\
  cb_voter_id cb = voter_id /\
  (exists data, ballot_serialize ballot = Ok data /\ encrypt nonce data key = Ok (cb_encrypted_ballot cb) /\
     cb_ballot_commitment cb = cm_value (Commitment_new data randomness)) /\
  sign (ballot_compute_message (cb_ballot_id cb) (cb_election_id cb) (cb_voter_id cb)
          (cb_encrypted_ballot cb) (cb_ballot_commitment cb)) kp = Ok (cb_voter_signature cb).
Proof.
  unfold CastBallot_create. intros (data & Hs & (d & He & Hsig)%bind_Ok)%bind_Ok.
  apply bind_Ok in Hsig as (sig & Hsig & [= <-]). split_and!; try done. by exists data.
Qed.

Lemma created_ballot_verifies nonce randomness now ballot voter_id key sk cb :
  CastBallot_create nonce randomness now ballot voter_id key (KeyPair_from_private_key sk) = Ok cb ->
  cast_ballot_verify cb (kp_public (KeyPair_from_private_key sk)) = Ok tt.
Proof. intros (_ & _ & _ & _ & Hs)%CastBallot_create_inv. by apply verify_own_signature. Qed.

(** C22: a cast ballot carries the ballot: it verifies under the voter's key, whoever
    holds the election key decrypts and reads back exactly the ballot that was cast,
    and the commitment opens to it; the transaction identifier added later does not
    disturb the signature. *)
Theorem cast_ballot_round_trip (nonce : array 12) (randomness : list byte) (now : Z) (ballot : Ballot)
    (voter_id : VoterId) (election_key sk : array 32) (cb : CastBallot) (tx : TxId) :
  ballot_in_range ballot ->
  CastBallot_create nonce randomness now ballot voter_id election_key (KeyPair_from_private_key sk) = Ok cb ->
  cast_ballot_verify cb (kp_public (KeyPair_from_private_key sk)) = Ok tt /\
  cast_ballot_verify (set_transaction_id tx cb) (kp_public (KeyPair_from_private_key sk)) = Ok tt /\
  (data ← decrypt (cb_encrypted_ballot cb) election_key; ballot_deserialize data) = Ok ballot /\
  exists plaintext, ballot_serialize ballot = Ok plaintext /\
    verify_opening (cb_ballot_commitment cb) plaintext randomness = true.
Proof.
  intros Hb Hc. pose proof (created_ballot_verifies _ _ _ _ _ _ _ _ Hc) as Hv.
  apply CastBallot_create_inv in Hc as (_ & _ & _ & (data & Hs & He & Hcm) & _).
  split_and!; [done|exact Hv| |].
  - unfold encrypt in He. destruct (aead_encrypt _ _ _) as [c|] eqn:Ec; [|done].
    injection He as <-. unfold decrypt. cbn. rewrite (aead_decrypt_encrypt _ _ _ _ Ec). cbn.
    unfold ballot_serialize in Hs. destruct (bincode_ballot ballot) as [x|] eqn:Ex; [|done]. injection Hs as ->.
    unfold ballot_deserialize. by rewrite (bincode_ballot_decode_encode _ _ Hb Ex).
  - exists data. split; [done|]. rewrite Hcm. unfold verify_opening. by apply bool_decide_eq_true.
Qed.
End casting.

(** ** The box as a finite map *)
Definition box_ok (bx : BallotBox) : Prop := index_ok cb_ballot_id (bx_ballots bx) (bx_ballot_index bx).
Definition box_map (bx : BallotBox) : gmap BallotId CastBallot := keyed cb_ballot_id (bx_ballots bx).

Inductive box_step : BallotBox -> BallotBox -> Prop :=
| bstep_add ballot bx r bx' : add_ballot ballot bx = (r, bx') -> box_step bx bx'.

Lemma add_ballot_cases ballot bx :
  add_ballot ballot bx =
    match bx_ballot_index bx !! cb_ballot_id ballot with
    | Some _ => (Err (InvalidBallot "Ballot already exists"), bx)
    | None => (Ok tt, mkBallotBox (bx_ballots bx ++ [ballot])
                        (<[cb_ballot_id ballot := length (bx_ballots bx)]> (bx_ballot_index bx)))
    end.
Proof.
  unfold add_ballot, mbind, stM_bind, get, lift, modify, ensure.
  destruct (bx_ballot_index bx !! cb_ballot_id ballot) eqn:E.
  - rewrite bool_decide_true by eauto. done.
  - rewrite bool_decide_false by (intros [? ?]; done). done.
Qed.

Lemma add_ballot_refines ballot bx :
  box_ok bx ->
  match box_map bx !! cb_ballot_id ballot with
  | Some _ => add_ballot ballot bx = (Err (InvalidBallot "Ballot already exists"), bx)
  | None => exists bx', add_ballot ballot bx = (Ok tt, bx') /\ box_ok bx' /\
              box_map bx' = <[cb_ballot_id ballot := ballot]> (box_map bx)
  end.
Proof.
  intros Hok. rewrite add_ballot_cases. unfold box_map.
  rewrite <- (indexed_lookup_keyed _ _ _ _ Hok). unfold indexed_lookup.
  destruct (bx_ballot_index bx !! cb_ballot_id ballot) as [i|] eqn:E; cbn.
  - apply Hok in E as (x & -> & _). done.
  - eexists. split; [done|]. split; [by apply index_ok_snoc|].
    apply keyed_snoc. by apply (index_ok_keys _ _ _ _ Hok).
Qed.

Lemma box_steps_ok bx bx' : rtc box_step bx bx' -> box_ok bx -> box_ok bx' /\ box_map bx ⊆ box_map bx'.
Proof.
  induction 1 as [|x y z [b bx0 r bx1 E] _ IH]; intros Hok; [done|].
  pose proof (add_ballot_refines b bx0 Hok) as Ha. rewrite E in Ha.
  destruct (box_map bx0 !! cb_ballot_id b) eqn:Eb; [injection Ha as -> ->; by apply IH|].
  destruct Ha as (bx2 & [= -> ->] & Hok1 & Hm). destruct (IH Hok1) as [? Hsub]. split; [done|].
  etrans; [|exact Hsub]. rewrite Hm. by apply insert_subseteq.
Qed.

(** The ballot box only ever gains ballots: through any sequence of additions a
    stored ballot stays what it was, a lookup finds it, an identifier is used once,
    and a ballot with a known identifier is refused without effect. *)
Theorem ballot_box_append_only (bx bx' : BallotBox) (ballot : CastBallot) :
  rtc box_step BallotBox_new bx -> rtc box_step bx bx' ->
  box_map bx ⊆ box_map bx' /\
  (forall k, get_ballot bx' k = box_map bx' !! k) /\
  (forall k, contains_ballot bx' k = true <-> is_Some (box_map bx' !! k)) /\
  ballot_count bx' = Z.of_nat (size (box_map bx')) /\
  match box_map bx' !! cb_ballot_id ballot with
  | Some _ => add_ballot ballot bx' = (Err (InvalidBallot "Ballot already exists"), bx')
  | None => exists bx2, add_ballot ballot bx' = (Ok tt, bx2) /\
              box_map bx2 = <[cb_ballot_id ballot := ballot]> (box_map bx')
  end.
Proof.
  intros H0 H1. assert (box_ok BallotBox_new) as Hnew by apply index_ok_nil.
  destruct (box_steps_ok _ _ H0 Hnew) as [Hok _]. destruct (box_steps_ok _ _ H1 Hok) as [Hok' Hsub].
  assert (forall k, get_ballot bx' k = box_map bx' !! k) as Hget
    by (intros k; by apply indexed_lookup_keyed).
  split_and!; try done.
  - intros k. unfold contains_ballot. rewrite bool_decide_eq_true, <- Hget. unfold get_ballot.
    destruct (bx_ballot_index bx' !! k) as [i|] eqn:E; cbn.
    + apply Hok' in E as (x & -> & _). split; eauto.
    + split; intros [? ?]; done.
  - unfold ballot_count, box_map, len. rewrite keyed_size; [done|]. by eapply index_ok_nodup.
  - pose proof (add_ballot_refines ballot bx' Hok'). case_match; naive_solver.
Qed.
