(* ===== verification/VoteCasting.v ===== *)
(** * Vote casting: crates/voting/src/vote_casting.rs

    [VoteCaster] keeps the registered voters and one record per voter that voted;
    votes arrive either with the voter's key pair ([cast_vote]) or as a signed
    [VoteSubmission] ([submit_vote]), which a [VotingSession] prepares.  Clock
    readings and generated values are arguments, in the order of their use. *)
From stdpp Require Import prelude gmap strings list.
From Stdlib Require Import Strings.Byte.
From S2P Require Import Prelude Floats64 Types Crypto Election Voter Ballot.

Local Open Scope Z_scope.

(** ** Data *)
Record ReceiptId := mkReceiptId { receipt_id_bytes : array 32 }.

Record VoteReceipt := mkVoteReceipt {
  rc_receipt_id : ReceiptId;
  rc_ballot_id : BallotId;
  rc_election_id : ElectionId;
  rc_voter_id : VoterId;
  rc_cast_at : Z;
  rc_confirmation_code : string
}.

Record VoteRecord := mkVoteRecord {
  vrec_voter_id : VoterId;
  vrec_cast_ballot : CastBallot;
  vrec_cast_at : Z
}.

Record VoteSubmission := mkVoteSubmission {
  vs_voter_id : VoterId;
  vs_cast_ballot : CastBallot;
  vs_submission_signature : Signature;
  vs_submitted_at : Z
}.

Record VoteCaster := mkVoteCaster {
  vca_election : Election;
  vca_votes_cast : gmap VoterId VoteRecord;
  vca_voter_registry : gset VoterId
}.

Definition VoteCaster_new (election : Election) : VoteCaster := mkVoteCaster election ∅ ∅.

Definition caster_register_voter (voter_id : VoterId) (c : VoteCaster) : VoteCaster :=
  mkVoteCaster (vca_election c) (vca_votes_cast c) ({[voter_id]} ∪ vca_voter_registry c).

Definition insert_vote (voter_id : VoterId) (rec : VoteRecord) (c : VoteCaster) : VoteCaster :=
  mkVoteCaster (vca_election c) (<[voter_id := rec]> (vca_votes_cast c)) (vca_voter_registry c).

Section vote_casting.
Context `{HashCrate, HexCrate, Ed25519Crate, AeadCrate, BincodeBallot}.

(** ** Receipts *)

(** [hex::encode(&hash[..8])]. *)
Definition generate_confirmation_code (receipt_id : ReceiptId) (ballot_id : BallotId) : string :=
  let hash := hash_blake2b_multiple
                [array_list (receipt_id_bytes receipt_id); array_list (ballot_id_bytes ballot_id)] in
  hex_encode (take 8 (array_list hash)).

Definition VoteReceipt_new (rand : array 32) (ballot_id : BallotId) (election_id : ElectionId)
    (voter_id : VoterId) (cast_at : Z) : VoteReceipt :=
  let receipt_id := mkReceiptId rand in
  mkVoteReceipt receipt_id ballot_id election_id voter_id cast_at
    (generate_confirmation_code receipt_id ballot_id).

Definition verify_confirmation_code (r : VoteReceipt) : bool :=
  let expected := generate_confirmation_code (rc_receipt_id r) (rc_ballot_id r) in
  constant_time_eq (String.list_byte_of_string (rc_confirmation_code r))
    (String.list_byte_of_string expected).

(** ** Submissions *)
Definition submission_compute_message (voter_id : VoterId) (cast_ballot : CastBallot) (submitted_at : Z)
    : list byte :=
  array_list (hash_blake2b_multiple
    [array_list (voter_id_bytes voter_id); array_list (ballot_id_bytes (cb_ballot_id cast_ballot));
     array_list (election_id_bytes (cb_election_id cast_ballot)); u64_le submitted_at]).

Definition VoteSubmission_create (now : Z) (voter_id : VoterId) (cast_ballot : CastBallot)
    (voter_keypair : KeyPair) : VResult VoteSubmission :=
  submission_signature ← sign (submission_compute_message voter_id cast_ballot now) voter_keypair;
  Ok (mkVoteSubmission voter_id cast_ballot submission_signature now).

Definition submission_verify (s : VoteSubmission) (voter_public_key : PublicKey) : VResult unit :=
  _ ← cast_ballot_verify (vs_cast_ballot s) voter_public_key;
  verify_signature (submission_compute_message (vs_voter_id s) (vs_cast_ballot s) (vs_submitted_at s))
    (vs_submission_signature s) voter_public_key.

(** ** The vote caster *)

(** The random and clock values one [cast_vote] draws. *)
Record CastInputs := mkCastInputs {
  ci_current_time : Z;
  ci_nonce : array 12;
  ci_randomness : list byte;
  ci_cast_at : Z;
  ci_receipt : array 32
}.

Definition cast_vote (i : CastInputs) (voter : Voter) (ballot : Ballot) (voter_keypair : KeyPair)
    (election_key : array 32) : VStM VoteCaster VoteReceipt :=
  c ← get;
  _ ← lift (ensure (bool_decide (v_id voter ∈ vca_voter_registry c))
              (VoterNotEligible "Voter not registered"));
  _ ← lift (ensure (negb (bool_decide (is_Some (vca_votes_cast c !! v_id voter)))) AlreadyVoted);
  let current_time := ci_current_time i in
  _ ← lift (ensure (is_active (vca_election c) current_time) ElectionNotActive);
  _ ← lift (ensure (bool_decide (b_election_id ballot = el_id (vca_election c)))
              (InvalidBallot "Ballot election ID mismatch"));
  _ ← lift (ballot_validate ballot);
  cast_ballot ← lift (CastBallot_create (ci_nonce i) (ci_randomness i) (ci_cast_at i) ballot
                        (v_id voter) election_key voter_keypair);
  let vote_record := mkVoteRecord (v_id voter) cast_ballot current_time in
  _ ← modify (insert_vote (v_id voter) vote_record);
  mret (VoteReceipt_new (ci_receipt i) (cb_ballot_id cast_ballot) (el_id (vca_election c))
          (v_id voter) current_time).

(** [submit_vote]: [now] is the clock, [rand] the receipt identifier. *)
Definition submit_vote (now : Z) (rand : array 32) (submission : VoteSubmission)
    (voter_public_key : PublicKey) : VStM VoteCaster VoteReceipt :=
  c ← get;
  _ ← lift (ensure (bool_decide (vs_voter_id submission ∈ vca_voter_registry c))
              (VoterNotEligible "Voter not registered"));
  _ ← lift (ensure (negb (bool_decide (is_Some (vca_votes_cast c !! vs_voter_id submission)))) AlreadyVoted);
  _ ← lift (ensure (is_active (vca_election c) now) ElectionNotActive);
  _ ← lift (submission_verify submission voter_public_key);
  let vote_record := mkVoteRecord (vs_voter_id submission) (vs_cast_ballot submission) now in
  _ ← modify (insert_vote (vs_voter_id submission) vote_record);
  mret (VoteReceipt_new rand (cb_ballot_id (vs_cast_ballot submission)) (el_id (vca_election c))
          (vs_voter_id submission) now).

Definition caster_has_voted (c : VoteCaster) (voter_id : VoterId) : bool :=
  bool_decide (is_Some (vca_votes_cast c !! voter_id)).
Definition vote_count (c : VoteCaster) : Z := Z.of_nat (size (vca_votes_cast c)).
Definition get_vote_record (c : VoteCaster) (voter_id : VoterId) : option VoteRecord :=
  vca_votes_cast c !! voter_id.
Definition all_cast_ballots (c : VoteCaster) : list CastBallot :=
  vrec_cast_ballot <$> (snd <$> map_to_list (vca_votes_cast c)).
Definition registered_voters (c : VoteCaster) : Z := Z.of_nat (size (vca_voter_registry c)).

Definition turnout_percentage (c : VoteCaster) : f64 :=
  if bool_decide (vca_voter_registry c = ∅) then f64_zero
  else f64_mul (f64_div (f64_of_Z (vote_count c)) (f64_of_Z (registered_voters c))) f64_hundred.

(** ** Sessions *)
Inductive SessionState := Started | BallotFilled | Submitted | Cancelled.

Global Instance SessionState_eq_dec : EqDecision SessionState.
Proof. solve_decision. Defined.

Record VotingSession := mkVotingSession {
  s_election_id : ElectionId;
  s_voter : Voter;
  s_ballot : option Ballot;
  s_state : SessionState;
  s_started_at : Z
}.

Definition VotingSession_new (now : Z) (election_id : ElectionId) (voter : Voter) : VotingSession :=
  mkVotingSession election_id voter None Started now.

Definition set_ballot (ballot : Ballot) : VStM VotingSession unit :=
  s ← get;
  _ ← lift (ensure (bool_decide (s_state s = Started)) (InvalidInput "Session not in correct state"));
  _ ← lift (ensure (bool_decide (b_election_id ballot = s_election_id s))
              (InvalidBallot "Ballot election mismatch"));
  modify (fun s => mkVotingSession (s_election_id s) (s_voter s) (Some ballot) BallotFilled
                     (s_started_at s)).

(** [submit] consumes the session; [now] is the submission time, [i] the values drawn
    for the ballot and the receipt (whose time is [ci_current_time i]). *)
Definition session_submit (i : CastInputs) (now : Z) (s : VotingSession) (voter_keypair : KeyPair)
    (election_key : array 32) : VResult (VoteSubmission * VoteReceipt) :=
  _ ← ensure (bool_decide (s_state s = BallotFilled)) (InvalidInput "Session not ready for submission");
  ballot ← ok_or (s_ballot s) (InvalidInput "No ballot in session");
  cast_ballot ← CastBallot_create (ci_nonce i) (ci_randomness i) (ci_cast_at i) ballot
                  (v_id (s_voter s)) election_key voter_keypair;
  submission ← VoteSubmission_create now (v_id (s_voter s)) cast_ballot voter_keypair;
  Ok (submission, VoteReceipt_new (ci_receipt i) (b_ballot_id ballot) (s_election_id s)
                    (v_id (s_voter s)) (ci_current_time i)).

Definition session_cancel (s : VotingSession) : VotingSession :=
  mkVotingSession (s_election_id s) (s_voter s) (s_ballot s) Cancelled (s_started_at s).

(** ** Statistics *)
Record VoteCastingStats := mkVoteCastingStats {
  st_total_votes : Z;
  st_votes_per_hour : gmap Z Z;
  st_average_casting_time_ms : Z;
  st_peak_hour : option Z
}.

(** [*votes_per_hour.entry(hour).or_insert(0) += 1]. *)
Definition count_hour (m : gmap Z Z) (rec : VoteRecord) : gmap Z Z :=
  let hour := vrec_cast_at rec / 3600 in
  <[hour := u64_add (default 0 (m !! hour)) 1]> m.

(** [from_records]: the iteration order of the map, unspecified in Rust, is that of
    [map_to_list]. *)
Definition from_records (records : list VoteRecord) : VoteCastingStats :=
  let votes_per_hour := foldl count_hour ∅ records in
  mkVoteCastingStats (len records) votes_per_hour 0
    (fst <$> max_by_key snd (map_to_list votes_per_hour)).

Definition votes_in_hour (s : VoteCastingStats) (hour : Z) : Z :=
  default 0 (st_votes_per_hour s !! hour).
End vote_casting.

(** ** One voter, one vote *)
Section caster_properties.
Context `{HashCrate, HexCrate, Ed25519Crate, AeadCrate, BincodeBallot}.

Inductive caster_step : VoteCaster -> VoteCaster -> Prop :=
| cstep_register voter_id c : caster_step c (caster_register_voter voter_id c)
| cstep_cast i voter ballot kp key c r c' :
    cast_vote i voter ballot kp key c = (r, c') -> caster_step c c'
| cstep_submit now rand s pk c r c' : submit_vote now rand s pk c = (r, c') -> caster_step c c'.

(** Either nothing changes, or a registered voter without a vote gets a record, made
    while the election is active. *)
Definition vote_recorded (c c' : VoteCaster) : Prop :=
  c' = c \/
  exists id rec, c' = insert_vote id rec c /\ id ∈ vca_voter_registry c /\
    vca_votes_cast c !! id = None /\ vrec_voter_id rec = id /\
    is_active (vca_election c) (vrec_cast_at rec) = true.

Lemma not_voted_None (c : VoteCaster) id :
  negb (bool_decide (is_Some (vca_votes_cast c !! id))) = true <-> vca_votes_cast c !! id = None.
Proof. by rewrite negb_bool_decide_true, <- eq_None_not_Some. Qed.

(** The accepted calls of [cast_vote]; every other call changes nothing. *)
Lemma cast_vote_inv i voter ballot kp key c r c' :
  cast_vote i voter ballot kp key c = (r, c') ->
  (is_ok r = false /\ c' = c) \/
  (exists cb, v_id voter ∈ vca_voter_registry c /\ vca_votes_cast c !! v_id voter = None /\
     is_active (vca_election c) (ci_current_time i) = true /\
     b_election_id ballot = el_id (vca_election c) /\ ballot_validate ballot = Ok tt /\
     CastBallot_create (ci_nonce i) (ci_randomness i) (ci_cast_at i) ballot (v_id voter) key kp = Ok cb /\
     c' = insert_vote (v_id voter) (mkVoteRecord (v_id voter) cb (ci_current_time i)) c /\
     r = Ok (VoteReceipt_new (ci_receipt i) (cb_ballot_id cb) (el_id (vca_election c)) (v_id voter)
               (ci_current_time i))).
Proof.
  unfold cast_vote, mbind, stM_bind, get, lift, modify, mret, stM_ret, ensure.
  case_bool_decide as Hr; [|intros [= <- <-]; by left].
  destruct (negb _) eqn:Hn; [apply not_voted_None in Hn|intros [= <- <-]; by left].
  destruct (is_active _ _) eqn:Ha; [|intros [= <- <-]; by left].
  case_bool_decide as He; [|intros [= <- <-]; by left].
  destruct (ballot_validate_decides ballot) as [_ [Hv|[msg Hv]]]; rewrite Hv;
    [|intros [= <- <-]; by left].
  destruct (CastBallot_create _ _ _ _ _ _ _) as [cb|e|] eqn:Ec; intros [= <- <-]; [|by left..].
  right. exists cb. by split_and!.
Qed.

Lemma verify_signature_no_panic message sig key : verify_signature message sig key <> Panic.
Proof. unfold verify_signature. destruct (ed_key_error _); [done|apply ensure_no_panic]. Qed.

Lemma submission_verify_no_panic s pk : submission_verify s pk <> Panic.
Proof.
  unfold submission_verify, cast_ballot_verify.
  destruct (verify_signature _ (cb_voter_signature _) _) eqn:E; [|done|by apply verify_signature_no_panic in E].
  apply verify_signature_no_panic.
Qed.

Lemma submit_vote_inv now rand s pk c r c' :
  submit_vote now rand s pk c = (r, c') ->
  (exists e, r = Err e /\ c' = c) \/
  (vs_voter_id s ∈ vca_voter_registry c /\ vca_votes_cast c !! vs_voter_id s = None /\
   is_active (vca_election c) now = true /\ submission_verify s pk = Ok tt /\
   c' = insert_vote (vs_voter_id s) (mkVoteRecord (vs_voter_id s) (vs_cast_ballot s) now) c /\
   r = Ok (VoteReceipt_new rand (cb_ballot_id (vs_cast_ballot s)) (el_id (vca_election c))
             (vs_voter_id s) now)).
Proof.
  unfold submit_vote, mbind, stM_bind, get, lift, modify, mret, stM_ret, ensure.
  case_bool_decide as Hr; [|intros [= <- <-]; left; eauto].
  destruct (negb _) eqn:Hn; [apply not_voted_None in Hn|intros [= <- <-]; left; eauto].
  destruct (is_active _ _) eqn:Ha; [|intros [= <- <-]; left; eauto].
  destruct (submission_verify s pk) as [[]|e|] eqn:Ev; intros [= <- <-].
  - right. by split_and!.
  - left. eauto.
  - by apply submission_verify_no_panic in Ev.
Qed.

(** Accepted when its guards hold. *)
Lemma submit_vote_ok now rand s pk c :
  vs_voter_id s ∈ vca_voter_registry c -> vca_votes_cast c !! vs_voter_id s = None ->
  is_active (vca_election c) now = true -> submission_verify s pk = Ok tt ->
  submit_vote now rand s pk c =
    (Ok (VoteReceipt_new rand (cb_ballot_id (vs_cast_ballot s)) (el_id (vca_election c)) (vs_voter_id s) now),
     insert_vote (vs_voter_id s) (mkVoteRecord (vs_voter_id s) (vs_cast_ballot s) now) c).
Proof.
  intros Hr Hn Ha Hv. unfold submit_vote, mbind, stM_bind, get, lift, modify, mret, stM_ret, ensure.
  rewrite bool_decide_true by done. apply not_voted_None in Hn. by rewrite Hn, Ha, Hv.
Qed.

Lemma caster_step_recorded c c' :
  caster_step c c' -> (exists id, c' = caster_register_voter id c) \/ vote_recorded c c'.
Proof.
  destruct 1 as [id c|i voter ballot kp key c r c' E|now rand s pk c r c' E]; [by eauto| |]; right.
  - apply cast_vote_inv in E as [[_ ->]|(cb & ? & ? & ? & _ & _ & _ & -> & _)]; [by left|].
    right. eexists _, _. split_and!; eauto.
  - apply submit_vote_inv in E as [(e & _ & ->)|(? & ? & ? & _ & -> & _)]; [by left|].
    right. eexists _, _. split_and!; eauto.
Qed.

Definition caster_ok (c : VoteCaster) : Prop :=
  forall id rec, vca_votes_cast c !! id = Some rec ->
    id ∈ vca_voter_registry c /\ vrec_voter_id rec = id /\
    is_active (vca_election c) (vrec_cast_at rec) = true.

Lemma caster_step_ok c c' :
  caster_step c c' -> caster_ok c ->
  caster_ok c' /\ vca_votes_cast c ⊆ vca_votes_cast c' /\
  vca_voter_registry c ⊆ vca_voter_registry c' /\ vca_election c' = vca_election c.
Proof.
  intros [[id ->]|[->|(id & rec & -> & Hr & Hn & Hid & Ha)]]%caster_step_recorded Hok.
  - split_and!; [|done|cbn; set_solver|done]. intros k rec Hk. apply Hok in Hk as (? & ? & ?).
    split_and!; [cbn; set_solver|done..].
  - split_and!; done.
  - split_and!; [|by apply insert_subseteq|done|done]. intros k rec' Hk. cbn in Hk.
    apply lookup_insert_Some in Hk as [[<- <-]|[_ Hk]]; [done|by apply Hok].
Qed.

Lemma caster_steps_ok c c' :
  rtc caster_step c c' -> caster_ok c ->
  caster_ok c' /\ vca_votes_cast c ⊆ vca_votes_cast c' /\ vca_election c' = vca_election c.
Proof.
  induction 1 as [|x y z Hs _ IH]; intros Hok; [done|].
  apply caster_step_ok in Hs as (Hok1 & Hsub & _ & He); [|done].
  destruct (IH Hok1) as (? & ? & ?). split_and!; [done|by etrans|congruence].
Qed.

Lemma caster_new_ok e : caster_ok (VoteCaster_new e).
Proof. intros id rec Hl. cbn in Hl. by rewrite lookup_empty in Hl. Qed.

(** C1: one voter, one vote.  Take any sequence of registrations, casts and
    submissions: every recorded vote belongs to a registered voter and was cast while
    the election was active; no later call changes or removes it; at most as many
    votes as registered voters are recorded; and a voter with a recorded vote is
    refused with [AlreadyVoted] by both entry points, without effect. *)
Theorem one_voter_one_vote (e : Election) (c c' : VoteCaster) (id : VoterId) (rec : VoteRecord) :
  rtc caster_step (VoteCaster_new e) c -> rtc caster_step c c' ->
  vca_votes_cast c !! id = Some rec ->
  id ∈ vca_voter_registry c' /\ vrec_voter_id rec = id /\ is_active e (vrec_cast_at rec) = true /\
  get_vote_record c' id = Some rec /\ vote_count c' <= registered_voters c' /\
  (forall i voter ballot kp key, v_id voter = id ->
     cast_vote i voter ballot kp key c' = (Err AlreadyVoted, c')) /\
  (forall now rand s pk, vs_voter_id s = id -> submit_vote now rand s pk c' = (Err AlreadyVoted, c')).
Proof.
  intros Hs0 Hs1 Hrec.
  destruct (caster_steps_ok _ _ Hs0 (caster_new_ok e)) as (Hok & _ & He).
  destruct (caster_steps_ok _ _ Hs1 Hok) as (Hok' & Hsub & He').
  assert (vca_votes_cast c' !! id = Some rec) as Hrec' by by eapply lookup_weaken.
  destruct (Hok' _ _ Hrec') as (Hr & Hid & Ha). rewrite He', He in Ha. cbn in Ha. split_and!; try done.
  - unfold vote_count, registered_voters. rewrite <- size_dom. apply inj_le, subseteq_size.
    intros k [rec' Hk]%elem_of_dom. by apply Hok' in Hk as [? _].
  - intros i voter ballot kp key <-. unfold cast_vote, mbind, stM_bind, get, lift, ensure.
    rewrite bool_decide_true by done. rewrite (bool_decide_true (is_Some _)) by eauto. done.
  - intros now rand s pk <-. unfold submit_vote, mbind, stM_bind, get, lift, ensure.
    rewrite bool_decide_true by done. rewrite (bool_decide_true (is_Some _)) by eauto. done.
Qed.

(** The conditions under which [cast_vote] goes on to make the cast ballot. *)
Definition may_cast (i : CastInputs) (voter : Voter) (ballot : Ballot) (c : VoteCaster) : Prop :=
  v_id voter ∈ vca_voter_registry c /\ vca_votes_cast c !! v_id voter = None /\
  is_active (vca_election c) (ci_current_time i) = true /\
  b_election_id ballot = el_id (vca_election c) /\
  well_formed (b_ballot_type ballot) (b_choices ballot).

(** C7: [cast_vote] accepts a vote exactly when the voter is registered and has not
    voted, the election is active, the ballot is for this election and well formed,
    and the ballot can be serialized and encrypted; then the record holds that ballot and
    the receipt names it with a confirmation code that verifies.  Otherwise nothing
    changes: a condition that fails is the error returned for it, a failure to encrypt is
    returned, and a failure to serialize the ballot, which the code expects not to happen,
    is a panic, the only one. *)
Theorem cast_vote_spec (i : CastInputs) (voter : Voter) (ballot : Ballot) (kp : KeyPair)
    (key : array 32) (c : VoteCaster) :
  match cast_vote i voter ballot kp key c with
  | (Ok receipt, c') =>
      may_cast i voter ballot c /\
      exists cb,
        CastBallot_create (ci_nonce i) (ci_randomness i) (ci_cast_at i) ballot (v_id voter) key kp = Ok cb /\
        vca_votes_cast c' =
          <[v_id voter := mkVoteRecord (v_id voter) cb (ci_current_time i)]> (vca_votes_cast c) /\
        vca_voter_registry c' = vca_voter_registry c /\ vca_election c' = vca_election c /\
        rc_ballot_id receipt = b_ballot_id ballot /\ rc_election_id receipt = el_id (vca_election c) /\
        rc_voter_id receipt = v_id voter /\ verify_confirmation_code receipt = true
  | (Err err, c') =>
      c' = c /\
      (((v_id voter ∉ vca_voter_registry c) /\ err = VoterNotEligible "Voter not registered") \/
       (is_Some (vca_votes_cast c !! v_id voter) /\ err = AlreadyVoted) \/
       (is_active (vca_election c) (ci_current_time i) = false /\ err = ElectionNotActive) \/
       (b_election_id ballot <> el_id (vca_election c) /\ err = InvalidBallot "Ballot election ID mismatch") \/
       (~ well_formed (b_ballot_type ballot) (b_choices ballot) /\ (exists msg, err = InvalidBallot msg)) \/
       (may_cast i voter ballot c /\ exists data, bincode_ballot ballot = inl data /\ encrypt (ci_nonce i) data key = Err err))
  | (Panic, c') => c' = c /\ may_cast i voter ballot c /\ exists e, bincode_ballot ballot = inr e
  end.
Proof.
  destruct (cast_vote i voter ballot kp key c) as [r c'] eqn:E.
  pose proof (cast_vote_inv _ _ _ _ _ _ _ _ E) as [[Hr ->]|(cb & ? & ? & ? & ? & Hv & Hc & -> & ->)].
  2:{ split; [split_and!; try done; by apply ballot_validate_decides|].
      exists cb. split_and!; try done; [by apply CastBallot_create_inv in Hc as [? _]|]. by apply constant_time_eq_spec. }
  revert E. unfold cast_vote, mbind, stM_bind, get, lift, modify, mret, stM_ret, ensure.
  case_bool_decide as Hreg; [|intros [= <-]; split; [done|by left]].
  case_bool_decide as Hn; [intros [= <-]; split; [done|by right; left]|]. cbn [negb].
  destruct (is_active _ _) eqn:Ha; [|intros [= <-]; split; [done|by do 2 right; left]].
  case_bool_decide as He; [|intros [= <-]; split; [done|by do 3 right; left]].
  destruct (ballot_validate_decides ballot) as [Hw [Hv|[msg Hv]]]; rewrite Hv.
  2:{ intros [= <-]. split; [done|]. do 4 right. left. split; [rewrite <- Hw, Hv; done|by exists msg]. }
  assert (may_cast i voter ballot c) as Hmay by (split_and!; try done; [by apply eq_None_not_Some|by apply Hw]).
  unfold CastBallot_create, ballot_serialize. destruct (bincode_ballot ballot) as [data|e] eqn:Eb; cbn.
  - destruct (encrypt _ data key) as [d|e|] eqn:Ee; [by intros [= <- _]| |unfold encrypt in Ee; by destruct (aead_encrypt _ _ _)].
    intros [= <-]. split; [done|]. do 5 right. split; [done|]. by exists data.
  - intros [= <-]. split_and!; [done..|]. by exists e.
Qed.
End caster_properties.

(** ** Submissions and sessions *)
Section submission_properties.
Context `{HashCrate, HexCrate, Ed25519Spec, AeadCrate, BincodeBallot}.

Lemma created_submission_verifies now voter_id cb sk s :
  cast_ballot_verify cb (kp_public (KeyPair_from_private_key sk)) = Ok tt ->
  VoteSubmission_create now voter_id cb (KeyPair_from_private_key sk) = Ok s ->
  vs_voter_id s = voter_id /\ vs_cast_ballot s = cb /\
  submission_verify s (kp_public (KeyPair_from_private_key sk)) = Ok tt.
Proof.
  intros Hcb. unfold VoteSubmission_create. intros (sig & Hs & [= <-])%bind_Ok. split_and!; try done.
  unfold submission_verify. cbn [vs_cast_ballot]. rewrite Hcb. by apply verify_own_signature.
Qed.

(** A session that was given a ballot of its election produces a submission that
    the vote caster accepts from a registered voter that has not voted, during the
    election; the recorded ballot and the session's receipt are for that ballot.
    Before a ballot is set, and after cancellation, [submit] is refused, and a second
    ballot cannot replace the first.  Neither the session nor [submit_vote] validates
    the ballot: it is accepted whether or not it is well formed. *)
Theorem session_submission_accepted (i : CastInputs) (t0 t1 now : Z) (rand : array 32) (voter : Voter)
    (ballot : Ballot) (key sk : array 32) (c : VoteCaster) :
  let e := el_id (vca_election c) in
  let kp := KeyPair_from_private_key sk in
  let s0 := VotingSession_new t0 e voter in
  v_id voter ∈ vca_voter_registry c -> vca_votes_cast c !! v_id voter = None ->
  is_active (vca_election c) now = true -> b_election_id ballot = e ->
  is_Ok (data ← ballot_serialize ballot; encrypt (ci_nonce i) data key) ->
  session_submit i t1 s0 kp key = Err (InvalidInput "Session not ready for submission") /\
  exists s1 sub rc receipt c',
    set_ballot ballot s0 = (Ok tt, s1) /\
    (forall b, set_ballot b s1 = (Err (InvalidInput "Session not in correct state"), s1)) /\
    session_submit i t1 (session_cancel s1) kp key = Err (InvalidInput "Session not ready for submission") /\
    session_submit i t1 s1 kp key = Ok (sub, rc) /\
    submit_vote now rand sub (kp_public kp) c = (Ok receipt, c') /\
    (exists rec, get_vote_record c' (v_id voter) = Some rec /\ vrec_cast_ballot rec = vs_cast_ballot sub /\
       cb_ballot_id (vrec_cast_ballot rec) = b_ballot_id ballot) /\
    rc_ballot_id rc = b_ballot_id ballot /\ rc_ballot_id receipt = b_ballot_id ballot /\
    verify_confirmation_code rc = true.
Proof.
  intros e kp s0 Hr Hn Ha He [d Henc]. split; [done|].
  destruct (CastBallot_create (ci_nonce i) (ci_randomness i) (ci_cast_at i) ballot (v_id voter) key kp)
    as [cb| |] eqn:Ecb; [|exfalso; apply bind_Ok in Henc as (data & Hdata & Henc);
                           unfold CastBallot_create in Ecb; rewrite Hdata in Ecb; cbn in Ecb; rewrite Henc in Ecb; discriminate..].
  pose proof (created_ballot_verifies _ _ _ _ _ _ _ _ Ecb) as Hcb.
  apply CastBallot_create_inv in Ecb as Hid. destruct Hid as (Hid & _).
  destruct (VoteSubmission_create t1 (v_id voter) cb kp) as [sub| |] eqn:Esub; [|done..].
  destruct (created_submission_verifies _ _ _ _ _ Hcb Esub) as (Hv & Hsc & Hok).
  rewrite <- Hv in Hr, Hn.
  exists (mkVotingSession e voter (Some ballot) BallotFilled t0). eexists sub, _, _, _. split_and!.
  - unfold set_ballot, mbind, stM_bind, get, lift, modify, ensure. cbn.
    by rewrite !bool_decide_true by done.
  - done.
  - done.
  - unfold session_submit. cbn [s_state s_ballot s_voter]. rewrite bool_decide_true by done.
    cbn [ensure ok_or mbind result_bind]. rewrite Ecb. cbn [mbind result_bind]. by rewrite Esub.
  - by apply submit_vote_ok.
  - exists (mkVoteRecord (vs_voter_id sub) (vs_cast_ballot sub) now). split_and!; [|done|cbn; congruence].
    unfold get_vote_record, insert_vote. cbn. rewrite Hv. by rewrite lookup_insert_eq.
  - done.
  - cbn. congruence.
  - by apply constant_time_eq_spec.
Qed.

(** [submit_vote] does not look at the election or the voter named inside the
    ballot: a ballot signed for any election and any voter is recorded as the vote of
    the registered voter that submits it. *)
Theorem submit_vote_ignores_ballot_identity (now t : Z) (rand : array 32) (voter_id : VoterId)
    (cb : CastBallot) (sk : array 32) (c : VoteCaster) :
  let kp := KeyPair_from_private_key sk in
  voter_id ∈ vca_voter_registry c -> vca_votes_cast c !! voter_id = None ->
  is_active (vca_election c) now = true ->
  cast_ballot_verify cb (kp_public kp) = Ok tt ->
  cb_election_id cb <> el_id (vca_election c) -> cb_voter_id cb <> voter_id ->
  exists s receipt c', VoteSubmission_create t voter_id cb kp = Ok s /\
    submit_vote now rand s (kp_public kp) c = (Ok receipt, c') /\
    get_vote_record c' voter_id = Some (mkVoteRecord voter_id cb now).
Proof.
  intros kp Hr Hn Ha Hcb _ _.
  destruct (VoteSubmission_create t voter_id cb kp) as [s| |] eqn:Es; [|done..].
  destruct (created_submission_verifies _ _ _ _ _ Hcb Es) as (<- & <- & Hv).
  eexists s, _, _. split_and!; [done|by apply submit_vote_ok|].
  unfold get_vote_record, insert_vote. cbn. by rewrite lookup_insert_eq.
Qed.
End submission_properties.

(** ** Statistics *)
Definition hour_of (rec : VoteRecord) : Z := vrec_cast_at rec / 3600.

Definition records_in_hour (h : Z) (records : list VoteRecord) : Z :=
  len (filter (fun r => hour_of r = h) records).

Lemma count_hours_spec (records : list VoteRecord) (m : gmap Z Z) (seen : list VoteRecord) :
  len (seen ++ records) < 2 ^ 64 ->
  (forall h, m !! h = if records_in_hour h seen =? 0 then None else Some (records_in_hour h seen)) ->
  forall h, foldl count_hour m records !! h =
    if records_in_hour h (seen ++ records) =? 0 then None else Some (records_in_hour h (seen ++ records)).
Proof.
  revert m seen. induction records as [|r records IH]; intros m seen Hlen Hm h; cbn.
  { by rewrite app_nil_r. }
  rewrite (cons_middle r seen records), app_assoc in *. apply IH; [done|].
  intros h'. unfold count_hour. fold (hour_of r).
  assert (records_in_hour h' (seen ++ [r]) =
          records_in_hour h' seen + if decide (hour_of r = h') then 1 else 0) as Hsnoc.
  { unfold records_in_hour. rewrite filter_app, len_app. f_equal. rewrite filter_cons.
    by destruct (decide (hour_of r = h')). }
  rewrite Hsnoc. destruct (decide (hour_of r = h')) as [<-|Hne].
  - rewrite lookup_insert_eq, Hm.
    assert (0 <= records_in_hour (hour_of r) seen < 2 ^ 64 - 1) as Hr.
    { unfold records_in_hour, len. pose proof (length_filter (fun x => hour_of x = hour_of r) seen).
      rewrite !len_app in Hlen. unfold len in Hlen. cbn in Hlen. lia. }
    destruct (Z.eqb_spec (records_in_hour (hour_of r) seen) 0) as [E|E]; cbn;
      destruct (Z.eqb_spec (records_in_hour (hour_of r) seen + 1) 0); try lia.
    + by rewrite E.
    + f_equal. apply u64_add_small. lia.
  - rewrite lookup_insert_ne by done. rewrite Z.add_0_r. apply Hm.
Qed.

(** The statistics count correctly: [votes_in_hour] is the number of records of
    that hour, and the peak hour, absent only without records, is one with the most. *)
Theorem stats_exact (records : list VoteRecord) :
  len records < 2 ^ 64 ->
  let s := from_records records in
  st_total_votes s = len records /\
  (forall h, votes_in_hour s h = records_in_hour h records) /\
  match st_peak_hour s with
  | None => records = []
  | Some p => forall h, records_in_hour h records <= records_in_hour p records
  end.
Proof.
  intros Hlen s. pose proof (count_hours_spec records ∅ [] Hlen (fun h => lookup_empty h)) as Hm. cbn in Hm.
  assert (forall h, votes_in_hour s h = records_in_hour h records) as Hv.
  { intros h. unfold votes_in_hour. cbn. rewrite Hm. by destruct (Z.eqb_spec (records_in_hour h records) 0). }
  split_and!; [done|done|]. unfold s. cbn.
  destruct (max_by_key snd _) as [[p n]|] eqn:E; cbn.
  - intros h. apply max_by_key_Some in E as (b & a & Hl & Hb & Ha).
    assert (forall q m, foldl count_hour ∅ records !! q = Some m -> m <= n) as Hmax.
    { intros q m Hq%elem_of_map_to_list. rewrite Hl, elem_of_app, elem_of_cons in Hq.
      rewrite Forall_forall in Hb, Ha.
      destruct Hq as [Hq|[[= -> ->]|Hq]]; [by apply Hb in Hq|done|apply Ha in Hq; cbn in Hq; lia]. }
    assert (foldl count_hour ∅ records !! p = Some n) as Hp.
    { apply elem_of_map_to_list. rewrite Hl. set_solver. }
    rewrite Hm in Hp. destruct (records_in_hour p records =? 0); [done|]. injection Hp as <-.
    specialize (Hmax h (records_in_hour h records)). rewrite Hm in Hmax.
    destruct (Z.eqb_spec (records_in_hour h records) 0) as [->|]; [|by apply Hmax].
    apply len_nonneg.
  - apply max_by_key_None in E. apply map_to_list_empty_iff in E.
    destruct records as [|r records]; [done|]. specialize (Hm (hour_of r)). rewrite E, lookup_empty in Hm.
    destruct (Z.eqb_spec (records_in_hour (hour_of r) (r :: records)) 0) as [E0|]; [|done].
    unfold records_in_hour in E0. rewrite filter_cons, decide_True in E0 by done. done.
Qed.
