(* ===== verification/Eligibility.v ===== *)
(** * Eligibility: crates/voting/src/eligibility.rs

    The eligibility check of a voter for an election, signed eligibility proofs, the
    per-election eligibility registry and the tracker of provisional ballots. *)
From stdpp Require Import prelude gmap strings list.
From Stdlib Require Import Strings.Byte.
From S2P Require Import Prelude Floats64 Types Crypto Voter Ballot.

Local Open Scope Z_scope.

(** ** Data

    The constructor [AlreadyVoted] is called [StatusAlreadyVoted] here, to tell it from
    the error of that name. *)
Inductive EligibilityStatus :=
| Eligible
| NotRegistered
| NotEligible
| StatusAlreadyVoted
| CredentialsExpired
| NoCredentials
| WrongJurisdiction
| AgeVerificationRequired
| CitizenshipRequired
| ProvisionalOnly.

Global Instance EligibilityStatus_eq_dec : EqDecision EligibilityStatus.
Proof. solve_decision. Defined.

Definition EligibilityStatus_display (s : EligibilityStatus) : string :=
  match s with
  | Eligible => "eligible"
  | NotRegistered => "not_registered"
  | NotEligible => "not_eligible"
  | StatusAlreadyVoted => "already_voted"
  | CredentialsExpired => "credentials_expired"
  | NoCredentials => "no_credentials"
  | WrongJurisdiction => "wrong_jurisdiction"
  | AgeVerificationRequired => "age_verification_required"
  | CitizenshipRequired => "citizenship_required"
  | ProvisionalOnly => "provisional_only"
  end.

Record EligibilityRequirements := mkEligibilityRequirements {
  rq_require_registration : bool;
  rq_require_jurisdiction_match : bool;
  rq_jurisdiction : option string;
  rq_require_age_verification : bool;
  rq_minimum_age : option Z;
  rq_require_citizenship : bool;
  rq_require_id_verification : bool;
  rq_allow_provisional : bool
}.

Definition EligibilityRequirements_default : EligibilityRequirements :=
  mkEligibilityRequirements true true None false (Some 18) true true false.

Definition with_jurisdiction (jurisdiction : string) (q : EligibilityRequirements) : EligibilityRequirements :=
  mkEligibilityRequirements (rq_require_registration q) (rq_require_jurisdiction_match q)
    (Some jurisdiction) (rq_require_age_verification q) (rq_minimum_age q)
    (rq_require_citizenship q) (rq_require_id_verification q) (rq_allow_provisional q).

Definition with_minimum_age (age : Z) (q : EligibilityRequirements) : EligibilityRequirements :=
  mkEligibilityRequirements (rq_require_registration q) (rq_require_jurisdiction_match q)
    (rq_jurisdiction q) true (Some age)
    (rq_require_citizenship q) (rq_require_id_verification q) (rq_allow_provisional q).

Definition allow_provisional_voting (q : EligibilityRequirements) : EligibilityRequirements :=
  mkEligibilityRequirements (rq_require_registration q) (rq_require_jurisdiction_match q)
    (rq_jurisdiction q) (rq_require_age_verification q) (rq_minimum_age q)
    (rq_require_citizenship q) (rq_require_id_verification q) true.

Record EligibilityProof := mkEligibilityProof {
  ep_voter_id : VoterId;
  ep_election_id : ElectionId;
  ep_proof_commitment : list byte;
  ep_schnorr_proof : SchnorrProof;
  ep_proof_signature : Signature;
  ep_issued_at : Z
}.

Record EligibilityChecker := mkEligibilityChecker {
  ech_election_id : ElectionId;
  ech_requirements : EligibilityRequirements;
  ech_eligible_voters : gset VoterId;
  ech_verified_proofs : gmap VoterId EligibilityProof
}.

Definition EligibilityChecker_new (election_id : ElectionId) (requirements : EligibilityRequirements)
    : EligibilityChecker :=
  mkEligibilityChecker election_id requirements ∅ ∅.

Definition add_eligible_voter (voter_id : VoterId) (c : EligibilityChecker) : EligibilityChecker :=
  mkEligibilityChecker (ech_election_id c) (ech_requirements c)
    ({[voter_id]} ∪ ech_eligible_voters c) (ech_verified_proofs c).

Definition add_eligible_voters (voter_ids : list VoterId) (c : EligibilityChecker) : EligibilityChecker :=
  foldl (fun c voter_id => add_eligible_voter voter_id c) c voter_ids.

(** ** The check *)

(** The branch of [check_eligibility] on the credentials; [None] goes on. *)
Definition check_credentials (q : EligibilityRequirements) (credentials : option VoterCredentials)
    (current_time : Z) : option EligibilityStatus :=
  match credentials with
  | Some credentials =>
      if negb (credentials_is_valid credentials current_time) then Some CredentialsExpired
      else if rq_require_jurisdiction_match q then
        match rq_jurisdiction q with
        | Some required =>
            if negb (bool_decide (vc_jurisdiction credentials = required)) then Some WrongJurisdiction
            else None
        | None => None
        end
      else None
  | None => Some NoCredentials
  end.

Definition check_eligibility (c : EligibilityChecker) (voter : Voter) (current_time : Z)
    : VResult EligibilityStatus :=
  if negb (voter_is_registered voter) then Ok NotRegistered
  else if voter_has_voted voter (ech_election_id c) then Ok StatusAlreadyVoted
  else if negb (bool_decide (v_id voter ∈ ech_eligible_voters c)) then Ok NotEligible
  else match check_credentials (ech_requirements c) (v_credentials voter) current_time with
       | Some status => Ok status
       | None =>
           if rq_require_age_verification (ech_requirements c) then Ok AgeVerificationRequired
           else Ok Eligible
       end.

Definition checker_is_eligible (c : EligibilityChecker) (voter_id : VoterId) : bool :=
  bool_decide (voter_id ∈ ech_eligible_voters c).
Definition has_verified_proof (c : EligibilityChecker) (voter_id : VoterId) : bool :=
  bool_decide (is_Some (ech_verified_proofs c !! voter_id)).
Definition eligible_count (c : EligibilityChecker) : Z := Z.of_nat (size (ech_eligible_voters c)).
Definition verified_count (c : EligibilityChecker) : Z := Z.of_nat (size (ech_verified_proofs c)).

(** ** Proofs *)
Section proofs.
Context `{HashCrate, Ed25519Crate}.

Definition proof_compute_message (voter_id : VoterId) (election_id : ElectionId)
    (proof_commitment : list byte) (issued_at : Z) : list byte :=
  array_list (hash_blake2b_multiple
    [array_list (voter_id_bytes voter_id); array_list (election_id_bytes election_id);
     proof_commitment; u64_le issued_at]).

(** [EligibilityProof::generate]: [randomness] and [challenge] are generated. *)
Definition EligibilityProof_generate (now : Z) (randomness challenge : list byte) (voter_id : VoterId)
    (election_id : ElectionId) (voter_keypair : KeyPair) : VResult EligibilityProof :=
  let proof_commitment := cm_value (Commitment_new (array_list (voter_id_bytes voter_id)) randomness) in
  let response := array_list (hash_blake2b_multiple [randomness; challenge]) in
  let schnorr_proof := mkSchnorrProof challenge response in
  proof_signature ← sign (proof_compute_message voter_id election_id proof_commitment now) voter_keypair;
  Ok (mkEligibilityProof voter_id election_id proof_commitment schnorr_proof proof_signature now).

(** [EligibilityProof::verify]; the boolean of the Schnorr proof is dropped. *)
Definition proof_verify (p : EligibilityProof) (voter_public_key : PublicKey) : VResult unit :=
  _ ← verify_signature
        (proof_compute_message (ep_voter_id p) (ep_election_id p) (ep_proof_commitment p) (ep_issued_at p))
        (ep_proof_signature p) voter_public_key;
  _ ← SchnorrProof_verify (ep_schnorr_proof p) (ep_proof_commitment p);
  Ok tt.

(** [is_expired]: the addition wraps. *)
Definition proof_is_expired (now : Z) (p : EligibilityProof) (expiration_seconds : Z) : bool :=
  u64_add (ep_issued_at p) expiration_seconds <? now.

Definition verify_eligibility_proof (proof : EligibilityProof) (voter_public_key : PublicKey)
    : VStM EligibilityChecker bool :=
  c ← get;
  if negb (bool_decide (ep_election_id proof = ech_election_id c)) then mret false
  else
    _ ← lift (proof_verify proof voter_public_key);
    if negb (bool_decide (ep_voter_id proof ∈ ech_eligible_voters c)) then mret false
    else
      _ ← modify (fun c => mkEligibilityChecker (ech_election_id c) (ech_requirements c)
                    (ech_eligible_voters c) (<[ep_voter_id proof := proof]> (ech_verified_proofs c)));
      mret true.
End proofs.

(** ** The registry *)
Record EligibilityRecord := mkEligibilityRecord {
  erec_voter_id : VoterId;
  erec_election_id : ElectionId;
  erec_jurisdiction : string;
  erec_registered_at : Z;
  erec_status : EligibilityStatus
}.

Definition set_record_status (s : EligibilityStatus) (r : EligibilityRecord) : EligibilityRecord :=
  mkEligibilityRecord (erec_voter_id r) (erec_election_id r) (erec_jurisdiction r)
    (erec_registered_at r) s.

Record EligibilityRegistry := mkEligibilityRegistry {
  erg_election_id : ElectionId;
  erg_eligible_voters : gmap VoterId EligibilityRecord
}.

Definition EligibilityRegistry_new (election_id : ElectionId) : EligibilityRegistry :=
  mkEligibilityRegistry election_id ∅.

Definition put_record (voter_id : VoterId) (rec : EligibilityRecord) (r : EligibilityRegistry)
    : EligibilityRegistry :=
  mkEligibilityRegistry (erg_election_id r) (<[voter_id := rec]> (erg_eligible_voters r)).

Definition register_eligible_voter (now : Z) (voter_id : VoterId) (jurisdiction : string)
    : VStM EligibilityRegistry unit :=
  r ← get;
  _ ← lift (ensure (negb (bool_decide (is_Some (erg_eligible_voters r !! voter_id))))
              (InvalidInput "Voter already registered as eligible"));
  modify (put_record voter_id (mkEligibilityRecord voter_id (erg_election_id r) jurisdiction now Eligible)).

Definition revoke_eligibility (voter_id : VoterId) : VStM EligibilityRegistry unit :=
  r ← get;
  record ← lift (ok_or (erg_eligible_voters r !! voter_id) (VoterNotEligible "Voter not found"));
  modify (put_record voter_id (set_record_status NotEligible record)).

Definition eligibility_mark_voted (voter_id : VoterId) : VStM EligibilityRegistry unit :=
  r ← get;
  record ← lift (ok_or (erg_eligible_voters r !! voter_id) (VoterNotEligible "Voter not found"));
  _ ← lift (ensure (negb (bool_decide (erec_status record = StatusAlreadyVoted))) AlreadyVoted);
  modify (put_record voter_id (set_record_status StatusAlreadyVoted record)).

Definition get_record (r : EligibilityRegistry) (voter_id : VoterId) : option EligibilityRecord :=
  erg_eligible_voters r !! voter_id.

Definition has_status (r : EligibilityRegistry) (voter_id : VoterId) (s : EligibilityStatus) : bool :=
  match erg_eligible_voters r !! voter_id with
  | Some record => bool_decide (erec_status record = s)
  | None => false
  end.
Definition eligibility_is_eligible (r : EligibilityRegistry) (voter_id : VoterId) : bool :=
  has_status r voter_id Eligible.
Definition eligibility_has_voted (r : EligibilityRegistry) (voter_id : VoterId) : bool :=
  has_status r voter_id StatusAlreadyVoted.

(** [values()] in the (unspecified) order of the map. *)
Definition eligibility_values (r : EligibilityRegistry) : list EligibilityRecord :=
  snd <$> map_to_list (erg_eligible_voters r).

Definition eligible_voters_by_jurisdiction (r : EligibilityRegistry) (jurisdiction : string)
    : list EligibilityRecord :=
  filter (fun x => erec_jurisdiction x = jurisdiction /\ erec_status x = Eligible) (eligibility_values r).

Definition count_status (s : EligibilityStatus) (r : EligibilityRegistry) : Z :=
  len (filter (fun x => erec_status x = s) (eligibility_values r)).
Definition total_eligible (r : EligibilityRegistry) : Z := count_status Eligible r.
Definition total_voted (r : EligibilityRegistry) : Z := count_status StatusAlreadyVoted r.

Definition eligibility_turnout_percentage (r : EligibilityRegistry) : f64 :=
  let eligible := total_eligible r in
  let voted := total_voted r in
  if eligible =? 0 then f64_zero
  else f64_mul (f64_div (f64_of_Z voted) (f64_of_Z eligible)) f64_hundred.

(** ** Provisional ballots *)
Inductive ProvisionalStatus := Pending | Approved | Rejected (reason : string).

Global Instance ProvisionalStatus_eq_dec : EqDecision ProvisionalStatus.
Proof. solve_decision. Defined.

Record ProvisionalVote := mkProvisionalVote {
  pv_voter_id : VoterId;
  pv_ballot_id : BallotId;
  pv_election_id : ElectionId;
  pv_cast_at : Z;
  pv_status : ProvisionalStatus;
  pv_reason : string
}.

Definition set_provisional_status (s : ProvisionalStatus) (v : ProvisionalVote) : ProvisionalVote :=
  mkProvisionalVote (pv_voter_id v) (pv_ballot_id v) (pv_election_id v) (pv_cast_at v) s (pv_reason v).

Record ProvisionalBallotTracker := mkProvisionalBallotTracker {
  pbt_votes : gmap VoterId ProvisionalVote
}.

Definition ProvisionalBallotTracker_new : ProvisionalBallotTracker := mkProvisionalBallotTracker ∅.

Definition add_provisional_vote (vote : ProvisionalVote) : VStM ProvisionalBallotTracker unit :=
  t ← get;
  _ ← lift (ensure (negb (bool_decide (is_Some (pbt_votes t !! pv_voter_id vote)))) AlreadyVoted);
  modify (fun t => mkProvisionalBallotTracker (<[pv_voter_id vote := vote]> (pbt_votes t))).

(** [approve_provisional] and [reject_provisional] set the status in place. *)
Definition decide_provisional (s : ProvisionalStatus) (voter_id : VoterId)
    : VStM ProvisionalBallotTracker unit :=
  t ← get;
  vote ← lift (ok_or (pbt_votes t !! voter_id) (VoterNotEligible "Provisional vote not found"));
  modify (fun t => mkProvisionalBallotTracker
                     (<[voter_id := set_provisional_status s vote]> (pbt_votes t))).
Definition approve_provisional (voter_id : VoterId) : VStM ProvisionalBallotTracker unit :=
  decide_provisional Approved voter_id.
Definition reject_provisional (voter_id : VoterId) (reason : string) : VStM ProvisionalBallotTracker unit :=
  decide_provisional (Rejected reason) voter_id.

Definition get_provisional_vote (t : ProvisionalBallotTracker) (voter_id : VoterId) : option ProvisionalVote :=
  pbt_votes t !! voter_id.

Definition is_rejected (s : ProvisionalStatus) : bool :=
  match s with Rejected _ => true | _ => false end.

Definition provisional_values (t : ProvisionalBallotTracker) : list ProvisionalVote :=
  snd <$> map_to_list (pbt_votes t).
Definition pending_count (t : ProvisionalBallotTracker) : Z :=
  len (filter (fun v => pv_status v = Pending) (provisional_values t)).
Definition approved_count (t : ProvisionalBallotTracker) : Z :=
  len (filter (fun v => pv_status v = Approved) (provisional_values t)).
Definition rejected_count (t : ProvisionalBallotTracker) : Z :=
  len (filter (fun v => is_rejected (pv_status v) = true) (provisional_values t)).

(** ** Properties of the check *)

(** When credentials pass. *)
Definition credentials_accepted (q : EligibilityRequirements) (credentials : option VoterCredentials)
    (current_time : Z) : Prop :=
  exists c, credentials = Some c /\
    (forall t, vc_expires_at c = Some t -> current_time < t) /\
    (forall j, rq_require_jurisdiction_match q = true -> rq_jurisdiction q = Some j -> vc_jurisdiction c = j).

Lemma check_credentials_None q credentials current_time :
  check_credentials q credentials current_time = None <-> credentials_accepted q credentials current_time.
Proof.
  unfold credentials_accepted, check_credentials, credentials_is_valid.
  destruct credentials as [c|]; [|naive_solver].
  assert ((match vc_expires_at c with Some t => current_time <? t | None => true end) = true <->
          forall t, vc_expires_at c = Some t -> current_time < t) as Hexp.
  { destruct (vc_expires_at c) as [t|]; [|naive_solver]. rewrite Z.ltb_lt. naive_solver. }
  destruct (match vc_expires_at c with Some _ => _ | None => _ end); cbn;
    [|split; [done|]; intros (c' & [= <-] & Ht & _); by apply Hexp in Ht].
  destruct (rq_require_jurisdiction_match q), (rq_jurisdiction q) as [j|]; [|naive_solver..].
  case_bool_decide; cbn; naive_solver.
Qed.

(** [check_eligibility] always answers, and answers [Eligible] exactly for a
    registered voter on the list that has not voted in this election, whose
    credentials have not expired and match the required jurisdiction, when no age
    verification is required.  No input passes an age requirement: with
    [with_minimum_age] nobody is eligible. *)
Theorem check_eligibility_spec (c : EligibilityChecker) (voter : Voter) (current_time : Z) :
  (exists s, check_eligibility c voter current_time = Ok s) /\
  (check_eligibility c voter current_time = Ok Eligible <->
     voter_is_registered voter = true /\ ~ (ech_election_id c ∈ v_elections_voted voter) /\
     v_id voter ∈ ech_eligible_voters c /\
     credentials_accepted (ech_requirements c) (v_credentials voter) current_time /\
     rq_require_age_verification (ech_requirements c) = false) /\
  (forall age, check_eligibility
     (mkEligibilityChecker (ech_election_id c) (with_minimum_age age (ech_requirements c))
        (ech_eligible_voters c) (ech_verified_proofs c)) voter current_time <> Ok Eligible).
Proof.
  assert (forall c, (exists s, check_eligibility c voter current_time = Ok s) /\
    (check_eligibility c voter current_time = Ok Eligible <->
     voter_is_registered voter = true /\ ~ (ech_election_id c ∈ v_elections_voted voter) /\
     v_id voter ∈ ech_eligible_voters c /\
     credentials_accepted (ech_requirements c) (v_credentials voter) current_time /\
     rq_require_age_verification (ech_requirements c) = false)) as Hspec.
  { clear c. intros c. unfold check_eligibility. rewrite <- check_credentials_None.
    destruct (voter_is_registered voter); cbn; [|naive_solver].
    unfold voter_has_voted. case_bool_decide; [naive_solver|].
    case_bool_decide; cbn; [|naive_solver].
    destruct (check_credentials _ _ _) as [s|] eqn:Ec.
    - split; [by eauto|]. split; [|by intros (_ & _ & _ & ? & _)]. intros [= ->]. exfalso. revert Ec.
      unfold check_credentials. repeat case_match; done.
    - destruct (rq_require_age_verification _); naive_solver. }
  split_and!; [apply Hspec|apply Hspec|]. intros age Hage. apply Hspec in Hage as (_ & _ & _ & _ & H).
  done.
Qed.

(** ** Proofs *)
Section proof_properties.
Context `{HashCrate, Ed25519Crate}.

Inductive checker_step : EligibilityChecker -> EligibilityChecker -> Prop :=
| estep_add voter_id c : checker_step c (add_eligible_voter voter_id c)
| estep_verify proof pk c r c' : verify_eligibility_proof proof pk c = (r, c') -> checker_step c c'.

Definition checker_ok (c : EligibilityChecker) : Prop :=
  forall id p, ech_verified_proofs c !! id = Some p ->
    ep_voter_id p = id /\ ep_election_id p = ech_election_id c /\ id ∈ ech_eligible_voters c /\
    exists pk, proof_verify p pk = Ok tt.

Lemma verify_eligibility_proof_inv proof pk c r c' :
  verify_eligibility_proof proof pk c = (r, c') ->
  (c' = c /\ r <> Ok true) \/
  (r = Ok true /\ ep_election_id proof = ech_election_id c /\ proof_verify proof pk = Ok tt /\
   ep_voter_id proof ∈ ech_eligible_voters c /\
   c' = mkEligibilityChecker (ech_election_id c) (ech_requirements c) (ech_eligible_voters c)
          (<[ep_voter_id proof := proof]> (ech_verified_proofs c))).
Proof.
  unfold verify_eligibility_proof, mbind, stM_bind, get. cbn.
  case_bool_decide; cbn; [|intros [= <- <-]; by left].
  unfold lift. destruct (proof_verify proof pk) as [[]| |]; [|intros [= <- <-]; by left..].
  case_bool_decide; cbn; intros [= <- <-]; [right|by left]. by split_and!.
Qed.

Lemma checker_step_ok c c' : checker_step c c' -> checker_ok c -> checker_ok c'.
Proof.
  destruct 1 as [id c|proof pk c r c' E]; intros Hok k p Hk.
  - apply Hok in Hk as (? & ? & ? & ?). split_and!; [done..|cbn; set_solver|done].
  - apply verify_eligibility_proof_inv in E as [[-> _]|(_ & He & Hv & Hin & ->)]; [by apply Hok|].
    cbn in Hk. apply lookup_insert_Some in Hk as [[<- <-]|[_ Hk]]; [by split_and!; eauto|].
    by apply Hok in Hk.
Qed.

(** A voter has a verified proof only if the voter is on the list of eligible
    voters and presented, under the voter's own identifier and for this election, a
    proof whose signature verified. *)
Theorem verified_proofs_sound (election_id : ElectionId) (q : EligibilityRequirements)
    (c : EligibilityChecker) (id : VoterId) :
  rtc checker_step (EligibilityChecker_new election_id q) c ->
  has_verified_proof c id = true ->
  checker_is_eligible c id = true /\
  exists p pk, ech_verified_proofs c !! id = Some p /\ ep_voter_id p = id /\
    ep_election_id p = ech_election_id c /\ proof_verify p pk = Ok tt.
Proof.
  intros Hr Hp. assert (checker_ok c) as Hok.
  { assert (checker_ok (EligibilityChecker_new election_id q)) as H1
      by (intros k p Hk; cbn in Hk; by rewrite lookup_empty in Hk).
    induction Hr; eauto using checker_step_ok. }
  apply bool_decide_eq_true in Hp as [p Hp]. destruct (Hok _ _ Hp) as (? & ? & ? & pk & ?).
  split; [by apply bool_decide_eq_true|]. exists p, pk. by split_and!.
Qed.

(** Verification of an eligibility proof does not depend on its Schnorr proof:
    replaced by anything, an empty one included, the answer is the same, and a proof
    signed by the holder of any key verifies under that key. *)
Theorem eligibility_proof_ignores_schnorr `{!Ed25519Spec} (p : EligibilityProof) (sp : SchnorrProof)
    (pk : PublicKey) (now : Z) (id : VoterId) (e : ElectionId) (commitment : list byte) (sk : array 32) :
  proof_verify (mkEligibilityProof (ep_voter_id p) (ep_election_id p) (ep_proof_commitment p) sp
                  (ep_proof_signature p) (ep_issued_at p)) pk = proof_verify p pk /\
  SchnorrProof_verify (mkSchnorrProof [] []) commitment = Ok false /\
  proof_verify (mkEligibilityProof id e commitment (mkSchnorrProof [] [])
    (mkSignature (ed_sign sk (proof_compute_message id e commitment now))) now)
    (kp_public (KeyPair_from_private_key sk)) = Ok tt.
Proof.
  split_and!.
  - unfold proof_verify. cbn. destruct (verify_signature _ _ _); [|done..]. cbn.
    unfold SchnorrProof_verify. by destruct (_ || _), (_ || _).
  - done.
  - unfold proof_verify. cbn [ep_voter_id ep_election_id ep_proof_commitment ep_issued_at ep_proof_signature].
    by rewrite (verify_own_signature sk _ _ eq_refl).
Qed.
End proof_properties.

(** ** The registry *)
Lemma eligibility_mark_voted_cases id r :
  eligibility_mark_voted id r =
    match erg_eligible_voters r !! id with
    | None => (Err (VoterNotEligible "Voter not found"), r)
    | Some record =>
        if decide (erec_status record = StatusAlreadyVoted) then (Err AlreadyVoted, r)
        else (Ok tt, put_record id (set_record_status StatusAlreadyVoted record) r)
    end.
Proof.
  unfold eligibility_mark_voted, mbind, stM_bind, get, lift, modify, ok_or, ensure.
  destruct (erg_eligible_voters r !! id) as [record|]; [|done].
  destruct (decide _); [rewrite bool_decide_true by done|rewrite bool_decide_false by done]; done.
Qed.

Lemma revoke_eligibility_cases id r :
  revoke_eligibility id r =
    match erg_eligible_voters r !! id with
    | None => (Err (VoterNotEligible "Voter not found"), r)
    | Some record => (Ok tt, put_record id (set_record_status NotEligible record) r)
    end.
Proof.
  unfold revoke_eligibility, mbind, stM_bind, get, lift, modify, ok_or.
  by destruct (erg_eligible_voters r !! id).
Qed.

(** The registry accepts a voter's vote once, until eligibility is revoked:
    [mark_voted] makes [has_voted] true and the next call fails, but revoking
    overwrites the status, after which the voter counts as not having voted and
    [mark_voted] is accepted a second time.  It is also accepted for a voter whose
    eligibility was revoked before voting. *)
Theorem revoked_voter_votes_again (id : VoterId) (r : EligibilityRegistry) :
  eligibility_is_eligible r id = true ->
  exists r1 r2 r3,
    eligibility_mark_voted id r = (Ok tt, r1) /\ eligibility_has_voted r1 id = true /\
    eligibility_mark_voted id r1 = (Err AlreadyVoted, r1) /\
    revoke_eligibility id r1 = (Ok tt, r2) /\ eligibility_has_voted r2 id = false /\
    eligibility_is_eligible r2 id = false /\
    eligibility_mark_voted id r2 = (Ok tt, r3) /\ eligibility_has_voted r3 id = true.
Proof.
  unfold eligibility_is_eligible, eligibility_has_voted, has_status.
  destruct (erg_eligible_voters r !! id) as [record|] eqn:E; [|done].
  intros Hs%bool_decide_eq_true.
  set (voted := put_record id (set_record_status StatusAlreadyVoted record) r).
  set (revoked := put_record id (set_record_status NotEligible (set_record_status StatusAlreadyVoted record)) voted).
  exists voted, revoked, (put_record id (set_record_status StatusAlreadyVoted
    (set_record_status NotEligible (set_record_status StatusAlreadyVoted record))) revoked).
  split_and!.
  { by rewrite eligibility_mark_voted_cases, E, decide_False by congruence. }
  all: try rewrite eligibility_mark_voted_cases; try rewrite revoke_eligibility_cases;
    cbn; by rewrite !lookup_insert_eq.
Qed.

(** The reported turnout divides by the voters that are still eligible, which
    excludes those that voted: once every registered voter has voted it is 0. *)
Theorem full_turnout_reports_zero (r : EligibilityRegistry) :
  (forall id rec, erg_eligible_voters r !! id = Some rec -> erec_status rec = StatusAlreadyVoted) ->
  total_voted r = Z.of_nat (size (erg_eligible_voters r)) /\ total_eligible r = 0 /\
  eligibility_turnout_percentage r = f64_zero.
Proof.
  intros Hall. assert (Forall (fun x => erec_status x = StatusAlreadyVoted) (eligibility_values r)) as Hv.
  { unfold eligibility_values. apply Forall_fmap, Forall_forall.
    intros [id rec] Hin%elem_of_map_to_list. by apply Hall in Hin. }
  assert (total_eligible r = 0) as He.
  { unfold total_eligible, count_status, len. replace (filter _ _) with (@nil EligibilityRecord); [done|].
    clear Hall. induction Hv as [|x l Hx Hl IH]; [done|]. rewrite filter_cons, decide_False by congruence. done. }
  split_and!; [|done|].
  - unfold total_voted, count_status, len. f_equal.
    replace (filter _ _) with (eligibility_values r).
    + unfold eligibility_values. by rewrite length_fmap, length_map_to_list.
    + clear He Hall. induction Hv as [|x l Hx Hl IH]; [done|].
      rewrite filter_cons, decide_True by done. by rewrite <- IH.
  - unfold eligibility_turnout_percentage. by rewrite He.
Qed.

(** ** Provisional ballots *)
Lemma provisional_partition (l : list ProvisionalVote) :
  len (filter (fun v => pv_status v = Pending) l) + len (filter (fun v => pv_status v = Approved) l) +
  len (filter (fun v => is_rejected (pv_status v) = true) l) = len l.
Proof.
  induction l as [|v l IH]; [done|]. rewrite !filter_cons. unfold len in *.
  destruct (pv_status v) eqn:E;
    repeat match goal with |- context [decide ?P] => destruct (decide P); try done end;
    cbn [length]; lia.
Qed.

(** A provisional vote is entered once per voter, and every one is pending,
    approved or rejected, so the three counts add up to the number of votes; a
    decision on a known vote changes its status only. *)
Theorem provisional_votes_accounted (t : ProvisionalBallotTracker) (v : ProvisionalVote)
    (s : ProvisionalStatus) (id : VoterId) :
  pending_count t + approved_count t + rejected_count t = Z.of_nat (size (pbt_votes t)) /\
  match pbt_votes t !! pv_voter_id v with
  | Some _ => add_provisional_vote v t = (Err AlreadyVoted, t)
  | None => exists t', add_provisional_vote v t = (Ok tt, t') /\
              pbt_votes t' = <[pv_voter_id v := v]> (pbt_votes t) /\
              size (pbt_votes t') = S (size (pbt_votes t))
  end /\
  match pbt_votes t !! id with
  | None => decide_provisional s id t = (Err (VoterNotEligible "Provisional vote not found"), t)
  | Some w => exists t', decide_provisional s id t = (Ok tt, t') /\
              pbt_votes t' = <[id := set_provisional_status s w]> (pbt_votes t) /\
              size (pbt_votes t') = size (pbt_votes t)
  end.
Proof.
  split_and!.
  - unfold pending_count, approved_count, rejected_count. rewrite provisional_partition.
    unfold provisional_values, len. by rewrite length_fmap, length_map_to_list.
  - unfold add_provisional_vote, mbind, stM_bind, get, lift, modify, ensure.
    destruct (pbt_votes t !! pv_voter_id v) eqn:E.
    + rewrite bool_decide_true by eauto. done.
    + rewrite bool_decide_false by (intros [? ?]; done). eexists. split_and!; [done..|].
      cbn. by rewrite map_size_insert_None.
  - unfold decide_provisional, mbind, stM_bind, get, lift, modify, ok_or.
    destruct (pbt_votes t !! id) eqn:E; [|done]. eexists. split_and!; [done..|].
    cbn. by rewrite map_size_insert_Some.
Qed.
