(* ===== verification/BallotPrivacy.v ===== *)
(** * Private ballots: crates/crypto/src/zkp/ballot_privacy.rs

    The encrypted ballot with its commitment, its validity proof (a hash challenge
    over the public parts and two responses) and the voter's signature; the verifier;
    receipt-free and blinded ballots and the hash-chained tally. *)
From stdpp Require Import prelude gmap strings list.
From Stdlib Require Import Strings.Byte.
From S2P Require Import Prelude Types Crypto.

Local Open Scope Z_scope.

Record ProofMetadata := mkProofMetadata {
  pm_proof_version : Z;
  pm_timestamp : Z;
  pm_security_parameter : Z
}.

Record BallotValidityProof := mkBallotValidityProof {
  bvp_challenge : list byte;
  bvp_responses : list (list byte);
  bvp_proof_commitment : list byte;
  bvp_metadata : ProofMetadata
}.

Record PrivateBallot := mkPrivateBallot {
  pb_encrypted_vote : EncryptedData;
  pb_commitment : list byte;
  pb_validity_proof : BallotValidityProof;
  pb_voter_signature : Signature;
  pb_election_id : array 16
}.

Record BallotVerifier := mkBallotVerifier {
  bv_election_key : PublicKey;
  bv_valid_candidates : list string;
  bv_election_id : array 16
}.

Definition BallotVerifier_new : PublicKey -> list string -> array 16 -> BallotVerifier := mkBallotVerifier.

Section ballot_privacy.
Context `{HashCrate, Ed25519Crate, AeadCrate}.

(** ** Validity proofs *)
Definition compute_challenge (encrypted_vote : EncryptedData) (commitment proof_commitment : list byte)
    (election_id : array 16) : list byte :=
  array_list (hash_blake2b_multiple
    [EncryptedData_to_bytes encrypted_vote; commitment; proof_commitment; array_list election_id]).

Definition BallotValidityProof_generate (now : Z) (randomness vote_data : list byte)
    (encrypted_vote : EncryptedData) (commitment : Commitment) (election_id : array 16)
    : VResult BallotValidityProof :=
  let proof_commitment := array_list (hash_blake2b_multiple [vote_data; randomness]) in
  let challenge := compute_challenge encrypted_vote (cm_value commitment) proof_commitment election_id in
  let response1 := array_list (hash_blake2b_multiple [vote_data; challenge]) in
  let response2 := array_list (hash_blake2b_multiple [randomness; challenge]) in
  Ok (mkBallotValidityProof challenge [response1; response2] proof_commitment (mkProofMetadata 1 now 128)).

Definition validity_proof_verify (p : BallotValidityProof) (encrypted_vote : EncryptedData)
    (commitment : list byte) (election_id : array 16) : VResult unit :=
  let computed_challenge :=
    compute_challenge encrypted_vote commitment (bvp_proof_commitment p) election_id in
  _ ← ensure (constant_time_eq (bvp_challenge p) computed_challenge)
        (CryptoError "Ballot validity proof verification failed: challenge mismatch");
  ensure (negb (len (bvp_responses p) <? 2)) (CryptoError "Invalid proof: insufficient responses").

Definition validity_proof_size (p : BallotValidityProof) : Z :=
  len (bvp_challenge p) + foldr (fun r n => len r + n) 0 (bvp_responses p) + len (bvp_proof_commitment p).

(** ** Private ballots *)
Definition compute_fingerprint (encrypted_vote : EncryptedData) (commitment : list byte)
    (election_id : array 16) : list byte :=
  array_list (hash_blake2b_multiple
    [EncryptedData_to_bytes encrypted_vote; commitment; array_list election_id]).

(** [PrivateBallot::create]: the nonce, the commitment randomness, the proof
    randomness and the clock are arguments. *)
Definition PrivateBallot_create (nonce : array 12) (randomness proof_randomness : list byte) (now : Z)
    (vote_data : list byte) (election_key : array 32) (election_id : array 16) (voter_key : KeyPair)
    : VResult PrivateBallot :=
  encrypted_vote ← encrypt nonce vote_data election_key;
  let commitment := Commitment_new vote_data randomness in
  validity_proof ← BallotValidityProof_generate now proof_randomness vote_data encrypted_vote commitment
                     election_id;
  let ballot_fingerprint := compute_fingerprint encrypted_vote (cm_value commitment) election_id in
  voter_signature ← sign ballot_fingerprint voter_key;
  Ok (mkPrivateBallot encrypted_vote (cm_value commitment) validity_proof voter_signature election_id).

Definition private_ballot_verify (b : PrivateBallot) (voter_public_key : PublicKey) : VResult unit :=
  _ ← validity_proof_verify (pb_validity_proof b) (pb_encrypted_vote b) (pb_commitment b) (pb_election_id b);
  verify_signature (compute_fingerprint (pb_encrypted_vote b) (pb_commitment b) (pb_election_id b))
    (pb_voter_signature b) voter_public_key.

Definition private_ballot_size (b : PrivateBallot) : Z :=
  12 + len (ed_ciphertext (pb_encrypted_vote b)) +
  match ed_associated_data (pb_encrypted_vote b) with Some ad => len ad | None => 0 end +
  len (pb_commitment b) + validity_proof_size (pb_validity_proof b).

(** ** The verifier *)
Definition verify_ballot (v : BallotVerifier) (ballot : PrivateBallot) (voter_key : PublicKey) : VResult unit :=
  _ ← ensure (bool_decide (pb_election_id ballot = bv_election_id v)) (InvalidBallot "Election ID mismatch");
  private_ballot_verify ballot voter_key.

Definition verifier_verify_batch (v : BallotVerifier) (ballots : list (PrivateBallot * PublicKey))
    : VResult (list bool) :=
  Ok ((fun '(ballot, voter_key) => is_ok (verify_ballot v ballot voter_key)) <$> ballots).

(** ** Receipt-free and blinded ballots *)
Record ReceiptFreeBallot := mkReceiptFreeBallot {
  rf_ballot : PrivateBallot;
  rf_randomization : list byte
}.

Definition ReceiptFreeBallot_create (randomization : list byte) (nonce : array 12)
    (randomness proof_randomness : list byte) (now : Z) (vote_data : list byte)
    (election_key : array 32) (election_id : array 16) (voter_key : KeyPair) : VResult ReceiptFreeBallot :=
  let mixed_vote := array_list (hash_blake2b_multiple [vote_data; randomization]) in
  ballot ← PrivateBallot_create nonce randomness proof_randomness now mixed_vote election_key
             election_id voter_key;
  Ok (mkReceiptFreeBallot ballot randomization).

Definition receipt_free_verify (b : ReceiptFreeBallot) (voter_key : PublicKey) : VResult unit :=
  private_ballot_verify (rf_ballot b) voter_key.

Record BlindedBallot := mkBlindedBallot {
  bl_blinded_data : list byte;
  bl_blinding_factor : option (list byte)
}.

Definition blind (blinding_factor ballot_data : list byte) : BlindedBallot :=
  mkBlindedBallot (array_list (hash_blake2b_multiple [ballot_data; blinding_factor])) (Some blinding_factor).

Definition unblind (b : BlindedBallot) (authorized_signature : list byte) : VResult (list byte) :=
  blinding_factor ← ok_or (bl_blinding_factor b) (CryptoError "No blinding factor");
  Ok (array_list (hash_blake2b_multiple [authorized_signature; blinding_factor])).

(** ** The tally *)
Record HomomorphicTally := mkHomomorphicTally { ht_encrypted_tally : list byte; ht_vote_count : Z }.

Definition HomomorphicTally_new : HomomorphicTally := mkHomomorphicTally [] 0.

Definition tally_add_vote (encrypted_vote : EncryptedData) (t : HomomorphicTally) : HomomorphicTally :=
  mkHomomorphicTally
    (if bool_decide (ht_encrypted_tally t = []) then ed_ciphertext encrypted_vote
     else array_list (hash_blake2b_multiple [ht_encrypted_tally t; ed_ciphertext encrypted_vote]))
    (u64_add (ht_vote_count t) 1).

(** ** Properties *)
Lemma challenge_proof_verifies p enc cm e :
  bvp_challenge p = compute_challenge enc cm (bvp_proof_commitment p) e ->
  2 <= len (bvp_responses p) -> validity_proof_verify p enc cm e = Ok tt.
Proof.
  intros Hc Hr. unfold validity_proof_verify. apply ensure_bind. split; [by apply constant_time_eq_spec|].
  destruct (Z.ltb_spec (len (bvp_responses p)) 2); [lia|done].
Qed.

Lemma PrivateBallot_create_inv nonce rnd prnd now data key e kp b :
  PrivateBallot_create nonce rnd prnd now data key e kp = Ok b ->
  pb_election_id b = e /\
  validity_proof_verify (pb_validity_proof b) (pb_encrypted_vote b) (pb_commitment b) (pb_election_id b) = Ok tt /\
  encrypt nonce data key = Ok (pb_encrypted_vote b) /\
  pb_commitment b = cm_value (Commitment_new data rnd) /\
  sign (compute_fingerprint (pb_encrypted_vote b) (pb_commitment b) (pb_election_id b)) kp =
    Ok (pb_voter_signature b).
Proof.
  unfold PrivateBallot_create. destruct (encrypt nonce data key) as [d| |]; [|done..].
  intros [= <-]. split_and!; try done. by apply challenge_proof_verifies.
Qed.

(** A private ballot made with the voter's key verifies under it, as does a
    receipt-free one, and the verifier of its election accepts it; the verifier of
    another election refuses it. *)
Theorem private_ballot_verifies `{!Ed25519Spec} (nonce : array 12) (rnd prnd : list byte) (now : Z)
    (data : list byte) (key : array 32) (e : array 16) (sk : array 32) (b : PrivateBallot)
    (v : BallotVerifier) :
  PrivateBallot_create nonce rnd prnd now data key e (KeyPair_from_private_key sk) = Ok b ->
  private_ballot_verify b (kp_public (KeyPair_from_private_key sk)) = Ok tt /\
  verify_ballot v b (kp_public (KeyPair_from_private_key sk)) =
    if decide (e = bv_election_id v) then Ok tt else Err (InvalidBallot "Election ID mismatch").
Proof.
  intros (He & Hp & _ & _ & Hs)%PrivateBallot_create_inv.
  assert (private_ballot_verify b (kp_public (KeyPair_from_private_key sk)) = Ok tt) as Hv.
  { unfold private_ballot_verify. rewrite Hp. by apply verify_own_signature. }
  split; [done|]. unfold verify_ballot. rewrite He.
  destruct (decide _); [rewrite bool_decide_true by done|rewrite bool_decide_false by done]; done.
Qed.

(** The validity proof proves nothing about the vote.  The challenge is a hash
    of public values and the responses are only counted, so for any ciphertext and
    any commitment, related or not, anyone can write down a proof that verifies. *)
Theorem validity_proof_forgeable (enc : EncryptedData) (commitment pc r1 r2 : list byte) (e : array 16)
    (m : ProofMetadata) :
  validity_proof_verify
    (mkBallotValidityProof (compute_challenge enc commitment pc e) [r1; r2] pc m) enc commitment e = Ok tt.
Proof. by apply challenge_proof_verifies. Qed.
End ballot_privacy.
