(* ===== verification/Verification.v ===== *)
(** * Vote verification: crates/voting/src/verification.rs

    [VoteVerifier] turns checks into a [VerificationResult] with a list of errors;
    [IntegrityChecker] looks at whole lists of cast ballots; [AuditTrail] collects
    verification results.  Clock readings and generated keys are arguments. *)
From stdpp Require Import prelude gmap strings list.
From Stdlib Require Import Strings.Byte Sorting.Sorted.
From S2P Require Import Prelude Floats64 Types Crypto Election Voter Ballot VoteCasting BallotPrivacy.

Local Open Scope Z_scope.

(** ** Results *)
Record VerificationResult := mkVerificationResult {
  vres_voter_id : VoterId;
  vres_is_valid : bool;
  vres_errors : list string;
  vres_warnings : list string;
  vres_verified_at : Z
}.

Definition VerificationResult_new (now : Z) (voter_id : VoterId) : VerificationResult :=
  mkVerificationResult voter_id false [] [] now.

Definition mark_valid (r : VerificationResult) : VerificationResult :=
  if bool_decide (vres_errors r = [])
  then mkVerificationResult (vres_voter_id r) true (vres_errors r) (vres_warnings r) (vres_verified_at r)
  else r.

Definition add_error (error : string) (r : VerificationResult) : VerificationResult :=
  mkVerificationResult (vres_voter_id r) false (vres_errors r ++ [error]) (vres_warnings r)
    (vres_verified_at r).

Definition add_warning (warning : string) (r : VerificationResult) : VerificationResult :=
  mkVerificationResult (vres_voter_id r) (vres_is_valid r) (vres_errors r) (vres_warnings r ++ [warning])
    (vres_verified_at r).

Definition has_errors (r : VerificationResult) : bool := negb (bool_decide (vres_errors r = [])).
Definition has_warnings (r : VerificationResult) : bool := negb (bool_decide (vres_warnings r = [])).
Definition error_count (r : VerificationResult) : Z := len (vres_errors r).
Definition warning_count (r : VerificationResult) : Z := len (vres_warnings r).

(** ** The verifier *)
Record VoteVerifier := mkVoteVerifier {
  vv_election : Election;
  vv_ballot_verifier : option BallotVerifier
}.

Definition create_ballot_verifier (election : Election) : BallotVerifier :=
  BallotVerifier_new (el_authority_key election) (c_id <$> el_candidates election)
    (election_id_bytes (el_id election)).

Definition VoteVerifier_new (election : Election) : VoteVerifier :=
  mkVoteVerifier election (Some (create_ballot_verifier election)).

(** The values generated by one [to_private_ballot]: a new election key, the nonce,
    the two commitment randomnesses and the clock. *)
Record PrivateInputs := mkPrivateInputs {
  pi_election_key : array 32;
  pi_nonce : array 12;
  pi_randomness : list byte;
  pi_proof_randomness : list byte;
  pi_now : Z
}.

Section verification.
Context `{HashCrate, Ed25519Crate, AeadCrate, BincodeBallot}.

(** [CastBallot::to_private_ballot] of ballot.rs. *)
Definition to_private_ballot (i : PrivateInputs) (b : CastBallot) (voter_keypair : KeyPair)
    : VResult PrivateBallot :=
  let ballot_data := EncryptedData_to_bytes (cb_encrypted_ballot b) in
  PrivateBallot_create (pi_nonce i) (pi_randomness i) (pi_proof_randomness i) (pi_now i) ballot_data
    (pi_election_key i) (election_id_bytes (cb_election_id b)) voter_keypair.

(** [verify_submission]: [fresh] is the secret key of [KeyPair::generate()], [t0] and
    [current_time] the two clock readings. *)
Definition verify_submission (t0 current_time : Z) (i : PrivateInputs) (fresh : array 32)
    (v : VoteVerifier) (submission : VoteSubmission) (voter_public_key : PublicKey)
    : VResult VerificationResult :=
  let result := VerificationResult_new t0 (vs_voter_id submission) in
  if negb (bool_decide (cb_election_id (vs_cast_ballot submission) = el_id (vv_election v)))
  then Ok (add_error "Election ID mismatch" result)
  else match submission_verify submission voter_public_key with
  | Panic => Panic
  | Err e => Ok (add_error ("Signature verification failed: " ++ VotingError_display e) result)
  | Ok _ =>
      let finish :=
        let result := if negb (is_active (vv_election v) current_time)
                      then add_warning "Election is not currently active" result else result in
        Ok (mark_valid result) in
      match vv_ballot_verifier v with
      | None => finish
      | Some verifier =>
          pb ← to_private_ballot i (vs_cast_ballot submission) (KeyPair_from_private_key fresh);
          match verify_ballot verifier pb voter_public_key with
          | Panic => Panic
          | Err e => Ok (add_error ("Ballot verification failed: " ++ VotingError_display e) result)
          | Ok _ => finish
          end
      end
  end.

Definition verify_cast_ballot (t0 : Z) (v : VoteVerifier) (cast_ballot : CastBallot)
    (voter_public_key : PublicKey) : VResult VerificationResult :=
  let result := VerificationResult_new t0 (cb_voter_id cast_ballot) in
  if negb (bool_decide (cb_election_id cast_ballot = el_id (vv_election v)))
  then Ok (add_error "Election ID mismatch" result)
  else match cast_ballot_verify cast_ballot voter_public_key with
  | Panic => Panic
  | Err e => Ok (add_error ("Ballot signature verification failed: " ++ VotingError_display e) result)
  | Ok _ => Ok (mark_valid result)
  end.

Definition verify_voter_eligibility (t0 : Z) (v : VoteVerifier) (voter : Voter) (current_time : Z)
    : VResult VerificationResult :=
  let result := VerificationResult_new t0 (v_id voter) in
  if negb (voter_is_registered voter) then Ok (add_error "Voter is not registered" result)
  else match v_credentials voter with
  | None => Ok (add_error "Voter has no credentials" result)
  | Some credentials =>
      if negb (credentials_is_valid credentials current_time)
      then Ok (add_error "Voter credentials have expired" result)
      else if voter_has_voted voter (el_id (vv_election v))
      then Ok (add_error "Voter has already voted in this election" result)
      else Ok (mark_valid result)
  end.

Definition candidate_known (e : Election) (candidate_id : string) : bool :=
  existsb (fun c => bool_decide (c_id c = candidate_id)) (el_candidates e).

(** The body of the loop over the choices. *)
Definition check_choice (e : Election) (r : VerificationResult) (choice : BallotChoice) : VerificationResult :=
  if negb (candidate_known e (bc_candidate_id choice)) &&
     negb (bool_decide (bc_candidate_id choice = "write_in"%string))
  then add_error ("Invalid candidate ID: " ++ bc_candidate_id choice) r
  else r.

Definition verify_ballot_structure (t0 : Z) (v : VoteVerifier) (ballot : Ballot) : VResult VerificationResult :=
  let result := VerificationResult_new t0 (mkVoterId (array_fill 32 x00)) in
  if negb (bool_decide (b_election_id ballot = el_id (vv_election v)))
  then Ok (add_error "Ballot election ID mismatch" result)
  else match ballot_validate ballot with
  | Panic => Panic
  | Err e => Ok (add_error ("Ballot validation failed: " ++ VotingError_display e) result)
  | Ok _ =>
      let result := foldl (check_choice (vv_election v)) result (b_choices ballot) in
      Ok (if bool_decide (vres_errors result = []) then mark_valid result else result)
  end.

(** [batch_verify_submissions], with the inputs of each call. *)
Fixpoint batch_verify_submissions (v : VoteVerifier)
    (submissions : list (Z * Z * PrivateInputs * array 32 * VoteSubmission * PublicKey))
    : VResult (list VerificationResult) :=
  match submissions with
  | [] => Ok []
  | (t0, now, i, fresh, submission, public_key) :: rest =>
      result ← verify_submission t0 now i fresh v submission public_key;
      results ← batch_verify_submissions v rest;
      Ok (result :: results)
  end.
End verification.

(** ** Integrity *)
Inductive IntegrityIssue :=
| ElectionMismatch
| EmptyBallot
| MissingCommitment
| MissingTransactionId
| DuplicateBallot
| DuplicateVoter
| InvalidTimestamp
| TimestampOrderViolation.

Global Instance IntegrityIssue_eq_dec : EqDecision IntegrityIssue.
Proof. solve_decision. Defined.

Definition IntegrityIssue_display (i : IntegrityIssue) : string :=
  match i with
  | ElectionMismatch => "Election ID mismatch"
  | EmptyBallot => "Empty ballot"
  | MissingCommitment => "Missing ballot commitment"
  | MissingTransactionId => "Missing transaction ID"
  | DuplicateBallot => "Duplicate ballot detected"
  | DuplicateVoter => "Duplicate voter detected"
  | InvalidTimestamp => "Invalid timestamp"
  | TimestampOrderViolation => "Timestamp order violation"
  end.

Record IntegrityReport := mkIntegrityReport {
  ir_election_id : ElectionId;
  ir_issues : list IntegrityIssue;
  ir_checked_at : Z
}.

Definition IntegrityReport_new (now : Z) (election_id : ElectionId) : IntegrityReport :=
  mkIntegrityReport election_id [] now.

Definition add_issue (issue : IntegrityIssue) (r : IntegrityReport) : IntegrityReport :=
  mkIntegrityReport (ir_election_id r) (ir_issues r ++ [issue]) (ir_checked_at r).

(** [if b { report.add_issue(issue) }]. *)
Definition issue_if (b : bool) (issue : IntegrityIssue) (r : IntegrityReport) : IntegrityReport :=
  if b then add_issue issue r else r.

Definition report_is_valid (r : IntegrityReport) : bool := bool_decide (ir_issues r = []).
Definition issue_count (r : IntegrityReport) : Z := len (ir_issues r).
Definition has_critical_issues (r : IntegrityReport) : bool :=
  existsb (fun i => match i with DuplicateVoter => true | _ => false end) (ir_issues r).

(** [IntegrityChecker] is its election identifier. *)
Definition check_ballot_integrity (now : Z) (election_id : ElectionId) (b : CastBallot) : VResult IntegrityReport :=
  let report := IntegrityReport_new now election_id in
  let report := issue_if (negb (bool_decide (cb_election_id b = election_id))) ElectionMismatch report in
  let report := issue_if (bool_decide (ed_ciphertext (cb_encrypted_ballot b) = [])) EmptyBallot report in
  let report := issue_if (bool_decide (cb_ballot_commitment b = [])) MissingCommitment report in
  let report := issue_if (bool_decide (cb_transaction_id b = None)) MissingTransactionId report in
  Ok report.

(** The body of the loop of [check_vote_chain]: the report and the two sets. *)
Definition check_chain_step (election_id : ElectionId)
    (st : IntegrityReport * gset BallotId * gset VoterId) (b : CastBallot)
    : IntegrityReport * gset BallotId * gset VoterId :=
  let '(report, ballot_ids, voter_ids) := st in
  let report := issue_if (negb (bool_decide (cb_election_id b = election_id))) ElectionMismatch report in
  let report := issue_if (bool_decide (cb_ballot_id b ∈ ballot_ids)) DuplicateBallot report in
  let report := issue_if (bool_decide (cb_voter_id b ∈ voter_ids)) DuplicateVoter report in
  (report, {[cb_ballot_id b]} ∪ ballot_ids, {[cb_voter_id b]} ∪ voter_ids).

Definition check_vote_chain (now : Z) (election_id : ElectionId) (cast_ballots : list CastBallot)
    : VResult IntegrityReport :=
  Ok (foldl (check_chain_step election_id) (IntegrityReport_new now election_id, ∅, ∅) cast_ballots).1.1.

(** The loop over [windows(2)], which breaks at the first violation. *)
Fixpoint check_windows (ballots : list CastBallot) (r : IntegrityReport) : IntegrityReport :=
  match ballots with
  | b0 :: (b1 :: _) as rest =>
      if cb_cast_at b1 <? cb_cast_at b0 then add_issue TimestampOrderViolation r
      else check_windows rest r
  | _ => r
  end.

Definition cast_at_leb (a b : CastBallot) : bool := cb_cast_at a <=? cb_cast_at b.

Definition verify_timestamps (now : Z) (election_id : ElectionId) (cast_ballots : list CastBallot)
    : VResult IntegrityReport :=
  let report := foldl (fun r b => issue_if (cb_cast_at b =? 0) InvalidTimestamp r)
                  (IntegrityReport_new now election_id) cast_ballots in
  let sorted_ballots := sort_by cast_at_leb cast_ballots in
  Ok (check_windows sorted_ballots report).

(** ** Audit *)
Record AuditRecord := mkAuditRecord {
  ar_voter_id : VoterId;
  ar_verification_result : VerificationResult;
  ar_verifier_id : string;
  ar_recorded_at : Z
}.

Record AuditTrail := mkAuditTrail { verification_records : list AuditRecord }.

Definition AuditTrail_new : AuditTrail := mkAuditTrail [].

Definition record_verification (now : Z) (voter_id : VoterId) (result : VerificationResult)
    (verifier_id : string) (a : AuditTrail) : AuditTrail :=
  mkAuditTrail (verification_records a ++ [mkAuditRecord voter_id result verifier_id now]).

Definition get_records (a : AuditTrail) (voter_id : VoterId) : list AuditRecord :=
  filter (fun r => ar_voter_id r = voter_id) (verification_records a).
Definition total_verifications (a : AuditTrail) : Z := len (verification_records a).
Definition successful_verifications (a : AuditTrail) : Z :=
  len (filter (fun r => vres_is_valid (ar_verification_result r) = true) (verification_records a)).
Definition failed_verifications (a : AuditTrail) : Z :=
  len (filter (fun r => vres_is_valid (ar_verification_result r) = false) (verification_records a)).
Definition verification_rate (a : AuditTrail) : f64 :=
  if len (verification_records a) =? 0 then f64_zero
  else f64_mul (f64_div (f64_of_Z (successful_verifications a)) (f64_of_Z (total_verifications a))) f64_hundred.

(** ** Properties of the verifier *)
Section verifier_properties.
Context `{HashCrate, Ed25519Crate, AeadCrate, BincodeBallot}.

(** [verify_submission] checks the voter's signature on a ballot that it signs
    itself, with a key pair generated for the occasion: it reports a submission as
    valid only if a signature made with that unrelated key verifies under the voter's
    key, so honest submissions are reported invalid. *)
Theorem verify_submission_needs_fresh_key (t0 now : Z) (i : PrivateInputs) (fresh : array 32)
    (e : Election) (s : VoteSubmission) (pk : PublicKey) (r : VerificationResult) :
  verify_submission t0 now i fresh (VoteVerifier_new e) s pk = Ok r ->
  vres_is_valid r = true ->
  exists fingerprint, ed_verify (public_key_bytes pk) fingerprint (ed_sign fresh fingerprint) = true.
Proof.
  unfold verify_submission. case_bool_decide; cbn; [|by intros [= <-]].
  destruct (submission_verify s pk) as [[]|err|]; [|by intros [= <-]|done].
  destruct (to_private_ballot _ _ _) as [pb| |] eqn:Ep; [|done..]. cbn.
  apply PrivateBallot_create_inv in Ep as (_ & _ & _ & _ & Hs). injection Hs as Hs.
  destruct (verify_ballot _ pb pk) as [[]|err|] eqn:Ev; [|by intros [= <-]|done]. intros _ _.
  unfold verify_ballot, private_ballot_verify in Ev.
  rewrite ensure_bind, bind_unit in Ev. destruct Ev as (_ & _ & Ev).
  unfold verify_signature in Ev. destruct (ed_key_error _); [done|].
  rewrite ensure_Ok in Ev. rewrite <- Hs in Ev. cbn in Ev. eauto.
Qed.

Lemma candidate_known_spec e id : candidate_known e id = true <-> exists c, c ∈ el_candidates e /\ c_id c = id.
Proof.
  unfold candidate_known. rewrite existsb_exists. setoid_rewrite <- list_elem_of_In.
  by setoid_rewrite bool_decide_eq_true.
Qed.

Lemma check_choices_errors e choices r :
  vres_errors (foldl (check_choice e) r choices) = [] <->
  vres_errors r = [] /\
  Forall (fun c => bc_candidate_id c = "write_in"%string \/
            exists k, k ∈ el_candidates e /\ c_id k = bc_candidate_id c) choices.
Proof.
  revert r. induction choices as [|c choices IH]; intros r; cbn; [rewrite Forall_nil; tauto|].
  rewrite IH, Forall_cons, <- candidate_known_spec. unfold check_choice.
  destruct (candidate_known e (bc_candidate_id c)); cbn; [tauto|].
  case_bool_decide; cbn; [tauto|].
  split; [|intuition done]. intros [Herr _]. by apply app_nil in Herr as [_ ?].
Qed.

(** [verify_ballot_structure] always answers, and reports a ballot as valid
    exactly when it is for this election, well formed for its type, and each choice
    names a candidate of the election or is a write-in. *)
Theorem verify_ballot_structure_spec (t0 : Z) (v : VoteVerifier) (ballot : Ballot) :
  exists r, verify_ballot_structure t0 v ballot = Ok r /\
    (vres_is_valid r = true <->
       b_election_id ballot = el_id (vv_election v) /\
       well_formed (b_ballot_type ballot) (b_choices ballot) /\
       Forall (fun c => bc_candidate_id c = "write_in"%string \/
                 exists k, k ∈ el_candidates (vv_election v) /\ c_id k = bc_candidate_id c)
         (b_choices ballot)).
Proof.
  unfold verify_ballot_structure. case_bool_decide as He; cbn.
  2:{ eexists. split; [done|]. by split; [|intros [? _]]. }
  destruct (ballot_validate_decides ballot) as [Hw [Hv|[msg Hv]]]; rewrite Hv; eexists; (split; [done|]).
  2:{ split; [done|]. intros (_ & Hwf & _). apply Hw in Hwf. congruence. }
  pose proof (check_choices_errors (vv_election v) (b_choices ballot)
    (VerificationResult_new t0 (mkVoterId (array_fill 32 x00)))) as Hc. cbn in Hc.
  apply Hw in Hv. unfold mark_valid. case_bool_decide as E.
  - apply Hc in E as [_ E]. by split.
  - assert (vres_is_valid (foldl (check_choice (vv_election v))
      (VerificationResult_new t0 (mkVoterId (array_fill 32 x00))) (b_choices ballot)) = false) as ->.
    { assert (forall choices r, vres_is_valid r = false ->
        vres_is_valid (foldl (check_choice (vv_election v)) r choices) = false) as Hf; [|by apply Hf].
      clear. induction choices as [|c choices IH]; intros r Hr; cbn; [done|]. apply IH.
      unfold check_choice. by destruct (_ && _). }
    split; [done|]. intros (_ & _ & Hf). destruct E. by apply Hc.
Qed.
End verifier_properties.

(** ** Properties of the integrity checks *)
Lemma issue_if_issues b i r : ir_issues (issue_if b i r) = ir_issues r ++ (if b then [i] else []).
Proof. destruct b; cbn; [done|by rewrite app_nil_r]. Qed.

(** The sets of the loop hold the identifiers seen, and the report's issues describe
    the ballots seen. *)
Definition chain_seen (e : ElectionId) (seen : list CastBallot)
    (st : IntegrityReport * gset BallotId * gset VoterId) : Prop :=
  let '(report, ballot_ids, voter_ids) := st in
  ballot_ids = list_to_set (cb_ballot_id <$> seen) /\ voter_ids = list_to_set (cb_voter_id <$> seen) /\
  ((ElectionMismatch ∉ ir_issues report) <-> Forall (fun b => cb_election_id b = e) seen) /\
  ((DuplicateBallot ∉ ir_issues report) <-> NoDup (cb_ballot_id <$> seen)) /\
  ((DuplicateVoter ∉ ir_issues report) <-> NoDup (cb_voter_id <$> seen)) /\
  Forall (fun i => i = ElectionMismatch \/ i = DuplicateBallot \/ i = DuplicateVoter) (ir_issues report).

Lemma NoDup_snoc {A} (l : list A) x : NoDup (l ++ [x]) <-> NoDup l /\ (x ∉ l).
Proof.
  rewrite NoDup_app. split; [set_solver|]. intros [Hl Hx]. split_and!; [done|set_solver|by apply NoDup_singleton].
Qed.

Lemma not_elem_issue_if (i j : IntegrityIssue) (b : bool) (l : list IntegrityIssue) :
  (i ∉ l ++ (if b then [j] else [])) <-> (i ∉ l) /\ (i = j -> b = false).
Proof. destruct b; rewrite not_elem_of_app; split; set_solver. Qed.

Lemma check_chain_step_seen e seen st b :
  chain_seen e seen st -> chain_seen e (seen ++ [b]) (check_chain_step e st b).
Proof.
  destruct st as [[report bs] vs]. intros (-> & -> & He & Hb & Hv & Hi). unfold check_chain_step, chain_seen.
  rewrite !fmap_app, !list_to_set_app_L, !issue_if_issues, !not_elem_issue_if. cbn.
  rewrite Forall_app, Forall_singleton, !NoDup_snoc, <- He, <- Hb, <- Hv.
  split_and!; [set_solver|set_solver|..].
  - rewrite negb_false_iff, bool_decide_eq_true.
    split; [intros [[[? Hn] _] _]; split; [done|by apply Hn]|intros [? ?]; split_and!; by intros].
  - rewrite !bool_decide_eq_false, !elem_of_list_to_set.
    split; [intros [[[? _] Hn] _]; split; [done|by apply Hn]|intros [? ?]; split_and!; by intros].
  - rewrite !bool_decide_eq_false, !elem_of_list_to_set.
    split; [intros [[[? _] _] Hn]; split; [done|by apply Hn]|intros [? ?]; split_and!; by intros].
  - rewrite !Forall_app. split_and!; [done|..]; (case_match; [apply Forall_singleton; auto|constructor]).
Qed.

Lemma check_chain_seen e ballots seen st :
  chain_seen e seen st -> chain_seen e (seen ++ ballots) (foldl (check_chain_step e) st ballots).
Proof.
  revert seen st. induction ballots as [|b ballots IH]; intros seen st Hs; cbn; [by rewrite app_nil_r|].
  rewrite (cons_middle b seen ballots), app_assoc. by apply IH, check_chain_step_seen.
Qed.

(** [check_vote_chain] finds exactly what it looks for: the report is valid if and
    only if every ballot is for this election and no ballot identifier and no voter
    occurs twice, and it is critical if and only if some voter occurs twice. *)
Theorem check_vote_chain_spec (now : Z) (e : ElectionId) (ballots : list CastBallot) :
  exists r, check_vote_chain now e ballots = Ok r /\
    (report_is_valid r = true <->
       Forall (fun b => cb_election_id b = e) ballots /\
       NoDup (cb_ballot_id <$> ballots) /\ NoDup (cb_voter_id <$> ballots)) /\
    (has_critical_issues r = false <-> NoDup (cb_voter_id <$> ballots)).
Proof.
  unfold check_vote_chain.
  pose proof (check_chain_seen e ballots [] (IntegrityReport_new now e, ∅, ∅)) as Hs.
  destruct (foldl _ _ ballots) as [[r bs] vs]. cbn [app] in Hs.
  destruct Hs as (_ & _ & He & Hb & Hv & Hi).
  { unfold chain_seen. cbn. split_and!; try done; (split; [intros _; constructor|set_solver]). }
  exists r. split; [done|]. rewrite <- He, <- Hb, <- Hv. split.
  - unfold report_is_valid. rewrite bool_decide_eq_true. split; [intros ->; set_solver|].
    intros (Hn1 & Hn2 & Hn3). destruct (ir_issues r) as [|i l]; [done|].
    apply Forall_cons in Hi as [Hi _]. set_solver.
  - unfold has_critical_issues. rewrite <- not_true_iff_false, existsb_exists.
    setoid_rewrite <- list_elem_of_In. split.
    + intros Hn Hin. apply Hn. by exists DuplicateVoter.
    + intros Hn (i & Hin & Hi'). by destruct i.
Qed.

Lemma cast_at_leb_total a b : cast_at_leb a b = true \/ cast_at_leb b a = true.
Proof. unfold cast_at_leb. lia. Qed.
Lemma cast_at_leb_trans a b c : cast_at_leb a b = true -> cast_at_leb b c = true -> cast_at_leb a c = true.
Proof. unfold cast_at_leb. lia. Qed.

Lemma check_windows_sorted ballots r :
  StronglySorted (fun a b => cast_at_leb a b = true) ballots -> check_windows ballots r = r.
Proof.
  induction ballots as [|a [|b l] IH]; [done..|]. intros [Hs Ha]%StronglySorted_inv.
  apply Forall_cons in Ha as [Hab _]. unfold cast_at_leb in Hab. cbn [check_windows].
  destruct (Z.ltb_spec (cb_cast_at b) (cb_cast_at a)); [lia|]. by apply IH.
Qed.

(** [verify_timestamps] sorts the ballots before it looks for an order violation,
    so it never finds one: whatever the order of the ballots, the report is valid if
    and only if no ballot has the timestamp 0. *)
Theorem timestamp_order_never_reported (now : Z) (e : ElectionId) (ballots : list CastBallot) :
  exists r, verify_timestamps now e ballots = Ok r /\
    (TimestampOrderViolation ∉ ir_issues r) /\
    (report_is_valid r = true <-> Forall (fun b => cb_cast_at b <> 0) ballots).
Proof.
  unfold verify_timestamps. eexists. split; [done|].
  rewrite check_windows_sorted
    by (apply sort_by_sorted; [apply cast_at_leb_total|apply cast_at_leb_trans]).
  assert (forall r, TimestampOrderViolation ∉ ir_issues r ->
    let r' := foldl (fun r b => issue_if (cb_cast_at b =? 0) InvalidTimestamp r) r ballots in
    (TimestampOrderViolation ∉ ir_issues r') /\
    (ir_issues r' = [] <-> ir_issues r = [] /\ Forall (fun b => cb_cast_at b <> 0) ballots)) as Hl.
  { induction ballots as [|b ballots IH]; intros r Hr; cbn; [rewrite Forall_nil; tauto|].
    destruct (IH (issue_if (cb_cast_at b =? 0) InvalidTimestamp r)) as [H1 H2].
    { rewrite issue_if_issues, not_elem_issue_if. by split. }
    split; [done|]. rewrite H2, Forall_cons, issue_if_issues.
    destruct (Z.eqb_spec (cb_cast_at b) 0); [|rewrite app_nil_r; naive_solver].
    split; [by intros [[_ ?]%app_nil _]|naive_solver]. }
  destruct (Hl (IntegrityReport_new now e)) as [H1 H2]; [cbn; set_solver|]. split; [done|].
  unfold report_is_valid. rewrite bool_decide_eq_true, H2. naive_solver.
Qed.

(** Every audited verification counts as either successful or failed. *)
Theorem audit_counts_partition (a : AuditTrail) (now : Z) (id : VoterId) (r : VerificationResult) (who : string) :
  successful_verifications a + failed_verifications a = total_verifications a /\
  total_verifications (record_verification now id r who a) = total_verifications a + 1 /\
  successful_verifications (record_verification now id r who a) =
    successful_verifications a + (if vres_is_valid r then 1 else 0).
Proof.
  unfold successful_verifications, failed_verifications, total_verifications, record_verification.
  split_and!.
  - apply (len_filter_partition (fun r => vres_is_valid (ar_verification_result r))).
  - cbn [verification_records]. by rewrite len_app.
  - cbn [verification_records]. rewrite filter_app, len_app. f_equal. by destruct r as [? [] ? ? ?].
Qed.
