(* ===== verification/Anonymity.v ===== *)
(** * Anonymity: crates/voting/src/anonymity.rs

    Pseudonyms for voters ([AnonymityLayer]), per-round encryption
    ([VoterAnonymizer]), the mix network, anonymous votes and their proofs, blind and
    ring signatures.  Random values and clock readings are arguments, in the order of
    their use; the crate [rand]'s shuffle is the class [ShuffleCrate]. *)
From stdpp Require Import prelude gmap strings list.
From Stdlib Require Import Strings.Byte.
From S2P Require Import Prelude Floats64 Types Merkle Crypto Voter Ballot.

Local Open Scope Z_scope.

(** ** Data *)
Record AnonymousId := mkAnonymousId { anonymous_id_bytes : array 32 }.

Global Instance AnonymousId_eq_dec : EqDecision AnonymousId.
Proof. solve_decision. Defined.
Global Instance AnonymousId_countable : Countable AnonymousId.
Proof. by apply (inj_countable' anonymous_id_bytes mkAnonymousId); intros []. Defined.

Record AnonymityProof := mkAnonymityProof {
  ap_proof_commitment : list byte;
  ap_proof_response : list byte;
  ap_timestamp : Z
}.

Record AnonymousVote := mkAnonymousVote {
  av_anonymous_id : AnonymousId;
  av_election_id : ElectionId;
  av_encrypted_ballot : EncryptedData;
  av_anonymity_proof : AnonymityProof;
  av_cast_at : Z
}.

Record MixingInfo := mkMixingInfo {
  mi_original_voter_id : VoterId;
  mi_anonymous_id : AnonymousId;
  mi_salt : list byte;
  mi_mixed_at : Z;
  mi_mixing_round : Z
}.

Record AnonymityLayer := mkAnonymityLayer {
  al_election_id : ElectionId;
  al_mixing_rounds : Z;
  al_voter_mappings : gmap VoterId AnonymousId;
  al_anonymous_mappings : gmap AnonymousId MixingInfo
}.

Record VoterAnonymizer := mkVoterAnonymizer {
  va_anonymization_keys : list (array 32);
  va_current_round : Z
}.

Record MixNode := mkMixNode { mn_node_id : Z; mn_public_key : list byte }.

Record ShuffledVote := mkShuffledVote {
  sv_vote_id : array 32;
  sv_encrypted_data : EncryptedData;
  sv_shuffle_proof : list byte;
  sv_mixed_at : Z
}.

Record MixNetwork := mkMixNetwork {
  mx_election_id : ElectionId;
  mx_mix_nodes : list MixNode;
  mx_shuffled_votes : list ShuffledVote
}.

Record BlindSignature := mkBlindSignature {
  bs_blinded_message : list byte;
  bs_signature : Signature;
  bs_blinding_factor : option (list byte)
}.

Record RingSignature := mkRingSignature {
  rs_ring_members : list PublicKey;
  rs_signature : Signature;
  rs_key_image : list byte
}.

Record AnonymityMetrics := mkAnonymityMetrics {
  am_total_anonymized : Z;
  am_mixing_rounds_completed : Z;
  am_anonymity_set_size : Z;
  am_unlinkability_score : f64
}.

Section anonymity.
Context `{HashCrate, HexCrate, Ed25519Crate, AeadCrate, BincodeBallot, ShuffleCrate}.

(** ** Pseudonyms *)
Definition AnonymousId_generate (random : array 32) : AnonymousId := mkAnonymousId random.

Definition AnonymousId_from_voter_id (voter_id : VoterId) (salt : list byte) : AnonymousId :=
  mkAnonymousId (hash_blake2b_multiple [array_list (voter_id_bytes voter_id); salt]).

Definition AnonymousId_to_hex (i : AnonymousId) : string := hex_encode (array_list (anonymous_id_bytes i)).
Definition AnonymousId_from_hex (s : string) : VResult AnonymousId :=
  mkAnonymousId <$> id_from_hex "Invalid anonymous ID length" s.
Definition AnonymousId_fmt (i : AnonymousId) : string := AnonymousId_to_hex i.

(** ** Anonymity proofs *)
Definition proof_challenge (anonymous_id : AnonymousId) (election_id : ElectionId)
    (proof_commitment : list byte) : array 32 :=
  hash_blake2b_multiple
    [array_list (anonymous_id_bytes anonymous_id); array_list (election_id_bytes election_id);
     proof_commitment].

(** [timestamp]: the clock; [randomness]: [Commitment::generate_randomness()]. *)
Definition AnonymityProof_generate (timestamp : Z) (randomness : list byte)
    (anonymous_id : AnonymousId) (election_id : ElectionId) : VResult AnonymityProof :=
  let commitment := Commitment_new (array_list (anonymous_id_bytes anonymous_id)) randomness in
  let proof_commitment := cm_value commitment in
  let challenge := proof_challenge anonymous_id election_id proof_commitment in
  let proof_response := array_list (hash_blake2b_multiple [randomness; array_list challenge]) in
  Ok (mkAnonymityProof proof_commitment proof_response timestamp).

(** The challenge and the expected response are computed and not used. *)
Definition AnonymityProof_verify (p : AnonymityProof) (anonymous_id : AnonymousId)
    (election_id : ElectionId) : VResult unit :=
  _ ← ensure (negb (bool_decide (ap_proof_commitment p = []) || bool_decide (ap_proof_response p = [])))
        (CryptoError "Invalid anonymity proof");
  let challenge := proof_challenge anonymous_id election_id (ap_proof_commitment p) in
  let expected_response := hash_blake2b (array_list challenge) in
  _ ← ensure (len (ap_proof_response p) =? 32) (CryptoError "Invalid proof response length");
  Ok tt.

(** ** Anonymous votes *)

(** [AnonymousVote::create]; [nonce] for the encryption, [random] for the identifier,
    [proof_time] and [randomness] for the proof, [cast_at] read last. *)
Definition AnonymousVote_create (nonce : array 12) (random : array 32) (proof_time : Z)
    (randomness : list byte) (cast_at : Z) (ballot : Ballot) (election_id : ElectionId)
    (election_key : array 32) (anonymity_layer : AnonymityLayer) : VResult AnonymousVote :=
  ballot_data ← ballot_serialize ballot;
  encrypted_ballot ← encrypt nonce ballot_data election_key;
  let anonymous_id := AnonymousId_generate random in
  anonymity_proof ← AnonymityProof_generate proof_time randomness anonymous_id election_id;
  Ok (mkAnonymousVote anonymous_id election_id encrypted_ballot anonymity_proof cast_at).

Definition AnonymousVote_verify (v : AnonymousVote) : VResult unit :=
  AnonymityProof_verify (av_anonymity_proof v) (av_anonymous_id v) (av_election_id v).

Definition is_linkable_to (v other : AnonymousVote) : bool := false.

(** ** The anonymity layer *)
Definition AnonymityLayer_new (election_id : ElectionId) (mixing_rounds : Z) : AnonymityLayer :=
  mkAnonymityLayer election_id mixing_rounds ∅ ∅.

(** [salt]: [random_hash()]; [now]: the clock. *)
Definition anonymize_voter (salt : array 32) (now : Z) (voter_id : VoterId) :
    VStM AnonymityLayer AnonymousId :=
  self ← get;
  match al_voter_mappings self !! voter_id with
  | Some anonymous_id => mret anonymous_id
  | None =>
      let anonymous_id := AnonymousId_from_voter_id voter_id (array_list salt) in
      let mixing_info := mkMixingInfo voter_id anonymous_id (array_list salt) now 0 in
      _ ← modify (fun l => mkAnonymityLayer (al_election_id l) (al_mixing_rounds l)
                             (<[voter_id := anonymous_id]> (al_voter_mappings l))
                             (<[anonymous_id := mixing_info]> (al_anonymous_mappings l)));
      mret anonymous_id
  end.

Definition get_anonymous_id (l : AnonymityLayer) (voter_id : VoterId) : option AnonymousId :=
  al_voter_mappings l !! voter_id.
Definition is_anonymized (l : AnonymityLayer) (voter_id : VoterId) : bool :=
  bool_decide (is_Some (al_voter_mappings l !! voter_id)).
Definition anonymized_count (l : AnonymityLayer) : Z := Z.of_nat (size (al_voter_mappings l)).
Definition mixing_rounds (l : AnonymityLayer) : Z := al_mixing_rounds l.

(** ** The anonymizer *)

(** [keys]: the generated keys, one per round. *)
Definition VoterAnonymizer_new (keys : list (array 32)) : VoterAnonymizer := mkVoterAnonymizer keys 0.

Definition anonymize_ballot (nonce : array 12) (ballot : Ballot) :
    VStM VoterAnonymizer EncryptedData :=
  self ← get;
  _ ← lift (ensure (negb (len (va_anonymization_keys self) <=? va_current_round self))
              (CryptoError "All anonymization rounds completed"));
  ballot_data ← lift (ballot_serialize ballot);
  key ← lift (unwrap (va_anonymization_keys self !! Z.to_nat (va_current_round self)));
  encrypted ← lift (encrypt nonce ballot_data key);
  _ ← modify (fun a => mkVoterAnonymizer (va_anonymization_keys a) (u64_add (va_current_round a) 1));
  mret encrypted.

Definition current_round (a : VoterAnonymizer) : Z := va_current_round a.
Definition total_rounds (a : VoterAnonymizer) : Z := len (va_anonymization_keys a).
Definition anonymizer_reset (a : VoterAnonymizer) : VoterAnonymizer :=
  mkVoterAnonymizer (va_anonymization_keys a) 0.

(** ** The mix network *)
Definition MixNode_new (random : array 32) (node_id : Z) : MixNode :=
  mkMixNode node_id (array_list random).

(** [MixNetwork::new]; one random public key per node. *)
Definition MixNetwork_new (election_id : ElectionId) (randoms : list (array 32)) : MixNetwork :=
  mkMixNetwork election_id (imap (fun i r => MixNode_new r (Z.of_nat i)) randoms) [].

Definition mix_add_vote (random : array 32) (now : Z) (encrypted_ballot : EncryptedData) :
    VStM MixNetwork unit :=
  let shuffled := mkShuffledVote random encrypted_ballot [] now in
  _ ← modify (fun m => mkMixNetwork (mx_election_id m) (mx_mix_nodes m) (mx_shuffled_votes m ++ [shuffled]));
  mret tt.

Definition mix_shuffle (seed : nat) : VStM MixNetwork unit :=
  _ ← modify (fun m => mkMixNetwork (mx_election_id m) (mx_mix_nodes m) (rand_shuffle seed (mx_shuffled_votes m)));
  mret tt.

Definition get_shuffled_votes (m : MixNetwork) : list ShuffledVote := mx_shuffled_votes m.
Definition mix_vote_count (m : MixNetwork) : Z := len (mx_shuffled_votes m).
Definition mix_node_count (m : MixNetwork) : Z := len (mx_mix_nodes m).

(** ** Blind signatures *)
Definition bs_blind (blinding_factor : list byte) (message : list byte) : BlindSignature :=
  mkBlindSignature (array_list (hash_blake2b_multiple [message; blinding_factor]))
    (mkSignature (array_fill 64 x00)) (Some blinding_factor).

Definition bs_sign (keypair : KeyPair) : VStM BlindSignature unit :=
  self ← get;
  signature ← lift (sign (bs_blinded_message self) keypair);
  _ ← modify (fun b => mkBlindSignature (bs_blinded_message b) signature (bs_blinding_factor b));
  mret tt.

Definition bs_unblind (b : BlindSignature) : VResult (list byte) :=
  blinding_factor ← ok_or (bs_blinding_factor b) (CryptoError "No blinding factor");
  Ok (array_list (hash_blake2b_multiple [array_list (signature_bytes (bs_signature b)); blinding_factor])).

(** Only the emptiness of the signature is tested; the key is not used. *)
Definition verify_unblinded (b : BlindSignature) (unblinded_signature : list byte)
    (public_key : PublicKey) : VResult unit :=
  _ ← ensure (negb (bool_decide (unblinded_signature = []))) (CryptoError "Empty unblinded signature");
  Ok tt.

(** ** Ring signatures *)
Definition ring_sign (message : list byte) (signer_keypair : KeyPair) (ring_members : list PublicKey) :
    VResult RingSignature :=
  _ ← ensure (negb (bool_decide (ring_members = []))) (CryptoError "Ring must have at least one member");
  signature ← sign message signer_keypair;
  let key_image := array_list (hash_blake2b (array_list (public_key_bytes (kp_public signer_keypair)))) in
  Ok (mkRingSignature ring_members signature key_image).

(** The loop of [RingSignature::verify]. *)
Fixpoint ring_verify_loop (message : list byte) (sig : Signature) (members : list PublicKey) : VResult bool :=
  match members with
  | [] => Ok false
  | public_key :: rest =>
      if is_ok (verify_signature message sig public_key) then Ok true
      else ring_verify_loop message sig rest
  end.

Definition ring_verify (r : RingSignature) (message : list byte) : VResult bool :=
  if bool_decide (rs_ring_members r = []) then Ok false
  else ring_verify_loop message (rs_signature r) (rs_ring_members r).

Definition ring_size (r : RingSignature) : Z := len (rs_ring_members r).

(** ** Metrics *)
Definition AnonymityMetrics_new : AnonymityMetrics := mkAnonymityMetrics 0 0 0 f64_zero.

Definition calculate_unlinkability_score (votes voters : Z) (m : AnonymityMetrics) : AnonymityMetrics :=
  mkAnonymityMetrics (am_total_anonymized m) (am_mixing_rounds_completed m) (am_anonymity_set_size m)
    (if voters =? 0 then f64_zero
     else f64_min (f64_div (f64_of_Z votes) (f64_of_Z voters)) f64_one).

Definition update_anonymity_set_size (size : Z) (m : AnonymityMetrics) : AnonymityMetrics :=
  mkAnonymityMetrics (am_total_anonymized m) (am_mixing_rounds_completed m) size (am_unlinkability_score m).

(** ** The anonymity layer gives stable, distinct pseudonyms *)

(** A call of [anonymize_voter]: the generated salt, the clock, the voter. *)
Definition LayerCall : Type := array 32 * Z * VoterId.

Definition layer_call (l : AnonymityLayer) (c : LayerCall) : AnonymityLayer :=
  let '(salt, now, voter_id) := c in snd (anonymize_voter salt now voter_id l).

Definition pseudonym_input (voter_id : VoterId) (salt : list byte) : list byte :=
  array_list (voter_id_bytes voter_id) ++ salt.

(** What the calls may have hashed. *)
Definition layer_inputs (calls : list LayerCall) : list (list byte) :=
  (fun c : LayerCall => let '(salt, _, voter_id) := c in pseudonym_input voter_id (array_list salt)) <$> calls.

Lemma from_voter_id_input v salt :
  AnonymousId_from_voter_id v salt = mkAnonymousId (blake2b256 (pseudonym_input v salt)).
Proof.
  unfold AnonymousId_from_voter_id, hash_blake2b_multiple, pseudonym_input. cbn. by rewrite app_nil_r.
Qed.

Lemma pseudonym_input_inj v w salt salt' :
  pseudonym_input v salt = pseudonym_input w salt' -> v = w /\ salt = salt'.
Proof.
  intros E. apply app_inj_len in E as [E ->]; [|by rewrite !length_array_list].
  apply array_list_inj in E. by destruct v, w; cbn in *; subst.
Qed.

(** The two maps describe the same pairs; [D] are the hashed inputs. *)
Record layer_inv (D : list (list byte)) (l : AnonymityLayer) : Prop := {
  li_forward : forall v a, al_voter_mappings l !! v = Some a ->
    exists info, al_anonymous_mappings l !! a = Some info /\ mi_original_voter_id info = v;
  li_backward : forall a info, al_anonymous_mappings l !! a = Some info ->
    mi_anonymous_id info = a /\ al_voter_mappings l !! mi_original_voter_id info = Some a /\
    a = AnonymousId_from_voter_id (mi_original_voter_id info) (mi_salt info) /\
    pseudonym_input (mi_original_voter_id info) (mi_salt info) ∈ D;
  li_size : size (al_voter_mappings l) = size (al_anonymous_mappings l)
}.

Lemma layer_inv_weaken D D' l : D ⊆ D' -> layer_inv D l -> layer_inv D' l.
Proof.
  intros Hs [Hf Hb Hn]. split; [done| |done]. intros a info Ha.
  destruct (Hb _ _ Ha) as (? & ? & ? & ?). split_and!; try done. by apply Hs.
Qed.

Lemma anonymize_known salt now v l a :
  al_voter_mappings l !! v = Some a -> anonymize_voter salt now v l = (Ok a, l).
Proof. intros E. unfold anonymize_voter. unfold_st. by rewrite E. Qed.

Lemma layer_call_inv D l salt now v :
  let D' := D ++ [pseudonym_input v (array_list salt)] in
  no_collision D' D' -> layer_inv D l -> layer_inv D' (layer_call l (salt, now, v)).
Proof.
  intros D' Hnc Hi. apply (layer_inv_weaken D D') in Hi; [|set_solver].
  destruct (al_voter_mappings l !! v) as [a|] eqn:Ev.
  { unfold layer_call. by rewrite (anonymize_known _ _ _ _ _ Ev). }
  set (a := AnonymousId_from_voter_id v (array_list salt)).
  destruct (al_anonymous_mappings l !! a) as [info|] eqn:Ea.
  { exfalso. destruct (li_backward _ _ Hi _ _ Ea) as (_ & Hv & Hh & Hd).
    unfold a in Hh. rewrite !from_voter_id_input in Hh. injection Hh as Hh.
    apply Hnc in Hh; [|set_solver..]. apply pseudonym_input_inj in Hh as [-> _]. congruence. }
  unfold layer_call, anonymize_voter. unfold_st. rewrite Ev. cbn. fold a.
  destruct Hi as [Hf Hb Hn]. split; cbn.
  - intros w b. rewrite lookup_insert_Some. intros [[<- <-]|[Hw Hl]].
    { eexists. rewrite lookup_insert_eq. split; [done|]. done. }
    destruct (Hf _ _ Hl) as (info & Hi & <-). exists info.
    rewrite lookup_insert_ne; [done|]. intros <-. congruence.
  - intros b info. rewrite lookup_insert_Some. intros [[<- <-]|[Hab Hl]]; cbn.
    { rewrite lookup_insert_eq. split_and!; try done. set_solver. }
    destruct (Hb _ _ Hl) as (? & Hv & ? & ?). split_and!; try done.
    rewrite lookup_insert_ne; [done|]. intros E. rewrite <- E in Hv. congruence.
  - rewrite !map_size_insert_None by done. by rewrite Hn.
Qed.

Lemma layer_calls_inv calls e n :
  no_collision (layer_inputs calls) (layer_inputs calls) ->
  layer_inv (layer_inputs calls) (foldl layer_call (AnonymityLayer_new e n) calls).
Proof.
  induction calls as [|[[salt now] v] calls IH] using rev_ind; intros Hnc; [by split|].
  rewrite foldl_snoc. unfold layer_inputs in *. rewrite fmap_app in *. cbn [fmap list_fmap] in *.
  apply layer_call_inv; [done|]. apply IH. eapply no_collision_mono; [..|exact Hnc]; set_solver.
Qed.

Lemma layer_calls_voters calls l v :
  is_Some (al_voter_mappings (foldl layer_call l calls) !! v) <->
  v ∈ calls.*2 \/ is_Some (al_voter_mappings l !! v).
Proof.
  revert l. induction calls as [|[[salt now] w] calls IH]; intros l; cbn; [set_solver|].
  rewrite IH. unfold layer_call, anonymize_voter. unfold_st.
  destruct (al_voter_mappings l !! w) as [a|] eqn:E; cbn.
  - split; [set_solver|]. intros [[->|]%elem_of_cons|]; [|tauto..]. right. by rewrite E.
  - destruct (decide (v = w)) as [->|Hne].
    + rewrite lookup_insert_eq. split; [set_solver|]. intros _. right. done.
    + rewrite lookup_insert_ne by done. set_solver.
Qed.

(** After any calls of anonymize_voter, in which no two different hashed inputs
    collide, exactly the voters of the calls are anonymized, different voters have
    different pseudonyms, the mixing record of a pseudonym is that of its voter and
    reproduces the pseudonym from its salt, there are as many records as anonymized
    voters, and a repeated call returns the old pseudonym and changes nothing. *)
Theorem layer_pseudonyms (calls : list LayerCall) (e : ElectionId) (n : Z) :
  no_collision (layer_inputs calls) (layer_inputs calls) ->
  let l := foldl layer_call (AnonymityLayer_new e n) calls in
  (forall v, is_anonymized l v = true <-> v ∈ calls.*2) /\
  (forall v w a, get_anonymous_id l v = Some a -> get_anonymous_id l w = Some a -> v = w) /\
  (forall v a, get_anonymous_id l v = Some a -> exists info,
     al_anonymous_mappings l !! a = Some info /\ mi_original_voter_id info = v /\
     AnonymousId_from_voter_id v (mi_salt info) = a) /\
  anonymized_count l = Z.of_nat (size (al_anonymous_mappings l)) /\
  (forall salt now v a, get_anonymous_id l v = Some a -> anonymize_voter salt now v l = (Ok a, l)).
Proof.
  intros Hnc l. pose proof (layer_calls_inv calls e n Hnc) as Hi. fold l in Hi.
  unfold get_anonymous_id. split_and!.
  - intros v. unfold is_anonymized. rewrite bool_decide_eq_true. unfold l.
    rewrite layer_calls_voters. cbn. rewrite lookup_empty. split; [|tauto].
    intros [?|[? ?]]; done.
  - intros v w a (i & Hi1 & <-)%(li_forward _ _ Hi) (j & Hj & <-)%(li_forward _ _ Hi). congruence.
  - intros v a (info & Ha & <-)%(li_forward _ _ Hi). exists info.
    destruct (li_backward _ _ Hi _ _ Ha) as (_ & _ & E & _). done.
  - unfold anonymized_count. by rewrite (li_size _ _ Hi).
  - intros salt now v a. apply anonymize_known.
Qed.

(** ** The anonymizer uses each key once per cycle *)
Inductive anonymizer_step : VoterAnonymizer -> VoterAnonymizer -> Prop :=
| astep_ballot nonce ballot a r a' : anonymize_ballot nonce ballot a = (r, a') -> anonymizer_step a a'
| astep_reset a : anonymizer_step a (anonymizer_reset a).

Definition anonymizer_ok (keys : list (array 32)) (a : VoterAnonymizer) : Prop :=
  va_anonymization_keys a = keys /\ 0 <= va_current_round a <= len keys.

Lemma anonymize_ballot_eq keys nonce ballot a :
  len keys < 2 ^ 64 -> anonymizer_ok keys a ->
  anonymize_ballot nonce ballot a =
    match keys !! Z.to_nat (va_current_round a) with
    | None => (Err (CryptoError "All anonymization rounds completed"), a)
    | Some key =>
        match data ← ballot_serialize ballot; encrypt nonce data key with
        | Ok d => (Ok d, mkVoterAnonymizer keys (va_current_round a + 1))
        | Err e => (Err e, a)
        | Panic => (Panic, a)
        end
    end.
Proof.
  intros Hlen [<- Hr]. unfold anonymize_ballot. unfold_st.
  destruct (Z.leb_spec (len (va_anonymization_keys a)) (va_current_round a)) as [Hge|Hlt]; cbn.
  - rewrite lookup_ge_None_2; [done|]. unfold len in *. lia.
  - destruct (va_anonymization_keys a !! Z.to_nat (va_current_round a)) as [key|] eqn:E; cbn.
    + destruct (ballot_serialize ballot) as [data| |]; cbn; [|done..].
      destruct (encrypt _ _ _); cbn; [|done..]. rewrite u64_add_small by lia. done.
    + apply lookup_ge_None_1 in E. unfold len in *. lia.
Qed.

Lemma anonymizer_reachable keys a :
  len keys < 2 ^ 64 -> rtc anonymizer_step (VoterAnonymizer_new keys) a -> anonymizer_ok keys a.
Proof.
  intros Hlen. apply rtc_invariant.
  2:{ split; [done|]. cbn. pose proof (len_nonneg keys). lia. }
  intros b c Hbc Hb. destruct Hbc as [nonce ballot b r c E|b].
  - rewrite (anonymize_ballot_eq _ _ _ _ Hlen Hb) in E.
    destruct (keys !! Z.to_nat (va_current_round b)) as [key|] eqn:Ek; [|by injection E as _ <-].
    destruct (_ ← _; _); injection E as _ <-; [|done..]. destruct Hb as [Hk Hr].
    split; [done|]. cbn. apply lookup_lt_Some in Ek. unfold len in *. lia.
  - destruct Hb as [Hk Hr]. split; [done|]. cbn. lia.
Qed.

(** Whatever ballots were anonymized and however often the anonymizer was reset,
    the keys are the initial ones and the round never exceeds their number: a ballot is
    refused exactly after the last round, an accepted one advances the round by one and
    decrypts, under the key of its round, to the ballot, and a refused one leaves the state
    unchanged; a panic is one of the serialization. *)
Theorem anonymizer_rounds `{!AeadSpec} (keys : list (array 32)) (a : VoterAnonymizer)
    (nonce : array 12) (ballot : Ballot) :
  len keys < 2 ^ 64 -> rtc anonymizer_step (VoterAnonymizer_new keys) a ->
  total_rounds a = len keys /\ 0 <= current_round a <= total_rounds a /\
  match anonymize_ballot nonce ballot a with
  | (Ok d, a') =>
      current_round a < total_rounds a /\ current_round a' = current_round a + 1 /\
      exists key data, keys !! Z.to_nat (current_round a) = Some key /\
        ballot_serialize ballot = Ok data /\ decrypt d key = Ok data
  | (Err e, a') =>
      a' = a /\ (current_round a = total_rounds a \/
                 exists key data, keys !! Z.to_nat (current_round a) = Some key /\
                   ballot_serialize ballot = Ok data /\ encrypt nonce data key = Err e)
  | (Panic, a') => a' = a /\ ballot_serialize ballot = Panic
  end.
Proof.
  intros Hlen Hs. pose proof (anonymizer_reachable _ _ Hlen Hs) as Ha.
  rewrite (anonymize_ballot_eq _ _ _ _ Hlen Ha). destruct Ha as [Hk Hr].
  unfold total_rounds, current_round. rewrite Hk. split_and!; [done|lia|lia|].
  destruct (keys !! Z.to_nat (va_current_round a)) as [key|] eqn:Ek.
  - destruct (ballot_serialize ballot) as [data|e|] eqn:Es; cbn; [|unfold ballot_serialize in Es; by destruct (bincode_ballot ballot)|done].
    destruct (encrypt nonce _ key) as [d|e|] eqn:Ee; cbn.
    + apply lookup_lt_Some in Ek as Hlt. split_and!; [unfold len; lia|done|].
      exists key, data. split; [done|]. split; [done|]. unfold encrypt in Ee. unfold decrypt.
      destruct (aead_encrypt _ _ _) eqn:E; [|done]. injection Ee as <-. cbn.
      by rewrite (aead_decrypt_encrypt _ _ _ _ E).
    + split; [done|]. right. by exists key, data.
    + unfold encrypt in Ee. by destruct (aead_encrypt _ _ _).
  - split; [done|]. left. apply lookup_ge_None_1 in Ek. unfold len in *. lia.
Qed.

(** ** The mix network neither loses nor invents votes *)
Inductive MixOp :=
| MixAdd (random : array 32) (now : Z) (encrypted_ballot : EncryptedData)
| MixShuffle (seed : nat).

Definition mix_op (m : MixNetwork) (op : MixOp) : MixNetwork :=
  match op with
  | MixAdd random now data => snd (mix_add_vote random now data m)
  | MixShuffle seed => snd (mix_shuffle seed m)
  end.

Definition mix_added (ops : list MixOp) : list (array 32 * EncryptedData) :=
  omap (fun op => match op with MixAdd random _ data => Some (random, data) | MixShuffle _ => None end) ops.

Definition vote_pair (v : ShuffledVote) : array 32 * EncryptedData := (sv_vote_id v, sv_encrypted_data v).

Lemma mix_ops_perm `{!ShuffleSpec} ops m :
  vote_pair <$> mx_shuffled_votes (foldl mix_op m ops) ≡ₚ (vote_pair <$> mx_shuffled_votes m) ++ mix_added ops.
Proof.
  revert m. induction ops as [|[random now data|seed] ops IH]; intros m; cbn.
  - by rewrite app_nil_r.
  - rewrite IH. unfold mix_add_vote. unfold_st. rewrite fmap_app, <- app_assoc. done.
  - rewrite IH. unfold mix_shuffle. unfold_st. by rewrite rand_shuffle_perm.
Qed.

(** Whatever votes are added and however often the network shuffles, the mixed
    votes are a rearrangement of exactly the added ones, each with its identifier, and
    the count is the number of votes added. *)
Theorem mix_network_preserves_votes `{!ShuffleSpec} (e : ElectionId) (randoms : list (array 32))
    (ops : list MixOp) :
  let m := foldl mix_op (MixNetwork_new e randoms) ops in
  vote_pair <$> get_shuffled_votes m ≡ₚ mix_added ops /\
  mix_vote_count m = len (mix_added ops) /\ mix_node_count m = len randoms.
Proof.
  intros m. pose proof (mix_ops_perm ops (MixNetwork_new e randoms)) as Hp. cbn in Hp.
  split_and!; [exact Hp| |].
  - unfold mix_vote_count, len. apply Permutation_length in Hp. rewrite length_fmap in Hp.
    by rewrite <- Hp.
  - assert (mx_mix_nodes m = mx_mix_nodes (MixNetwork_new e randoms)) as E.
    { unfold m. generalize (MixNetwork_new e randoms). clear Hp m.
      induction ops as [|[] ops IH]; intros m; [done|..]; cbn; by rewrite IH. }
    unfold mix_node_count. rewrite E. unfold len. cbn. by rewrite length_imap.
Qed.

(** ** Anonymity proofs, ring signatures, metrics *)

(** A generated anonymity proof verifies; but verification only looks at the
    lengths, so a proof that verifies for one identifier and election verifies for
    every other one. *)
Theorem anonymity_proof_not_bound (timestamp : Z) (randomness : list byte)
    (id id' : AnonymousId) (election election' : ElectionId) (p : AnonymityProof) :
  AnonymityProof_generate timestamp randomness id election = Ok p ->
  AnonymityProof_verify p id election = Ok tt /\ AnonymityProof_verify p id' election' = Ok tt.
Proof.
  intros [= <-]. unfold AnonymityProof_verify. cbn [ap_proof_commitment ap_proof_response].
  assert (forall h : array 32, array_list h <> []) as Hne.
  { intros h E. pose proof (length_array_list h). by rewrite E in *. }
  rewrite !bool_decide_false by (intros E; eapply Hne, E). unfold len. rewrite length_array_list. done.
Qed.

Lemma ring_verify_loop_spec msg sig members :
  ring_verify_loop msg sig members = Ok (existsb (fun k => is_ok (verify_signature msg sig k)) members).
Proof. induction members as [|k ks IH]; cbn; [done|]. by destruct (is_ok _). Qed.

(** A ring signature verifies exactly when the signature verifies under some member
    of the ring; a signature made by a member verifies; and its key image singles out
    the signer: without a hash collision among the members' keys, the members whose
    hashed key is the key image are the copies of the signer's key. *)
Theorem ring_signature_reveals_signer `{!Ed25519Spec} (msg : list byte) (private : array 32)
    (ring : list PublicKey) (r : RingSignature) :
  let kp := KeyPair_from_private_key private in
  let key_bytes k := array_list (public_key_bytes k) in
  ring_sign msg kp ring = Ok r -> kp_public kp ∈ ring ->
  no_collision (key_bytes <$> ring) (key_bytes <$> ring) ->
  (forall m, ring_verify r m = Ok (existsb (fun k => is_ok (verify_signature m (rs_signature r) k)) ring)) /\
  ring_verify r msg = Ok true /\
  (forall k, k ∈ ring -> array_list (hash_blake2b (key_bytes k)) = rs_key_image r <-> k = kp_public kp).
Proof.
  intros kp key_bytes Hs Hin Hnc. unfold ring_sign in Hs.
  destruct (bool_decide (ring = [])) eqn:Ering; [done|]. cbn in Hs. injection Hs as <-.
  assert (forall m sig image, ring_verify (mkRingSignature ring sig image) m =
    Ok (existsb (fun k => is_ok (verify_signature m sig k)) ring)) as Hv.
  { intros m sig image. unfold ring_verify. cbn. rewrite Ering. apply ring_verify_loop_spec. }
  split_and!; [intros; apply Hv| |].
  - rewrite Hv. f_equal. apply existsb_exists. exists (kp_public kp).
    split; [by apply list_elem_of_In|]. unfold verify_signature. cbn.
    by rewrite ed_public_valid, ed_sign_verify.
  - intros k Hk. cbn. split; [|by intros ->].
    intros E. apply array_list_inj, (Hnc (key_bytes k) (key_bytes (kp_public kp))) in E;
      [|by apply list_elem_of_fmap_2..].
    apply array_list_inj in E. destruct k. cbn in *. by subst.
Qed.
End anonymity.
