(* ===== verification/Cache.v ===== *)
(** * The storage cache: crates/storage/src/cache.rs

    Four least-recently-used caches behind one interface.  The crate [lru] is the class
    [LruCrate]: [lru_items] is its iterator, most recently used entry first, and
    [LruSpec] states the documented effect of every operation on it.  The locks are
    taken and released within each method, so a method is one step on the record. *)
From stdpp Require Import prelude gmap strings list.
From Stdlib Require Import Strings.Byte.
From S2P Require Import Prelude Floats64 Types.

Local Open Scope Z_scope.

(** ** The crate [lru] *)

(** The value of a key in a list of entries, and the entries of other keys. *)
Fixpoint assoc {K V} `{EqDecision K} (k : K) (l : list (K * V)) : option V :=
  match l with
  | [] => None
  | (k', v) :: l' => if bool_decide (k = k') then Some v else assoc k l'
  end.
Definition without {K V} `{EqDecision K} (k : K) (l : list (K * V)) : list (K * V) :=
  filter (fun kv => k <> kv.1) l.
Arguments without : simpl never.

Class LruCrate := {
  LruCache : Type -> Type -> Type;
  lru_new : forall K V, Z -> LruCache K V;
  lru_put : forall K V, EqDecision K -> K -> V -> LruCache K V -> LruCache K V;
  lru_get : forall K V, EqDecision K -> K -> LruCache K V -> option V * LruCache K V;
  lru_peek : forall K V, EqDecision K -> K -> LruCache K V -> option V;
  lru_contains : forall K V, EqDecision K -> K -> LruCache K V -> bool;
  lru_pop : forall K V, EqDecision K -> K -> LruCache K V -> option V * LruCache K V;
  lru_clear : forall K V, LruCache K V -> LruCache K V;
  lru_resize : forall K V, Z -> LruCache K V -> LruCache K V;
  lru_len : forall K V, LruCache K V -> Z;
  lru_cap : forall K V, LruCache K V -> Z;
  lru_items : forall K V, LruCache K V -> list (K * V)
}.
Arguments lru_new {_ K V} cap.
Arguments lru_put {_ K V _} k v c.
Arguments lru_get {_ K V _} k c.
Arguments lru_peek {_ K V _} k c.
Arguments lru_contains {_ K V _} k c.
Arguments lru_pop {_ K V _} k c.
Arguments lru_clear {_ K V} c.
Arguments lru_resize {_ K V} cap c.
Arguments lru_len {_ K V} c.
Arguments lru_cap {_ K V} c.
Arguments lru_items {_ K V} c.

(** Documented: [put] makes the entry the most recent one and evicts the least recent
    one when the capacity is exceeded; [get] makes a present entry the most recent one;
    [peek], [contains] and [len] do not change the cache; [pop] removes; [resize] evicts
    the least recent entries that do not fit. *)
Class LruSpec `{LruCrate} := {
  lru_new_items : forall K V c, lru_items (lru_new c : LruCache K V) = [];
  lru_new_cap : forall K V c, lru_cap (lru_new c : LruCache K V) = c;
  lru_put_items : forall K V `{EqDecision K} k v (c : LruCache K V),
    lru_items (lru_put k v c) = take (Z.to_nat (lru_cap c)) ((k, v) :: without k (lru_items c));
  lru_put_cap : forall K V `{EqDecision K} k v (c : LruCache K V), lru_cap (lru_put k v c) = lru_cap c;
  lru_get_result : forall K V `{EqDecision K} k (c : LruCache K V), (lru_get k c).1 = assoc k (lru_items c);
  lru_get_items : forall K V `{EqDecision K} k (c : LruCache K V),
    lru_items (lru_get k c).2 =
      match assoc k (lru_items c) with
      | Some v => (k, v) :: without k (lru_items c)
      | None => lru_items c
      end;
  lru_get_cap : forall K V `{EqDecision K} k (c : LruCache K V), lru_cap (lru_get k c).2 = lru_cap c;
  lru_peek_result : forall K V `{EqDecision K} k (c : LruCache K V), lru_peek k c = assoc k (lru_items c);
  lru_contains_result : forall K V `{EqDecision K} k (c : LruCache K V),
    lru_contains k c = bool_decide (is_Some (assoc k (lru_items c)));
  lru_pop_items : forall K V `{EqDecision K} k (c : LruCache K V),
    lru_items (lru_pop k c).2 = without k (lru_items c);
  lru_pop_result : forall K V `{EqDecision K} k (c : LruCache K V), (lru_pop k c).1 = assoc k (lru_items c);
  lru_pop_cap : forall K V `{EqDecision K} k (c : LruCache K V), lru_cap (lru_pop k c).2 = lru_cap c;
  lru_clear_items : forall K V (c : LruCache K V), lru_items (lru_clear c) = [];
  lru_clear_cap : forall K V (c : LruCache K V), lru_cap (lru_clear c) = lru_cap c;
  lru_resize_items : forall K V n (c : LruCache K V), lru_items (lru_resize n c) = take (Z.to_nat n) (lru_items c);
  lru_resize_cap : forall K V n (c : LruCache K V), lru_cap (lru_resize n c) = n;
  lru_len_items : forall K V (c : LruCache K V), lru_len c = len (lru_items c)
}.

(** ** Data *)
Record CacheStats := mkCacheStats {
  cst_block_count : Z;
  cst_block_capacity : Z;
  cst_height_count : Z;
  cst_height_capacity : Z;
  cst_tx_count : Z;
  cst_tx_capacity : Z;
  cst_state_count : Z;
  cst_state_capacity : Z
}.

Section cache.
Context `{LruCrate}.

Record Cache := mkCache {
  ca_block_cache : LruCache BlockHash (list byte);
  ca_height_cache : LruCache Z BlockHash;
  ca_tx_cache : LruCache TxId (list byte);
  ca_state_cache : LruCache (list byte) (list byte)
}.

(** [NonZeroUsize::new(n).ok_or_else(..)]. *)
Definition non_zero (n : Z) (msg : string) : VResult Z :=
  ok_or (if n =? 0 then None else Some n) (StorageError msg).

Definition Cache_new (block_capacity tx_capacity state_capacity : Z) : VResult Cache :=
  block_size ← non_zero block_capacity "Block cache capacity must be > 0";
  tx_size ← non_zero tx_capacity "TX cache capacity must be > 0";
  state_size ← non_zero state_capacity "State cache capacity must be > 0";
  Ok (mkCache (lru_new block_size) (lru_new block_size) (lru_new tx_size) (lru_new state_size)).

(** [.expect(..)]: an error aborts. *)
Definition Cache_with_defaults : VResult Cache :=
  match Cache_new 1000 5000 2000 with Ok c => Ok c | _ => Panic end.

(** ** Updates of one of the four caches *)
Definition with_block (f : LruCache BlockHash (list byte) -> LruCache BlockHash (list byte)) (c : Cache) : Cache :=
  mkCache (f (ca_block_cache c)) (ca_height_cache c) (ca_tx_cache c) (ca_state_cache c).
Definition with_height (f : LruCache Z BlockHash -> LruCache Z BlockHash) (c : Cache) : Cache :=
  mkCache (ca_block_cache c) (f (ca_height_cache c)) (ca_tx_cache c) (ca_state_cache c).
Definition with_tx (f : LruCache TxId (list byte) -> LruCache TxId (list byte)) (c : Cache) : Cache :=
  mkCache (ca_block_cache c) (ca_height_cache c) (f (ca_tx_cache c)) (ca_state_cache c).
Definition with_state (f : LruCache (list byte) (list byte) -> LruCache (list byte) (list byte)) (c : Cache) : Cache :=
  mkCache (ca_block_cache c) (ca_height_cache c) (ca_tx_cache c) (f (ca_state_cache c)).

(** ** Operations.  A lookup moves the entry to the front, so it returns the new cache. *)
Definition put_block (hash : BlockHash) (height : Z) (data : list byte) (c : Cache) : Cache :=
  with_height (lru_put height hash) (with_block (lru_put hash data) c).

Definition cache_get_block (hash : BlockHash) (c : Cache) : option (list byte) * Cache :=
  let '(r, b) := lru_get hash (ca_block_cache c) in (r, with_block (fun _ => b) c).

Definition get_block_hash_by_height (height : Z) (c : Cache) : option BlockHash * Cache :=
  let '(r, h) := lru_get height (ca_height_cache c) in (r, with_height (fun _ => h) c).

Definition cache_get_block_by_height (height : Z) (c : Cache) : option (list byte) * Cache :=
  match get_block_hash_by_height height c with
  | (Some hash, c') => cache_get_block hash c'
  | (None, c') => (None, c')
  end.

Definition put_transaction (tx_id : TxId) (data : list byte) (c : Cache) : Cache := with_tx (lru_put tx_id data) c.
Definition cache_get_transaction (tx_id : TxId) (c : Cache) : option (list byte) * Cache :=
  let '(r, t) := lru_get tx_id (ca_tx_cache c) in (r, with_tx (fun _ => t) c).
Definition put_state (key value : list byte) (c : Cache) : Cache := with_state (lru_put key value) c.
Definition cache_get_state (key : list byte) (c : Cache) : option (list byte) * Cache :=
  let '(r, s) := lru_get key (ca_state_cache c) in (r, with_state (fun _ => s) c).

Definition remove_block (hash : BlockHash) (c : Cache) : Cache := with_block (fun b => (lru_pop hash b).2) c.

Definition remove_block_by_height (height : Z) (c : Cache) : Cache :=
  let '(r, h) := lru_pop height (ca_height_cache c) in
  let c' := with_height (fun _ => h) c in
  match r with
  | Some hash => with_block (fun b => (lru_pop hash b).2) c'
  | None => c'
  end.

Definition remove_transaction (tx_id : TxId) (c : Cache) : Cache := with_tx (fun t => (lru_pop tx_id t).2) c.
Definition remove_state (key : list byte) (c : Cache) : Cache := with_state (fun s => (lru_pop key s).2) c.

Definition clear_blocks (c : Cache) : Cache := with_height lru_clear (with_block lru_clear c).
Definition clear_transactions (c : Cache) : Cache := with_tx lru_clear c.
Definition clear_state (c : Cache) : Cache := with_state lru_clear c.
Definition clear_all (c : Cache) : Cache :=
  with_state lru_clear (with_tx lru_clear (with_height lru_clear (with_block lru_clear c))).

Definition cache_get_stats (c : Cache) : CacheStats :=
  mkCacheStats (lru_len (ca_block_cache c)) (lru_cap (ca_block_cache c))
    (lru_len (ca_height_cache c)) (lru_cap (ca_height_cache c))
    (lru_len (ca_tx_cache c)) (lru_cap (ca_tx_cache c))
    (lru_len (ca_state_cache c)) (lru_cap (ca_state_cache c)).

Definition calculate_hit_rate (hits misses : Z) : f64 :=
  let total := u64_add hits misses in
  if total =? 0 then f64_zero else f64_div (f64_of_Z hits) (f64_of_Z total).

Definition contains_block (c : Cache) (hash : BlockHash) : bool := lru_contains hash (ca_block_cache c).
Definition cache_contains_transaction (c : Cache) (tx_id : TxId) : bool := lru_contains tx_id (ca_tx_cache c).
Definition contains_state (c : Cache) (key : list byte) : bool := lru_contains key (ca_state_cache c).
Definition peek_block (c : Cache) (hash : BlockHash) : option (list byte) := lru_peek hash (ca_block_cache c).
Definition peek_transaction (c : Cache) (tx_id : TxId) : option (list byte) := lru_peek tx_id (ca_tx_cache c).
Definition peek_state (c : Cache) (key : list byte) : option (list byte) := lru_peek key (ca_state_cache c).

Definition resize_block_cache (new_capacity : Z) : VStM Cache unit :=
  new_size ← lift (non_zero new_capacity "Capacity must be > 0");
  modify (fun c => with_height (lru_resize new_size) (with_block (lru_resize new_size) c)).
Definition resize_tx_cache (new_capacity : Z) : VStM Cache unit :=
  new_size ← lift (non_zero new_capacity "Capacity must be > 0");
  modify (with_tx (lru_resize new_size)).
Definition resize_state_cache (new_capacity : Z) : VStM Cache unit :=
  new_size ← lift (non_zero new_capacity "Capacity must be > 0");
  modify (with_state (lru_resize new_size)).
End cache.

(** ** Statistics *)
Definition usage_percent (count capacity : Z) : f64 :=
  if capacity =? 0 then f64_zero
  else f64_mul (f64_div (f64_of_Z count) (f64_of_Z capacity)) f64_hundred.
Definition block_usage_percent (s : CacheStats) : f64 := usage_percent (cst_block_count s) (cst_block_capacity s).
Definition tx_usage_percent (s : CacheStats) : f64 := usage_percent (cst_tx_count s) (cst_tx_capacity s).
Definition state_usage_percent (s : CacheStats) : f64 := usage_percent (cst_state_count s) (cst_state_capacity s).
Definition total_items (s : CacheStats) : Z :=
  u64_add (u64_add (cst_block_count s) (cst_tx_count s)) (cst_state_count s).
Definition total_capacity (s : CacheStats) : Z :=
  u64_add (u64_add (cst_block_capacity s) (cst_tx_capacity s)) (cst_state_capacity s).

(** ** Entries of an LRU cache *)
Section entries.
Context {K V : Type} `{EqDecision K}.
Implicit Types (l : list (K * V)) (k : K) (v : V).

Lemma without_elem k l kv : kv ∈ without k l <-> kv ∈ l /\ kv.1 <> k.
Proof. unfold without. rewrite list_elem_of_filter. naive_solver. Qed.

Lemma without_cons k x v l :
  without k ((x, v) :: l) = if bool_decide (k = x) then without k l else (x, v) :: without k l.
Proof. unfold without. rewrite filter_cons. cbn. case_decide; case_bool_decide; done. Qed.

Lemma without_fresh k l : k ∉ l.*1 -> without k l = l.
Proof.
  induction l as [|[x v] l IH]; cbn; [done|]. intros [Hx Hl]%not_elem_of_cons.
  rewrite without_cons, bool_decide_false by done. f_equal. by apply IH.
Qed.

Lemma without_keys k l : (without k l).*1 ⊆ l.*1.
Proof.
  intros x [[y v] [-> Hy]]%list_elem_of_fmap. apply without_elem in Hy as [Hy _].
  by eapply (list_elem_of_fmap_2 fst) in Hy.
Qed.

Lemma without_not_key k l : k ∉ (without k l).*1.
Proof. intros [[y v] [-> Hy]]%list_elem_of_fmap. apply without_elem in Hy as [_ Hy]. done. Qed.

Lemma without_nodup k l : NoDup l.*1 -> NoDup (without k l).*1.
Proof.
  induction l as [|[x v] l IH]; cbn; [done|]. intros [Hx Hl]%NoDup_cons. rewrite without_cons.
  case_bool_decide; [by apply IH|]. cbn. apply NoDup_cons. split; [|by apply IH].
  intros Hin. apply Hx. by apply (without_keys k).
Qed.

Lemma without_length k l : (length (without k l) <= length l)%nat.
Proof. apply length_filter. Qed.

Lemma assoc_Some_elem k v l : assoc k l = Some v -> (k, v) ∈ l.
Proof.
  induction l as [|[x w] l IH]; cbn; [done|]. case_bool_decide as E; [intros [= ->]; subst; left|].
  intros Hl. right. by apply IH.
Qed.

Lemma assoc_is_Some k l : is_Some (assoc k l) <-> k ∈ l.*1.
Proof.
  split.
  - intros [v Hv%assoc_Some_elem]. by eapply (list_elem_of_fmap_2 fst) in Hv.
  - induction l as [|[x w] l IH]; cbn; [by intros ?%not_elem_of_nil|].
    case_bool_decide as E; [done|]. intros [?|?]%elem_of_cons; [done|auto].
Qed.

Lemma assoc_without k j l : assoc j (without k l) = if bool_decide (k = j) then None else assoc j l.
Proof.
  induction l as [|[x v] l IH]; cbn; [by case_bool_decide|]. rewrite without_cons.
  repeat (case_bool_decide; cbn; rewrite ?IH); congruence.
Qed.

Lemma assoc_take k v n l : assoc k (take n l) = Some v -> assoc k l = Some v.
Proof.
  revert n. induction l as [|[x w] l IH]; intros [|n]; cbn; try done.
  case_bool_decide; [done|]. apply IH.
Qed.

(** Making a present entry the first one keeps the number of entries. *)
Lemma without_length_present k l :
  NoDup l.*1 -> k ∈ l.*1 -> S (length (without k l)) = length l.
Proof.
  induction l as [|[x v] l IH]; cbn; [by intros _ ?%not_elem_of_nil|].
  intros [Hx Hl]%NoDup_cons Hk. rewrite without_cons. case_bool_decide as E; cbn.
  - subst. by rewrite without_fresh.
  - rewrite IH; [done..|]. by apply elem_of_cons in Hk as [?|?].
Qed.

Lemma assoc_Some_take k v n l :
  assoc k l = Some v -> (length l <= n)%nat -> assoc k (take n l) = Some v.
Proof. intros. by rewrite take_ge. Qed.
End entries.

Section lru_facts.
Context `{LruSpec} {K V : Type} `{EqDecision K}.
Implicit Types (c : LruCache K V).

(** No key twice, within a positive capacity. *)
Definition lru_ok c : Prop :=
  NoDup (lru_items c).*1 /\ len (lru_items c) <= lru_cap c /\ 0 < lru_cap c.

Lemma lru_new_ok n : 0 < n -> lru_ok (lru_new n).
Proof. unfold lru_ok. rewrite lru_new_items, lru_new_cap. intros. split_and!; [apply NoDup_nil_2|unfold len; cbn; lia|lia]. Qed.

Lemma take_len {A} (l : list A) n : 0 <= n -> len (take (Z.to_nat n) l) <= n.
Proof. intros. unfold len. rewrite length_take. lia. Qed.

Lemma lru_put_ok k v c : lru_ok c -> lru_ok (lru_put k v c).
Proof.
  intros (Hd & Hl & Hc). unfold lru_ok. rewrite lru_put_items, lru_put_cap. split_and!; [|apply take_len; lia|done].
  rewrite fmap_take. eapply sublist_NoDup; [|apply sublist_take]. cbn.
  apply NoDup_cons. split; [apply without_not_key|by apply without_nodup].
Qed.

Lemma lru_get_ok k c : lru_ok c -> lru_ok (lru_get k c).2.
Proof.
  intros (Hd & Hl & Hc). unfold lru_ok. rewrite lru_get_items, lru_get_cap.
  destruct (assoc k (lru_items c)) as [v|] eqn:E; [|done]. split_and!; [|cbn|done].
  - cbn. apply NoDup_cons. split; [apply without_not_key|by apply without_nodup].
  - assert (k ∈ (lru_items c).*1) as Hk by (apply assoc_is_Some; by rewrite E).
    pose proof (without_length_present k _ Hd Hk). unfold len in *. cbn. lia.
Qed.

Lemma lru_pop_ok k c : lru_ok c -> lru_ok (lru_pop k c).2.
Proof.
  intros (Hd & Hl & Hc). unfold lru_ok. rewrite lru_pop_items, lru_pop_cap.
  pose proof (without_length k (lru_items c)). split_and!; [by apply without_nodup|unfold len in *; lia|done].
Qed.

Lemma lru_clear_ok c : lru_ok c -> lru_ok (lru_clear c).
Proof.
  intros (_ & _ & Hc). unfold lru_ok. rewrite lru_clear_items, lru_clear_cap.
  split_and!; [apply NoDup_nil_2|unfold len; cbn; lia|lia].
Qed.

Lemma lru_resize_ok n c : 0 < n -> lru_ok c -> lru_ok (lru_resize n c).
Proof.
  intros Hn (Hd & _ & _). unfold lru_ok. rewrite lru_resize_items, lru_resize_cap.
  split_and!; [|apply take_len; lia|done]. rewrite fmap_take. eapply sublist_NoDup; [exact Hd|apply sublist_take].
Qed.

(** The cache holds only entries of the map [m]. *)
Context `{Countable K}.
Definition lru_within (m : gmap K V) c : Prop :=
  forall k v, assoc k (lru_items c) = Some v -> m !! k = Some v.

Lemma lru_within_new n : lru_within ∅ (lru_new n).
Proof. intros k v. by rewrite lru_new_items. Qed.

Lemma lru_within_put m k v c : lru_within m c -> lru_within (<[k := v]> m) (lru_put k v c).
Proof.
  intros Hw j w. rewrite lru_put_items. intros Hj%assoc_take. cbn in Hj.
  case_bool_decide as E; [subst; injection Hj as ->; apply lookup_insert_eq|].
  rewrite assoc_without, bool_decide_false in Hj by done. rewrite lookup_insert_ne by done. by apply Hw.
Qed.

Lemma lru_within_get m k c : lru_within m c -> lru_within m (lru_get k c).2.
Proof.
  intros Hw j w. rewrite lru_get_items. destruct (assoc k (lru_items c)) as [v|] eqn:E; [|apply Hw].
  cbn. case_bool_decide as Ej; [subst; intros [= ->]; by apply Hw|].
  rewrite assoc_without, bool_decide_false by done. apply Hw.
Qed.

Lemma lru_within_pop m k c : lru_within m c -> lru_within (delete k m) (lru_pop k c).2.
Proof.
  intros Hw j w. rewrite lru_pop_items, assoc_without. case_bool_decide; [done|].
  intros Hj. rewrite lookup_delete_ne by done. by apply Hw.
Qed.

Lemma lru_within_clear c : lru_within ∅ (lru_clear c).
Proof. intros k v. by rewrite lru_clear_items. Qed.

Lemma lru_within_resize m n c : lru_within m c -> lru_within m (lru_resize n c).
Proof. intros Hw k v. rewrite lru_resize_items. intros ?%assoc_take. by apply Hw. Qed.

(** An entry is among the first [n + 1] after [n] more recent ones. *)
Definition recent (n : nat) k v c : Prop := assoc k (take (S n) (lru_items c)) = Some v.

Lemma put_recent k v c : 0 < lru_cap c -> recent 0 k v (lru_put k v c).
Proof.
  intros Hc. unfold recent. rewrite lru_put_items.
  destruct (Z.to_nat (lru_cap c)) eqn:E; [lia|]. cbn. by rewrite bool_decide_true.
Qed.

Lemma assoc_take_S n k v (l : list (K * V)) :
  assoc k (take n l) = Some v -> assoc k (take (S n) l) = Some v.
Proof.
  revert l. induction n as [|n IH]; intros [|[y u] l]; cbn; try done.
  case_bool_decide; [done|]. intros Hl. apply IH in Hl. by destruct l as [|[z t] l].
Qed.

Lemma assoc_take_without n k j v (l : list (K * V)) :
  j <> k -> assoc k (take n l) = Some v -> assoc k (take n (without j l)) = Some v.
Proof.
  intros Hj. revert n. induction l as [|[x w] l IH]; intros [|n]; cbn; try done.
  rewrite without_cons. destruct (decide (j = x)) as [<-|E].
  - rewrite bool_decide_false, bool_decide_true by done. intros Ha%IH. by apply assoc_take_S.
  - rewrite (bool_decide_false (j = x)) by done. cbn. case_bool_decide; [done|]. apply IH.
Qed.

Lemma recent_put n k v j w c :
  j <> k -> Z.of_nat n + 1 < lru_cap c -> recent n k v c -> recent (S n) k v (lru_put j w c).
Proof.
  intros Hj Hn Hr. unfold recent in *. rewrite lru_put_items, take_take.
  replace (S (S n) `min` Z.to_nat (lru_cap c))%nat with (S (S n)) by lia.
  change (take (S (S n)) ((j, w) :: ?l)) with ((j, w) :: take (S n) l). cbn.
  rewrite bool_decide_false by done. by apply assoc_take_without.
Qed.

Lemma recent_present n k v c : recent n k v c -> assoc k (lru_items c) = Some v.
Proof. apply assoc_take. Qed.
End lru_facts.

(** ** The cache against the map of what was last put *)
Inductive CacheOp :=
| OpPutBlock (hash : BlockHash) (height : Z) (data : list byte)
| OpPutTransaction (tx_id : TxId) (data : list byte)
| OpPutState (key value : list byte)
| OpGetBlock (hash : BlockHash)
| OpGetBlockByHeight (height : Z)
| OpGetTransaction (tx_id : TxId)
| OpGetState (key : list byte)
| OpRemoveBlock (hash : BlockHash)
| OpRemoveBlockByHeight (height : Z)
| OpRemoveTransaction (tx_id : TxId)
| OpRemoveState (key : list byte)
| OpClearBlocks
| OpClearTransactions
| OpClearState
| OpClearAll
| OpResizeBlocks (capacity : Z)
| OpResizeTransactions (capacity : Z)
| OpResizeState (capacity : Z).

(** What was put and not removed since. *)
Record Written := mkWritten {
  wr_blocks : gmap BlockHash (list byte);
  wr_heights : gmap Z BlockHash;
  wr_txs : gmap TxId (list byte);
  wr_state : gmap (list byte) (list byte)
}.

Definition nothing_written : Written := mkWritten ∅ ∅ ∅ ∅.

Section cache_facts.
Context `{LruSpec}.

Definition cache_op (op : CacheOp) (c : Cache) : Cache :=
  match op with
  | OpPutBlock hash height data => put_block hash height data c
  | OpPutTransaction tx_id data => put_transaction tx_id data c
  | OpPutState key value => put_state key value c
  | OpGetBlock hash => (cache_get_block hash c).2
  | OpGetBlockByHeight height => (cache_get_block_by_height height c).2
  | OpGetTransaction tx_id => (cache_get_transaction tx_id c).2
  | OpGetState key => (cache_get_state key c).2
  | OpRemoveBlock hash => remove_block hash c
  | OpRemoveBlockByHeight height => remove_block_by_height height c
  | OpRemoveTransaction tx_id => remove_transaction tx_id c
  | OpRemoveState key => remove_state key c
  | OpClearBlocks => clear_blocks c
  | OpClearTransactions => clear_transactions c
  | OpClearState => clear_state c
  | OpClearAll => clear_all c
  | OpResizeBlocks capacity => (resize_block_cache capacity c).2
  | OpResizeTransactions capacity => (resize_tx_cache capacity c).2
  | OpResizeState capacity => (resize_state_cache capacity c).2
  end.

Definition op_in_range (op : CacheOp) : Prop :=
  match op with
  | OpResizeBlocks n | OpResizeTransactions n | OpResizeState n => 0 <= n
  | _ => True
  end.

(** The effect of an operation on what is written, given the cache it is run on: removing by
    height also removes the block whose hash the cache has for that height.  (When that entry
    has been evicted the height names no block any more.) *)
Definition written_op (c : Cache) (op : CacheOp) (w : Written) : Written :=
  match op with
  | OpPutBlock hash height data =>
      mkWritten (<[hash := data]> (wr_blocks w)) (<[height := hash]> (wr_heights w)) (wr_txs w) (wr_state w)
  | OpPutTransaction tx_id data => mkWritten (wr_blocks w) (wr_heights w) (<[tx_id := data]> (wr_txs w)) (wr_state w)
  | OpPutState key value => mkWritten (wr_blocks w) (wr_heights w) (wr_txs w) (<[key := value]> (wr_state w))
  | OpRemoveBlock hash => mkWritten (delete hash (wr_blocks w)) (wr_heights w) (wr_txs w) (wr_state w)
  | OpRemoveBlockByHeight height =>
      mkWritten (match (get_block_hash_by_height height c).1 with
                 | Some hash => delete hash (wr_blocks w)
                 | None => wr_blocks w
                 end)
        (delete height (wr_heights w)) (wr_txs w) (wr_state w)
  | OpRemoveTransaction tx_id => mkWritten (wr_blocks w) (wr_heights w) (delete tx_id (wr_txs w)) (wr_state w)
  | OpRemoveState key => mkWritten (wr_blocks w) (wr_heights w) (wr_txs w) (delete key (wr_state w))
  | OpClearBlocks => mkWritten ∅ ∅ (wr_txs w) (wr_state w)
  | OpClearTransactions => mkWritten (wr_blocks w) (wr_heights w) ∅ (wr_state w)
  | OpClearState => mkWritten (wr_blocks w) (wr_heights w) (wr_txs w) ∅
  | OpClearAll => nothing_written
  | _ => w
  end.

Record cache_inv (w : Written) (c : Cache) : Prop := {
  cinv_block : lru_ok (ca_block_cache c) /\ lru_within (wr_blocks w) (ca_block_cache c);
  cinv_height : lru_ok (ca_height_cache c) /\ lru_within (wr_heights w) (ca_height_cache c);
  cinv_tx : lru_ok (ca_tx_cache c) /\ lru_within (wr_txs w) (ca_tx_cache c);
  cinv_state : lru_ok (ca_state_cache c) /\ lru_within (wr_state w) (ca_state_cache c)
}.

Hint Resolve lru_put_ok lru_get_ok lru_pop_ok lru_clear_ok lru_within_put lru_within_get
  lru_within_pop lru_within_clear : core.

Lemma resize_inv {K V} `{Countable K} n (m : gmap K V) (c : LruCache K V) :
  0 <= n -> n <> 0 -> lru_ok c -> lru_within m c -> lru_ok (lru_resize n c) /\ lru_within m (lru_resize n c).
Proof. intros ? ? Ho Hw. split; [apply lru_resize_ok; [lia|done]|by apply lru_within_resize]. Qed.

Lemma get_block_by_height_eq height c :
  cache_get_block_by_height height c =
    match assoc height (lru_items (ca_height_cache c)) with
    | Some hash => cache_get_block hash (with_height (fun h => (lru_get height h).2) c)
    | None => (None, with_height (fun h => (lru_get height h).2) c)
    end.
Proof.
  unfold cache_get_block_by_height, get_block_hash_by_height.
  pose proof (lru_get_result _ _ height (ca_height_cache c)) as E.
  destruct (lru_get height (ca_height_cache c)) as [r h] eqn:Eg. cbn in E. rewrite <- E.
  destruct r; unfold with_height; rewrite Eg; done.
Qed.

Lemma cache_get_block_eq hash c :
  cache_get_block hash c =
    (assoc hash (lru_items (ca_block_cache c)), with_block (fun b => (lru_get hash b).2) c).
Proof.
  unfold cache_get_block. rewrite <- lru_get_result. unfold with_block. by destruct (lru_get _ _).
Qed.

Lemma get_block_hash_by_height_eq height c :
  (get_block_hash_by_height height c).1 = assoc height (lru_items (ca_height_cache c)).
Proof. unfold get_block_hash_by_height. rewrite <- lru_get_result. by destruct (lru_get _ _). Qed.

Lemma cache_op_inv op w c : op_in_range op -> cache_inv w c -> cache_inv (written_op c op w) (cache_op op c).
Proof.
  intros Hr [[Hb1 Hb2] [Hh1 Hh2] [Ht1 Ht2] [Hs1 Hs2]].
  destruct op as [hash height data|tx data|k v|hash|height|tx|k|hash|height|tx|k| | | | |n|n|n]; cbn.
  1-3: split; cbn; auto.
  - rewrite cache_get_block_eq. split; cbn; auto.
  - rewrite get_block_by_height_eq. destruct (assoc _ _) as [hash|]; [rewrite cache_get_block_eq|];
      split; cbn; auto.
  - unfold cache_get_transaction. destruct (lru_get tx _) as [r t] eqn:E.
    replace t with (lru_get tx (ca_tx_cache c)).2 by (by rewrite E). split; cbn; auto.
  - unfold cache_get_state. destruct (lru_get k _) as [r t] eqn:E.
    replace t with (lru_get k (ca_state_cache c)).2 by (by rewrite E). split; cbn; auto.
  - split; cbn; auto.
  - rewrite get_block_hash_by_height_eq. unfold remove_block_by_height.
    pose proof (lru_pop_result _ _ height (ca_height_cache c)) as Er.
    destruct (lru_pop height _) as [r h] eqn:E. cbn [fst] in Er. subst r.
    replace h with (lru_pop height (ca_height_cache c)).2 by (by rewrite E).
    destruct (assoc height _); split; cbn; auto.
  - split; cbn; auto.
  - split; cbn; auto.
  - split; cbn; auto.
  - split; cbn; auto.
  - split; cbn; auto.
  - split; cbn; auto.
  - unfold resize_block_cache, non_zero. unfold_st. destruct (Z.eqb_spec n 0); cbn; split; (apply resize_inv || split); auto.
  - unfold resize_tx_cache, non_zero. unfold_st. destruct (Z.eqb_spec n 0); cbn; split; (apply resize_inv || split); auto.
  - unfold resize_state_cache, non_zero. unfold_st. destruct (Z.eqb_spec n 0); cbn; split; (apply resize_inv || split); auto.
Qed.

Fixpoint written_ops (ops : list CacheOp) (c : Cache) (w : Written) : Written :=
  match ops with
  | [] => w
  | op :: ops' => written_ops ops' (cache_op op c) (written_op c op w)
  end.
Definition cache_ops (ops : list CacheOp) (c : Cache) : Cache := foldl (fun c op => cache_op op c) c ops.

Lemma Cache_new_inv b t s c :
  0 <= b -> 0 <= t -> 0 <= s -> Cache_new b t s = Ok c -> cache_inv nothing_written c.
Proof.
  unfold Cache_new, non_zero. intros. destruct (Z.eqb_spec b 0), (Z.eqb_spec t 0), (Z.eqb_spec s 0); try done.
  simplify_eq/=. split; (split; [apply lru_new_ok; lia|apply lru_within_new]).
Qed.

Lemma cache_ops_inv ops w c :
  Forall op_in_range ops -> cache_inv w c ->
  cache_inv (written_ops ops c w) (cache_ops ops c).
Proof.
  intros Hf. revert w c. induction Hf as [|op ops Hop _ IH]; intros w c Hi; cbn; [done|].
  by apply IH, cache_op_inv.
Qed.

(** C27: After any operations on a new cache, the number of entries of each part is within
    its capacity, which is positive, and what a lookup returns is what was last put under
    that key and not removed since: a block by its hash, by its height through the hash
    last put at that height, a transaction, a state value.  A block is removed by its hash,
    by a clear, or by a height the cache still has for it: after such a removal no lookup
    returns it until it is put again. *)
Theorem cache_bounded_and_sound (b t s : Z) (ops : list CacheOp) (c0 : Cache) :
  0 <= b -> 0 <= t -> 0 <= s -> Forall op_in_range ops -> Cache_new b t s = Ok c0 ->
  let c := cache_ops ops c0 in
  let w := written_ops ops c0 nothing_written in
  let st := cache_get_stats c in
  (cst_block_count st <= cst_block_capacity st /\ cst_height_count st <= cst_height_capacity st /\
   cst_tx_count st <= cst_tx_capacity st /\ cst_state_count st <= cst_state_capacity st) /\
  (0 < cst_block_capacity st /\ 0 < cst_tx_capacity st /\ 0 < cst_state_capacity st) /\
  (forall h d, (cache_get_block h c).1 = Some d -> wr_blocks w !! h = Some d) /\
  (forall n d, (cache_get_block_by_height n c).1 = Some d -> exists h,
     wr_heights w !! n = Some h /\ wr_blocks w !! h = Some d) /\
  (forall i d, peek_transaction c i = Some d -> wr_txs w !! i = Some d) /\
  (forall k v, peek_state c k = Some v -> wr_state w !! k = Some v).
Proof.
  intros Hb Ht Hs Hf Hn c w st. pose proof (Cache_new_inv _ _ _ _ Hb Ht Hs Hn) as Hi0.
  pose proof (cache_ops_inv ops _ _ Hf Hi0) as [[Hb1 Hb2] [Hh1 Hh2] [Ht1 Ht2] [Hs1 Hs2]].
  fold c in Hb1, Hh1, Ht1, Hs1, Hb2, Hh2, Ht2, Hs2. fold w in Hb2, Hh2, Ht2, Hs2.
  destruct Hb1 as (_ & ? & ?), Hh1 as (_ & ? & ?), Ht1 as (_ & ? & ?), Hs1 as (_ & ? & ?).
  unfold st. cbn. rewrite !lru_len_items. split_and!; try done.
  - intros h d. rewrite cache_get_block_eq. apply Hb2.
  - intros n d. rewrite get_block_by_height_eq.
    destruct (assoc n _) as [h|] eqn:E; [|done]. rewrite cache_get_block_eq. cbn.
    intros Hd. exists h. split; [by apply Hh2|by apply Hb2].
  - intros i d. unfold peek_transaction. rewrite lru_peek_result. apply Ht2.
  - intros k v. unfold peek_state. rewrite lru_peek_result. apply Hs2.
Qed.

(** Putting blocks one after the other. *)
Definition put_blocks (puts : list (BlockHash * Z * list byte)) (c : Cache) : Cache :=
  foldl (fun c '(hash, height, data) => put_block hash height data c) c puts.

Lemma put_blocks_recent puts n hash height data c :
  Forall (fun '(h, m, _) => h <> hash /\ m <> height) puts ->
  Z.of_nat n + len puts < lru_cap (ca_block_cache c) -> Z.of_nat n + len puts < lru_cap (ca_height_cache c) ->
  recent n hash data (ca_block_cache c) -> recent n height hash (ca_height_cache c) ->
  recent (n + length puts) hash data (ca_block_cache (put_blocks puts c)) /\
  recent (n + length puts) height hash (ca_height_cache (put_blocks puts c)).
Proof.
  intros Hf. revert n c. induction Hf as [|[[h m] d] puts [Hh Hm] _ IH]; intros n c Hb Hc Rb Rh; cbn.
  - by rewrite Nat.add_0_r.
  - rewrite Nat.add_succ_r, <- Nat.add_succ_l.
    assert (len ((h, m, d) :: puts) = 1 + len puts) as El by (unfold len; cbn; lia).
    pose proof (len_nonneg puts). apply IH; cbn; rewrite ?lru_put_cap; try lia; apply recent_put; try done; lia.
Qed.

(** A block that was put stays retrievable by hash and by height while fewer than
    capacity blocks with other hashes and heights are put after it. *)
Theorem put_block_survives (c : Cache) (hash : BlockHash) (height : Z) (data : list byte)
    (puts : list (BlockHash * Z * list byte)) :
  let st := cache_get_stats c in
  len puts < cst_block_capacity st -> len puts < cst_height_capacity st ->
  Forall (fun '(h, m, _) => h <> hash /\ m <> height) puts ->
  let c' := put_blocks puts (put_block hash height data c) in
  (cache_get_block hash c').1 = Some data /\ (cache_get_block_by_height height c').1 = Some data.
Proof.
  intros st Hb Hh Hf c'. cbn in Hb, Hh. pose proof (len_nonneg puts).
  destruct (put_blocks_recent puts 0 hash height data (put_block hash height data c) Hf) as [Rb Rh];
    [cbn; rewrite ?lru_put_cap; lia..|cbn; apply put_recent; lia|cbn; apply put_recent; lia|].
  apply recent_present in Rb, Rh. fold c' in Rb, Rh. rewrite get_block_by_height_eq, Rh, !cache_get_block_eq. done.
Qed.
End cache_facts.
