(* ===== verification/Database.v ===== *)
(** * The database interface and its backends: crates/storage/src/database.rs

    The trait [Database] is a class over the type [S] of the backend's state; what its
    methods promise to the stores is the class [DatabaseSpec], stated on the finite map
    [db_contents] a backend holds.  The in-memory backend is an instance outright; the
    RocksDB and Sled backends are instances when the crates behave as documented
    ([RocksSpec], [SledSpec]), and [AnyDatabase], what the factory returns, dispatches
    to one of the three.  The crates may fail at every call: a write that fails may or may
    not have taken effect, and a scan that meets a read error is reported by the crate but
    not by the backend, which returns the entries it could read.  The locks protect single calls and cannot be poisoned, since
    no panic happens while one is held. *)
From stdpp Require Import prelude gmap strings list sorting.
From Stdlib Require Import Strings.Byte Strings.Ascii Sorting.Sorted.
From S2P Require Import Prelude Types.

Local Open Scope Z_scope.

Abbreviation key := (list byte) (only parsing).
Abbreviation value := (list byte) (only parsing).

(** ** Data *)
Inductive WriteOperation :=
| WPut (k : key) (v : value)
| WDelete (k : key).

Inductive DatabaseBackend := RocksDB | Sled | Memory.

Record DatabaseConfig := mkDatabaseConfig {
  dc_path : string;
  dc_backend : DatabaseBackend;
  dc_max_open_files : option Z;
  dc_cache_size : option Z;
  dc_compression : bool;
  dc_write_buffer_size : option Z;
  dc_bloom_filter_bits : option Z
}.

(** [DatabaseConfig::default]; the backend depends on the enabled features. *)
Definition DatabaseConfig_default (rocksdb_backend sled_backend : bool) : DatabaseConfig :=
  mkDatabaseConfig "./data/db"
    (if rocksdb_backend then RocksDB else if sled_backend then Sled else Memory)
    (Some 1000) (Some (128 * 1024 * 1024)) true (Some (64 * 1024 * 1024)) (Some 10).

Record DatabaseStats := mkDatabaseStats {
  ds_total_keys : Z;
  ds_total_size : Z;
  ds_read_count : Z;
  ds_write_count : Z;
  ds_delete_count : Z
}.

Definition DatabaseStats_default : DatabaseStats := mkDatabaseStats 0 0 0 0 0.

Definition count_read (s : DatabaseStats) : DatabaseStats :=
  mkDatabaseStats (ds_total_keys s) (ds_total_size s) (u64_add (ds_read_count s) 1) (ds_write_count s) (ds_delete_count s).
Definition count_write (s : DatabaseStats) : DatabaseStats :=
  mkDatabaseStats (ds_total_keys s) (ds_total_size s) (ds_read_count s) (u64_add (ds_write_count s) 1) (ds_delete_count s).
Definition count_delete (s : DatabaseStats) : DatabaseStats :=
  mkDatabaseStats (ds_total_keys s) (ds_total_size s) (ds_read_count s) (ds_write_count s) (u64_add (ds_delete_count s) 1).

(** [slice::starts_with]. *)
Fixpoint starts_with (k prefix : list byte) : bool :=
  match prefix, k with
  | [], _ => true
  | _ :: _, [] => false
  | p :: prefix', x :: k' => bool_decide (p = x) && starts_with k' prefix'
  end.

(** ** The trait *)
Class Database (S : Type) := {
  db_get : key -> VStM S (option value);
  db_put : key -> value -> VStM S unit;
  db_delete : key -> VStM S unit;
  db_contains : key -> VStM S bool;
  db_iter_prefix : key -> VStM S (list (key * value));
  db_keys_with_prefix : key -> VStM S (list key);
  db_write_batch : list WriteOperation -> VStM S unit;
  db_flush : VStM S unit;
  db_compact : VStM S unit;
  db_size : S -> Z;
  db_stats : S -> DatabaseStats
}.

(** The effect of a batch on the contents. *)
Definition apply_op (op : WriteOperation) (m : gmap key value) : gmap key value :=
  match op with WPut k v => <[k := v]> m | WDelete k => delete k m end.
Definition apply_batch (ops : list WriteOperation) (m : gmap key value) : gmap key value :=
  foldl (fun m op => apply_op op m) m ops.

Definition with_prefix (p : key) (m : gmap key value) : list (key * value) :=
  filter (fun kv => starts_with kv.1 p = true) (map_to_list m).

(** An operation either answers with a result that satisfies [P] and contents [m'], or
    fails, with or without its effect on the contents; it never panics. *)
Definition db_outcome {S A : Type} (contents : S -> gmap key value) (m' : gmap key value) (P : A -> Prop)
    (s : S) (out : Result VotingError A * S) : Prop :=
  match out with
  | (Ok a, s') => P a /\ contents s' = m'
  | (Err _, s') => contents s' = contents s \/ contents s' = m'
  | (Panic, _) => False
  end.

(** What a scan may return when the contents with its prefix are [all]: some of them, once
    each, and all of them unless it met a read error. *)
Definition scanned {A : Type} (read_error : bool) (all l : list A) : Prop :=
  NoDup l /\ l ⊆ all /\ (read_error = false -> l ≡ₚ all).

(** What the trait promises to its clients; [db_read_error s p]: scanning the prefix [p] meets
    a read error. *)
Class DatabaseSpec (S : Type) `{Database S} := {
  db_contents : S -> gmap key value;
  db_read_error : S -> key -> bool;
  db_get_spec : forall k s,
    db_outcome db_contents (db_contents s) (fun r => r = db_contents s !! k) s (db_get k s);
  db_put_spec : forall k v s,
    db_outcome db_contents (<[k := v]> (db_contents s)) (fun _ => True) s (db_put k v s);
  db_delete_spec : forall k s,
    db_outcome db_contents (delete k (db_contents s)) (fun _ => True) s (db_delete k s);
  db_contains_spec : forall k s,
    db_outcome db_contents (db_contents s) (fun b => b = bool_decide (is_Some (db_contents s !! k))) s (db_contains k s);
  db_iter_prefix_spec : forall p s,
    db_outcome db_contents (db_contents s) (scanned (db_read_error s p) (with_prefix p (db_contents s))) s (db_iter_prefix p s);
  db_keys_with_prefix_spec : forall p s,
    db_outcome db_contents (db_contents s) (scanned (db_read_error s p) (with_prefix p (db_contents s)).*1) s (db_keys_with_prefix p s);
  db_write_batch_spec : forall ops s,
    db_outcome db_contents (apply_batch ops (db_contents s)) (fun _ => True) s (db_write_batch ops s);
  db_flush_spec : forall s, db_outcome db_contents (db_contents s) (fun _ => True) s (db_flush s);
  db_compact_spec : forall s, db_outcome db_contents (db_contents s) (fun _ => True) s (db_compact s)
}.

(** ** The in-memory backend *)
Record MemoryDatabase := mkMemoryDatabase {
  md_data : gmap key value;
  md_stats : DatabaseStats
}.

Definition MemoryDatabase_new : MemoryDatabase := mkMemoryDatabase ∅ DatabaseStats_default.

Definition memory_get (k : key) : VStM MemoryDatabase (option value) := fun s =>
  (Ok (md_data s !! k), mkMemoryDatabase (md_data s) (count_read (md_stats s))).
Definition memory_put (k : key) (v : value) : VStM MemoryDatabase unit := fun s =>
  (Ok tt, mkMemoryDatabase (<[k := v]> (md_data s)) (count_write (md_stats s))).
Definition memory_delete (k : key) : VStM MemoryDatabase unit := fun s =>
  (Ok tt, mkMemoryDatabase (delete k (md_data s)) (count_delete (md_stats s))).
Definition memory_contains (k : key) : VStM MemoryDatabase bool := fun s =>
  (Ok (bool_decide (is_Some (md_data s !! k))), s).
Definition memory_iter_prefix (p : key) : VStM MemoryDatabase (list (key * value)) := fun s =>
  (Ok (filter (fun kv => starts_with kv.1 p = true) (map_to_list (md_data s))), s).
Definition memory_keys_with_prefix (p : key) : VStM MemoryDatabase (list key) := fun s =>
  (Ok (filter (fun k => starts_with k p = true) (map_to_list (md_data s)).*1), s).
Definition memory_write_batch (operations : list WriteOperation) : VStM MemoryDatabase unit := fun s =>
  (Ok tt, mkMemoryDatabase
            (foldl (fun data op => match op with WPut k v => <[k := v]> data | WDelete k => delete k data end)
               (md_data s) operations) (md_stats s)).
Definition memory_flush : VStM MemoryDatabase unit := fun s => (Ok tt, s).
Definition memory_compact : VStM MemoryDatabase unit := fun s => (Ok tt, s).
Definition memory_size (s : MemoryDatabase) : Z :=
  foldr (fun kv acc => u64_add (len kv.1 + len kv.2) acc) 0 (map_to_list (md_data s)).
Definition memory_stats (s : MemoryDatabase) : DatabaseStats :=
  mkDatabaseStats (Z.of_nat (size (md_data s))) (memory_size s)
    (ds_read_count (md_stats s)) (ds_write_count (md_stats s)) (ds_delete_count (md_stats s)).

Global Instance memory_database : Database MemoryDatabase := {|
  db_get := memory_get; db_put := memory_put; db_delete := memory_delete;
  db_contains := memory_contains; db_iter_prefix := memory_iter_prefix;
  db_keys_with_prefix := memory_keys_with_prefix; db_write_batch := memory_write_batch;
  db_flush := memory_flush; db_compact := memory_compact; db_size := memory_size; db_stats := memory_stats
|}.

Lemma filter_keys (P : key -> bool) (l : list (key * value)) :
  filter (fun k => P k = true) l.*1 = (filter (fun kv => P kv.1 = true) l).*1.
Proof.
  induction l as [|[k v] l IH]; [done|]. rewrite fmap_cons, !filter_cons. cbn.
  destruct (decide (P k = true)); cbn; by rewrite IH.
Qed.

Lemma with_prefix_nodup p m : NoDup (with_prefix p m).
Proof. apply NoDup_filter, NoDup_map_to_list. Qed.

Lemma with_prefix_keys_nodup p m : NoDup (with_prefix p m).*1.
Proof. unfold with_prefix. rewrite <- (filter_keys (fun k => starts_with k p)). apply NoDup_filter, NoDup_fst_map_to_list. Qed.

Lemma scanned_all {A : Type} (b : bool) (all : list A) : NoDup all -> scanned b all all.
Proof. intros Hd. split_and!; done. Qed.

Global Instance memory_database_spec : DatabaseSpec MemoryDatabase.
Proof.
  refine {| db_contents := md_data; db_read_error := fun _ _ => false |}; intros; cbn; try done.
  - split; [|done]. apply scanned_all, with_prefix_nodup.
  - split; [|done]. rewrite (filter_keys (fun k => starts_with k p)). apply scanned_all, with_prefix_keys_nodup.
Defined.

(** ** The RocksDB backend *)

(** The options set by [open] and [with_config]. *)
Record RocksOptions := mkRocksOptions {
  ro_create_if_missing : bool;
  ro_block_cache : option Z;
  ro_zstd : bool;
  ro_write_buffer_size : option Z;
  ro_max_open_files : option Z
}.

(** The crate [rocksdb]; errors are given by their display strings, and every call leaves
    some database behind.  [rocks_seek db p] is the raw iterator positioned by [seek(p)]: the
    entries it visits while [valid()], and the [status()] with which it then ends, an error
    when the end was not reached. *)
Class RocksCrate := {
  rocks_db : Type;
  rocks_open : RocksOptions -> string -> rocks_db + string;
  rocks_get : rocks_db -> key -> (option value + string) * rocks_db;
  rocks_put : rocks_db -> key -> value -> option string * rocks_db;
  rocks_delete : rocks_db -> key -> option string * rocks_db;
  rocks_seek : rocks_db -> key -> list (key * value) * option string * rocks_db;
  rocks_write : rocks_db -> list WriteOperation -> option string * rocks_db;
  rocks_flush : rocks_db -> option string * rocks_db;
  rocks_compact_range : rocks_db -> rocks_db;
  rocks_property_value : rocks_db -> string -> option string + string
}.

(** [x as i32]. *)
Definition as_i32 (x : Z) : Z :=
  let y := wrap 32 x in if y <? 2 ^ 31 then y else y - 2 ^ 32.

(** [str::parse::<u64>]: an optional plus sign and decimal digits, no overflow. *)
Fixpoint parse_digits (acc : Z) (s : string) : option Z :=
  match s with
  | EmptyString => Some acc
  | String c s' =>
      let d := Z.of_N (Ascii.N_of_ascii c) - 48 in
      if (0 <=? d) && (d <=? 9) && (acc * 10 + d <? 2 ^ 64) then parse_digits (acc * 10 + d) s' else None
  end.
Definition parse_u64 (s : string) : option Z :=
  match s with
  | EmptyString => None
  | String "+"%char EmptyString => None
  | String "+"%char s' => parse_digits 0 s'
  | _ => parse_digits 0 s
  end.

Section rocks.
Context `{RocksCrate}.

Record RocksDBDatabase := mkRocksDBDatabase {
  rd_db : rocks_db;
  rd_path : string;
  rd_stats : DatabaseStats
}.

Definition default_options : RocksOptions := mkRocksOptions false None false None None.

Definition RocksDBDatabase_open_with (opts : RocksOptions) (path : string) : VResult RocksDBDatabase :=
  match rocks_open opts path with
  | inl db => Ok (mkRocksDBDatabase db path DatabaseStats_default)
  | inr e => Err (DatabaseError ("Failed to open RocksDB: " ++ e))
  end.

Definition RocksDBDatabase_open (path : string) : VResult RocksDBDatabase :=
  RocksDBDatabase_open_with (mkRocksOptions true None false None None) path.

Definition RocksDBDatabase_with_config (path : string) (config : DatabaseConfig) : VResult RocksDBDatabase :=
  RocksDBDatabase_open_with
    (mkRocksOptions true (dc_cache_size config) (dc_compression config) (dc_write_buffer_size config)
       (as_i32 <$> dc_max_open_files config)) path.

(** A mutation of the inner database, with its error prefix. *)
Definition rocks_update (stats : DatabaseStats -> DatabaseStats) (msg : string)
    (f : rocks_db -> option string * rocks_db) : VStM RocksDBDatabase unit := fun s =>
  let '(r, db) := f (rd_db s) in
  (match r with None => Ok tt | Some e => Err (DatabaseError (msg ++ e)) end,
   mkRocksDBDatabase db (rd_path s) (stats (rd_stats s))).

Definition rocksdb_get (k : key) : VStM RocksDBDatabase (option value) := fun s =>
  let '(r, db) := rocks_get (rd_db s) k in
  (map_err (fun e => DatabaseError ("Get failed: " ++ e)) r,
   mkRocksDBDatabase db (rd_path s) (count_read (rd_stats s))).
Definition rocksdb_put (k : key) (v : value) : VStM RocksDBDatabase unit :=
  rocks_update count_write "Put failed: " (fun db => rocks_put db k v).
Definition rocksdb_delete (k : key) : VStM RocksDBDatabase unit :=
  rocks_update count_delete "Delete failed: " (fun db => rocks_delete db k).
Definition rocksdb_contains (k : key) : VStM RocksDBDatabase bool := fun s =>
  let '(r, db) := rocks_get (rd_db s) k in
  (o ← map_err (fun e => DatabaseError ("Contains failed: " ++ e)) r; Ok (bool_decide (is_Some o)),
   mkRocksDBDatabase db (rd_path s) (rd_stats s)).

(** The loop over the raw iterator: stops at the first key without the prefix.  The status is
    not looked at. *)
Fixpoint rocks_scan (p : key) (iter : list (key * value)) : list (key * value) :=
  match iter with
  | [] => []
  | (k, v) :: iter' => if starts_with k p then (k, v) :: rocks_scan p iter' else []
  end.

Definition rocksdb_iter_prefix (p : key) : VStM RocksDBDatabase (list (key * value)) := fun s =>
  let '(iter, _, db) := rocks_seek (rd_db s) p in
  (Ok (rocks_scan p iter), mkRocksDBDatabase db (rd_path s) (rd_stats s)).
Definition rocksdb_keys_with_prefix (p : key) : VStM RocksDBDatabase (list key) := fun s =>
  let '(iter, _, db) := rocks_seek (rd_db s) p in
  (Ok (rocks_scan p iter).*1, mkRocksDBDatabase db (rd_path s) (rd_stats s)).
Definition rocksdb_write_batch (operations : list WriteOperation) : VStM RocksDBDatabase unit :=
  rocks_update id "Batch write failed: " (fun db => rocks_write db operations).
Definition rocksdb_flush : VStM RocksDBDatabase unit := rocks_update id "Flush failed: " rocks_flush.
Definition rocksdb_compact : VStM RocksDBDatabase unit := fun s =>
  (Ok tt, mkRocksDBDatabase (rocks_compact_range (rd_db s)) (rd_path s) (rd_stats s)).
Definition rocksdb_size (s : RocksDBDatabase) : Z :=
  match rocks_property_value (rd_db s) "rocksdb.total-sst-files-size" with
  | inl (Some size_str) => default 0 (parse_u64 size_str)
  | _ => 0
  end.
Definition rocksdb_stats (s : RocksDBDatabase) : DatabaseStats :=
  mkDatabaseStats (ds_total_keys (rd_stats s)) (rocksdb_size s)
    (ds_read_count (rd_stats s)) (ds_write_count (rd_stats s)) (ds_delete_count (rd_stats s)).

#[global] Instance rocksdb_database : Database RocksDBDatabase := {|
  db_get := rocksdb_get; db_put := rocksdb_put; db_delete := rocksdb_delete;
  db_contains := rocksdb_contains; db_iter_prefix := rocksdb_iter_prefix;
  db_keys_with_prefix := rocksdb_keys_with_prefix; db_write_batch := rocksdb_write_batch;
  db_flush := rocksdb_flush; db_compact := rocksdb_compact; db_size := rocksdb_size; db_stats := rocksdb_stats
|}.
End rocks.

(** ** The Sled backend *)
Class SledCrate := {
  sled_db : Type;
  sled_open : option Z -> string -> sled_db + string;
  sled_get : sled_db -> key -> (option value + string) * sled_db;
  sled_insert : sled_db -> key -> value -> option string * sled_db;
  sled_remove : sled_db -> key -> option string * sled_db;
  sled_contains_key : sled_db -> key -> (bool + string) * sled_db;
  sled_scan_prefix : sled_db -> key -> list ((key * value) + string) * sled_db;
  sled_apply_batch : sled_db -> list WriteOperation -> option string * sled_db;
  sled_flush : sled_db -> option string * sled_db;
  sled_size_on_disk : sled_db -> Z + string;
  sled_len : sled_db -> Z
}.

Section sled.
Context `{SledCrate}.

Record SledDatabase := mkSledDatabase {
  sd_db : sled_db;
  sd_path : string;
  sd_stats : DatabaseStats
}.

(** [open] uses the default cache; [with_config] sets its capacity. *)
Definition SledDatabase_open_with (cache : option Z) (path : string) : VResult SledDatabase :=
  match sled_open cache path with
  | inl db => Ok (mkSledDatabase db path DatabaseStats_default)
  | inr e => Err (DatabaseError ("Failed to open Sled: " ++ e))
  end.
Definition SledDatabase_open (path : string) : VResult SledDatabase := SledDatabase_open_with None path.
Definition SledDatabase_with_config (path : string) (config : DatabaseConfig) : VResult SledDatabase :=
  SledDatabase_open_with (dc_cache_size config) path.

Definition sled_update (stats : DatabaseStats -> DatabaseStats) (msg : string)
    (f : sled_db -> option string * sled_db) : VStM SledDatabase unit := fun s =>
  let '(r, db) := f (sd_db s) in
  (match r with None => Ok tt | Some e => Err (DatabaseError (msg ++ e)) end,
   mkSledDatabase db (sd_path s) (stats (sd_stats s))).

Definition sleddb_get (k : key) : VStM SledDatabase (option value) := fun s =>
  let '(r, db) := sled_get (sd_db s) k in
  (map_err (fun e => DatabaseError ("Get failed: " ++ e)) r,
   mkSledDatabase db (sd_path s) (count_read (sd_stats s))).
Definition sleddb_put (k : key) (v : value) : VStM SledDatabase unit :=
  sled_update count_write "Put failed: " (fun db => sled_insert db k v).
Definition sleddb_delete (k : key) : VStM SledDatabase unit :=
  sled_update count_delete "Delete failed: " (fun db => sled_remove db k).
Definition sleddb_contains (k : key) : VStM SledDatabase bool := fun s =>
  let '(r, db) := sled_contains_key (sd_db s) k in
  (map_err (fun e => DatabaseError ("Contains failed: " ++ e)) r, mkSledDatabase db (sd_path s) (sd_stats s)).

(** [filter_map(|result| result.ok())]: entries that cannot be read are left out. *)
Definition readable (results : list ((key * value) + string)) : list (key * value) :=
  omap (fun r => match r with inl kv => Some kv | inr _ => None end) results.

Definition sleddb_iter_prefix (p : key) : VStM SledDatabase (list (key * value)) := fun s =>
  let '(results, db) := sled_scan_prefix (sd_db s) p in
  (Ok (readable results), mkSledDatabase db (sd_path s) (sd_stats s)).
Definition sleddb_keys_with_prefix (p : key) : VStM SledDatabase (list key) := fun s =>
  let '(results, db) := sled_scan_prefix (sd_db s) p in
  (Ok (readable results).*1, mkSledDatabase db (sd_path s) (sd_stats s)).
Definition sleddb_write_batch (operations : list WriteOperation) : VStM SledDatabase unit :=
  sled_update id "Batch write failed: " (fun db => sled_apply_batch db operations).
Definition sleddb_flush : VStM SledDatabase unit := sled_update id "Flush failed: " sled_flush.
Definition sleddb_compact : VStM SledDatabase unit := sleddb_flush.
Definition sleddb_size (s : SledDatabase) : Z :=
  match sled_size_on_disk (sd_db s) with inl n => n | inr _ => 0 end.
Definition sleddb_stats (s : SledDatabase) : DatabaseStats :=
  mkDatabaseStats (sled_len (sd_db s)) (sleddb_size s)
    (ds_read_count (sd_stats s)) (ds_write_count (sd_stats s)) (ds_delete_count (sd_stats s)).

#[global] Instance sled_database : Database SledDatabase := {|
  db_get := sleddb_get; db_put := sleddb_put; db_delete := sleddb_delete;
  db_contains := sleddb_contains; db_iter_prefix := sleddb_iter_prefix;
  db_keys_with_prefix := sleddb_keys_with_prefix; db_write_batch := sleddb_write_batch;
  db_flush := sleddb_flush; db_compact := sleddb_compact; db_size := sleddb_size; db_stats := sleddb_stats
|}.
End sled.

(** ** The factory: [Arc<dyn Database>] is one of the three backends *)
Section factory.
Context `{RocksCrate, SledCrate}.

Inductive AnyDatabase :=
| AnyRocks (s : RocksDBDatabase)
| AnySled (s : SledDatabase)
| AnyMemory (s : MemoryDatabase).

(** Dynamic dispatch of a method. *)
Definition dispatch {A : Type} (r : VStM RocksDBDatabase A) (d : VStM SledDatabase A) (m : VStM MemoryDatabase A) :
    VStM AnyDatabase A := fun s =>
  match s with
  | AnyRocks s => let '(a, s') := r s in (a, AnyRocks s')
  | AnySled s => let '(a, s') := d s in (a, AnySled s')
  | AnyMemory s => let '(a, s') := m s in (a, AnyMemory s')
  end.

#[global] Instance any_database : Database AnyDatabase := {|
  db_get k := dispatch (db_get k) (db_get k) (db_get k);
  db_put k v := dispatch (db_put k v) (db_put k v) (db_put k v);
  db_delete k := dispatch (db_delete k) (db_delete k) (db_delete k);
  db_contains k := dispatch (db_contains k) (db_contains k) (db_contains k);
  db_iter_prefix p := dispatch (db_iter_prefix p) (db_iter_prefix p) (db_iter_prefix p);
  db_keys_with_prefix p := dispatch (db_keys_with_prefix p) (db_keys_with_prefix p) (db_keys_with_prefix p);
  db_write_batch ops := dispatch (db_write_batch ops) (db_write_batch ops) (db_write_batch ops);
  db_flush := dispatch db_flush db_flush db_flush;
  db_compact := dispatch db_compact db_compact db_compact;
  db_size s := match s with AnyRocks s => db_size s | AnySled s => db_size s | AnyMemory s => db_size s end;
  db_stats s := match s with AnyRocks s => db_stats s | AnySled s => db_stats s | AnyMemory s => db_stats s end
|}.

(** [DatabaseFactory::create], for the enabled features. *)
Definition factory_create (rocksdb_backend sled_backend : bool) (config : DatabaseConfig) : VResult AnyDatabase :=
  match dc_backend config with
  | RocksDB =>
      if rocksdb_backend then AnyRocks <$> RocksDBDatabase_with_config (dc_path config) config
      else Err (NotImplemented "RocksDB backend not enabled. Rebuild with --features rocksdb-backend")
  | Sled =>
      if sled_backend then AnySled <$> SledDatabase_with_config (dc_path config) config
      else Err (NotImplemented "Sled backend not enabled. Rebuild with --features sled-backend")
  | Memory => Ok (AnyMemory MemoryDatabase_new)
  end.

Definition factory_create_memory : AnyDatabase := AnyMemory MemoryDatabase_new.
Definition factory_create_sled (path : string) : VResult AnyDatabase := AnySled <$> SledDatabase_open path.
Definition factory_create_rocksdb (path : string) : VResult AnyDatabase := AnyRocks <$> RocksDBDatabase_open path.
End factory.

(** ** Prefix scans *)

(** Keys between a prefix and a key with that prefix have the prefix too. *)
Lemma starts_with_between p k k' :
  bytes_leb p k = true -> bytes_leb k k' = true -> starts_with k' p = true -> starts_with k p = true.
Proof.
  revert k k'. induction p as [|x p IH]; intros [|y k] [|z k']; cbn; try done.
  intros H1 H2 [Hz Hp]%andb_true_iff. apply bool_decide_eq_true in Hz as <-.
  destruct (Z.ltb_spec (byte_val x) (byte_val y)).
  - destruct (Z.ltb_spec (byte_val y) (byte_val x)); [lia|done].
  - destruct (Z.ltb_spec (byte_val y) (byte_val x)); [done|].
    assert (x = y) as <- by (apply byte_val_inj; lia).
    rewrite bool_decide_true by done. by eapply IH.
Qed.

Lemma starts_with_leb p k : starts_with k p = true -> bytes_leb p k = true.
Proof.
  revert k. induction p as [|x p IH]; intros [|y k]; cbn; try done.
  intros [E Hk]%andb_true_iff. apply bool_decide_eq_true in E as <-.
  rewrite Z.ltb_irrefl. by apply IH.
Qed.

Definition entry_le (a b : key * value) : Prop := bytes_leb a.1 b.1 = true.

(** Stopping at the first key without the prefix loses nothing in a sorted list. *)
Lemma rocks_scan_filter p iter :
  StronglySorted entry_le iter -> Forall (fun kv => bytes_leb p kv.1 = true) iter ->
  rocks_scan p iter = filter (fun kv => starts_with kv.1 p = true) iter.
Proof.
  induction 1 as [|[k v] iter Hs IH Hle]; intros Hp; [done|].
  apply Forall_cons in Hp as [Hk Hp]. rewrite filter_cons. cbn. cbn in Hk.
  destruct (starts_with k p) eqn:E; [by rewrite decide_True, IH by done|].
  rewrite decide_False by done. symmetry. clear IH Hs Hp.
  induction Hle as [|[k' v'] iter Hkk _ IH]; [done|]. rewrite filter_cons.
  rewrite decide_False; [exact IH|]. cbn. intros Hk'. unfold entry_le in Hkk. cbn in Hkk.
  by rewrite (starts_with_between _ _ _ Hk Hkk Hk') in E.
Qed.

Lemma with_prefix_elem p m k v :
  (k, v) ∈ with_prefix p m <-> m !! k = Some v /\ starts_with k p = true.
Proof. unfold with_prefix. rewrite list_elem_of_filter, elem_of_map_to_list. cbn. tauto. Qed.

(** ** The RocksDB backend keeps the interface's promises *)

(** Documented: a read returns the last write or an error and changes nothing; a write or an
    atomic batch that returns an error may or may not have been applied; an iterator visits
    entries from the sought key on in ascending byte order, each once, all of them when its
    status is not an error. *)
Class RocksSpec `{RocksCrate} := {
  rocks_contents : rocks_db -> gmap key value;
  rocks_get_ok : forall db k r db', rocks_get db k = (r, db') ->
    rocks_contents db' = rocks_contents db /\ (forall v, r = inl v -> v = rocks_contents db !! k);
  rocks_put_ok : forall db k v e db', rocks_put db k v = (e, db') ->
    rocks_contents db' = <[k := v]> (rocks_contents db) \/ e <> None /\ rocks_contents db' = rocks_contents db;
  rocks_delete_ok : forall db k e db', rocks_delete db k = (e, db') ->
    rocks_contents db' = delete k (rocks_contents db) \/ e <> None /\ rocks_contents db' = rocks_contents db;
  rocks_write_ok : forall db ops e db', rocks_write db ops = (e, db') ->
    rocks_contents db' = apply_batch ops (rocks_contents db) \/ e <> None /\ rocks_contents db' = rocks_contents db;
  rocks_flush_ok : forall db e db', rocks_flush db = (e, db') -> rocks_contents db' = rocks_contents db;
  rocks_compact_ok : forall db, rocks_contents (rocks_compact_range db) = rocks_contents db;
  rocks_seek_ok : forall db p iter status db', rocks_seek db p = (iter, status, db') ->
    rocks_contents db' = rocks_contents db /\ StronglySorted entry_le iter /\ NoDup iter.*1 /\
    (forall k v, (k, v) ∈ iter -> rocks_contents db !! k = Some v /\ bytes_leb p k = true) /\
    (status = None -> forall k v, rocks_contents db !! k = Some v -> bytes_leb p k = true -> (k, v) ∈ iter)
}.

(** The entries of a scan and their keys: sound, without repetition, complete if no error. *)
Lemma scanned_entries (m : gmap key value) p (l : list (key * value)) (read_error : bool) :
  NoDup l.*1 -> (forall k v, (k, v) ∈ l -> m !! k = Some v /\ starts_with k p = true) ->
  (read_error = false -> forall k v, m !! k = Some v -> starts_with k p = true -> (k, v) ∈ l) ->
  scanned read_error (with_prefix p m) l /\ scanned read_error (with_prefix p m).*1 l.*1.
Proof.
  intros Hd Hs Hc.
  assert (l ⊆ with_prefix p m) as Hsub by (intros [k v] Hkv; by apply with_prefix_elem, Hs).
  assert (read_error = false -> l ≡ₚ with_prefix p m) as Hall.
  { intros He. apply NoDup_Permutation; [by apply (NoDup_fmap_1 fst)|apply with_prefix_nodup|].
    intros [k v]. split; [apply Hsub|]. intros [Hk Hp]%with_prefix_elem. by apply Hc. }
  split; split_and!; [by apply (NoDup_fmap_1 fst)|done..| |].
  - intros k (kv & -> & Hkv)%list_elem_of_fmap. by apply list_elem_of_fmap_2, Hsub.
  - intros He. by rewrite (Hall He).
Qed.

Section rocks_facts.
Context `{RocksSpec}.

Definition is_error {A : Type} (status : option A) : bool := match status with Some _ => true | None => false end.

Lemma rocks_scan_scanned db p iter status db' :
  rocks_seek db p = (iter, status, db') ->
  rocks_contents db' = rocks_contents db /\
  scanned (is_error status) (with_prefix p (rocks_contents db)) (rocks_scan p iter) /\
  scanned (is_error status) (with_prefix p (rocks_contents db)).*1 (rocks_scan p iter).*1.
Proof.
  intros (Hdb & Hsort & Hnd & Hs & Hc)%rocks_seek_ok. split; [done|].
  rewrite (rocks_scan_filter p iter Hsort).
  2:{ apply Forall_forall. intros [k v] Hkv. by apply Hs in Hkv as [_ ?]. }
  apply scanned_entries.
  - rewrite <- (filter_keys (fun k => starts_with k p)). by apply NoDup_filter.
  - intros k v [Hp Hkv]%list_elem_of_filter. by apply Hs in Hkv as [? _].
  - intros He k v Hk Hp. apply list_elem_of_filter. split; [done|]. apply Hc; [by destruct status|done|by apply starts_with_leb].
Qed.

Lemma rocks_update_spec stats msg f s m' :
  (forall e db', f (rd_db s) = (e, db') ->
     rocks_contents db' = m' \/ e <> None /\ rocks_contents db' = rocks_contents (rd_db s)) ->
  db_outcome (fun s => rocks_contents (rd_db s)) m' (fun _ => True) s (rocks_update stats msg f s).
Proof. intros Hf. unfold rocks_update. destruct (f (rd_db s)) as [[e|] db'] eqn:E; cbn; naive_solver. Qed.

#[global] Instance rocksdb_database_spec : DatabaseSpec RocksDBDatabase.
Proof.
  refine {| db_contents := fun s => rocks_contents (rd_db s);
            db_read_error := fun s p => is_error (rocks_seek (rd_db s) p).1.2 |}; intros.
  - cbn. unfold rocksdb_get. destruct (rocks_get _ _) as [[r|e] db'] eqn:E; apply rocks_get_ok in E as [Hdb Hr]; cbn; auto.
  - apply rocks_update_spec. intros ??. apply rocks_put_ok.
  - apply rocks_update_spec. intros ??. apply rocks_delete_ok.
  - cbn. unfold rocksdb_contains. destruct (rocks_get _ _) as [[r|e] db'] eqn:E; apply rocks_get_ok in E as [Hdb Hr]; cbn; auto.
    by rewrite (Hr r).
  - cbn. unfold rocksdb_iter_prefix. destruct (rocks_seek _ _) as [[iter status] db'] eqn:E.
    by apply rocks_scan_scanned in E as (? & ? & _).
  - cbn. unfold rocksdb_keys_with_prefix. destruct (rocks_seek _ _) as [[iter status] db'] eqn:E.
    by apply rocks_scan_scanned in E as (? & _ & ?).
  - apply rocks_update_spec. intros ??. apply rocks_write_ok.
  - apply rocks_update_spec. intros ?? E%rocks_flush_ok. by left.
  - cbn. split; [done|apply rocks_compact_ok].
Defined.
End rocks_facts.

(** ** The Sled backend *)

(** Documented: as above; a scan yields the entries with the prefix, each once, except that
    an item may be an error, in which case entries may be missing. *)
Class SledSpec `{SledCrate} := {
  sled_contents : sled_db -> gmap key value;
  sled_get_ok : forall db k r db', sled_get db k = (r, db') ->
    sled_contents db' = sled_contents db /\ (forall v, r = inl v -> v = sled_contents db !! k);
  sled_insert_ok : forall db k v e db', sled_insert db k v = (e, db') ->
    sled_contents db' = <[k := v]> (sled_contents db) \/ e <> None /\ sled_contents db' = sled_contents db;
  sled_remove_ok : forall db k e db', sled_remove db k = (e, db') ->
    sled_contents db' = delete k (sled_contents db) \/ e <> None /\ sled_contents db' = sled_contents db;
  sled_contains_ok : forall db k r db', sled_contains_key db k = (r, db') ->
    sled_contents db' = sled_contents db /\ (forall b, r = inl b -> b = bool_decide (is_Some (sled_contents db !! k)));
  sled_batch_ok : forall db ops e db', sled_apply_batch db ops = (e, db') ->
    sled_contents db' = apply_batch ops (sled_contents db) \/ e <> None /\ sled_contents db' = sled_contents db;
  sled_flush_ok : forall db e db', sled_flush db = (e, db') -> sled_contents db' = sled_contents db;
  sled_scan_ok : forall db p results db', sled_scan_prefix db p = (results, db') ->
    sled_contents db' = sled_contents db /\ NoDup (readable results).*1 /\
    (forall k v, inl (k, v) ∈ results -> sled_contents db !! k = Some v /\ starts_with k p = true) /\
    ((forall e, inr e ∉ results) ->
     forall k v, sled_contents db !! k = Some v -> starts_with k p = true -> inl (k, v) ∈ results)
}.

Section sled_facts.
Context `{SledSpec}.

Definition scan_error (results : list ((key * value) + string)) : bool :=
  existsb (fun r => match r with inl _ => false | inr _ => true end) results.

Lemma scan_error_false results e : scan_error results = false -> inr e ∉ results.
Proof.
  induction results as [|[kv|e'] results IH]; cbn; [by intros _ ?%not_elem_of_nil| |done].
  intros He [?|?]%elem_of_cons; [done|by apply IH].
Qed.

Lemma readable_elem kv results : kv ∈ readable results <-> inl kv ∈ results.
Proof.
  unfold readable. rewrite list_elem_of_omap. split.
  - intros ([kv'|e] & Hr & E); [|done]. by injection E as ->.
  - intros Hr. by exists (inl kv).
Qed.

Lemma sled_scan_scanned db p results db' :
  sled_scan_prefix db p = (results, db') ->
  sled_contents db' = sled_contents db /\
  scanned (scan_error results) (with_prefix p (sled_contents db)) (readable results) /\
  scanned (scan_error results) (with_prefix p (sled_contents db)).*1 (readable results).*1.
Proof.
  intros (Hdb & Hnd & Hs & Hc)%sled_scan_ok. split; [done|]. apply scanned_entries; [done| |].
  - intros k v Hkv%readable_elem. by apply Hs.
  - intros He k v Hk Hp. apply readable_elem, Hc; [|done..]. intros e. by apply scan_error_false.
Qed.

Lemma sled_update_spec stats msg f s m' :
  (forall e db', f (sd_db s) = (e, db') ->
     sled_contents db' = m' \/ e <> None /\ sled_contents db' = sled_contents (sd_db s)) ->
  db_outcome (fun s => sled_contents (sd_db s)) m' (fun _ => True) s (sled_update stats msg f s).
Proof. intros Hf. unfold sled_update. destruct (f (sd_db s)) as [[e|] db'] eqn:E; cbn; naive_solver. Qed.

#[global] Instance sled_database_spec : DatabaseSpec SledDatabase.
Proof.
  refine {| db_contents := fun s => sled_contents (sd_db s);
            db_read_error := fun s p => scan_error (sled_scan_prefix (sd_db s) p).1 |}; intros.
  - cbn. unfold sleddb_get. destruct (sled_get _ _) as [[r|e] db'] eqn:E; apply sled_get_ok in E as [Hdb Hr]; cbn; auto.
  - apply sled_update_spec. intros ??. apply sled_insert_ok.
  - apply sled_update_spec. intros ??. apply sled_remove_ok.
  - cbn. unfold sleddb_contains. destruct (sled_contains_key _ _) as [[r|e] db'] eqn:E; apply sled_contains_ok in E as [Hdb Hr]; cbn; auto.
  - cbn. unfold sleddb_iter_prefix. destruct (sled_scan_prefix _ _) as [results db'] eqn:E.
    by apply sled_scan_scanned in E as (? & ? & _).
  - cbn. unfold sleddb_keys_with_prefix. destruct (sled_scan_prefix _ _) as [results db'] eqn:E.
    by apply sled_scan_scanned in E as (? & _ & ?).
  - apply sled_update_spec. intros ??. apply sled_batch_ok.
  - apply sled_update_spec. intros ?? E%sled_flush_ok. by left.
  - apply sled_update_spec. intros ?? E%sled_flush_ok. by left.
Defined.
End sled_facts.

(** ** Whatever backend the factory returns *)
Section any_facts.
Context `{RocksSpec, SledSpec}.

Definition any_contents (s : AnyDatabase) : gmap key value :=
  match s with
  | AnyRocks s => db_contents s
  | AnySled s => db_contents s
  | AnyMemory s => db_contents s
  end.
Definition any_read_error (s : AnyDatabase) (p : key) : bool :=
  match s with
  | AnyRocks s => db_read_error s p
  | AnySled s => db_read_error s p
  | AnyMemory s => db_read_error s p
  end.

Lemma dispatch_spec {A : Type} (r : VStM RocksDBDatabase A) (d : VStM SledDatabase A) (m : VStM MemoryDatabase A)
    (M : gmap key value -> gmap key value)
    (p : key) (P : bool -> gmap key value -> A -> Prop) (s : AnyDatabase) :
  (forall s, db_outcome db_contents (M (db_contents s)) (P (db_read_error s p) (db_contents s)) s (r s)) ->
  (forall s, db_outcome db_contents (M (db_contents s)) (P (db_read_error s p) (db_contents s)) s (d s)) ->
  (forall s, db_outcome db_contents (M (db_contents s)) (P (db_read_error s p) (db_contents s)) s (m s)) ->
  db_outcome any_contents (M (any_contents s)) (P (any_read_error s p) (any_contents s)) s (dispatch r d m s).
Proof.
  intros Hr Hd Hm. destruct s as [s|s|s]; cbn;
    [specialize (Hr s); destruct (r s) as [[] ?]|specialize (Hd s); destruct (d s) as [[] ?]
    |specialize (Hm s); destruct (m s) as [[] ?]]; done.
Qed.

#[global] Instance any_database_spec : DatabaseSpec AnyDatabase.
Proof.
  refine {| db_contents := any_contents; db_read_error := any_read_error |}; intros.
  - apply (dispatch_spec _ _ _ (fun m : gmap key value => m) [] (fun _ (m : gmap key value) r => r = m !! k)); intros; apply db_get_spec.
  - apply (dispatch_spec _ _ _ (fun m : gmap key value => <[k := v]> m) [] (fun _ _ _ => True)); intros; apply db_put_spec.
  - apply (dispatch_spec _ _ _ (fun m : gmap key value => delete k m) [] (fun _ _ _ => True)); intros; apply db_delete_spec.
  - pose (P := fun (_ : bool) (m : gmap key value) (b : bool) => b = bool_decide (is_Some (m !! k))).
    apply (dispatch_spec _ _ _ (fun m : gmap key value => m) [] P); intros; apply db_contains_spec.
  - apply (dispatch_spec _ _ _ (fun m : gmap key value => m) p (fun b (m : gmap key value) => scanned b (with_prefix p m)));
      intros; apply db_iter_prefix_spec.
  - apply (dispatch_spec _ _ _ (fun m : gmap key value => m) p (fun b (m : gmap key value) => scanned b (with_prefix p m).*1));
      intros; apply db_keys_with_prefix_spec.
  - apply (dispatch_spec _ _ _ (fun m : gmap key value => apply_batch ops m) [] (fun _ _ _ => True)); intros; apply db_write_batch_spec.
  - apply (dispatch_spec _ _ _ (fun m : gmap key value => m) [] (fun _ _ _ => True)); intros; apply db_flush_spec.
  - apply (dispatch_spec _ _ _ (fun m : gmap key value => m) [] (fun _ _ _ => True)); intros; apply db_compact_spec.
Defined.
End any_facts.

(** ** Triples for the interface

    [DatabaseFails S F]: an operation of the backend fails only if [F]. *)
Class DatabaseFails (S : Type) `{Database S} (F : Prop) := {
  db_get_fails : forall k s e, (db_get k s).1 = Err e -> F;
  db_put_fails : forall k v s e, (db_put k v s).1 = Err e -> F;
  db_delete_fails : forall k s e, (db_delete k s).1 = Err e -> F;
  db_contains_fails : forall k s e, (db_contains k s).1 = Err e -> F;
  db_keys_with_prefix_fails : forall p s e, (db_keys_with_prefix p s).1 = Err e -> F;
  db_write_batch_fails : forall ops s e, (db_write_batch ops s).1 = Err e -> F
}.

Global Instance database_may_fail (S : Type) `{Database S} : DatabaseFails S True | 10.
Proof. by split. Qed.

Global Instance memory_never_fails : DatabaseFails MemoryDatabase False.
Proof. by split. Qed.

Section triples.
Context {S : Type} `{DatabaseSpec S} (F : Prop) `{!DatabaseFails S F}.
Implicit Types (P : gmap key value -> Prop) (k p : key) (v : value).

Lemma outcome_hoare {A} (m : VStM S A) (M : gmap key value -> gmap key value)
    (R : gmap key value -> A -> Prop) P (Q : A -> gmap key value -> Prop) :
  (forall s, db_outcome db_contents (M (db_contents s)) (R (db_contents s)) s (m s)) ->
  (forall s e, (m s).1 = Err e -> F) ->
  (forall c a, P c -> R c a -> Q a (M c)) ->
  hoare F (fun s => P (db_contents s)) m (fun a s => Q a (db_contents s)).
Proof.
  intros Hm Hf HQ s Hs. specialize (Hm s). specialize (Hf s).
  destruct (m s) as [[a|e|] s']; cbn in *; [|by eapply Hf|done].
  destruct Hm as [Ha ->]. by apply HQ.
Qed.

Lemma hoare_db_get k P (Q : option value -> gmap key value -> Prop) :
  (forall c, P c -> Q (c !! k) c) ->
  hoare F (fun s => P (db_contents s)) (db_get k) (fun a s => Q a (db_contents s)).
Proof.
  intros HQ. pose (R := fun (c : gmap key value) (r : option value) => r = c !! k).
  apply (outcome_hoare _ id R); [intros; apply db_get_spec|intros; by eapply db_get_fails|].
  intros c a Hc ->. by apply HQ.
Qed.

Lemma hoare_db_put k v P (Q : unit -> gmap key value -> Prop) :
  (forall c, P c -> Q tt (<[k := v]> c)) ->
  hoare F (fun s => P (db_contents s)) (db_put k v) (fun a s => Q a (db_contents s)).
Proof.
  intros HQ. apply (outcome_hoare _ (fun c => <[k := v]> c) (fun _ _ => True));
    [intros; apply db_put_spec|intros; by eapply db_put_fails|]. intros c [] Hc _. by apply HQ.
Qed.

Lemma hoare_db_delete k P (Q : unit -> gmap key value -> Prop) :
  (forall c, P c -> Q tt (delete k c)) ->
  hoare F (fun s => P (db_contents s)) (db_delete k) (fun a s => Q a (db_contents s)).
Proof.
  intros HQ. apply (outcome_hoare _ (fun c => delete k c) (fun _ _ => True));
    [intros; apply db_delete_spec|intros; by eapply db_delete_fails|]. intros c [] Hc _. by apply HQ.
Qed.

Lemma hoare_db_contains k P (Q : bool -> gmap key value -> Prop) :
  (forall c, P c -> Q (bool_decide (is_Some (c !! k))) c) ->
  hoare F (fun s => P (db_contents s)) (db_contains k) (fun a s => Q a (db_contents s)).
Proof.
  intros HQ. pose (R := fun (c : gmap key value) (b : bool) => b = bool_decide (is_Some (c !! k))).
  apply (outcome_hoare _ id R); [intros; apply db_contains_spec|intros; by eapply db_contains_fails|].
  intros c a Hc ->. by apply HQ.
Qed.

(** The keys of a scan have the prefix and are in the database; some may be missing. *)
Lemma hoare_db_keys p P (Q : list key -> gmap key value -> Prop) :
  (forall c ks, P c -> ks ⊆ (with_prefix p c).*1 -> Q ks c) ->
  hoare F (fun s => P (db_contents s)) (db_keys_with_prefix p) (fun a s => Q a (db_contents s)).
Proof.
  intros HQ s Hs. pose proof (db_keys_with_prefix_spec p s) as Hk. pose proof (db_keys_with_prefix_fails p s) as Hf.
  destruct (db_keys_with_prefix p s) as [[ks|e|] s']; cbn in *; [|by eapply Hf|done].
  destruct Hk as [(_ & Hsub & _) ->]. by apply HQ.
Qed.

Lemma hoare_db_batch (ops : list WriteOperation) P (Q : unit -> gmap key value -> Prop) :
  (forall c, P c -> Q tt (apply_batch ops c)) ->
  hoare F (fun s => P (db_contents s)) (db_write_batch ops) (fun a s => Q a (db_contents s)).
Proof.
  intros HQ. apply (outcome_hoare _ (fun c => apply_batch ops c) (fun _ _ => True));
    [intros; apply db_write_batch_spec|intros; by eapply db_write_batch_fails|]. intros c [] Hc _. by apply HQ.
Qed.
End triples.

(** ** Sequences of operations against a finite map *)
Inductive DbOp :=
| DbGet (k : key)
| DbPut (k : key) (v : value)
| DbDelete (k : key)
| DbContains (k : key)
| DbScan (p : key)
| DbBatch (ops : list WriteOperation).

(** The answer of an operation; the entries of a scan as a set. *)
Inductive DbAnswer :=
| AnsValue (r : option value)
| AnsBool (b : bool)
| AnsEntries (l : gset (key * value))
| AnsUnit.

Definition db_op {S : Type} `{Database S} (op : DbOp) : VStM S DbAnswer :=
  match op with
  | DbGet k => r ← db_get k; mret (AnsValue r)
  | DbPut k v => _ ← db_put k v; mret AnsUnit
  | DbDelete k => _ ← db_delete k; mret AnsUnit
  | DbContains k => b ← db_contains k; mret (AnsBool b)
  | DbScan p => l ← db_iter_prefix p; mret (AnsEntries (list_to_set l))
  | DbBatch ops => _ ← db_write_batch ops; mret AnsUnit
  end.

(** The same operation on a finite map. *)
Definition map_op (op : DbOp) (m : gmap key value) : DbAnswer * gmap key value :=
  match op with
  | DbGet k => (AnsValue (m !! k), m)
  | DbPut k v => (AnsUnit, <[k := v]> m)
  | DbDelete k => (AnsUnit, delete k m)
  | DbContains k => (AnsBool (bool_decide (is_Some (m !! k))), m)
  | DbScan p => (AnsEntries (list_to_set (with_prefix p m)), m)
  | DbBatch ops => (AnsUnit, apply_batch ops m)
  end.

(** One operation on the abstract map: an answer ([None]: an error) and the map after it.  An
    answer is the map's; an error leaves the map or applies the write; a scan is always
    answered, with some of the entries with its prefix, and with all of them unless the backend
    met a read error. *)
Definition map_step (op : DbOp) (read_error : bool) (r : option DbAnswer) (m m' : gmap key value) : Prop :=
  match op, r with
  | DbScan p, Some (AnsEntries l) =>
      m' = m /\ l ⊆ list_to_set (with_prefix p m) /\ (read_error = false -> l = list_to_set (with_prefix p m))
  | DbScan _, _ => False
  | _, Some a => (a, m') = map_op op m
  | _, None => m' = m \/ m' = (map_op op m).2
  end.

Inductive map_run : list DbOp -> list bool -> list (option DbAnswer) -> gmap key value -> gmap key value -> Prop :=
| map_run_nil m : map_run [] [] [] m m
| map_run_cons op ops b bs r rs m m1 m2 :
    map_step op b r m m1 -> map_run ops bs rs m1 m2 -> map_run (op :: ops) (b :: bs) (r :: rs) m m2.

(** A sequence of operations on a backend: for each one whether scanning met a read error, and
    the answer. *)
Definition op_read_error {S : Type} `{DatabaseSpec S} (op : DbOp) (s : S) : bool :=
  match op with DbScan p => db_read_error s p | _ => false end.
Definition answer_of (r : VResult DbAnswer) : option DbAnswer := match r with Ok a => Some a | _ => None end.
Fixpoint db_run {S : Type} `{DatabaseSpec S} (ops : list DbOp) (s : S) : list bool * list (option DbAnswer) * S :=
  match ops with
  | [] => ([], [], s)
  | op :: ops' =>
      let '(r, s') := db_op op s in
      let '(bs, rs, s'') := db_run ops' s' in
      (op_read_error op s :: bs, answer_of r :: rs, s'')
  end.

Section run_facts.
Context {S : Type} `{DatabaseSpec S}.

(** The answer of one operation, whose effect on the map is [m']. *)
Lemma db_op_answer {A} (m : VStM S A) (f : A -> DbAnswer) (m' : gmap key value) (P : A -> Prop) (Q : option DbAnswer -> gmap key value -> Prop) (s : S) :
  db_outcome db_contents m' P s (m s) ->
  (forall a, P a -> Q (Some (f a)) m') -> Q None (db_contents s) -> Q None m' ->
  let out := (a ← m; mret (f a)) s in
  Q (answer_of out.1) (db_contents out.2) /\ out.1 <> Panic.
Proof.
  intros Ho HQ Hn Hm. unfold_st. destruct (m s) as [[a|e|] s']; cbn in *; [|split; [|done]|done].
  - destruct Ho as [Ha ->]. auto.
  - by destruct Ho as [->| ->].
Qed.

(** Scans do not fail. *)
Class ScanAnswers (T : Type) `{Database T} := scan_answers : forall p (s : T), is_ok (db_iter_prefix p s).1 = true.

Lemma db_op_step `{!ScanAnswers S} op s :
  map_step op (op_read_error op s) (answer_of (db_op op s).1) (db_contents s) (db_contents (db_op op s).2) /\
  (db_op op s).1 <> Panic.
Proof.
  destruct op as [k|k v|k|k|p|ops].
  - pose (Q := fun r m' => map_step (DbGet k) false r (db_contents s) m').
    apply (db_op_answer _ _ _ _ Q s (db_get_spec k s)); [intros a ->; done|by left..].
  - apply (db_op_answer _ _ _ _ (fun r m' => map_step (DbPut k v) false r (db_contents s) m') s (db_put_spec k v s));
      [done|by left|by right].
  - apply (db_op_answer _ _ _ _ (fun r m' => map_step (DbDelete k) false r (db_contents s) m') s (db_delete_spec k s));
      [done|by left|by right].
  - pose (Q := fun r m' => map_step (DbContains k) false r (db_contents s) m').
    apply (db_op_answer _ _ _ _ Q s (db_contains_spec k s)); [intros a ->; done|by left..].
  - cbn [db_op op_read_error]. unfold_st. pose proof (scan_answers p s) as Hok. pose proof (db_iter_prefix_spec p s) as Hs.
    destruct (db_iter_prefix p s) as [[l|e|] s']; [|done..]. cbn in *. destruct Hs as [(_ & Hsub & Hall) ->].
    split; [|done]. split; [done|]. split; [set_solver|]. intros He. apply set_eq. intros kv. by rewrite !elem_of_list_to_set, (Hall He).
  - apply (db_op_answer _ _ _ _ (fun r m' => map_step (DbBatch ops) false r (db_contents s) m') s (db_write_batch_spec ops s));
      [done|by left|by right].
Qed.

Lemma db_run_refines `{!ScanAnswers S} ops s :
  let '(bs, rs, s') := db_run ops s in map_run ops bs rs (db_contents s) (db_contents s').
Proof.
  revert s. induction ops as [|op ops IH]; intros s; cbn; [constructor|].
  destruct (db_op_step op s) as [Ho _]. destruct (db_op op s) as [r s']. specialize (IH s').
  destruct (db_run ops s') as [[bs rs] s'']. by econstructor.
Qed.
End run_facts.

Global Instance any_scan_answers `{RocksCrate, SledCrate} : ScanAnswers AnyDatabase.
Proof.
  intros p [s|s|s]; cbn; [unfold rocksdb_iter_prefix|unfold sleddb_iter_prefix|done].
  - by destruct (rocks_seek _ _) as [[] ?].
  - by destruct (sled_scan_prefix _ _).
Qed.

(** The in-memory backend answers everything. *)
Lemma memory_run ops (s : MemoryDatabase) `{RocksSpec, SledSpec} :
  let '(bs, rs, db') := db_run ops (AnyMemory s) in Forall (eq false) bs /\ Forall is_Some rs.
Proof.
  revert s. induction ops as [|op ops IH]; intros s; [done|]. cbn [db_run].
  destruct (db_op op (AnyMemory s)) as [r db1] eqn:E.
  assert (exists s1, db1 = AnyMemory s1 /\ is_ok r = true) as (s1 & -> & Hr) by (destruct op; injection E as <- <-; by eexists).
  specialize (IH s1). destruct (db_run ops (AnyMemory s1)) as [[bs rs] db2]. destruct IH as [Hb Hs].
  split; constructor; try done; [by destruct op|by destruct r].
Qed.

(** C16: Whatever backend the factory returned (RocksDB and Sled behaving as documented,
    errors included), a sequence of gets, puts, deletes, membership tests, prefix scans and
    batches runs as on a finite map: an operation that answers gives the map's answer and
    change; one that fails has changed nothing or, a write, taken effect; nothing panics.  A
    scan never fails: it answers with entries of the map with its prefix, with all of them
    unless the backend met a read error, which the caller is not told.  The in-memory backend
    neither fails nor meets read errors. *)
Theorem database_refines_map `{RocksSpec, SledSpec} (db : AnyDatabase) (ops : list DbOp)
    (errors : list bool) (rs : list (option DbAnswer)) (db' : AnyDatabase) :
  db_run ops db = (errors, rs, db') ->
  map_run ops errors rs (db_contents db) (db_contents db') /\
  (forall op (s : AnyDatabase), (db_op op s).1 <> Panic) /\
  match db with AnyMemory _ => Forall (eq false) errors /\ Forall is_Some rs | _ => True end.
Proof.
  intros E. split_and!.
  - pose proof (db_run_refines ops db) as Hr. by rewrite E in Hr.
  - intros op s. apply db_op_step.
  - destruct db as [|s0|s0]; [done..|]. pose proof (memory_run ops s0) as Hm. by rewrite E in Hm.
Qed.
