(* ===== verification/BlockchainStore.v ===== *)
(** * The blockchain store: crates/storage/src/blockchain_store.rs

    Blocks by height and by hash, transaction locations and chain metadata in a
    key-value database.  The store is written against the class [Database]; its theorems
    hold for every backend with [DatabaseSpec].  Reading changes a backend's counters, so
    the [&self] queries are stateful too.  The crate [bincode] is [BincodeStore]. *)
From stdpp Require Import prelude gmap strings list.
From Stdlib Require Import Strings.Byte.
From S2P Require Import Prelude Types Merkle Transaction Block Genesis Chain ChainProperties Database.

Local Open Scope Z_scope.

(** ** Data *)
Record ChainMetadata := mkChainMetadata {
  cm_chain_height : Z;
  cm_genesis_hash : BlockHash;
  cm_latest_block_hash : BlockHash;
  cm_latest_block_timestamp : Z;
  cm_total_transactions : Z;
  cm_last_updated : Z
}.

(** [ChainMetadata::default]; [now] is the clock. *)
Definition ChainMetadata_default (now : Z) : ChainMetadata :=
  mkChainMetadata 0 BlockHash_zero BlockHash_zero 0 0 now.

Record TxLocation := mkTxLocation { tl_block_height : Z; tl_block_hash : BlockHash }.

(** [bincode] for the stored types; errors by their display strings. *)
Class BincodeStore := {
  bincode_block : Block -> list byte + string;
  bincode_block_decode : list byte -> Block + string;
  bincode_location : TxLocation -> list byte + string;
  bincode_location_decode : list byte -> TxLocation + string;
  bincode_metadata : ChainMetadata -> list byte + string;
  bincode_metadata_decode : list byte -> ChainMetadata + string
}.

(** ** Keys *)
Definition height_key (height : Z) : key := String.list_byte_of_string "block:height:" ++ u64_le height.
Definition hash_key (hash : BlockHash) : key :=
  String.list_byte_of_string "block:hash:" ++ array_list (block_hash_bytes hash).
Definition tx_key (tx_id : TxId) : key := String.list_byte_of_string "tx:" ++ array_list (tx_id_bytes tx_id).
Definition metadata_key : key := String.list_byte_of_string "meta:chain".

Arguments height_key : simpl never.
Arguments hash_key : simpl never.
Arguments tx_key : simpl never.
Arguments metadata_key : simpl never.

(** [for height in start..=end], as the list of heights. *)
Definition heights (first last : Z) : list Z := seqZ first (last - first + 1).

Record BlockchainStore (S : Type) := mkBlockchainStore {
  bst_db : S;
  bst_metadata : ChainMetadata
}.
Arguments mkBlockchainStore {S}.
Arguments bst_db {S}.
Arguments bst_metadata {S}.

(** A call on the store's database. *)
Definition on_db {S A : Type} (m : VStM S A) : VStM (BlockchainStore S) A := fun st =>
  let '(r, db) := m (bst_db st) in (r, mkBlockchainStore db (bst_metadata st)).

Definition set_metadata {S : Type} (md : ChainMetadata) (st : BlockchainStore S) : BlockchainStore S :=
  mkBlockchainStore (bst_db st) md.

Section store.
Context {S : Type} `{Database S, HashCrate, HexCrate, BincodeTx, BincodeStore}.

(** ** Opening *)
Definition load_metadata (now : Z) : VStM S ChainMetadata :=
  r ← db_get metadata_key;
  match r with
  | Some data => lift (map_err (fun e => DeserializationError ("Metadata deserialization failed: " ++ e))
                         (bincode_metadata_decode data))
  | None => mret (ChainMetadata_default now)
  end.

Definition BlockchainStore_new (now : Z) (db : S) : VResult (BlockchainStore S) :=
  let '(r, db') := load_metadata now db in
  metadata ← r; Ok (mkBlockchainStore db' metadata).

Definition save_metadata : VStM (BlockchainStore S) unit :=
  self ← get;
  data ← lift (map_err (fun e => SerializationError ("Metadata serialization failed: " ++ e))
                 (bincode_metadata (bst_metadata self)));
  on_db (db_put metadata_key data).

(** ** Storing a block *)
Definition store_location (height : Z) (hash : BlockHash) (tx : Transaction) : VStM (BlockchainStore S) unit :=
  let tx_location := mkTxLocation height hash in
  data ← lift (map_err (fun e => SerializationError ("TX location serialization failed: " ++ e))
                 (bincode_location tx_location));
  on_db (db_put (tx_key (tx_id tx)) data).

Definition update_tip (height : Z) (hash : BlockHash) (timestamp : Z) (md : ChainMetadata) : ChainMetadata :=
  mkChainMetadata height (cm_genesis_hash md) hash timestamp (cm_total_transactions md) (cm_last_updated md).

Definition store_block (block : Block) : VStM (BlockchainStore S) unit :=
  let height := block_height block in
  let hash := block_hash block in
  block_data ← lift (map_err (fun e => SerializationError ("Block serialization failed: " ++ e))
                       (bincode_block block));
  _ ← on_db (db_put (height_key height) block_data);
  _ ← on_db (db_put (hash_key hash) block_data);
  _ ← st_for_each (store_location height hash) (block_transactions block);
  self ← get;
  if cm_chain_height (bst_metadata self) <? height then
    _ ← modify (set_metadata (update_tip height hash (block_timestamp block) (bst_metadata self)));
    save_metadata
  else mret tt.

(** ** Lookups *)
Definition read_block (k : key) : VStM (BlockchainStore S) (option Block) :=
  r ← on_db (db_get k);
  match r with
  | Some data =>
      block ← lift (map_err (fun e => DeserializationError ("Block deserialization failed: " ++ e))
                      (bincode_block_decode data));
      mret (Some block)
  | None => mret None
  end.

Definition store_get_block_by_height (height : Z) : VStM (BlockchainStore S) (option Block) :=
  read_block (height_key height).
Definition store_get_block_by_hash (hash : BlockHash) : VStM (BlockchainStore S) (option Block) :=
  read_block (hash_key hash).

Definition store_get_transaction (id : TxId) : VStM (BlockchainStore S) (option Transaction) :=
  r ← on_db (db_get (tx_key id));
  match r with
  | Some data =>
      tx_location ← lift (map_err (fun e => DeserializationError ("TX location deserialization failed: " ++ e))
                            (bincode_location_decode data));
      ob ← store_get_block_by_height (tl_block_height tx_location);
      match ob with
      | Some block => mret (find_by (fun t => bool_decide (tx_id t = id)) (block_transactions block))
      | None => mret None
      end
  | None => mret None
  end.

Definition store_contains_transaction (id : TxId) : VStM (BlockchainStore S) bool :=
  on_db (db_contains (tx_key id)).

Definition get_latest_block : VStM (BlockchainStore S) (option Block) :=
  self ← get;
  let md := bst_metadata self in
  if (cm_chain_height md =? 0) && bool_decide (cm_latest_block_hash md = BlockHash_zero) then mret None
  else store_get_block_by_height (cm_chain_height md).

(** The loop of [get_blocks_range]. *)
Fixpoint collect_blocks (hs : list Z) : VStM (BlockchainStore S) (list Block) :=
  match hs with
  | [] => mret []
  | height :: hs' =>
      ob ← store_get_block_by_height height;
      blocks ← collect_blocks hs';
      mret (match ob with Some block => block :: blocks | None => blocks end)
  end.

Definition get_blocks_range (first last : Z) : VStM (BlockchainStore S) (list Block) :=
  collect_blocks (heights first last).

Definition chain_height (st : BlockchainStore S) : Z := cm_chain_height (bst_metadata st).
Definition store_genesis_hash (st : BlockchainStore S) : BlockHash := cm_genesis_hash (bst_metadata st).
Definition store_block_count (st : BlockchainStore S) : Z := u64_add (cm_chain_height (bst_metadata st)) 1.
Definition store_transaction_count (st : BlockchainStore S) : Z := cm_total_transactions (bst_metadata st).

Definition set_genesis_hash (hash : BlockHash) : VStM (BlockchainStore S) unit :=
  _ ← modify (fun st => let md := bst_metadata st in
        set_metadata (mkChainMetadata (cm_chain_height md) hash (cm_latest_block_hash md)
                        (cm_latest_block_timestamp md) (cm_total_transactions md) (cm_last_updated md)) st);
  save_metadata.

Definition increment_tx_count (count : Z) : VStM (BlockchainStore S) unit :=
  _ ← modify (fun st => let md := bst_metadata st in
        set_metadata (mkChainMetadata (cm_chain_height md) (cm_genesis_hash md) (cm_latest_block_hash md)
                        (cm_latest_block_timestamp md) (u64_add (cm_total_transactions md) count) (cm_last_updated md)) st);
  save_metadata.

(** ** Whole chains *)
Definition store_blockchain (blockchain : Blockchain) : VStM (BlockchainStore S) unit :=
  stats ← lift (get_stats blockchain);
  _ ← st_for_each (fun height =>
        ob ← lift (get_block_by_height blockchain height);
        match ob with Some block => store_block block | None => mret tt end)
      (heights 0 (bs_height stats));
  _ ← modify (fun st => let md := bst_metadata st in
        set_metadata (mkChainMetadata (cm_chain_height md) (bs_genesis_hash stats) (cm_latest_block_hash md)
                        (cm_latest_block_timestamp md) (bs_total_transactions stats) (cm_last_updated md)) st);
  save_metadata.

(** The loop of [load_blockchain]: adds the stored blocks to the chain. *)
Fixpoint load_blocks (hs : list Z) (blockchain : Blockchain) : VStM (BlockchainStore S) Blockchain :=
  match hs with
  | [] => mret blockchain
  | height :: hs' =>
      ob ← store_get_block_by_height height;
      match ob with
      | Some block =>
          let '(r, blockchain') := add_block block blockchain in
          _ ← lift r;
          load_blocks hs' blockchain'
      | None => load_blocks hs' blockchain
      end
  end.

Definition load_blockchain (now : Z) : VStM (BlockchainStore S) Blockchain :=
  self ← get;
  let md := bst_metadata self in
  _ ← lift (ensure (negb ((cm_chain_height md =? 0) && bool_decide (cm_genesis_hash md = BlockHash_zero)))
              (InvalidInput "No blockchain data in storage"));
  ob ← store_get_block_by_height 0;
  genesis_block ← lift (ok_or ob (BlockNotFound "Genesis block not found"));
  let genesis_config := GenesisBlock_new [bh_validator (block_header genesis_block)] (block_timestamp genesis_block) in
  blockchain ← lift (Blockchain_new now genesis_config);
  load_blocks (heights 1 (cm_chain_height md)) blockchain.

(** ** Pruning *)
Definition prune_operations (height : Z) (block : Block) : list WriteOperation :=
  WDelete (height_key height) :: WDelete (hash_key (block_hash block)) ::
  ((fun tx => WDelete (tx_key (tx_id tx))) <$> block_transactions block).

(** The loop of [prune_before]: the number of pruned blocks and the deletions. *)
Fixpoint prune_loop (cutoff : Z) (hs : list Z) : VStM (BlockchainStore S) (Z * list WriteOperation) :=
  match hs with
  | [] => mret (0, [])
  | height :: hs' =>
      ob ← store_get_block_by_height height;
      '(count, operations) ← prune_loop cutoff hs';
      mret (match ob with
            | Some block =>
                if (block_timestamp block <? cutoff) && negb (height =? 0)
                then (count + 1, prune_operations height block ++ operations) else (count, operations)
            | None => (count, operations)
            end)
  end.

Definition prune_before (cutoff : Z) : VStM (BlockchainStore S) Z :=
  self ← get;
  '(pruned_count, operations) ← prune_loop cutoff (heights 1 (cm_chain_height (bst_metadata self)));
  _ ← (if bool_decide (operations = []) then mret tt else on_db (db_write_batch operations));
  mret pruned_count.

Definition store_compact : VStM (BlockchainStore S) unit := on_db db_compact.
Definition store_flush : VStM (BlockchainStore S) unit := on_db db_flush.
Definition store_size (st : BlockchainStore S) : Z := db_size (bst_db st).
End store.

(** [BlockchainStore::new_memory]. *)
Definition BlockchainStore_new_memory (now : Z) : BlockchainStore MemoryDatabase :=
  mkBlockchainStore MemoryDatabase_new (ChainMetadata_default now).

(** ** Keys do not clash *)
Lemma height_key_inj h h' : is_u64 h -> is_u64 h' -> height_key h = height_key h' -> h = h'.
Proof. intros Hh Hh' E. apply app_inv_head in E. by apply u64_le_inj. Qed.

Lemma height_key_not_hash h x : height_key h <> hash_key x.
Proof. discriminate. Qed.
Lemma height_key_not_tx h i : height_key h <> tx_key i.
Proof. discriminate. Qed.
Lemma height_key_not_metadata h : height_key h <> metadata_key.
Proof. discriminate. Qed.
Lemma hash_key_not_tx x i : hash_key x <> tx_key i.
Proof. discriminate. Qed.
Lemma hash_key_not_metadata x : hash_key x <> metadata_key.
Proof. discriminate. Qed.
Lemma tx_key_not_metadata i : tx_key i <> metadata_key.
Proof. discriminate. Qed.
Lemma hash_key_inj x y : hash_key x = hash_key y -> x = y.
Proof.
  intros E. apply app_inv_head, array_list_inj in E. destruct x, y. cbn in *. by subst.
Qed.
Lemma tx_key_inj x y : tx_key x = tx_key y -> x = y.
Proof.
  intros E. apply app_inv_head, array_list_inj in E. destruct x, y. cbn in *. by subst.
Qed.
#[local] Hint Resolve height_key_not_hash height_key_not_tx height_key_not_metadata hash_key_not_tx
  hash_key_not_metadata tx_key_not_metadata : core.

(** Documented of [bincode]: values of the stored types serialize, and deserializing
    gives the value back. *)
Definition metadata_in_range (md : ChainMetadata) : Prop :=
  is_u64 (cm_chain_height md) /\ is_u64 (cm_latest_block_timestamp md) /\
  is_u64 (cm_total_transactions md) /\ is_u64 (cm_last_updated md).

Class BincodeStoreSpec `{BincodeStore} := {
  bincode_block_round : forall b, block_in_range b ->
    exists d, bincode_block b = inl d /\ bincode_block_decode d = inl b;
  bincode_location_round : forall l, is_u64 (tl_block_height l) ->
    exists d, bincode_location l = inl d /\ bincode_location_decode d = inl l;
  bincode_metadata_round : forall md, metadata_in_range md ->
    exists d, bincode_metadata md = inl d /\ bincode_metadata_decode d = inl md
}.

Section store_facts.
Context {S : Type} `{DatabaseSpec S, HashCrate, HexCrate, BincodeTx, BincodeStoreSpec}.
Context (F : Prop) `{!DatabaseFails S F}.
Implicit Types (k : key) (v d : value) (c : gmap key value) (md : ChainMetadata) (b : Block).

Definition store_contents (st : BlockchainStore S) : gmap key value := db_contents (bst_db st).

(** The block stored under a key. *)
Definition block_at (c : gmap key value) (k : key) (b : Block) : Prop :=
  exists d, c !! k = Some d /\ bincode_block_decode d = inl b.

(** The location of a transaction. *)
Definition location_at (c : gmap key value) (id : TxId) (l : TxLocation) : Prop :=
  exists d, c !! tx_key id = Some d /\ bincode_location_decode d = inl l.

(** Triples on the contents and the metadata of a store. *)
Definition at_store (P : gmap key value -> ChainMetadata -> Prop) (st : BlockchainStore S) : Prop :=
  P (store_contents st) (bst_metadata st).

Lemma hoare_on_db {A} (m : VStM S A) (P : gmap key value -> ChainMetadata -> Prop)
    (Q : A -> gmap key value -> ChainMetadata -> Prop) :
  (forall md, hoare F (fun s => P (db_contents s) md) m (fun a s => Q a (db_contents s) md)) ->
  hoare F (at_store P) (on_db m) (fun a => at_store (Q a)).
Proof.
  intros Hm st Hst. specialize (Hm (bst_metadata st) (bst_db st) Hst). unfold on_db.
  destruct (m (bst_db st)) as [[] ?]; done.
Qed.

Lemma hoare_put k v (P : gmap key value -> ChainMetadata -> Prop) (Q : gmap key value -> ChainMetadata -> Prop) :
  (forall c md, P c md -> Q (<[k := v]> c) md) ->
  hoare F (at_store P) (on_db (db_put k v)) (fun _ => at_store Q).
Proof. intros HQ. apply hoare_on_db. intros md. by apply (hoare_db_put F k v (fun c => P c md) (fun _ c => Q c md)); auto. Qed.

Lemma save_metadata_hoare (P Q : gmap key value -> ChainMetadata -> Prop) :
  (forall c md, P c md -> metadata_in_range md) ->
  (forall c md d, P c md -> bincode_metadata_decode d = inl md -> Q (<[metadata_key := d]> c) md) ->
  hoare F (at_store P) save_metadata (fun _ => at_store Q).
Proof.
  intros Hr HQ st Hst. destruct (bincode_metadata_round (bst_metadata st)) as (d & E & Ed); [by eapply Hr|].
  unfold save_metadata. unfold_st. rewrite E. cbn.
  refine (hoare_put metadata_key d (fun c md => P c md /\ md = bst_metadata st) Q _ st _); [|done].
  intros c md [Hc ->]. by apply HQ.
Qed.

Lemma read_block_hoare (P : gmap key value -> ChainMetadata -> Prop) (Q : option Block -> gmap key value -> ChainMetadata -> Prop) k :
  (forall c md d, P c md -> c !! k = Some d -> exists b, bincode_block_decode d = inl b) ->
  (forall c md, P c md -> c !! k = None -> Q None c md) ->
  (forall c md b, P c md -> block_at c k b -> Q (Some b) c md) ->
  hoare F (at_store P) (read_block k) (fun r => at_store (Q r)).
Proof.
  intros Hd Hn Hs. eapply (hoare_bind F _ _ _ (fun r => at_store (fun c md => P c md /\ r = c !! k))).
  - apply hoare_on_db. intros md.
    apply (hoare_db_get F k (fun c => P c md) (fun r c => P c md /\ r = c !! k)). auto.
  - intros [d|]; [|apply hoare_ret; intros st [Hst E]; apply Hn; done].
    intros st [Hst E]. destruct (Hd _ _ d Hst) as [b Eb]; [done|]. unfold_st. rewrite Eb. cbn.
    apply Hs; [done|]. exists d. done.
Qed.

(** ** Storing a block *)
Lemma block_at_insert_ne c k k' v b : k <> k' -> block_at c k b -> block_at (<[k' := v]> c) k b.
Proof. intros Hk (d & E & Hd). exists d. by rewrite lookup_insert_ne. Qed.

(** What [store_block] leaves behind: the block under both keys, its transactions
    located, everything else as it was, and the tip advanced to a higher block. *)
Definition stored (b : Block) (c : gmap key value) (md : ChainMetadata)
    (c' : gmap key value) (md' : ChainMetadata) : Prop :=
  block_at c' (height_key (block_height b)) b /\ block_at c' (hash_key (block_hash b)) b /\
  (forall tx, tx ∈ block_transactions b -> location_at c' (tx_id tx) (mkTxLocation (block_height b) (block_hash b))) /\
  (forall k, k <> height_key (block_height b) -> k <> hash_key (block_hash b) -> k <> metadata_key ->
     k ∉ (fun tx => tx_key (tx_id tx)) <$> block_transactions b -> c' !! k = c !! k) /\
  md' = if cm_chain_height md <? block_height b
        then update_tip (block_height b) (block_hash b) (block_timestamp b) md else md.

Definition locate_all (d : list byte) (txs : list Transaction) (c : gmap key value) : gmap key value :=
  foldl (fun c tx => <[tx_key (tx_id tx) := d]> c) c txs.

Lemma locate_all_lookup d txs c k :
  locate_all d txs c !! k =
    if decide (k ∈ (fun tx => tx_key (tx_id tx)) <$> txs) then Some d else c !! k.
Proof.
  revert c. induction txs as [|tx txs IH]; intros c; cbn; [done|]. unfold locate_all in *. rewrite IH.
  destruct (decide (k = tx_key (tx_id tx))) as [->|Hne].
  - rewrite lookup_insert_eq. repeat case_decide; set_solver.
  - rewrite lookup_insert_ne by done. repeat case_decide; set_solver.
Qed.

Definition exactly (c : gmap key value) (md : ChainMetadata) : BlockchainStore S -> Prop :=
  at_store (fun c0 md0 => c0 = c /\ md0 = md).

Lemma put_exactly k v c md : hoare F (exactly c md) (on_db (db_put k v)) (fun _ => exactly (<[k := v]> c) md).
Proof. apply hoare_put. by intros ? ? [-> ->]. Qed.

Lemma store_location_hoare height hash d tx c md :
  bincode_location (mkTxLocation height hash) = inl d ->
  hoare F (exactly c md) (store_location height hash tx) (fun _ => exactly (<[tx_key (tx_id tx) := d]> c) md).
Proof.
  intros E. unfold store_location. eapply hoare_lift_bind; [by rewrite E|]. apply put_exactly.
Qed.

Lemma store_locations_hoare height hash d txs c md :
  bincode_location (mkTxLocation height hash) = inl d ->
  hoare F (exactly c md) (st_for_each (store_location height hash) txs) (fun _ => exactly (locate_all d txs c) md).
Proof.
  intros E. revert c. induction txs as [|tx txs IH]; intros c st Hst; [done|]. cbn [st_for_each].
  pose proof (store_location_hoare height hash d tx c md E st Hst) as Hp.
  destruct (store_location _ _ _ st) as [[] st']; [|done..]. by apply IH.
Qed.

Lemma save_exactly c md :
  metadata_in_range md ->
  hoare F (exactly c md) save_metadata (fun _ => at_store (fun c' md' => md' = md /\
    exists d, bincode_metadata_decode d = inl md /\ c' = <[metadata_key := d]> c)).
Proof.
  intros Hr. apply save_metadata_hoare; [by intros ? ? [-> ->]|]. intros ? ? d [-> ->] Hd. eauto.
Qed.

Lemma store_block_hoare b c md :
  block_in_range b -> metadata_in_range md ->
  hoare F (exactly c md) (store_block b) (fun _ => at_store (stored b c md)).
Proof.
  intros Hb Hmd. pose proof Hb as ((Hh & Ht & _) & _).
  destruct (bincode_block_round b Hb) as (d & E & Ed).
  destruct (bincode_location_round (mkTxLocation (block_height b) (block_hash b)) Hh) as (l & El & Edl).
  set (c' := locate_all l (block_transactions b) (<[hash_key (block_hash b) := d]> (<[height_key (block_height b) := d]> c))).
  assert (forall k, (forall tx, tx ∈ block_transactions b -> k <> tx_key (tx_id tx)) ->
    c' !! k = (<[hash_key (block_hash b) := d]> (<[height_key (block_height b) := d]> c)) !! k) as Hc'.
  { intros k Hk. unfold c'. rewrite locate_all_lookup, decide_False; [done|].
    intros (tx & -> & Htx)%list_elem_of_fmap. by eapply Hk. }
  assert (forall m md', (forall k, k <> metadata_key -> m !! k = c' !! k) ->
    md' = (if cm_chain_height md <? block_height b
           then update_tip (block_height b) (block_hash b) (block_timestamp b) md else md) ->
    stored b c md m md') as Hstored.
  { intros m md' Hm ->. unfold stored. split_and!; [..|done].
    - exists d. rewrite Hm, Hc', lookup_insert_ne, lookup_insert_eq by auto. done.
    - exists d. rewrite Hm, Hc', lookup_insert_eq by auto. done.
    - intros tx Htx. exists l. rewrite Hm by auto. unfold c'. rewrite locate_all_lookup, decide_True; [done|].
      by apply (list_elem_of_fmap_2 (fun tx => tx_key (tx_id tx))).
    - intros k Hk1 Hk2 Hk3 Hk4. rewrite Hm by done. unfold c'. rewrite locate_all_lookup, decide_False by done.
      by rewrite !lookup_insert_ne. }
  unfold store_block.
  eapply hoare_lift_bind; [by rewrite E|].
  eapply hoare_bind; [apply put_exactly|intros ?; cbn beta].
  eapply hoare_bind; [apply put_exactly|intros ?; cbn beta].
  eapply hoare_bind; [by apply store_locations_hoare|intros ?; cbn beta]. fold c'.
  intros st Hst. unfold_st. pose proof Hst as [_ Emd]. rewrite Emd.
  destruct (cm_chain_height md <? block_height b) eqn:Ecmp.
  - set (md' := update_tip _ _ _ md).
    assert (metadata_in_range md') as Hmd'.
    { destruct Hmd as (_ & _ & ? & ?). by split_and!. }
    refine (hoare_conseq F _ _ _ _ (fun _ => at_store (stored b c md)) (save_exactly c' md' Hmd') (fun _ Hs => Hs) _
              (set_metadata md' st) _).
    + intros _ st' [Emd' (dm & _ & Ec)]. apply Hstored; [|by rewrite Emd', ?Ecmp].
      intros k Hk. rewrite Ec. by apply lookup_insert_ne.
    + destruct Hst as [Ec _]. by split.
  - destruct Hst as [Ec _]. apply Hstored; [by rewrite <- Ec|]. by rewrite ?Ecmp.
Qed.

(** ** Reading back *)

(** A query answers [a] and changes neither contents nor metadata, or the database fails. *)
Definition answers {A} (m : VStM (BlockchainStore S) A) (st : BlockchainStore S) (a : A) : Prop :=
  match m st with
  | (Ok a', st') => a' = a /\ exactly (store_contents st) (bst_metadata st) st'
  | (Err _, _) => F
  | (Panic, _) => False
  end.

Lemma exactly_self st : exactly (store_contents st) (bst_metadata st) st.
Proof. done. Qed.

Lemma read_block_answers st k b : block_at (store_contents st) k b -> answers (read_block k) st (Some b).
Proof.
  intros Hb. pose (Q := fun (r : option Block) c md => r = Some b /\ c = store_contents st /\ md = bst_metadata st).
  refine (read_block_hoare (fun c md => c = store_contents st /\ md = bst_metadata st) Q k _ _ _ st (exactly_self st)).
  - intros c md d [-> ->] Hd. destruct Hb as (d' & Hd' & Hdec). exists b. congruence.
  - intros c md [-> ->] Hn. destruct Hb as (d' & Hd' & _). congruence.
  - intros c md b' [-> ->] Hb'. split; [|done]. destruct Hb as (d & Hd & Hdec), Hb' as (d' & Hd' & Hdec').
    assert (d' = d) as -> by congruence. congruence.
Qed.

Lemma read_block_none st k : store_contents st !! k = None -> answers (read_block k) st None.
Proof.
  intros Hb. pose (Q := fun (r : option Block) c md => r = None /\ c = store_contents st /\ md = bst_metadata st).
  refine (read_block_hoare (fun c md => c = store_contents st /\ md = bst_metadata st) Q k _ _ _ st (exactly_self st)).
  - intros c md d [-> ->] Hd. congruence.
  - by intros c md [-> ->] Hn.
  - intros c md b' [-> ->] (d' & Hd' & _). congruence.
Qed.

Lemma get_transaction_answers st id tx b hash :
  location_at (store_contents st) id (mkTxLocation (block_height b) hash) ->
  block_at (store_contents st) (height_key (block_height b)) b ->
  find_by (fun t => bool_decide (tx_id t = id)) (block_transactions b) = Some tx ->
  answers (store_get_transaction id) st (Some tx).
Proof.
  intros (d & Hd & Hdec) Hb Hf. unfold answers, store_get_transaction.
  refine (hoare_bind F _ _ _ (fun r st' => r = Some d /\ exactly (store_contents st) (bst_metadata st) st') _
            _ _ st (exactly_self st)).
  - pose (c0 := store_contents st).
    apply (hoare_on_db (db_get (tx_key id)) (fun c md => c = c0 /\ md = bst_metadata st)
      (fun r c md => r = Some d /\ c = c0 /\ md = bst_metadata st)). intros md.
    apply (hoare_db_get F (tx_key id) (fun c => c = c0 /\ md = bst_metadata st)
      (fun r c => r = Some d /\ c = c0 /\ md = bst_metadata st)). intros c [-> ->]. done.
  - intros r. apply hoare_pure. intros ->. eapply hoare_lift_bind; [by rewrite Hdec|]. cbn [tl_block_height].
    eapply (hoare_bind F _ _ _ (fun r st' => r = Some b /\ exactly (store_contents st) (bst_metadata st) st')).
    + intros st' [Ec Em].
      assert (block_at (store_contents st') (height_key (block_height b)) b) as Hb' by (by rewrite Ec).
      pose proof (read_block_answers st' _ _ Hb') as Ha. unfold answers, store_get_block_by_height in *.
      destruct (read_block _ st') as [[]]; [|done..]. by rewrite Ec, Em in Ha.
    + intros r. apply hoare_pure. intros ->. rewrite Hf. apply hoare_ret. done.
Qed.

Lemma find_by_id txs tx :
  NoDup (tx_id <$> txs) -> tx ∈ txs -> find_by (fun t => bool_decide (tx_id t = tx_id tx)) txs = Some tx.
Proof.
  induction txs as [|t txs IH]; cbn; [by intros _ ?%not_elem_of_nil|]. intros [Ht Hn]%NoDup_cons.
  intros [->|Hin]%elem_of_cons; [by rewrite bool_decide_true|].
  rewrite bool_decide_false; [by apply IH|]. intros E. apply Ht. rewrite E. by apply list_elem_of_fmap_2.
Qed.

(** Storing a block in a store over any backend succeeds unless the database fails,
    and then the block is found by its height and by its hash and each of its transactions
    by its identifier, blocks stored before at other heights are still found by theirs, and
    the chain height is the larger of the old one and the block's. *)
Theorem store_block_lookup (b : Block) (st : BlockchainStore S) :
  block_in_range b -> metadata_in_range (bst_metadata st) -> NoDup (tx_id <$> block_transactions b) ->
  match store_block b st with
  | (Ok _, st') =>
      answers (store_get_block_by_height (block_height b)) st' (Some b) /\
      answers (store_get_block_by_hash (block_hash b)) st' (Some b) /\
      (forall tx, tx ∈ block_transactions b -> answers (store_get_transaction (tx_id tx)) st' (Some tx)) /\
      (forall h b0, is_u64 h -> h <> block_height b -> block_at (store_contents st) (height_key h) b0 ->
         answers (store_get_block_by_height h) st' (Some b0)) /\
      chain_height st' = Z.max (chain_height st) (block_height b)
  | (Err _, _) => F
  | (Panic, _) => False
  end.
Proof.
  intros Hb Hmd Hnd. pose proof Hb as ((Hh & _) & _).
  pose proof (store_block_hoare b _ _ Hb Hmd st (exactly_self st)) as Hs.
  destruct (store_block b st) as [[] st']; [|done..].
  destruct Hs as (Hs1 & Hs2 & Hs3 & Hs4 & Hs5). split_and!.
  - by apply read_block_answers.
  - by apply read_block_answers.
  - intros tx Htx. eapply get_transaction_answers; [by apply Hs3|done|by apply find_by_id].
  - intros h b0 Hh0 Hne (d & Hd & Hdec). apply read_block_answers. exists d. rewrite Hs4; try done.
    + intros E. by apply height_key_inj in E.
    + intros (tx & E & _)%list_elem_of_fmap. by apply height_key_not_tx in E.
  - unfold chain_height. rewrite Hs5. destruct (Z.ltb_spec (cm_chain_height (bst_metadata st)) (block_height b)); cbn; lia.
Qed.

(** ** Storing and loading a chain *)
Lemma heights_cons first last : first <= last -> heights first last = first :: heights (first + 1) last.
Proof.
  intros Hle. unfold heights. rewrite seqZ_cons by lia. do 2 f_equal; lia.
Qed.

Lemma heights_nil first last : last < first -> heights first last = [].
Proof. intros Hlt. unfold heights. apply seqZ_nil. lia. Qed.

(** The first [n] blocks of the list are stored under their positions. *)
Definition holds (blocks : list Block) (n : Z) (c : gmap key value) : Prop :=
  forall i b, blocks !! i = Some b -> Z.of_nat i < n -> block_at c (height_key (Z.of_nat i)) b.

Lemma stored_holds blocks n b c md c' md' :
  blocks !! Z.to_nat n = Some b -> block_height b = n -> 0 <= n -> len blocks <= 2 ^ 64 ->
  holds blocks n c -> stored b c md c' md' -> holds blocks (n + 1) c'.
Proof.
  intros Hb Hbn Hn Hlen Hh (Hs1 & _ & _ & Hs4 & _) i b0 Hi Hlt.
  destruct (decide (Z.of_nat i = n)) as [E|Hne].
  - rewrite E, <- Hbn. replace i with (Z.to_nat n) in Hi by lia. congruence.
  - destruct (Hh i b0 Hi) as (d & Hd & Hdec); [lia|]. exists d. split; [|done].
    apply lookup_lt_Some in Hi, Hb. unfold len in Hlen. rewrite Hs4; [done|..].
    + intros E. apply height_key_inj in E; unfold is_u64; lia.
    + apply height_key_not_hash.
    + apply height_key_not_metadata.
    + intros (tx & E & _)%list_elem_of_fmap. by apply height_key_not_tx in E.
Qed.

Definition store_inv (blocks : list Block) (n : Z) (c : gmap key value) (md : ChainMetadata) : Prop :=
  0 <= n /\ holds blocks n c /\ metadata_in_range md /\ cm_chain_height md = Z.max 0 (n - 1).

Lemma store_loop_hoare (bc : Blockchain) n :
  chain_wf bc -> Forall block_in_range (bc_blocks bc) -> 0 <= n <= bc_height bc + 1 ->
  hoare F (at_store (store_inv (bc_blocks bc) n))
    (st_for_each (fun height =>
        ob ← lift (get_block_by_height bc height);
        match ob with Some block => store_block block | None => mret tt end)
      (heights n (bc_height bc)))
    (fun _ => at_store (store_inv (bc_blocks bc) (bc_height bc + 1))).
Proof.
  intros Hwf Hr Hn.
  pose (I := fun l st => exists m, m <= bc_height bc + 1 /\ l = heights m (bc_height bc) /\ at_store (store_inv (bc_blocks bc) m) st).
  apply (hoare_conseq F (I (heights n (bc_height bc))) _ _ (fun _ => at_store (store_inv (bc_blocks bc) (bc_height bc + 1))));
    [|intros st Hst; exists n; split; [lia|done]|done].
  apply hoare_for_each.
  - intros x l. unfold I. apply hoare_exists. intros m. apply hoare_pure. intros Hm. apply hoare_pure. intros El.
    destruct (decide (m <= bc_height bc)) as [Hle|]; [|rewrite heights_nil in El by lia; done].
    rewrite heights_cons in El by done. injection El as -> ->.
    intros st Hst. pose proof Hst as (Hm0 & Hh & Hmd & Hch).
    rewrite (wf_height bc Hwf) in *. unfold len in *.
    destruct (lookup_lt_is_Some_2 (bc_blocks bc) (Z.to_nat m)) as [b Hb]; [lia|].
    assert (block_height b = m) as Hbm by (rewrite (wf_block_height _ _ _ Hwf Hb); lia).
    assert (block_in_range b) as Hbr by (by apply (Forall_lookup_1 _ _ _ _ Hr Hb)).
    unfold mbind, stM_bind, lift. rewrite (wf_lookup_height bc m Hwf Hm0), Hb.
    pose proof (store_block_hoare b _ _ Hbr Hmd st (exactly_self st)) as Hs.
    destruct (store_block b st) as [[] st']; [|done..]. exists (m + 1). split; [lia|]. split; [done|].
    pose proof Hs as (_ & _ & _ & _ & Emd). split; [lia|]. split.
    { eapply stored_holds; [done..|apply (wf_length bc Hwf)|exact Hh|exact Hs]. }
    pose proof Hbr as ((Hbh & Hbt & _) & _).
    destruct Hmd as (Hm1 & Hm2 & Hm3 & Hm4). rewrite Emd.
    destruct (Z.ltb_spec (cm_chain_height (bst_metadata st)) (block_height b));
      (split; [by split_and!|cbn [update_tip cm_chain_height]; lia]).
  - intros st (m & Hm & El & Hst). destruct (decide (m <= bc_height bc)) as [Hle|].
    + by rewrite heights_cons in El.
    + by replace (bc_height bc + 1) with m by lia.
Qed.

Lemma store_blockchain_hoare (bc : Blockchain) :
  chain_wf bc -> Forall block_in_range (bc_blocks bc) -> is_u64 (transaction_count bc) ->
  hoare F (at_store (fun _ md => metadata_in_range md /\ cm_chain_height md = 0)) (store_blockchain bc)
    (fun _ => at_store (fun c md => holds (bc_blocks bc) (bc_height bc + 1) c /\
       cm_chain_height md = bc_height bc /\ cm_genesis_hash md = bc_genesis_hash bc)).
Proof.
  intros Hwf Hr Htx. unfold store_blockchain, get_stats, latest_block.
  destruct (last (bc_blocks bc)) as [latest|] eqn:El; [|by apply last_None, (wf_nonempty bc Hwf) in El].
  eapply hoare_lift_bind; [reflexivity|]. cbn [bs_height bs_genesis_hash bs_total_transactions].
  assert (0 <= bc_height bc) as Hh.
  { rewrite (wf_height bc Hwf). pose proof (wf_nonempty bc Hwf). unfold len. destruct (bc_blocks bc); [done|cbn; lia]. }
  eapply hoare_bind.
  { eapply hoare_conseq; [apply (store_loop_hoare bc 0 Hwf Hr); lia| |by intros].
    intros st [Hmd Hz]. split_and!; [lia|intros i b _ ?; lia|done..|lia]. }
  intros ?. eapply hoare_bind.
  { apply (hoare_modify F _ _ (fun _ => at_store (fun c md => holds (bc_blocks bc) (bc_height bc + 1) c /\
      metadata_in_range md /\ cm_chain_height md = bc_height bc /\ cm_genesis_hash md = bc_genesis_hash bc))).
    intros st (_ & Hho & (Hm1 & Hm2 & Hm3 & Hm4) & Hch). split; [done|].
    split; [split_and!; done|]. cbn. split; [lia|done]. }
  intros ?. eapply hoare_conseq.
  - apply (save_metadata_hoare (fun c md => holds (bc_blocks bc) (bc_height bc + 1) c /\
      metadata_in_range md /\ cm_chain_height md = bc_height bc /\ cm_genesis_hash md = bc_genesis_hash bc)
      (fun c md => holds (bc_blocks bc) (bc_height bc + 1) c /\
       cm_chain_height md = bc_height bc /\ cm_genesis_hash md = bc_genesis_hash bc)).
    + by intros c md (_ & ? & _).
    + intros c md d (Hho & _ & Hrest) _. split; [|done]. intros i b Hi Hlt.
      apply block_at_insert_ne; [apply height_key_not_metadata|]. by apply Hho.
  - by intros.
  - by intros.
Qed.

(** Adding blocks one after the other. *)
Definition add_blocks (bs : list Block) : VStM Blockchain unit := st_for_each add_block bs.

Lemma add_blocks_cons b bs (c c' : Blockchain) :
  add_blocks (b :: bs) c = (Ok tt, c') -> exists c1 : Blockchain, add_block b c = (Ok tt, c1) /\ add_blocks bs c1 = (Ok tt, c').
Proof.
  unfold add_blocks. cbn. destruct (add_block b c) as [[[]| |] c1] eqn:E; [|by intros [=]..]. eauto.
Qed.

Lemma add_blocks_blocks bs (c c' : Blockchain) :
  add_blocks bs c = (Ok tt, c') -> bc_blocks c' = bc_blocks c ++ bs /\ bc_genesis_hash c' = bc_genesis_hash c.
Proof.
  revert c. induction bs as [|b bs IH]; intros c; [intros [= <-]; by rewrite app_nil_r|].
  intros (c1 & H1a & H1b)%add_blocks_cons. apply IH in H1b as [-> ->].
  apply add_block_Ok in H1a as [_ ->]. cbn. by rewrite <- app_assoc.
Qed.

Lemma add_blocks_reachable bs (c c' : Blockchain) :
  reachable c -> add_blocks bs c = (Ok tt, c') -> len (bc_blocks c') <= 2 ^ 64 -> reachable c'.
Proof.
  revert c. induction bs as [|b bs IH]; intros c Hc E Hlen; [by injection E as <-|].
  apply add_blocks_blocks in E as E'. apply add_blocks_cons in E as (c1 & H1a & H1b).
  refine (IH c1 _ H1b Hlen). eapply reachable_add; [exact Hc| |exact H1a].
  rewrite (wf_height c (reachable_wf c Hc)). destruct E' as [E' _]. rewrite E', len_app in Hlen.
  pose proof (len_nonneg bs). unfold len in *. cbn in *. lia.
Qed.

Lemma load_blocks_hoare bs n bc bc' c md :
  add_blocks bs bc = (Ok tt, bc') ->
  (forall i b, bs !! i = Some b -> block_at c (height_key (n + Z.of_nat i)) b) ->
  hoare F (exactly c md) (load_blocks (seqZ n (len bs)) bc) (fun r _ => r = bc').
Proof.
  revert n bc. induction bs as [|b bs IH]; intros n bc E Hc.
  - injection E as <-. by apply hoare_ret.
  - apply add_blocks_cons in E as (bc1 & E1 & E2).
    replace (seqZ n (len (b :: bs))) with (n :: seqZ (n + 1) (len bs)).
    2:{ unfold len. cbn [length]. rewrite (seqZ_cons n (Z.of_nat (Datatypes.S (length bs)))) by lia. do 2 f_equal; lia. }
    cbn [load_blocks]. eapply (hoare_bind F _ _ _ (fun r st => r = Some b /\ exactly c md st)).
    + intros st [Ec Em]. assert (block_at (store_contents st) (height_key n) b) as Hb.
      { rewrite Ec. specialize (Hc 0%nat b eq_refl). by rewrite Z.add_0_r in Hc. }
      pose proof (read_block_answers st _ _ Hb) as Ha. unfold answers, store_get_block_by_height in *.
      destruct (read_block _ st) as [[]]; [|done..]. by rewrite Ec, Em in Ha.
    + intros r. apply hoare_pure. intros ->. rewrite E1. eapply hoare_lift_bind; [done|].
      apply IH; [done|]. intros i b' Hi. specialize (Hc (Datatypes.S i) b' Hi).
      by replace (n + 1 + Z.of_nat i) with (n + Z.of_nat (Datatypes.S i)) by lia.
Qed.

Lemma load_blockchain_hoare now now' (v : PublicKey) ts bc0 bs bc :
  Blockchain_new now (GenesisBlock_new [v] ts) = Ok bc0 -> add_blocks bs bc0 = (Ok tt, bc) -> chain_wf bc ->
  bc_height bc <> 0 \/ bc_genesis_hash bc <> BlockHash_zero ->
  hoare F (at_store (fun c md => holds (bc_blocks bc) (bc_height bc + 1) c /\
       cm_chain_height md = bc_height bc /\ cm_genesis_hash md = bc_genesis_hash bc))
    (load_blockchain now') (fun r _ => r = bc).
Proof.
  intros Hnew Hadd Hwf Hne st (Hho & Hch & Hgen). revert st Hho Hch Hgen.
  unfold Blockchain_new in Hnew. apply bind_Ok in Hnew as (b0 & Hb0 & Hbc0).
  assert (bc_blocks bc = b0 :: bs) as Ebl.
  { apply add_blocks_blocks in Hadd as [-> _]. by injection Hbc0 as <-. }
  assert (bc_height bc = len bs) as Ehl.
  { rewrite (wf_height bc Hwf), Ebl. unfold len. cbn. lia. }
  intros st Hho Hch Hgen.
  refine (hoare_get_bind F (eq st) _ (fun r _ => r = bc) _ st eq_refl). intros s <-.
  apply (hoare_conseq F (exactly (store_contents st) (bst_metadata st)) _ _ (fun r _ => r = bc)); [|by intros s <-|done].
  apply (hoare_lift_bind F _ _ tt).
  { apply ensure_Ok. rewrite Hch, Hgen. rewrite negb_true_iff, andb_false_iff.
    destruct Hne as [Hne|Hne]; [left; by apply Z.eqb_neq|right; by apply bool_decide_eq_false]. }
  eapply (hoare_bind F _ _ _ (fun r s' => r = Some b0 /\ exactly (store_contents st) (bst_metadata st) s')).
  { intros s [Ec Em]. assert (block_at (store_contents s) (height_key 0) b0) as Hb.
    { rewrite Ec. apply (Hho 0%nat b0); [by rewrite Ebl|]. pose proof (len_nonneg bs). lia. }
    pose proof (read_block_answers s _ _ Hb) as Ha. unfold answers, store_get_block_by_height in *.
    destruct (read_block _ s) as [[]]; [|done..]. by rewrite Ec, Em in Ha. }
  intros r. apply hoare_pure. intros ->. eapply hoare_lift_bind; [done|].
  pose proof (create_block_validator _ _ _ _ _ Hb0 eq_refl) as Ev.
  apply create_block_Ok in Hb0 as Hb0'. destruct Hb0' as (_ & _ & _ & Et & _). cbn in Et.
  eapply hoare_lift_bind.
  { unfold Blockchain_new. rewrite Ev, Et, (create_block_clock now' now), Hb0. exact Hbc0. }
  unfold heights. rewrite Hch, Ehl. replace (len bs - 1 + 1) with (len bs) by lia.
  apply load_blocks_hoare; [done|]. intros i b Hi.
  replace (1 + Z.of_nat i) with (Z.of_nat (Datatypes.S i)) by lia. apply Hho; [by rewrite Ebl|].
  apply lookup_lt_Some in Hi. unfold len in Ehl. lia.
Qed.

(** C17: Storing a whole chain that grew from the genesis of one validator into a fresh
    store and loading it gives the same chain back, unless the database fails. *)
Theorem store_load_round_trip (now now' ts : Z) (v : PublicKey) (bc0 bc : Blockchain) (bs : list Block)
    (st : BlockchainStore S) :
  Blockchain_new now (GenesisBlock_new [v] ts) = Ok bc0 -> add_blocks bs bc0 = (Ok tt, bc) ->
  Forall block_in_range (bc_blocks bc) -> len (bc_blocks bc) <= 2 ^ 64 -> is_u64 (transaction_count bc) ->
  bc_height bc <> 0 \/ bc_genesis_hash bc <> BlockHash_zero ->
  metadata_in_range (bst_metadata st) -> chain_height st = 0 ->
  match (_ ← store_blockchain bc; load_blockchain now') st with
  | (Ok bc', _) => bc' = bc
  | (Err _, _) => F
  | (Panic, _) => False
  end.
Proof.
  intros Hnew Hadd Hr Hlen Htx Hne Hmd Hz.
  assert (chain_wf bc) as Hwf.
  { apply reachable_wf. eapply add_blocks_reachable; [by eapply reachable_new|done..]. }
  refine (hoare_bind F _ _ _ _ _ (store_blockchain_hoare bc Hwf Hr Htx) _ st (conj Hmd Hz)).
  intros []. by eapply load_blockchain_hoare.
Qed.

(** ** Pruning *)
Definition prunable (cutoff : Z) (b : Block) : bool := block_timestamp b <? cutoff.

(** What the loop collects for blocks stored from height [n] on. *)
Fixpoint prune_plan (cutoff n : Z) (bs : list Block) : Z * list WriteOperation :=
  match bs with
  | [] => (0, [])
  | b :: bs' =>
      let '(count, ops) := prune_plan cutoff (n + 1) bs' in
      if prunable cutoff b then (count + 1, prune_operations n b ++ ops) else (count, ops)
  end.

Lemma prune_loop_hoare cutoff n bs c md :
  0 < n -> (forall i b, bs !! i = Some b -> block_at c (height_key (n + Z.of_nat i)) b) ->
  hoare F (exactly c md) (prune_loop cutoff (seqZ n (len bs)))
    (fun r st => r = prune_plan cutoff n bs /\ exactly c md st).
Proof.
  revert n. induction bs as [|b bs IH]; intros n Hn Hc; [by apply hoare_ret|].
  replace (seqZ n (len (b :: bs))) with (n :: seqZ (n + 1) (len bs)).
  2:{ unfold len. cbn [length]. rewrite (seqZ_cons n (Z.of_nat (Datatypes.S (length bs)))) by lia. do 2 f_equal; lia. }
  cbn [prune_loop]. eapply (hoare_bind F _ _ _ (fun r st => r = Some b /\ exactly c md st)).
  { intros st [Ec Em]. assert (block_at (store_contents st) (height_key n) b) as Hb.
    { rewrite Ec. specialize (Hc 0%nat b eq_refl). by rewrite Z.add_0_r in Hc. }
    pose proof (read_block_answers st _ _ Hb) as Ha. unfold answers, store_get_block_by_height in *.
    destruct (read_block _ st) as [[]]; [|done..]. by rewrite Ec, Em in Ha. }
  intros r. apply hoare_pure. intros ->. eapply hoare_bind.
  { apply IH; [lia|]. intros i b' Hi. specialize (Hc (Datatypes.S i) b' Hi).
    by replace (n + 1 + Z.of_nat i) with (n + Z.of_nat (Datatypes.S i)) by lia. }
  intros [count ops]. apply hoare_pure. intros E. cbn [prune_plan]. rewrite <- E. apply hoare_ret.
  intros st Hst. split; [|done]. unfold prunable. destruct (block_timestamp b <? cutoff); cbn [andb]; [|done].
  destruct (Z.eqb_spec n 0); [lia|done].
Qed.

Lemma apply_deletes ops c k :
  Forall (fun op => exists j, op = WDelete j) ops ->
  apply_batch ops c !! k = None /\ WDelete k ∈ ops \/ apply_batch ops c !! k = c !! k /\ WDelete k ∉ ops.
Proof.
  intros Hf. revert c. induction Hf as [|op ops [j ->] _ IH]; intros c; [right; set_solver|].
  change (apply_batch (WDelete j :: ops) c) with (apply_batch ops (delete j c)).
  destruct (IH (delete j c)) as [[-> ?]|[-> ?]]; [left; set_solver|].
  destruct (decide (j = k)) as [->|Hne].
  - left. rewrite lookup_delete_eq. set_solver.
  - right. rewrite lookup_delete_ne by done. set_solver.
Qed.

Lemma prune_plan_deletes cutoff n bs : Forall (fun op => exists j, op = WDelete j) (prune_plan cutoff n bs).2.
Proof.
  revert n. induction bs as [|b bs IH]; intros n; cbn; [done|]. specialize (IH (n + 1)).
  destruct (prune_plan cutoff (n + 1) bs) as [count ops]. destruct (prunable cutoff b); [|done]. cbn [snd].
  repeat (apply Forall_cons; split; [by eexists|]). apply Forall_app. split; [|done].
  apply Forall_fmap, Forall_true. intros tx. by eexists.
Qed.

Lemma WDelete_inj (j k : key) : WDelete j = WDelete k -> j = k.
Proof. congruence. Qed.

Lemma prune_plan_sound cutoff n bs j :
  0 <= n -> n + len bs <= 2 ^ 64 -> is_u64 j -> WDelete (height_key j) ∈ (prune_plan cutoff n bs).2 ->
  exists m b, bs !! m = Some b /\ prunable cutoff b = true /\ j = n + Z.of_nat m.
Proof.
  revert n. induction bs as [|b bs IH]; intros n Hn Hl Hj; cbn [prune_plan snd]; [by intros ?%not_elem_of_nil|].
  assert (len (b :: bs) = 1 + len bs) as El by (unfold len; cbn; lia). pose proof (len_nonneg bs).
  specialize (IH (n + 1)). destruct (prune_plan cutoff (n + 1) bs) as [count ops]. cbn [snd] in IH.
  assert (WDelete (height_key j) ∈ ops -> exists m b0, (b :: bs) !! m = Some b0 /\ prunable cutoff b0 = true /\ j = n + Z.of_nat m) as Htail.
  { intros Hin. destruct IH as (m & b0 & ? & ? & ?); [lia|lia|done|done|]. exists (Datatypes.S m), b0.
    split_and!; [done..|lia]. }
  destruct (prunable cutoff b) eqn:Ep; [|exact Htail]. cbn [snd]. intros [Hin|Hin]%elem_of_app; [|by apply Htail].
  exists 0%nat, b. split_and!; [done..|]. unfold prune_operations in Hin.
  apply elem_of_cons in Hin as [E|Hin]; [apply WDelete_inj, height_key_inj in E; [lia|done|unfold is_u64; lia]|].
  apply elem_of_cons in Hin as [E|Hin]; [by apply WDelete_inj, height_key_not_hash in E|].
  apply list_elem_of_fmap in Hin as (tx & E & _). by apply WDelete_inj, height_key_not_tx in E.
Qed.

Lemma prune_plan_no_genesis cutoff bs :
  1 + len bs <= 2 ^ 64 -> WDelete (height_key 0) ∉ (prune_plan cutoff 1 bs).2.
Proof. intros Hl Hin. apply prune_plan_sound in Hin as (m & b & _ & _ & ?); unfold is_u64; lia. Qed.

Lemma prune_plan_heights cutoff n bs i :
  0 <= n -> n + len bs <= 2 ^ 64 -> 0 <= i < len bs ->
  WDelete (height_key (n + i)) ∈ (prune_plan cutoff n bs).2 <->
  exists b, bs !! Z.to_nat i = Some b /\ prunable cutoff b = true.
Proof.
  intros Hn Hl Hi. split.
  - intros Hin. apply prune_plan_sound in Hin as (m & b & Hb & Hp & E); [|unfold is_u64; lia..].
    exists b. by replace (Z.to_nat i) with m by lia.
  - intros (b & Hb & Hp). revert n i Hn Hl Hi Hb.
    induction bs as [|b' bs IH]; intros n i Hn Hl Hi Hb; [done|]. cbn [prune_plan].
    assert (len (b' :: bs) = 1 + len bs) as El by (unfold len; cbn; lia).
    destruct (prune_plan cutoff (n + 1) bs) as [count ops] eqn:Epl. destruct (decide (i = 0)) as [->|Hne].
    + cbn in Hb. injection Hb as ->. rewrite Hp, Z.add_0_r. cbn [snd]. apply elem_of_app. left. left.
    + replace (Z.to_nat i) with (Datatypes.S (Z.to_nat (i - 1))) in Hb by lia. cbn in Hb.
      specialize (IH (n + 1) (i - 1)). rewrite Epl in IH. replace (n + 1 + (i - 1)) with (n + i) in IH by lia.
      specialize (IH ltac:(lia) ltac:(lia) ltac:(lia) Hb). cbn [snd] in IH.
      destruct (prunable cutoff b'); cbn [snd]; [apply elem_of_app; by right|done].
Qed.

Lemma prune_plan_count cutoff n bs :
  (prune_plan cutoff n bs).1 = len (filter (fun b => prunable cutoff b = true) bs).
Proof.
  revert n. induction bs as [|b bs IH]; intros n; cbn [prune_plan]; [done|]. specialize (IH (n + 1)).
  destruct (prune_plan cutoff (n + 1) bs) as [count ops]. cbn [fst] in IH. rewrite filter_cons.
  destruct (prunable cutoff b); [rewrite decide_True by done|by rewrite decide_False by done].
  cbn [fst]. rewrite IH. unfold len. cbn. lia.
Qed.

(** On a store that holds the blocks of a chain under their heights, prune_before
    returns the number of blocks after the genesis with an earlier timestamp and deletes
    exactly those; the genesis block and the blocks at or after the cutoff remain, and
    the recorded chain height does not change. *)
Lemma prune_before_spec (cutoff : Z) (b0 : Block) (bs : list Block) (st : BlockchainStore S) :
  1 + len bs <= 2 ^ 64 -> chain_height st = len bs -> holds (b0 :: bs) (1 + len bs) (store_contents st) ->
  match prune_before cutoff st with
  | (Ok n, st') =>
      n = len (filter (fun b => prunable cutoff b = true) bs) /\ chain_height st' = chain_height st /\
      block_at (store_contents st') (height_key 0) b0 /\
      (forall i b, bs !! i = Some b ->
         if prunable cutoff b then store_contents st' !! height_key (1 + Z.of_nat i) = None
         else block_at (store_contents st') (height_key (1 + Z.of_nat i)) b)
  | (Err _, _) => F
  | (Panic, _) => False
  end.
Proof.
  intros Hlen Hch Hho.
  assert (forall i b, bs !! i = Some b -> block_at (store_contents st) (height_key (1 + Z.of_nat i)) b) as Hbs.
  { intros i b Hi. replace (1 + Z.of_nat i) with (Z.of_nat (Datatypes.S i)) by lia. apply Hho; [done|].
    apply lookup_lt_Some in Hi. unfold len. lia. }
  set (ops := (prune_plan cutoff 1 bs).2).
  assert (hoare F (eq st) (prune_before cutoff)
    (fun n => at_store (fun c md => n = (prune_plan cutoff 1 bs).1 /\ md = bst_metadata st /\ c = apply_batch ops (store_contents st)))) as Hp.
  { apply hoare_get_bind. intros s <-. unfold chain_height in Hch. rewrite Hch. unfold heights.
    replace (len bs - 1 + 1) with (len bs) by lia. eapply hoare_bind.
    { eapply hoare_conseq; [apply (prune_loop_hoare cutoff 1 bs (store_contents st) (bst_metadata st)); [lia|done]| |done].
      by intros s <-. }
    intros [n l]. apply hoare_pure. intros E. unfold ops. rewrite <- E. cbn [fst snd].
    eapply (hoare_bind F _ _ _ (fun _ => at_store (fun c md => md = bst_metadata st /\ c = apply_batch l (store_contents st)))).
    - case_bool_decide as El; [subst l; apply hoare_ret; by intros s [? ?]|].
      apply (hoare_on_db (db_write_batch l) (fun c md => c = store_contents st /\ md = bst_metadata st)
        (fun _ c md => md = bst_metadata st /\ c = apply_batch l (store_contents st))). intros md.
      apply (hoare_db_batch F l (fun c => c = store_contents st /\ md = bst_metadata st)
        (fun _ c => md = bst_metadata st /\ c = apply_batch l (store_contents st))). by intros c [-> ->].
    - intros ?. apply hoare_ret. by intros s [? ?]. }
  specialize (Hp st eq_refl). destruct (prune_before cutoff st) as [[n| |] st']; [|done..].
  destruct Hp as (-> & Emd & Ec). unfold chain_height. rewrite prune_plan_count, Emd. split; [done|]. split; [done|].
  pose proof (prune_plan_deletes cutoff 1 bs) as Hdel. fold ops in Hdel. rewrite Ec.
  assert (forall k, (WDelete k ∉ ops) -> apply_batch ops (store_contents st) !! k = store_contents st !! k) as Hkeep.
  { intros k Hk. destruct (apply_deletes ops (store_contents st) k Hdel) as [[? ?]|[? ?]]; done. }
  split.
  - destruct (Hho 0%nat b0 eq_refl) as (d & Hd & Hdec); [pose proof (len_nonneg bs); lia|]. exists d. split; [|done].
    rewrite Hkeep; [done|]. by apply prune_plan_no_genesis.
  - intros i b Hi. apply lookup_lt_Some in Hi as Hlt.
    pose proof (prune_plan_heights cutoff 1 bs (Z.of_nat i)) as Hph. fold ops in Hph.
    rewrite Nat2Z.id in Hph. specialize (Hph ltac:(lia) ltac:(lia) ltac:(unfold len; lia)).
    destruct (prunable cutoff b) eqn:Ep.
    + destruct (apply_deletes ops (store_contents st) (height_key (1 + Z.of_nat i)) Hdel) as [[? ?]|[_ Hn]]; [done|].
      exfalso. apply Hn, Hph. eauto.
    + destruct (Hbs i b Hi) as (d & Hd & Hdec). exists d. split; [|done]. rewrite Hkeep; [done|].
      intros (b' & Hb' & Hp')%Hph. congruence.
Qed.
End store_facts.

(** ** Chains of several validators cannot be loaded *)
Section load_failure.
Context {S : Type} `{DatabaseSpec S, HashCrate, HexCrate, BincodeTx, !BincodeTxSpec, BincodeStoreSpec}.

Lemma add_block_bad_link b p bc :
  Block_validate b = Ok tt -> last (bc_blocks bc) = Some p -> block_previous_hash b <> block_hash p ->
  exists e, add_block b bc = (Err e, bc).
Proof.
  intros Hv Hl Hne. assert (validate_chain_link b p <> Ok tt) as Hlink.
  { unfold validate_chain_link. rewrite !ensure_bind. intros (_ & Hh & _). by apply bool_decide_eq_true in Hh. }
  pose proof (validate_chain_link_no_panic b p) as Hnp.
  unfold add_block, mbind, stM_bind, lift, get, latest_block. rewrite Hv, Hl. cbn.
  destruct (validate_chain_link b p) as [[]|e|]; [done|by eexists|done].
Qed.

Lemma load_wrong_genesis (now' : Z) (b0 g1 b1 : Block) (bs : list Block) (bc : Blockchain)
    (c : gmap key value) (md : ChainMetadata) :
  chain_wf bc -> bc_blocks bc = b0 :: b1 :: bs -> Block_validate b1 = Ok tt ->
  create_block now' (GenesisBlock_new [bh_validator (block_header b0)] (block_timestamp b0)) = Ok g1 ->
  block_previous_hash b1 <> block_hash g1 ->
  holds (bc_blocks bc) (bc_height bc + 1) c -> cm_chain_height md = bc_height bc ->
  hoare (S := BlockchainStore S) True (exactly c md) (load_blockchain now') (fun _ _ => False).
Proof.
  intros Hwf Ebl Hv Hg Hne Hho Hch.
  assert (bc_height bc = 1 + len bs) as Ehl by (rewrite (wf_height bc Hwf), Ebl; unfold len; cbn; lia).
  pose proof (len_nonneg bs) as Hpos.
  assert (forall i b, bc_blocks bc !! i = Some b -> Z.of_nat i <= bc_height bc ->
    hoare (S := BlockchainStore S) True (exactly c md) (store_get_block_by_height (Z.of_nat i))
      (fun r st => r = Some b /\ exactly c md st)) as Hread.
  { intros i b Hi Hle st [Ec Em]. assert (block_at (store_contents st) (height_key (Z.of_nat i)) b) as Hb.
    { rewrite Ec. apply Hho; [done|lia]. }
    pose proof (read_block_answers True st _ _ Hb) as Ha. unfold answers, store_get_block_by_height in *.
    destruct (read_block _ st) as [[]]; [|done..]. by rewrite Ec, Em in Ha. }
  apply hoare_get_bind. intros s Hs.
  apply (hoare_conseq True (exactly c md) _ _ (fun _ _ => False)); [|by intros ? <-|done]. destruct Hs as [_ Em].
  apply (hoare_lift_bind True _ _ tt).
  { apply ensure_Ok. rewrite Em, Hch, Ehl. destruct (Z.eqb_spec (1 + len bs) 0); [lia|done]. }
  eapply hoare_bind; [apply (Hread 0%nat b0); [by rewrite Ebl|lia]|]. intros r. apply hoare_pure. intros ->.
  eapply hoare_lift_bind; [done|]. eapply hoare_lift_bind.
  { unfold Blockchain_new. by rewrite Hg. }
  rewrite Em, Hch, heights_cons by lia. cbn [load_blocks].
  eapply hoare_bind; [apply (Hread 1%nat b1); [by rewrite Ebl|lia]|]. intros r. apply hoare_pure. intros ->.
  edestruct (add_block_bad_link b1 g1) as [e He]; [exact Hv| |exact Hne|rewrite He]; [done|].
  intros st Hst. done.
Qed.

(** A chain whose genesis names more than one validator and that has a further block
    cannot be loaded again: load_blockchain rebuilds the genesis from the header's
    validator alone, so unless hashes collide the next block does not link to it and
    loading ends in an error, whatever the backend. *)
Theorem load_loses_validators (now now' ts : Z) (v v' : PublicKey) (vs : list PublicKey)
    (bc0 bc : Blockchain) (b0 b1 g1 : Block) (bs : list Block) (st : BlockchainStore S) :
  Blockchain_new now (GenesisBlock_new (v :: v' :: vs) ts) = Ok bc0 -> add_blocks (b1 :: bs) bc0 = (Ok tt, bc) ->
  Forall block_in_range (bc_blocks bc) -> len (bc_blocks bc) <= 2 ^ 64 -> is_u64 (transaction_count bc) ->
  create_block now (GenesisBlock_new (v :: v' :: vs) ts) = Ok b0 ->
  create_block now (GenesisBlock_new [v] ts) = Ok g1 -> block_in_range g1 ->
  no_collision (block_inputs b0) (block_inputs g1) ->
  metadata_in_range (bst_metadata st) -> chain_height st = 0 ->
  exists e st', (_ ← store_blockchain bc; load_blockchain now') st = (Err e, st').
Proof.
  intros Hnew Hadd Hr Hlen Htx Hb0 Hg1 Hgr Hnc Hmd Hz.
  assert (chain_wf bc) as Hwf.
  { apply reachable_wf. eapply add_blocks_reachable; [by eapply reachable_new|done..]. }
  assert (bc_blocks bc = b0 :: b1 :: bs) as Ebl.
  { apply add_blocks_blocks in Hadd as [-> _]. unfold Blockchain_new in Hnew. rewrite Hb0 in Hnew. by injection Hnew as <-. }
  assert (block_previous_hash b1 <> block_hash g1 /\ Block_validate b1 = Ok tt) as [Hne Hv1].
  { apply add_blocks_cons in Hadd as (bc1 & Hadd & _). apply add_block_Ok in Hadd as [(Hv & (p & Hl & Hlink) & _) _].
    split; [|done]. unfold Blockchain_new in Hnew. rewrite Hb0 in Hnew. injection Hnew as <-. injection Hl as <-.
    unfold validate_chain_link in Hlink. rewrite !ensure_bind in Hlink. destruct Hlink as (_ & Hp & _).
    apply bool_decide_eq_true in Hp as ->. intros E.
    apply create_block_Ok in Hb0 as (Hvb & _ & _ & _ & Hl0), Hg1 as (Hvg & _ & _ & _ & Hl1).
    destruct (block_binding b0 g1 Hvb Hvg) as [_ Et]; [by apply (Forall_lookup_1 _ _ 0%nat _ Hr); rewrite Ebl|done..|].
    rewrite Et, Hl1 in Hl0. done. }
  pose proof (create_block_validator _ _ _ _ _ Hb0 eq_refl) as Ev.
  apply create_block_Ok in Hb0 as (_ & _ & _ & Et & _). cbn in Et.
  assert (hoare (S := BlockchainStore S) True (at_store (fun _ md => metadata_in_range md /\ cm_chain_height md = 0))
    (_ ← store_blockchain bc; load_blockchain now') (fun _ _ => False)) as Hh.
  { eapply hoare_bind; [by apply store_blockchain_hoare|]. intros []. cbn beta. intros s (Hho & Hch & _).
    refine (load_wrong_genesis now' b0 g1 b1 bs bc (store_contents s) (bst_metadata s) Hwf Ebl Hv1 _ Hne Hho Hch s (exactly_self s)).
    by rewrite Ev, Et, (create_block_clock now' now). }
  specialize (Hh st (conj Hmd Hz)). destruct ((_ ← store_blockchain bc; load_blockchain now') st) as [[]]; naive_solver.
Qed.
End load_failure.
