(* ===== verification/Jurisdiction.v ===== *)
(** * Jurisdictions: crates/storage/src/jurisdiction.rs

    The hierarchy of jurisdictions with their voting locations, and the paths that name
    them.  The loops over parent links ([build_path], [get_all_descendants]) take fuel and
    return [None] when it runs out; [descendants_terminate] says when they end.  [Libm] are
    the platform's trigonometric functions and [to_lowercase] is Unicode case mapping. *)
From stdpp Require Import prelude gmap strings list.
From Stdlib Require Import Strings.Byte Strings.Ascii Floats.SpecFloat.
From S2P Require Import Prelude Floats64 Types.

Local Open Scope Z_scope.

(** ** Levels *)
Inductive JurisdictionLevel := Federal | State | County | City | Tribal | Precinct | LevelPollingPlace.

Definition parent_level (l : JurisdictionLevel) : option JurisdictionLevel :=
  match l with
  | Federal => None
  | State => Some Federal
  | County => Some State
  | City => Some County
  | Tribal => Some Federal
  | Precinct => Some City
  | LevelPollingPlace => Some Precinct
  end.

Definition level_to_str (l : JurisdictionLevel) : string :=
  match l with
  | Federal => "federal"
  | State => "state"
  | County => "county"
  | City => "city"
  | Tribal => "tribal"
  | Precinct => "precinct"
  | LevelPollingPlace => "polling_place"
  end.
Definition level_fmt (l : JurisdictionLevel) : string := level_to_str l.

(** ** Locations *)
Record StreetAddress := mkStreetAddress {
  ad_street_address : string;
  ad_street_address_2 : option string;
  ad_city : string;
  ad_state : string;
  ad_zip_code : string;
  ad_county : option string
}.

Definition address_fmt (a : StreetAddress) : string :=
  (ad_street_address a ++ ", " ++ ad_city a ++ ", " ++ ad_state a ++ " " ++ ad_zip_code a)%string.

Record GeoCoordinates := mkGeoCoordinates {
  gc_latitude : f64;
  gc_longitude : f64;
  gc_altitude : option f64
}.

Definition GeoCoordinates_new (latitude longitude : f64) : GeoCoordinates :=
  mkGeoCoordinates latitude longitude None.

Inductive LocationType := PollingPlace | EarlyVotingCenter | DropBox | MobileUnit | ElectionOffice.

Record LocationMetadata := mkLocationMetadata {
  lm_registered_voters : Z;
  lm_is_accessible : bool;
  lm_hours : option string;
  lm_contact_phone : option string;
  lm_notes : option string
}.
Definition LocationMetadata_default : LocationMetadata := mkLocationMetadata 0 true None None None.

Record LocationStats := mkLocationStats {
  ls_votes_cast : Z;
  ls_turnout_percentage : f64;
  ls_avg_wait_time : option Z;
  ls_peak_hour : option Z;
  ls_anomaly_flags : list string;
  ls_last_updated : Z
}.
Definition LocationStats_default : LocationStats := mkLocationStats 0 f64_zero None None [] 0.

Record VotingLocation := mkVotingLocation {
  vl_id : string;
  vl_name : string;
  vl_address : StreetAddress;
  vl_coordinates : GeoCoordinates;
  vl_location_type : LocationType;
  vl_metadata : LocationMetadata;
  vl_stats : LocationStats
}.

Definition VotingLocation_new (id name : string) (address : StreetAddress) (coordinates : GeoCoordinates) :
    VotingLocation :=
  mkVotingLocation id name address coordinates PollingPlace LocationMetadata_default LocationStats_default.

(** The platform's mathematical library. *)
Class Libm := {
  libm_sin : f64 -> f64;
  libm_cos : f64 -> f64;
  libm_atan2 : f64 -> f64 -> f64
}.

(** [f64::to_radians]: multiplication by the constant [PI / 180.0]. *)
Definition f64_pi : f64 := S754_finite false 7074237752028440 (-51).
Definition to_radians (x : f64) : f64 := f64_mul x (f64_div f64_pi (f64_of_Z 180)).
Definition f64_sqrt (x : f64) : f64 := SFsqrt 53 1024 x.
Definition square (x : f64) : f64 := f64_mul x x.

Definition geo_distance_to `{Libm} (self other : GeoCoordinates) : f64 :=
  let earth_radius := f64_of_Z 6371000 in
  let lat1 := to_radians (gc_latitude self) in
  let lat2 := to_radians (gc_latitude other) in
  let delta_lat := to_radians (f64_sub (gc_latitude other) (gc_latitude self)) in
  let delta_lon := to_radians (f64_sub (gc_longitude other) (gc_longitude self)) in
  let a := f64_add (square (libm_sin (f64_div delta_lat (f64_of_Z 2))))
             (f64_mul (f64_mul (libm_cos lat1) (libm_cos lat2)) (square (libm_sin (f64_div delta_lon (f64_of_Z 2))))) in
  let c := f64_mul (f64_of_Z 2) (libm_atan2 (f64_sqrt a) (f64_sqrt (f64_sub f64_one a))) in
  f64_mul earth_radius c.

Definition location_distance_to `{Libm} (self other : VotingLocation) : f64 :=
  geo_distance_to (vl_coordinates self) (vl_coordinates other).

(** ** Jurisdictions *)
Record JurisdictionMetadata := mkJurisdictionMetadata {
  jm_population : option Z;
  jm_registered_voters : Z;
  jm_area_sq_miles : option f64;
  jm_timezone : option string
}.
Definition JurisdictionMetadata_default : JurisdictionMetadata := mkJurisdictionMetadata None 0 None None.

Record Jurisdiction := mkJurisdiction {
  j_id : string;
  j_name : string;
  j_level : JurisdictionLevel;
  j_parent_id : option string;
  j_fips_code : option string;
  j_state_code : option string;
  j_county_code : option string;
  j_precinct_number : option string;
  j_voting_locations : list VotingLocation;
  j_metadata : JurisdictionMetadata
}.

Definition Jurisdiction_new (id name : string) (level : JurisdictionLevel) : Jurisdiction :=
  mkJurisdiction id name level None None None None None [] JurisdictionMetadata_default.
Definition with_parent (parent_id : string) (j : Jurisdiction) : Jurisdiction :=
  mkJurisdiction (j_id j) (j_name j) (j_level j) (Some parent_id) (j_fips_code j) (j_state_code j)
    (j_county_code j) (j_precinct_number j) (j_voting_locations j) (j_metadata j).
Definition with_fips (fips : string) (j : Jurisdiction) : Jurisdiction :=
  mkJurisdiction (j_id j) (j_name j) (j_level j) (j_parent_id j) (Some fips) (j_state_code j)
    (j_county_code j) (j_precinct_number j) (j_voting_locations j) (j_metadata j).
Definition with_state_code (code : string) (j : Jurisdiction) : Jurisdiction :=
  mkJurisdiction (j_id j) (j_name j) (j_level j) (j_parent_id j) (j_fips_code j) (Some code)
    (j_county_code j) (j_precinct_number j) (j_voting_locations j) (j_metadata j).
Definition add_voting_location (location : VotingLocation) (j : Jurisdiction) : Jurisdiction :=
  mkJurisdiction (j_id j) (j_name j) (j_level j) (j_parent_id j) (j_fips_code j) (j_state_code j)
    (j_county_code j) (j_precinct_number j) (j_voting_locations j ++ [location]) (j_metadata j).
Definition location_count (j : Jurisdiction) : Z := len (j_voting_locations j).
Definition get_location (j : Jurisdiction) (location_id : string) : option VotingLocation :=
  find_by (fun loc => bool_decide (vl_id loc = location_id)) (j_voting_locations j).

(** ** Paths *)
Record JurisdictionPath := mkJurisdictionPath { jp_components : list string }.

Global Instance JurisdictionPath_eq_dec : EqDecision JurisdictionPath.
Proof. solve_decision. Defined.
Global Instance JurisdictionPath_countable : Countable JurisdictionPath.
Proof. by apply (inj_countable' jp_components mkJurisdictionPath); intros []. Defined.

(** [str::split('/')]: the pieces between the separators, empty ones included. *)
Fixpoint split_slash (s : string) : list string :=
  match s with
  | EmptyString => [""%string]
  | String c s' =>
      if Ascii.eqb c "/" then ""%string :: split_slash s'
      else match split_slash s' with
           | piece :: pieces => String c piece :: pieces
           | [] => [String c ""]
           end
  end.

(** [slice::join("/")]. *)
Fixpoint join_slash (l : list string) : string :=
  match l with
  | [] => ""
  | [s] => s
  | s :: l' => s ++ "/" ++ join_slash l'
  end.

Definition JurisdictionPath_parse (path : string) : VResult JurisdictionPath :=
  let components := filter (fun s => s <> ""%string) (split_slash path) in
  _ ← ensure (negb (bool_decide (components = []))) (InvalidInput "Empty jurisdiction path");
  Ok (mkJurisdictionPath components).
Definition path_to_string (p : JurisdictionPath) : string := join_slash (jp_components p).
Definition path_depth (p : JurisdictionPath) : Z := len (jp_components p).
Definition path_parent (p : JurisdictionPath) : option JurisdictionPath :=
  if path_depth p <=? 1 then None
  else Some (mkJurisdictionPath (take (length (jp_components p) - 1) (jp_components p))).
Definition path_child (p : JurisdictionPath) (component : string) : JurisdictionPath :=
  mkJurisdictionPath (jp_components p ++ [component]).
Definition is_ancestor_of (p other : JurisdictionPath) : bool :=
  if path_depth other <=? path_depth p then false
  else forallb (fun ab => bool_decide (ab.1 = ab.2)) (zip (jp_components p) (jp_components other)).

(** ** The tree *)
Record JurisdictionTree := mkJurisdictionTree {
  jt_jurisdictions : gmap string Jurisdiction;
  jt_path_index : gmap JurisdictionPath string
}.

Definition JurisdictionTree_new : JurisdictionTree := mkJurisdictionTree ∅ ∅.

(** The loop of [build_path]: [components] grows at the front. *)
Fixpoint build_path_loop (fuel : nat) (t : JurisdictionTree) (current_id : option string)
    (components : list string) : option (list string) :=
  match current_id with
  | None => Some components
  | Some id =>
      match fuel with
      | O => None
      | S fuel' =>
          build_path_loop fuel' t (jt_jurisdictions t !! id ≫= j_parent_id) (id :: components)
      end
  end.

Definition build_path (fuel : nat) (t : JurisdictionTree) (j : Jurisdiction) : option JurisdictionPath :=
  mkJurisdictionPath <$> build_path_loop fuel t (Some (j_id j)) [].

(** [add_jurisdiction]; [None] when the fuel of [build_path] runs out. *)
Definition add_jurisdiction (fuel : nat) (j : Jurisdiction) (t : JurisdictionTree) :
    option (VResult unit * JurisdictionTree) :=
  let id := j_id j in
  if bool_decide (is_Some (jt_jurisdictions t !! id)) then
    Some (Err (InvalidInput "Jurisdiction already exists"), t)
  else
    path ← build_path fuel t j;
    Some (Ok tt, mkJurisdictionTree (<[id := j]> (jt_jurisdictions t)) (<[path := id]> (jt_path_index t))).

Definition get_jurisdiction (t : JurisdictionTree) (id : string) : option Jurisdiction := jt_jurisdictions t !! id.
Definition get_by_path (t : JurisdictionTree) (path : JurisdictionPath) : option Jurisdiction :=
  id ← jt_path_index t !! path; jt_jurisdictions t !! id.

Definition jurisdiction_values (t : JurisdictionTree) : list Jurisdiction := (map_to_list (jt_jurisdictions t)).*2.

Definition get_children (t : JurisdictionTree) (parent_id : string) : list Jurisdiction :=
  filter (fun j => j_parent_id j = Some parent_id) (jurisdiction_values t).

(** The loop of [get_all_descendants]: the queue is popped at its end. *)
Fixpoint descendants_loop (fuel : nat) (t : JurisdictionTree) (queue : list string)
    (descendants : list Jurisdiction) : option (list Jurisdiction) :=
  match last queue with
  | None => Some descendants
  | Some id =>
      match fuel with
      | O => None
      | S fuel' =>
          let children := get_children t id in
          descendants_loop fuel' t (removelast queue ++ (j_id <$> children)) (descendants ++ children)
      end
  end.

Definition get_all_descendants (fuel : nat) (t : JurisdictionTree) (parent_id : string) : option (list Jurisdiction) :=
  descendants_loop fuel t [parent_id] [].

Definition get_all_locations (fuel : nat) (t : JurisdictionTree) (jurisdiction_id : string) :
    option (list VotingLocation) :=
  let own := match get_jurisdiction t jurisdiction_id with Some j => j_voting_locations j | None => [] end in
  descendants ← get_all_descendants fuel t jurisdiction_id;
  Some (own ++ concat (j_voting_locations <$> descendants)).

(** [str::contains]: the pattern occurs in the string. *)
Fixpoint str_contains (s pattern : string) : bool :=
  String.prefix pattern s ||
  match s with EmptyString => false | String _ s' => str_contains s' pattern end.

Definition find_location_by_address (to_lowercase : string -> string) (t : JurisdictionTree) (address : string) :
    list VotingLocation :=
  let search_lower := to_lowercase address in
  filter (fun location => str_contains (to_lowercase (address_fmt (vl_address location))) search_lower = true)
    (concat (j_voting_locations <$> jurisdiction_values t)).

Definition find_locations_near `{Libm} (t : JurisdictionTree) (coords : GeoCoordinates) (radius_meters : f64) :
    list VotingLocation :=
  filter (fun location => f64_le (geo_distance_to (vl_coordinates location) coords) radius_meters = true)
    (concat (j_voting_locations <$> jurisdiction_values t)).

Definition jurisdiction_count (t : JurisdictionTree) : Z := Z.of_nat (size (jt_jurisdictions t)).
Definition total_locations (t : JurisdictionTree) : Z :=
  foldr (fun j acc => u64_add (len (j_voting_locations j)) acc) 0 (jurisdiction_values t).

(** ** Paths: printing and parsing *)
#[local] Arguments Ascii.eqb : simpl never.

Fixpoint no_slash (s : string) : bool :=
  match s with EmptyString => true | String c s' => negb (Ascii.eqb c "/") && no_slash s' end.

(** A path as [parse] makes it: components without separators, none of them empty. *)
Definition path_ok (p : JurisdictionPath) : Prop :=
  jp_components p <> [] /\ Forall (fun s => s <> ""%string /\ no_slash s = true) (jp_components p).

Lemma split_slash_nonempty s : split_slash s <> [].
Proof. destruct s as [|c s]; cbn; [done|]. destruct (Ascii.eqb c "/"); [done|]. by destruct (split_slash s). Qed.

Lemma split_no_slash s : no_slash s = true -> split_slash s = [s].
Proof.
  induction s as [|c s IH]; cbn; [done|]. intros [Hc Hs]%andb_true_iff.
  destruct (Ascii.eqb c "/"); [done|]. by rewrite (IH Hs).
Qed.

Lemma split_app_slash s rest : no_slash s = true -> split_slash (s ++ String "/" rest) = s :: split_slash rest.
Proof.
  induction s as [|c s IH]; [done|]. cbn [no_slash]. intros [Hc Hs]%andb_true_iff.
  change (String c s ++ String "/" rest)%string with (String c (s ++ String "/" rest)). cbn [split_slash].
  destruct (Ascii.eqb c "/"); [done|]. by rewrite (IH Hs).
Qed.

Lemma split_join l : l <> [] -> Forall (fun s => no_slash s = true) l -> split_slash (join_slash l) = l.
Proof.
  induction l as [|s l IH]; [done|]. intros _ [Hs Hl]%Forall_cons.
  destruct l as [|s' l]; [by apply split_no_slash|].
  change (join_slash (s :: s' :: l)) with (s ++ String "/" (join_slash (s' :: l)))%string.
  by rewrite split_app_slash, IH.
Qed.

Lemma split_no_slash_pieces s : Forall (fun p => no_slash p = true) (split_slash s).
Proof.
  induction s as [|c s IH]; cbn; [by repeat constructor|]. destruct (Ascii.eqb c "/") eqn:E; [by constructor|].
  destruct (split_slash s) as [|p ps]; [by repeat constructor; cbn; rewrite E|].
  apply Forall_cons in IH as [Hp Hps]. constructor; [|done]. cbn. by rewrite E, Hp.
Qed.

(** Printing a well-formed jurisdiction path and parsing it gives the path back, and
    whatever parses is a well-formed path. *)
Theorem path_round_trip (p : JurisdictionPath) (s : string) :
  (path_ok p -> JurisdictionPath_parse (path_to_string p) = Ok p) /\
  (forall q, JurisdictionPath_parse s = Ok q -> path_ok q).
Proof.
  split.
  - intros [Hne Hf]. unfold JurisdictionPath_parse, path_to_string. rewrite split_join; [|done|].
    + rewrite filter_id; [|by eapply Forall_impl; [exact Hf|intros ? []]].
      rewrite bool_decide_false by done. by destruct p.
    + eapply Forall_impl; [exact Hf|]. by intros ? [].
  - intros q. unfold JurisdictionPath_parse. rewrite ensure_bind, negb_bool_decide_true.
    intros [Hne [= <-]]. split; [done|]. cbn. apply Forall_forall. intros c Hc.
    apply list_elem_of_filter in Hc as [Hc Hin]. split; [done|].
    pose proof (split_no_slash_pieces s) as Hf. rewrite Forall_forall in Hf. by apply Hf.
Qed.

Lemma zip_prefix (l k : list string) :
  (length l <= length k)%nat -> forallb (fun ab => bool_decide (ab.1 = ab.2)) (zip l k) = true <-> l `prefix_of` k.
Proof.
  revert k. induction l as [|x l IH]; intros [|y k]; cbn; intros Hle; [split; [intros; apply prefix_nil|done]..|lia|].
  rewrite andb_true_iff, bool_decide_eq_true, IH by lia. split.
  - intros [-> ?]. by apply prefix_cons.
  - intros Hp. split; [by eapply prefix_cons_inv_1|by eapply prefix_cons_inv_2].
Qed.

(** [is_ancestor_of] is the strict prefix relation on components. *)
Lemma is_ancestor_of_spec p q :
  is_ancestor_of p q = true <->
  jp_components p `prefix_of` jp_components q /\ jp_components p <> jp_components q.
Proof.
  unfold is_ancestor_of, path_depth, len.
  destruct (Z.leb_spec (Z.of_nat (length (jp_components q))) (Z.of_nat (length (jp_components p)))).
  - split; [done|]. intros [[s E] Hne]. rewrite E, length_app in H. destruct s; [|cbn in *; lia].
    by rewrite app_nil_r in E.
  - rewrite zip_prefix by lia. split; [|tauto]. intros Hp. split; [done|]. intros E. rewrite E in H. lia.
Qed.

(** ** Trees *)
Inductive tree_step : JurisdictionTree -> JurisdictionTree -> Prop :=
| tstep_add j t r t' : add_jurisdiction 2 j t = Some (r, t') -> tree_step t t'.

Record tree_wf (t : JurisdictionTree) : Prop := {
  tw_keyed : forall id j, jt_jurisdictions t !! id = Some j -> j_id j = id;
  tw_paths : forall p id, jt_path_index t !! p = Some id <->
    p = mkJurisdictionPath [id] /\ is_Some (jt_jurisdictions t !! id)
}.

(** A new jurisdiction is not in the tree when its path is built. *)
Lemma build_path_new fuel t j :
  jt_jurisdictions t !! j_id j = None -> build_path (S fuel) t j = Some (mkJurisdictionPath [j_id j]).
Proof. intros E. unfold build_path. cbn. rewrite E. by destruct fuel. Qed.

Lemma add_jurisdiction_eq fuel j t :
  add_jurisdiction (S fuel) j t =
    Some (if bool_decide (is_Some (jt_jurisdictions t !! j_id j))
          then (Err (InvalidInput "Jurisdiction already exists"), t)
          else (Ok tt, mkJurisdictionTree (<[j_id j := j]> (jt_jurisdictions t))
                         (<[mkJurisdictionPath [j_id j] := j_id j]> (jt_path_index t)))).
Proof.
  unfold add_jurisdiction. case_bool_decide as E; [done|]. rewrite build_path_new; [done|].
  by apply eq_None_not_Some.
Qed.

Lemma tree_step_wf t t' : tree_step t t' -> tree_wf t -> tree_wf t'.
Proof.
  intros [j t0 r t1 E] [Hk Hp]. rewrite add_jurisdiction_eq in E. case_bool_decide as Hin; simplify_eq/=; [done|].
  split; cbn.
  - intros id j' [[<- <-]|[_ ?]]%lookup_insert_Some; [done|by apply Hk].
  - intros p id. rewrite lookup_insert_Some, Hp. split.
    + intros [[<- <-]|[Hne [-> ?]]]; [by rewrite lookup_insert_eq|]. split; [done|].
      rewrite lookup_insert_ne; [done|]. congruence.
    + intros [-> Hid]. destruct (decide (j_id j = id)) as [<-|Hne]; [by left|]. right.
      rewrite lookup_insert_ne in Hid by done. split; [congruence|done].
Qed.

Lemma tree_reachable_wf t : rtc tree_step JurisdictionTree_new t -> tree_wf t.
Proof.
  apply rtc_invariant; [apply tree_step_wf|]. split; cbn.
  - intros id j. by rewrite lookup_empty.
  - intros p id. rewrite !lookup_empty. split; [done|]. by intros [_ [? ?]].
Qed.

(** Add_jurisdiction always ends.  It registers every jurisdiction under the path of
    its identifier alone, whatever its parent: in a tree built by it a lookup by path
    succeeds exactly for one-component paths, so no nested path is ever found. *)
Theorem paths_ignore_parents (t : JurisdictionTree) (p : JurisdictionPath) (j j' : Jurisdiction) :
  rtc tree_step JurisdictionTree_new t ->
  (exists r t', add_jurisdiction 2 j' t = Some (r, t')) /\
  (get_by_path t p = Some j <-> p = mkJurisdictionPath [j_id j] /\ get_jurisdiction t (j_id j) = Some j) /\
  (path_depth p <> 1 -> get_by_path t p = None).
Proof.
  intros Ht%tree_reachable_wf. destruct Ht as [Hk Hp].
  assert (forall j, get_by_path t p = Some j <-> p = mkJurisdictionPath [j_id j] /\ get_jurisdiction t (j_id j) = Some j) as Hg.
  { intros k. unfold get_by_path, get_jurisdiction. rewrite bind_Some. split.
    - intros (id & [-> _]%Hp & Hid). by rewrite (Hk _ _ Hid).
    - intros [-> Hid]. exists (j_id k). split; [|done]. apply Hp. by rewrite Hid. }
  split_and!; [|apply Hg|].
  - rewrite add_jurisdiction_eq. case_bool_decide; eauto.
  - intros Hd. destruct (get_by_path t p) as [k|]; [|done]. by destruct (proj1 (Hg k) eq_refl) as [-> _].
Qed.

(** ** Descendants *)
Definition child_of (t : JurisdictionTree) (id : string) (j : Jurisdiction) : Prop :=
  jt_jurisdictions t !! j_id j = Some j /\ j_parent_id j = Some id.

Inductive descends (t : JurisdictionTree) (id : string) : Jurisdiction -> Prop :=
| descends_child j : child_of t id j -> descends t id j
| descends_step k j : child_of t id k -> descends t (j_id k) j -> descends t id j.

Section descendants.
Context (t : JurisdictionTree) (keyed : forall id j, jt_jurisdictions t !! id = Some j -> j_id j = id).

Lemma elem_of_values j : j ∈ jurisdiction_values t <-> jt_jurisdictions t !! j_id j = Some j.
Proof.
  unfold jurisdiction_values. rewrite list_elem_of_fmap. split.
  - intros ([id k] & -> & Hk%elem_of_map_to_list). cbn. by rewrite (keyed _ _ Hk).
  - intros Hj. exists (j_id j, j). by rewrite elem_of_map_to_list.
Qed.

Lemma elem_of_children id j : j ∈ get_children t id <-> child_of t id j.
Proof. unfold get_children, child_of. rewrite list_elem_of_filter, elem_of_values. tauto. Qed.

Lemma loop_unfold fuel queue id acc :
  descendants_loop (S fuel) t (queue ++ [id]) acc =
  descendants_loop fuel t (queue ++ (j_id <$> get_children t id)) (acc ++ get_children t id).
Proof. cbn. by rewrite last_snoc, removelast_last. Qed.

Lemma loop_result fuel queue acc l :
  descendants_loop fuel t queue acc = Some l ->
  forall j, j ∈ l <-> j ∈ acc \/ exists id, id ∈ queue /\ descends t id j.
Proof.
  revert queue acc. induction fuel as [|fuel IH]; intros queue acc.
  - destruct queue as [|id queue _] using rev_ind; cbn; [|by rewrite last_snoc].
    intros [= <-] j. split; [by left|]. intros [?|(id & ?%not_elem_of_nil & _)]; done.
  - destruct queue as [|id queue _] using rev_ind.
    { intros [= <-] j. split; [by left|]. intros [?|(id & ?%not_elem_of_nil & _)]; done. }
    rewrite loop_unfold. intros Hl j. rewrite (IH _ _ Hl j), elem_of_app. clear Hl IH. split.
    + intros [[?|Hc%elem_of_children]|(id' & [Hq|Hq]%elem_of_app & Hd)]; [by left|..]; right.
      * exists id. split; [set_solver|]. by apply descends_child.
      * exists id'. set_solver.
      * apply list_elem_of_fmap in Hq as (k & -> & Hk%elem_of_children). exists id.
        split; [set_solver|]. by eapply descends_step.
    + intros [?|(id' & [Hq|Hq]%elem_of_app & Hd)]; [by left; left|..].
      * right. exists id'. set_solver.
      * apply list_elem_of_singleton in Hq as ->. destruct Hd as [j Hc|k j Hc Hd]; [left; right; by apply elem_of_children|right].
        exists (j_id k). split; [|done]. apply elem_of_app. right. apply list_elem_of_fmap_2. by apply elem_of_children.
Qed.

(** The parent links do not form a cycle: identifiers have ranks that grow downwards. *)
Context (rank : string -> nat).
Hypothesis ranked : forall j p, jt_jurisdictions t !! j_id j = Some j -> j_parent_id j = Some p -> (rank p < rank (j_id j))%nat.

Let bound : nat := list_max (rank <$> (j_id <$> jurisdiction_values t)).
Let base : nat := 2 + length (jurisdiction_values t).
Let weight (id : string) : nat := (base ^ (bound - rank id))%nat.
Let potential (queue : list string) : nat := sum_list_with weight queue.

Lemma weight_pos id : (1 <= weight id)%nat.
Proof. unfold weight. apply Nat.neq_0_lt_0, Nat.pow_nonzero. unfold base. lia. Qed.

Lemma sum_list_le (f : string -> nat) (l : list string) m :
  (forall x, x ∈ l -> f x <= m)%nat -> (sum_list_with f l <= length l * m)%nat.
Proof.
  induction l as [|x l IH]; intros Hl; cbn; [done|].
  assert (f x <= m)%nat by (apply Hl; set_solver). assert (sum_list_with f l <= length l * m)%nat by (apply IH; set_solver).
  lia.
Qed.

Lemma rank_bound j : j ∈ jurisdiction_values t -> (rank (j_id j) <= bound)%nat.
Proof.
  intros Hj. pose proof (proj1 (list_max_le (rank <$> (j_id <$> jurisdiction_values t)) bound) (Nat.le_refl _)) as Hb.
  rewrite List.Forall_forall in Hb. apply Hb, list_elem_of_In. by do 2 apply list_elem_of_fmap_2.
Qed.

Lemma children_weight id : (potential (j_id <$> get_children t id) < weight id)%nat.
Proof.
  destruct (get_children t id) as [|j0 js] eqn:E; [cbn; pose proof (weight_pos id); lia|]. rewrite <- E.
  assert (j0 ∈ get_children t id) as Hj0 by (rewrite E; left).
  assert (forall j, j ∈ get_children t id -> j ∈ jurisdiction_values t /\ (rank id < rank (j_id j) <= bound)%nat) as Hc.
  { intros j [Hin Hp]%elem_of_children. apply elem_of_values in Hin as Hv. split; [done|].
    split; [by eapply ranked|by apply rank_bound]. }
  assert (rank id < bound)%nat as Hid by (destruct (Hc j0 Hj0) as [_ ?]; lia).
  unfold potential. eapply Nat.le_lt_trans.
  { apply (sum_list_le weight _ (base ^ (bound - rank id - 1))). intros x (j & -> & Hj)%list_elem_of_fmap.
    unfold weight. apply Nat.pow_le_mono_r; [unfold base; lia|]. destruct (Hc j Hj) as [_ ?]. lia. }
  unfold weight. replace (bound - rank id)%nat with (S (bound - rank id - 1)) at 2 by lia.
  rewrite Nat.pow_succ_r', length_fmap. apply Nat.mul_lt_mono_pos_r.
  - apply Nat.neq_0_lt_0, Nat.pow_nonzero. unfold base. lia.
  - unfold base, get_children. pose proof (length_filter (fun j => j_parent_id j = Some id) (jurisdiction_values t)). lia.
Qed.

Lemma potential_app q r : potential (q ++ r) = (potential q + potential r)%nat.
Proof. apply sum_list_with_app. Qed.

Lemma loop_terminates fuel queue acc :
  (potential queue <= fuel)%nat -> exists l, descendants_loop fuel t queue acc = Some l.
Proof.
  revert queue acc. induction fuel as [|fuel IH]; intros queue acc Hp;
    (destruct queue as [|id queue _] using rev_ind; [by eexists|]); rewrite potential_app in Hp; cbn in Hp;
    pose proof (weight_pos id); [lia|]. rewrite loop_unfold. apply IH.
  pose proof (children_weight id). rewrite potential_app. lia.
Qed.
End descendants.

(** C29: In a tree whose parent links form no cycle (identifiers can be ranked so that
    every jurisdiction ranks above its parent) get_all_descendants ends, and its result
    contains exactly the jurisdictions below the given one; get_all_locations then ends
    too. *)
Theorem descendants_terminate (t : JurisdictionTree) (id : string) (rank : string -> nat) :
  rtc tree_step JurisdictionTree_new t ->
  (forall j p, jt_jurisdictions t !! j_id j = Some j -> j_parent_id j = Some p -> (rank p < rank (j_id j))%nat) ->
  exists fuel l locations,
    get_all_descendants fuel t id = Some l /\ get_all_locations fuel t id = Some locations /\
    forall j, j ∈ l <-> descends t id j.
Proof.
  intros Ht Hr. pose proof (tw_keyed t (tree_reachable_wf t Ht)) as Hk.
  edestruct (loop_terminates t Hk rank Hr) as [l Hl]; [apply Nat.le_refl|].
  eexists _, l, _. split; [exact Hl|]. split; [unfold get_all_locations, get_all_descendants; by rewrite Hl|].
  intros j. rewrite (loop_result t Hk _ _ _ _ Hl j). split.
  - intros [?%not_elem_of_nil|(id' & ->%list_elem_of_singleton & Hd)]; done.
  - intros Hd. right. exists id. split; [by apply list_elem_of_singleton|done].
Qed.

Lemma loop_self_parent fuel t queue acc j :
  (forall id j, jt_jurisdictions t !! id = Some j -> j_id j = id) ->
  child_of t (j_id j) j -> j_id j ∈ queue -> descendants_loop fuel t queue acc = None.
Proof.
  intros Hk Hc. revert queue acc. induction fuel as [|fuel IH]; intros queue acc Hq;
    (destruct queue as [|id queue _] using rev_ind; [by apply not_elem_of_nil in Hq|]).
  - cbn. by rewrite last_snoc.
  - rewrite loop_unfold. apply IH. apply elem_of_app in Hq as [Hq|Hq]; [set_solver|].
    apply list_elem_of_singleton in Hq as <-. apply elem_of_app. right. apply list_elem_of_fmap_2.
    by apply elem_of_children.
Qed.

(** A jurisdiction that names itself as parent is accepted like any other, and from
    then on get_all_descendants and get_all_locations of it never end: they run out of
    any amount of fuel. *)
Theorem self_parent_diverges (t : JurisdictionTree) (j : Jurisdiction) :
  rtc tree_step JurisdictionTree_new t ->
  get_jurisdiction t (j_id j) = None -> j_parent_id j = Some (j_id j) ->
  exists t', add_jurisdiction 2 j t = Some (Ok tt, t') /\
    forall fuel, get_all_descendants fuel t' (j_id j) = None /\ get_all_locations fuel t' (j_id j) = None.
Proof.
  intros Ht Hn Hp. pose proof (add_jurisdiction_eq 1 j t) as Ha. unfold get_jurisdiction in Hn.
  rewrite bool_decide_false in Ha by (rewrite Hn; by intros [? ?]). eexists. split; [exact Ha|].
  assert (rtc tree_step JurisdictionTree_new
    (mkJurisdictionTree (<[j_id j := j]> (jt_jurisdictions t)) (<[mkJurisdictionPath [j_id j] := j_id j]> (jt_path_index t)))) as Ht'.
  { eapply rtc_r; [exact Ht|]. by econstructor. }
  pose proof (tw_keyed _ (tree_reachable_wf _ Ht')) as Hk. intros fuel.
  assert (get_all_descendants fuel
    (mkJurisdictionTree (<[j_id j := j]> (jt_jurisdictions t)) (<[mkJurisdictionPath [j_id j] := j_id j]> (jt_path_index t)))
    (j_id j) = None) as Hd.
  { apply (loop_self_parent fuel _ _ _ j Hk); [|by apply list_elem_of_singleton].
    split; [apply lookup_insert_eq|done]. }
  split; [exact Hd|]. unfold get_all_locations. by rewrite Hd.
Qed.
