(* ===== verification/StateStore.v ===== *)
(** * The state store: crates/storage/src/state_store.rs

    The current state (chain tip, validators, elections, pending transactions, voter
    participation) in an in-memory cache, part of which is persisted in a database.  A
    store is the pair of both; [StateStore_new] on a database is what a restart does. *)
From stdpp Require Import prelude gmap strings list.
From Stdlib Require Import Strings.Byte.
From S2P Require Import Prelude Types Database Jurisdiction BlockchainStore.

Local Open Scope Z_scope.

(** ** Data *)
Record CandidateInfo := mkCandidateInfo {
  ci_id : string;
  ci_name : string;
  ci_party : option string;
  ci_metadata : option string
}.

Record ElectionState := mkElectionState {
  es_id : ElectionId;
  es_name : string;
  es_description : string;
  es_jurisdiction_path : JurisdictionPath;
  es_candidates : list CandidateInfo;
  es_start_time : Z;
  es_end_time : Z;
  es_total_votes : Z;
  es_is_active : bool;
  es_is_finalized : bool;
  es_created_at_height : Z;
  es_closed_at_height : option Z
}.

Record PendingTransaction := mkPendingTransaction {
  pt_tx_id : TxId;
  pt_data : list byte;
  pt_added_at : Z;
  pt_priority : Z
}.

Record VoterIdentifier := mkVoterIdentifier { voter_identifier_bytes : array 32 }.

Global Instance VoterIdentifier_eq_dec : EqDecision VoterIdentifier.
Proof. solve_decision. Defined.
Global Instance VoterIdentifier_countable : Countable VoterIdentifier.
Proof. by apply (inj_countable' voter_identifier_bytes mkVoterIdentifier); intros []. Defined.

Definition VoterIdentifier_from_signature `{HashCrate} (signature : Signature) : VoterIdentifier :=
  mkVoterIdentifier (blake2b256 (array_list (signature_bytes signature))).

Record StateCache := mkStateCache {
  sc_current_height : Z;
  sc_latest_block_hash : BlockHash;
  sc_active_validators : gset PublicKey;
  sc_active_elections : gmap ElectionId ElectionState;
  sc_tx_pool : gmap TxId PendingTransaction;
  sc_voter_participation : gmap ElectionId (gset VoterIdentifier)
}.

Definition StateCache_empty : StateCache := mkStateCache 0 BlockHash_zero ∅ ∅ ∅ ∅.

(** [bincode] for elections; its errors become [SerializationError]s (errors.rs). *)
Class BincodeElection := {
  bincode_election : ElectionState -> list byte + string;
  bincode_election_decode : list byte -> ElectionState + string
}.

Record StateStore (S : Type) := mkStateStore { ss_db : S; ss_cache : StateCache }.
Arguments mkStateStore {S}.
Arguments ss_db {S}.
Arguments ss_cache {S}.

(** A call on the database, and an update of the cache. *)
Definition on_state_db {S A : Type} (m : VStM S A) : VStM (StateStore S) A := fun st =>
  let '(r, db) := m (ss_db st) in (r, mkStateStore db (ss_cache st)).
Definition update_cache {S : Type} (f : StateCache -> StateCache) : VStM (StateStore S) unit :=
  modify (fun st => mkStateStore (ss_db st) (f (ss_cache st))).

Definition with_tip (height : Z) (hash : BlockHash) (c : StateCache) : StateCache :=
  mkStateCache height hash (sc_active_validators c) (sc_active_elections c) (sc_tx_pool c) (sc_voter_participation c).
Definition with_validators (f : gset PublicKey -> gset PublicKey) (c : StateCache) : StateCache :=
  mkStateCache (sc_current_height c) (sc_latest_block_hash c) (f (sc_active_validators c)) (sc_active_elections c)
    (sc_tx_pool c) (sc_voter_participation c).
Definition with_elections (f : gmap ElectionId ElectionState -> gmap ElectionId ElectionState) (c : StateCache) : StateCache :=
  mkStateCache (sc_current_height c) (sc_latest_block_hash c) (sc_active_validators c) (f (sc_active_elections c))
    (sc_tx_pool c) (sc_voter_participation c).
Definition with_pool (f : gmap TxId PendingTransaction -> gmap TxId PendingTransaction) (c : StateCache) : StateCache :=
  mkStateCache (sc_current_height c) (sc_latest_block_hash c) (sc_active_validators c) (sc_active_elections c)
    (f (sc_tx_pool c)) (sc_voter_participation c).
Definition with_participation (f : gmap ElectionId (gset VoterIdentifier) -> gmap ElectionId (gset VoterIdentifier))
    (c : StateCache) : StateCache :=
  mkStateCache (sc_current_height c) (sc_latest_block_hash c) (sc_active_validators c) (sc_active_elections c)
    (sc_tx_pool c) (f (sc_voter_participation c)).

(** ** Keys *)
Definition current_height_key : key := String.list_byte_of_string "state:current_height".
Definition latest_hash_key : key := String.list_byte_of_string "state:latest_block_hash".
Definition validator_prefix : key := String.list_byte_of_string "state:validator:".
Definition election_prefix : key := String.list_byte_of_string "state:election:".
Definition validator_key `{HexCrate} (v : PublicKey) : key :=
  String.list_byte_of_string ("state:validator:" ++ PublicKey_to_hex v).
Definition election_key `{HexCrate} (id : ElectionId) : key :=
  String.list_byte_of_string ("state:election:" ++ ElectionId_to_hex id).

Arguments current_height_key : simpl never.
Arguments latest_hash_key : simpl never.
Arguments validator_prefix : simpl never.
Arguments election_prefix : simpl never.
Arguments validator_key : simpl never.
Arguments election_key : simpl never.

Section state_store.
Context {S : Type} `{Database S, HexCrate, BincodeElection}.

(** ** Loading *)
Definition decode_election (data : list byte) : VResult ElectionState :=
  map_err SerializationError (bincode_election_decode data).
Definition encode_election (e : ElectionState) : VResult (list byte) :=
  map_err SerializationError (bincode_election e).

(** Keys of the length of the prefix and 32 bytes name validators. *)
Definition validator_of_key (k : key) : option PublicKey :=
  if len k =? len validator_prefix + 32 then
    mkPublicKey <$> array_of 32 (drop (length validator_prefix) k)
  else None.

Definition load_validators : VStM (StateStore S) unit :=
  keys ← on_state_db (db_keys_with_prefix validator_prefix);
  update_cache (with_validators (fun _ => list_to_set (omap validator_of_key keys))).

Definition load_election (k : key) : VStM (StateStore S) unit :=
  r ← on_state_db (db_get k);
  match r with
  | Some data =>
      election ← lift (decode_election data);
      if es_is_active election then update_cache (with_elections (<[es_id election := election]>)) else mret tt
  | None => mret tt
  end.

Definition load_active_elections : VStM (StateStore S) unit :=
  keys ← on_state_db (db_keys_with_prefix election_prefix);
  _ ← update_cache (with_elections (fun _ => ∅));
  st_for_each load_election keys.

Definition load_state_from_db : VStM (StateStore S) unit :=
  rh ← on_state_db (db_get current_height_key);
  _ ← match rh with
      | Some height_bytes =>
          bytes ← lift (ok_or (array_of 8 height_bytes) (StorageError "Invalid height bytes"));
          update_cache (fun c => with_tip (le_val (array_list bytes)) (sc_latest_block_hash c) c)
      | None => mret tt
      end;
  rhash ← on_state_db (db_get latest_hash_key);
  _ ← match rhash with
      | Some hash_bytes =>
          hash ← lift (unwrap (array_of 32 hash_bytes));
          update_cache (fun c => with_tip (sc_current_height c) (mkBlockHash hash) c)
      | None => mret tt
      end;
  _ ← load_validators;
  load_active_elections.

Definition StateStore_new (db : S) : VResult (StateStore S) :=
  let '(r, store) := load_state_from_db (mkStateStore db StateCache_empty) in
  _ ← r; Ok store.

(** ** The chain tip *)
Definition get_current_height (st : StateStore S) : Z := sc_current_height (ss_cache st).
Definition get_latest_block_hash (st : StateStore S) : BlockHash := sc_latest_block_hash (ss_cache st).

Definition update_chain_tip (height : Z) (block_hash : BlockHash) : VStM (StateStore S) unit :=
  _ ← update_cache (with_tip height block_hash);
  _ ← on_state_db (db_put current_height_key (u64_le height));
  on_state_db (db_put latest_hash_key (array_list (block_hash_bytes block_hash))).

(** ** Validators *)
Definition state_add_validator (validator : PublicKey) : VStM (StateStore S) unit :=
  _ ← update_cache (with_validators (fun vs => {[validator]} ∪ vs));
  on_state_db (db_put (validator_key validator) [x01]).

Definition state_remove_validator (validator : PublicKey) : VStM (StateStore S) unit :=
  _ ← update_cache (with_validators (fun vs => vs ∖ {[validator]}));
  on_state_db (db_delete (validator_key validator)).

Definition get_active_validators (st : StateStore S) : list PublicKey := elements (sc_active_validators (ss_cache st)).
Definition is_validator_active (st : StateStore S) (v : PublicKey) : bool :=
  bool_decide (v ∈ sc_active_validators (ss_cache st)).
Definition state_validator_count (st : StateStore S) : Z := Z.of_nat (size (sc_active_validators (ss_cache st))).

(** ** Elections *)
Definition create_election (election : ElectionState) : VStM (StateStore S) unit :=
  _ ← update_cache (fun c => with_participation (<[es_id election := ∅]>)
                               (with_elections (<[es_id election := election]>) c));
  data ← lift (encode_election election);
  on_state_db (db_put (election_key (es_id election)) data).

Definition get_election (id : ElectionId) : VStM (StateStore S) (option ElectionState) :=
  self ← get;
  match sc_active_elections (ss_cache self) !! id with
  | Some election => mret (Some election)
  | None =>
      r ← on_state_db (db_get (election_key id));
      match r with
      | Some data => election ← lift (decode_election data); mret (Some election)
      | None => mret None
      end
  end.

Definition close (closed_at_height : Z) (e : ElectionState) : ElectionState :=
  mkElectionState (es_id e) (es_name e) (es_description e) (es_jurisdiction_path e) (es_candidates e)
    (es_start_time e) (es_end_time e) (es_total_votes e) false true (es_created_at_height e) (Some closed_at_height).

Definition count_vote (e : ElectionState) : ElectionState :=
  mkElectionState (es_id e) (es_name e) (es_description e) (es_jurisdiction_path e) (es_candidates e)
    (es_start_time e) (es_end_time e) (u64_add (es_total_votes e) 1) (es_is_active e) (es_is_finalized e)
    (es_created_at_height e) (es_closed_at_height e).

(** The body that [close_election] and [increment_vote_count] share: the cached election is
    changed, then what [get_election] returns is changed and stored. *)
Definition change_election (f : ElectionState -> ElectionState) (id : ElectionId) : VStM (StateStore S) unit :=
  _ ← update_cache (with_elections (alter f id));
  oe ← get_election id;
  match oe with
  | Some election =>
      data ← lift (encode_election (f election));
      on_state_db (db_put (election_key id) data)
  | None => mret tt
  end.

Definition close_election (id : ElectionId) (closed_at_height : Z) : VStM (StateStore S) unit :=
  change_election (close closed_at_height) id.
Definition increment_vote_count (id : ElectionId) : VStM (StateStore S) unit := change_election count_vote id.

(** The loop of [get_all_elections]. *)
Fixpoint read_elections (keys : list key) : VStM (StateStore S) (list ElectionState) :=
  match keys with
  | [] => mret []
  | k :: keys' =>
      r ← on_state_db (db_get k);
      match r with
      | Some data =>
          election ← lift (decode_election data);
          elections ← read_elections keys';
          mret (election :: elections)
      | None => read_elections keys'
      end
  end.

Definition get_all_elections : VStM (StateStore S) (list ElectionState) :=
  keys ← on_state_db (db_keys_with_prefix election_prefix);
  read_elections keys.

Definition get_active_elections (st : StateStore S) : list ElectionState :=
  (map_to_list (sc_active_elections (ss_cache st))).*2.
Definition is_election_active (st : StateStore S) (id : ElectionId) : bool :=
  match sc_active_elections (ss_cache st) !! id with Some e => es_is_active e | None => false end.

(** ** Participation *)
Definition record_voter_participation (id : ElectionId) (voter_id : VoterIdentifier) : VStM (StateStore S) bool :=
  self ← get;
  match sc_voter_participation (ss_cache self) !! id with
  | Some voters =>
      _ ← update_cache (with_participation (<[id := {[voter_id]} ∪ voters]>));
      mret (negb (bool_decide (voter_id ∈ voters)))
  | None => mret false
  end.

Definition has_voter_participated (st : StateStore S) (id : ElectionId) (voter_id : VoterIdentifier) : bool :=
  match sc_voter_participation (ss_cache st) !! id with
  | Some voters => bool_decide (voter_id ∈ voters)
  | None => false
  end.

(** ** The transaction pool *)
Definition add_pending_transaction (tx : PendingTransaction) : VStM (StateStore S) unit :=
  _ ← update_cache (with_pool (<[pt_tx_id tx := tx]>)); mret tt.
Definition remove_pending_transaction (tx_id : TxId) : VStM (StateStore S) unit :=
  _ ← update_cache (with_pool (delete tx_id)); mret tt.
Definition get_pending_transaction (st : StateStore S) (tx_id : TxId) : option PendingTransaction :=
  sc_tx_pool (ss_cache st) !! tx_id.
Definition get_pending_transactions (st : StateStore S) : list PendingTransaction :=
  (map_to_list (sc_tx_pool (ss_cache st))).*2.

(** [retain], counting the removed entries. *)
Definition prune_pending_transactions (cutoff_time : Z) : VStM (StateStore S) Z :=
  self ← get;
  let pool := sc_tx_pool (ss_cache self) in
  let kept := filter (fun kv => cutoff_time <= pt_added_at kv.2) pool in
  _ ← update_cache (with_pool (fun _ => kept));
  mret (len (filter (fun kv => ~ cutoff_time <= pt_added_at kv.2) (map_to_list pool))).

(** ** Statistics *)
Record StateStats := mkStateStats {
  sst_current_height : Z;
  sst_latest_block_hash : BlockHash;
  sst_active_validators : Z;
  sst_active_elections : Z;
  sst_pending_transactions : Z;
  sst_total_votes_tracked : Z
}.

Definition state_get_stats (st : StateStore S) : StateStats :=
  let c := ss_cache st in
  mkStateStats (sc_current_height c) (sc_latest_block_hash c)
    (Z.of_nat (size (sc_active_validators c))) (Z.of_nat (size (sc_active_elections c)))
    (Z.of_nat (size (sc_tx_pool c)))
    (foldr (fun kv acc => u64_add (Z.of_nat (size kv.2)) acc) 0 (map_to_list (sc_voter_participation c))).
End state_store.

(** ** What a restart finds in the database *)
Section restart.
Context {S : Type} `{DatabaseSpec S, HexCrateSpec, BincodeElection}.
Implicit Types (k : key) (v : value) (c : gmap key value) (J : gmap key value -> Prop).

Definition state_contents (st : StateStore S) : gmap key value := db_contents (ss_db st).

(** Validators are stored under keys that end in 64 hexadecimal digits. *)
Definition validator_keys_hex c : Prop :=
  forall k, is_Some (c !! k) -> starts_with k validator_prefix = true -> exists w, k = validator_key w.

(** An operation that keeps a property of the contents, whatever its outcome. *)
Definition keeps {A : Type} (J : gmap key value -> Prop) (m : VStM (StateStore S) A) : Prop :=
  forall st, J (state_contents st) -> J (state_contents (m st).2).

Lemma keeps_bind {A B : Type} J (m : VStM (StateStore S) A) (f : A -> VStM (StateStore S) B) :
  keeps J m -> (forall a, keeps J (f a)) -> keeps J (m ≫= f).
Proof.
  intros Hm Hf st Hst. specialize (Hm st Hst). unfold mbind, stM_bind.
  destruct (m st) as [[a|e|] st']; [by apply Hf|done..].
Qed.

Lemma keeps_ret {A : Type} J (a : A) : keeps J (mret a : VStM (StateStore S) A).
Proof. by intros st. Qed.
Lemma keeps_get J : keeps J (get : VStM (StateStore S) (StateStore S)).
Proof. by intros st. Qed.
Lemma keeps_lift {A : Type} J (r : VResult A) : keeps J (lift r : VStM (StateStore S) A).
Proof. by intros st. Qed.
Lemma keeps_cache J f : keeps J (update_cache f).
Proof. by intros st. Qed.

Lemma keeps_db {A : Type} (J : gmap key value -> Prop) (m : VStM S A) (M : gmap key value -> gmap key value) P :
  (forall s, db_outcome db_contents (M (db_contents s)) (P s) s (m s)) -> (forall c, J c -> J (M c)) ->
  keeps J (on_state_db m).
Proof.
  intros Hm HJ st Hst. unfold on_state_db. specialize (Hm (ss_db st)). unfold state_contents in *.
  destruct (m (ss_db st)) as [[a|e|] s']; cbn in *; [destruct Hm as [_ ->]; auto|destruct Hm as [->| ->]; auto|done].
Qed.

Lemma keeps_db_get J k : keeps J (on_state_db (db_get k)).
Proof.
  apply (keeps_db _ _ (fun c => c) (fun s r => r = db_contents s !! k)); [intros; apply db_get_spec|done].
Qed.
Lemma keeps_db_keys J k : keeps J (on_state_db (db_keys_with_prefix k)).
Proof.
  apply (keeps_db _ _ (fun c => c) (fun s => scanned (db_read_error s k) (with_prefix k (db_contents s)).*1));
    [intros; apply db_keys_with_prefix_spec|done].
Qed.
Lemma keeps_db_put (J : gmap key value -> Prop) k v : (forall c, J c -> J (<[k := v]> c)) -> keeps J (on_state_db (db_put k v)).
Proof. intros HJ. apply (keeps_db _ _ (fun c => <[k := v]> c) (fun _ _ => True)); [intros; apply db_put_spec|done]. Qed.
Lemma keeps_db_delete (J : gmap key value -> Prop) k : (forall c, J c -> J (delete k c)) -> keeps J (on_state_db (db_delete k)).
Proof. intros HJ. apply (keeps_db _ _ (fun c => delete k c) (fun _ _ => True)); [intros; apply db_delete_spec|done]. Qed.

(** What the store's writes keep true of the database. *)
Definition db_ok c : Prop :=
  validator_keys_hex c /\ (forall d, c !! latest_hash_key = Some d -> length d = 32%nat).

Lemma db_ok_put k v c :
  (starts_with k validator_prefix = true -> exists w, k = validator_key w) ->
  (k = latest_hash_key -> length v = 32%nat) -> db_ok c -> db_ok (<[k := v]> c).
Proof.
  intros Hk Hh [Hc Ht]. split.
  - intros j [d Hd] Hj. apply lookup_insert_Some in Hd as [[<- _]|[_ Hd]]; [by apply Hk|]. apply Hc; [by exists d|done].
  - intros d [[-> <-]|[_ Hd]]%lookup_insert_Some; [by apply Hh|by apply Ht].
Qed.

Lemma db_ok_delete k c : db_ok c -> db_ok (delete k c).
Proof.
  intros [Hc Ht]. split; [intros j [d [_ Hd]%lookup_delete_Some] Hj; apply Hc; [by exists d|done]|].
  intros d [_ Hd]%lookup_delete_Some. by apply Ht.
Qed.

Lemma election_key_prefix id : starts_with (election_key id) validator_prefix = false.
Proof. done. Qed.

#[local] Hint Resolve keeps_bind keeps_ret keeps_get keeps_lift keeps_cache keeps_db_get keeps_db_keys : core.

Lemma keeps_get_election id : keeps db_ok (get_election id).
Proof.
  apply keeps_bind; [auto|]. intros st. destruct (_ !! id); [auto|]. apply keeps_bind; [auto|].
  intros [d|]; [|auto]. apply keeps_bind; auto.
Qed.

Lemma keeps_put_election id data : keeps db_ok (on_state_db (db_put (election_key id) data)).
Proof. apply keeps_db_put. intros c. apply db_ok_put; [by rewrite election_key_prefix|done]. Qed.

Lemma keeps_change_election f id : keeps db_ok (change_election f id).
Proof.
  apply keeps_bind; [auto|intros _]. apply keeps_bind; [apply keeps_get_election|].
  intros [e|]; [|auto]. apply keeps_bind; [auto|]. intros d. apply keeps_put_election.
Qed.

(** The operations that write to the database; the others change only the cache. *)
Inductive StateOp :=
| SUpdateTip (height : Z) (hash : BlockHash)
| SAddValidator (v : PublicKey)
| SRemoveValidator (v : PublicKey)
| SCreateElection (e : ElectionState)
| SCloseElection (id : ElectionId) (height : Z)
| SIncrement (id : ElectionId)
| SRecord (id : ElectionId) (voter : VoterIdentifier)
| SAddPending (tx : PendingTransaction)
| SRemovePending (tx_id : TxId)
| SPrunePending (cutoff : Z).

Definition state_op (op : StateOp) (st : StateStore S) : StateStore S :=
  match op with
  | SUpdateTip height hash => (update_chain_tip height hash st).2
  | SAddValidator v => (state_add_validator v st).2
  | SRemoveValidator v => (state_remove_validator v st).2
  | SCreateElection e => (create_election e st).2
  | SCloseElection id height => (close_election id height st).2
  | SIncrement id => (increment_vote_count id st).2
  | SRecord id voter => (record_voter_participation id voter st).2
  | SAddPending tx => (add_pending_transaction tx st).2
  | SRemovePending tx_id => (remove_pending_transaction tx_id st).2
  | SPrunePending cutoff => (prune_pending_transactions cutoff st).2
  end.

Lemma keeps_state_op op st :
  db_ok (state_contents st) -> db_ok (state_contents (state_op op st)).
Proof.
  revert st. destruct op as [h hash|v|v|e|id h|id|id voter|tx|tx_id|cutoff].
  - apply (keeps_bind _ (update_cache _)); [auto|intros _]. apply keeps_bind; [|intros _];
      apply keeps_db_put; intros c; apply db_ok_put; try done. intros _. apply length_array_list.
  - apply (keeps_bind _ (update_cache _)); [auto|intros _]. apply keeps_db_put. intros c.
    apply db_ok_put; [by exists v|done].
  - apply (keeps_bind _ (update_cache _)); [auto|intros _]. apply keeps_db_delete, db_ok_delete.
  - apply (keeps_bind _ (update_cache _)); [auto|intros _]. apply keeps_bind; [auto|]. intros d. apply keeps_put_election.
  - apply keeps_change_election.
  - apply keeps_change_election.
  - apply (keeps_bind _ get); [auto|]. intros st. destruct (_ !! id); [|auto]. apply keeps_bind; auto.
  - apply (keeps_bind _ (update_cache _)); auto.
  - apply (keeps_bind _ (update_cache _)); auto.
  - apply (keeps_bind _ get); [auto|]. intros st. apply keeps_bind; auto.
Qed.

(** ** Loading *)
Definition at_state (P : gmap key value -> StateCache -> Prop) (st : StateStore S) : Prop :=
  P (state_contents st) (ss_cache st).

Lemma hoare_state_db {A : Type} (m : VStM S A) (P : gmap key value -> StateCache -> Prop)
    (Q : A -> gmap key value -> StateCache -> Prop) :
  (forall sc, hoare True (fun s => P (db_contents s) sc) m (fun a s => Q a (db_contents s) sc)) ->
  hoare True (at_state P) (on_state_db m) (fun a => at_state (Q a)).
Proof.
  intros Hm st Hst. specialize (Hm (ss_cache st) (ss_db st) Hst). unfold on_state_db.
  destruct (m (ss_db st)) as [[] ?]; done.
Qed.

Lemma validator_key_length (v : PublicKey) : length (validator_key v) = 80%nat.
Proof.
  unfold validator_key. rewrite length_string_bytes, length_string_app.
  unfold PublicKey_to_hex. rewrite hex_encode_length, length_array_list. done.
Qed.

Lemma validator_of_hex_key (v : PublicKey) : validator_of_key (validator_key v) = None.
Proof. unfold validator_of_key, len. by rewrite validator_key_length. Qed.

(** [load_validators] on such contents finds none. *)
Lemma load_validators_empty c :
  validator_keys_hex c ->
  hoare True (at_state (fun c' _ => c' = c)) load_validators
    (fun _ => at_state (fun c' sc => c' = c /\ sc_active_validators sc = ∅)).
Proof.
  intros Hc. apply (hoare_bind True _ _ _ (fun keys => at_state (fun c' _ => keys ⊆ (with_prefix validator_prefix c).*1 /\ c' = c))).
  - apply (hoare_state_db (db_keys_with_prefix validator_prefix) (fun c' _ => c' = c)
      (fun keys c' _ => keys ⊆ (with_prefix validator_prefix c).*1 /\ c' = c)). intros sc.
    apply (hoare_db_keys True validator_prefix (fun c' => c' = c)
      (fun keys c' => keys ⊆ (with_prefix validator_prefix c).*1 /\ c' = c)). by intros ? ks -> ?.
  - intros keys. apply hoare_modify. intros st [Hk Ec]. split; [exact Ec|]. cbn.
    assert (omap validator_of_key keys = []) as ->; [|done].
    assert (Forall (fun k => validator_of_key k = None) keys) as Hall.
    { apply Forall_forall. intros k Hin. apply Hk in Hin. apply list_elem_of_fmap in Hin as ([k' d] & -> & Hkd).
      apply with_prefix_elem in Hkd as [Hl Hp]. cbn. destruct (Hc k') as [v ->]; [by exists d|done|].
      apply validator_of_hex_key. }
    clear -Hall. induction Hall as [|k keys Hk _ IH]; [done|]. cbn. by rewrite Hk.
Qed.

Lemma load_election_hoare (P : gmap key value -> StateCache -> Prop) k :
  (forall c sc f, P c sc -> P c (with_elections f sc)) ->
  hoare True (at_state P) (load_election k) (fun _ => at_state P).
Proof.
  intros HP. apply (hoare_bind True _ _ _ (fun _ => at_state P)).
  - apply (hoare_state_db (db_get k) P (fun _ => P)). intros sc. by apply (hoare_db_get True k (fun c => P c sc) (fun _ c => P c sc)).
  - intros [d|]; [|by apply hoare_ret]. intros st Hst. unfold_st. destruct (decode_election d) as [e|e|] eqn:E; [|done|].
    + destruct (es_is_active e); [by apply HP|done].
    + unfold decode_election, map_err in E. by destruct (bincode_election_decode d).
Qed.

Lemma load_elections_hoare (P : gmap key value -> StateCache -> Prop) :
  (forall c sc f, P c sc -> P c (with_elections f sc)) ->
  hoare True (at_state P) load_active_elections (fun _ => at_state P).
Proof.
  intros HP. apply (hoare_bind True _ _ _ (fun _ => at_state P)).
  - apply (hoare_state_db (db_keys_with_prefix election_prefix) P (fun _ => P)). intros sc.
    by apply (hoare_db_keys True election_prefix (fun c => P c sc) (fun _ c => P c sc)).
  - intros keys. apply (hoare_bind True _ _ _ (fun _ => at_state P)); [apply hoare_modify; intros st; by apply HP|].
    intros _. apply (hoare_for_each True (fun _ => at_state P)); [|done]. intros k keys'. by apply load_election_hoare.
Qed.

Lemma load_state_hoare c :
  db_ok c ->
  hoare True (at_state (fun c' sc => c' = c /\ sc = StateCache_empty)) load_state_from_db
    (fun _ => at_state (fun c' sc => c' = c /\ sc_active_validators sc = ∅ /\
       (forall h, is_u64 h -> c !! current_height_key = Some (u64_le h) -> sc_current_height sc = h) /\
       (forall hash, c !! latest_hash_key = Some (array_list (block_hash_bytes hash)) -> sc_latest_block_hash sc = hash) /\
       sc_tx_pool sc = ∅ /\ sc_voter_participation sc = ∅)).
Proof.
  intros [Hhex Hlen]. unfold load_state_from_db.
  pose (P1 := fun c' sc => c' = c /\ sc_tx_pool sc = ∅ /\ sc_voter_participation sc = ∅).
  pose (P2 := fun (c' : gmap key value) sc => P1 c' sc /\
     forall h, is_u64 h -> c !! current_height_key = Some (u64_le h) -> sc_current_height sc = h).
  pose (P3 := fun (c' : gmap key value) sc => P2 c' sc /\
     forall hash, c !! latest_hash_key = Some (array_list (block_hash_bytes hash)) -> sc_latest_block_hash sc = hash).
  apply (hoare_bind True _ _ _ (fun r => at_state (fun c' sc => r = c !! current_height_key /\ P1 c' sc))).
  { apply (hoare_state_db (db_get current_height_key) (fun c' sc => c' = c /\ sc = StateCache_empty)
      (fun r c' sc => r = c !! current_height_key /\ P1 c' sc)). intros sc.
    apply (hoare_db_get True current_height_key (fun c' => c' = c /\ sc = StateCache_empty)
      (fun r c' => r = c !! current_height_key /\ P1 c' sc)). by intros ? [-> ->]. }
  intros rh. apply (hoare_bind True _ _ _ (fun _ => at_state P2)).
  { intros st [Er HP]. destruct rh as [d|]; unfold_st.
    - destruct (array_of 8 d) as [a|] eqn:Ea; [|done]. split; [exact HP|]. cbn. intros h Hh Eh.
      apply array_of_Some in Ea as ->. rewrite <- Er in Eh. injection Eh as ->. by apply le_val_u64.
    - split; [exact HP|]. intros h _ Eh. by rewrite <- Er in Eh. }
  intros _. apply (hoare_bind True _ _ _ (fun r => at_state (fun c' sc => r = c !! latest_hash_key /\ P2 c' sc))).
  { apply (hoare_state_db (db_get latest_hash_key) P2 (fun r c' sc => r = c !! latest_hash_key /\ P2 c' sc)).
    intros sc. apply (hoare_db_get True latest_hash_key (fun c' => P2 c' sc) (fun r c' => r = c !! latest_hash_key /\ P2 c' sc)).
    intros c' HP. split; [|done]. by destruct HP as [[-> _] _]. }
  intros rhash. apply (hoare_bind True _ _ _ (fun _ => at_state P3)).
  { intros st [Er HP]. destruct rhash as [d|]; unfold_st.
    - destruct (array_of 32 d) as [a|] eqn:Ea; cbn.
      + split; [exact HP|]. cbn. intros [hash] Eh. apply array_of_Some in Ea. rewrite <- Er in Eh. injection Eh as Eh.
        f_equal. apply array_list_inj. cbn in Eh. congruence.
      + unfold array_of in Ea. destruct (decide _) as [|Hn]; [done|]. by apply Hn, Hlen.
    - split; [exact HP|]. intros hash Eh. by rewrite <- Er in Eh. }
  intros _. apply (hoare_bind True _ _ _ (fun _ => at_state (fun c' sc => P3 c' sc /\ sc_active_validators sc = ∅))).
  { intros st HP. pose proof HP as [[[Ec _] _] _].
    pose proof (load_validators_empty c Hhex st Ec) as Hv. unfold load_validators in *.
    unfold mbind, stM_bind in *. pose proof (db_keys_with_prefix_spec validator_prefix (ss_db st)) as Hk.
    unfold on_state_db in *. destruct (db_keys_with_prefix validator_prefix (ss_db st)) as [[keys| |] s']; [|done..].
    destruct Hv as [Ec' Hv]. split; [|exact Hv]. unfold P3, P2, P1 in *. cbn. destruct HP as [[[_ HP1] HP2] HP3]. done. }
  intros _. eapply hoare_conseq; [apply (load_elections_hoare (fun c' sc => P3 c' sc /\ sc_active_validators sc = ∅))| |].
  - done.
  - done.
  - intros _ st [[[[Hc [Hp1 Hp2]] Hp3] Hp4] Hp5]. by split_and!.
Qed.

(** Whatever was done to a state store since it was opened on an empty database, if
    reopening its database succeeds then the chain tip of the last update_chain_tip is
    back, but no validator is (they are written under hexadecimal keys and looked for
    under keys with 32 raw bytes), and pending transactions and the record of who voted
    are empty. *)
Theorem restart_loses_validators (db0 : S) (st0 st st1 st' : StateStore S) (ops : list StateOp)
    (height : Z) (hash : BlockHash) :
  db_contents db0 = ∅ -> StateStore_new db0 = Ok st0 -> foldl (fun st op => state_op op st) st0 ops = st ->
  is_u64 height -> update_chain_tip height hash st = (Ok tt, st1) -> StateStore_new (ss_db st1) = Ok st' ->
  get_current_height st' = height /\ get_latest_block_hash st' = hash /\
  get_active_validators st' = [] /\ (forall w, is_validator_active st' w = false) /\
  get_pending_transactions st' = [] /\ (forall id voter, has_voter_participated st' id voter = false).
Proof.
  intros Hdb Hnew <- Hh Htip Hnew'.
  assert (db_ok (state_contents st0)) as H0ok.
  { unfold StateStore_new in Hnew. pose proof (load_state_hoare ∅) as Hl.
    assert (db_ok ∅) as Hempty by (split; [by intros k [? ?]|done]).
    specialize (Hl Hempty (mkStateStore db0 StateCache_empty) (conj Hdb eq_refl)).
    destruct (load_state_from_db _) as [[]]; [|done..]. injection Hnew as <-. destruct Hl as [-> _]. done. }
  assert (db_ok (state_contents (foldl (fun st op => state_op op st) st0 ops))) as Hok.
  { clear -H0ok. revert st0 H0ok. induction ops as [|op ops IH]; intros st0 H0ok; [done|]. by apply IH, keeps_state_op. }
  set (st := foldl _ st0 ops) in *.
  assert (state_contents st1 = <[latest_hash_key := array_list (block_hash_bytes hash)]>
    (<[current_height_key := u64_le height]> (state_contents st))) as Ec.
  { unfold update_chain_tip in Htip. unfold mbind, stM_bind, update_cache, modify, on_state_db in Htip. cbn in Htip.
    pose proof (db_put_spec current_height_key (u64_le height) (ss_db st)) as Hp1.
    destruct (db_put current_height_key _ _) as [[| |] s1]; [|done..]. cbn in Htip.
    pose proof (db_put_spec latest_hash_key (array_list (block_hash_bytes hash)) s1) as Hp2.
    destruct (db_put latest_hash_key _ _) as [[| |] s2]; [|done..]. injection Htip as _ <-.
    destruct Hp1 as [_ Hp1], Hp2 as [_ Hp2]. unfold state_contents. cbn. by rewrite Hp2, Hp1. }
  assert (db_ok (state_contents st1)) as Hok1.
  { rewrite Ec. apply db_ok_put; [done|intros _; apply length_array_list|]. by apply db_ok_put. }
  unfold StateStore_new in Hnew'.
  pose proof (load_state_hoare _ Hok1 (mkStateStore (ss_db st1) StateCache_empty) (conj eq_refl eq_refl)) as Hl.
  destruct (load_state_from_db _) as [[]]; [|done..]. injection Hnew' as <-.
  destruct Hl as (_ & Hv & Hhe & Hha & Hp & Hpa). unfold get_active_validators, is_validator_active,
    get_pending_transactions, has_voter_participated, get_current_height, get_latest_block_hash.
  rewrite Hv, Hp, Hpa. split_and!.
  - apply Hhe; [done|]. rewrite Ec, lookup_insert_ne by done. apply lookup_insert_eq.
  - apply Hha. rewrite Ec. apply lookup_insert_eq.
  - apply elements_empty.
  - intros v. by apply bool_decide_eq_false.
  - done.
  - intros id voter. by rewrite lookup_empty.
Qed.
End restart.

(** ** Elections: the cached and the stored record *)
Definition election_in_range (e : ElectionState) : Prop :=
  is_u64 (es_start_time e) /\ is_u64 (es_end_time e) /\ is_u64 (es_total_votes e) /\
  is_u64 (es_created_at_height e) /\ (forall h, es_closed_at_height e = Some h -> is_u64 h).

(** Documented of [bincode]: elections serialize and are read back as they were. *)
Class BincodeElectionSpec `{BincodeElection} := {
  bincode_election_round : forall e, election_in_range e ->
    exists d, bincode_election e = inl d /\ bincode_election_decode d = inl e
}.

Section elections.
Context {S : Type} `{DatabaseSpec S, HexCrate, BincodeElectionSpec}.

(** The record in the database, as a restart would read it. *)
Definition stored_election (st : StateStore S) (id : ElectionId) : option ElectionState :=
  match state_contents st !! election_key id with
  | Some d => match bincode_election_decode d with inl e => Some e | inr _ => None end
  | None => None
  end.

Definition cached_election (st : StateStore S) (id : ElectionId) : option ElectionState :=
  sc_active_elections (ss_cache st) !! id.

Lemma count_vote_in_range e : election_in_range e -> election_in_range (count_vote e).
Proof. intros (? & ? & ? & ? & ?). split_and!; try done; cbn; apply u64_add_range. Qed.

Lemma put_election_Ok id e d st st' :
  bincode_election_decode d = inl e -> on_state_db (db_put (election_key id) d) st = (Ok tt, st') ->
  stored_election st' id = Some e /\ ss_cache st' = ss_cache st.
Proof.
  intros Hd E. unfold on_state_db in E. pose proof (db_put_spec (election_key id) d (ss_db st)) as Hp.
  destruct (db_put _ _ _) as [[| |] s']; [|done..]. injection E as _ <-. destruct Hp as [_ Hp].
  unfold stored_election, state_contents. cbn. by rewrite Hp, lookup_insert_eq, Hd.
Qed.

(** Changing a cached election: once in the cache, twice in the database. *)
Lemma change_cached f id e st st' :
  cached_election st id = Some e -> election_in_range (f (f e)) -> change_election f id st = (Ok tt, st') ->
  cached_election st' id = Some (f e) /\ stored_election st' id = Some (f (f e)).
Proof.
  intros He Hr E. unfold change_election, get_election in E.
  unfold mbind, stM_bind, update_cache, modify, get, mret, stM_ret, lift in E. cbn in E.
  rewrite lookup_alter_eq in E. unfold cached_election in He. rewrite He in E. cbn in E.
  destruct (bincode_election_round _ Hr) as (d & Ed & Hd). unfold encode_election in E. rewrite Ed in E. cbn in E.
  apply (put_election_Ok _ _ _ _ _ Hd) in E as [Hs Hc]. split; [|done].
  unfold cached_election. rewrite Hc. cbn. by rewrite lookup_alter_eq, He.
Qed.

Fixpoint increments (n : nat) (id : ElectionId) : VStM (StateStore S) unit :=
  match n with
  | O => mret tt
  | Datatypes.S n' => _ ← increment_vote_count id; increments n' id
  end.

Lemma increments_cached n id e st st' :
  cached_election st id = Some e -> election_in_range e -> increments (Datatypes.S n) id st = (Ok tt, st') ->
  cached_election st' id = Some (Nat.iter (Datatypes.S n) count_vote e) /\
  stored_election st' id = Some (Nat.iter (Datatypes.S (Datatypes.S n)) count_vote e).
Proof.
  revert e st. induction n as [|n IH]; intros e st He Hr E; cbn [increments] in E; unfold mbind at 1, stM_bind at 1 in E;
    destruct (increment_vote_count id st) as [[[]| |] st1] eqn:E1; try done;
    (apply (change_cached count_vote id e) in E1 as [Hc Hs]; [|done|by repeat apply count_vote_in_range]).
  - injection E as <-. done.
  - destruct (IH _ _ Hc (count_vote_in_range _ Hr) E) as [-> ->].
    by rewrite <- !Nat.iter_succ_r.
Qed.

Lemma iter_count_vote n e :
  election_in_range e -> es_total_votes e + Z.of_nat n < 2 ^ 64 ->
  es_total_votes (Nat.iter n count_vote e) = es_total_votes e + Z.of_nat n.
Proof.
  intros (_ & _ & Hv & _) Hn. unfold is_u64 in Hv. induction n as [|n IH]; [change (Nat.iter 0 count_vote e) with e; lia|]. rewrite Nat.iter_succ.
  change (es_total_votes (count_vote ?x)) with (u64_add (es_total_votes x) 1).
  rewrite IH, u64_add_small by lia. lia.
Qed.

(** After an election was created and n > 0 votes were counted, the running store
    reports the true count, but the record in the database, which a restart reads, has one
    vote more: increment_vote_count increments the copy that it just incremented. *)
Theorem persisted_count_off_by_one (e : ElectionState) (st st0 st' : StateStore S) (n : nat) :
  election_in_range e -> es_total_votes e + Z.of_nat n + 1 < 2 ^ 64 -> (0 < n)%nat ->
  create_election e st = (Ok tt, st0) -> increments n (es_id e) st0 = (Ok tt, st') ->
  exists cached stored,
    cached_election st' (es_id e) = Some cached /\ es_total_votes cached = es_total_votes e + Z.of_nat n /\
    stored_election st' (es_id e) = Some stored /\ es_total_votes stored = es_total_votes e + Z.of_nat n + 1.
Proof.
  intros Hr Hn Hpos Hc Hi. destruct n as [|n]; [lia|].
  assert (cached_election st0 (es_id e) = Some e) as He.
  { unfold create_election in Hc. unfold mbind, stM_bind, update_cache, modify, lift in Hc. cbn in Hc.
    destruct (bincode_election_round _ Hr) as (d & Ed & Hd). unfold encode_election in Hc. rewrite Ed in Hc. cbn in Hc.
    apply (put_election_Ok _ _ _ _ _ Hd) in Hc as [_ Hc]. unfold cached_election. rewrite Hc. cbn. apply lookup_insert_eq. }
  destruct (increments_cached n _ _ _ _ He Hr Hi) as [Hcached Hstored].
  eexists _, _. split; [exact Hcached|]. split; [apply iter_count_vote; [done|lia]|].
  split; [exact Hstored|]. rewrite iter_count_vote; [lia|done|lia].
Qed.

(** Closing a cached election finalizes it in the cache and in the database and makes it
    inactive, but it stays in the list that get_active_elections returns. *)
Theorem closed_election_still_listed (e : ElectionState) (height : Z) (st st' : StateStore S) :
  cached_election st (es_id e) = Some e -> election_in_range e -> is_u64 height ->
  close_election (es_id e) height st = (Ok tt, st') ->
  is_election_active st' (es_id e) = false /\
  cached_election st' (es_id e) = Some (close height e) /\ stored_election st' (es_id e) = Some (close height e) /\
  close height e ∈ get_active_elections st'.
Proof.
  intros He Hr Hh E. apply (change_cached (close height) (es_id e) e) in E as [Hc Hs]; [|done|].
  - split_and!; [unfold is_election_active; unfold cached_election in Hc; by rewrite Hc|done|done|].
    unfold get_active_elections. apply list_elem_of_fmap. exists (es_id e, close height e).
    split; [done|]. by apply elem_of_map_to_list.
  - destruct Hr as (? & ? & ? & ? & ?). split_and!; try done. intros h [= <-]. done.
Qed.
End elections.

(** ** One participation per voter and election *)
Section participation.
Context {S : Type} `{Database S, HexCrate, BincodeElection}.

Definition participation (st : StateStore S) : gmap ElectionId (gset VoterIdentifier) :=
  sc_voter_participation (ss_cache st).

(** Operations other than the creation of an election with this identifier. *)
Definition keeps_election (id : ElectionId) (op : StateOp) : Prop :=
  match op with SCreateElection e => es_id e <> id | _ => True end.

(** Parts of an operation that leave the participation records alone. *)
Definition same_records {A : Type} (m : VStM (StateStore S) A) : Prop :=
  forall st, participation (m st).2 = participation st.

Lemma same_bind {A B : Type} (m : VStM (StateStore S) A) (f : A -> VStM (StateStore S) B) :
  same_records m -> (forall a, same_records (f a)) -> same_records (m ≫= f).
Proof.
  intros Hm Hf st. specialize (Hm st). unfold mbind, stM_bind.
  destruct (m st) as [[a|e|] st']; cbn in *; [by rewrite Hf|done..].
Qed.
Lemma same_ret {A : Type} (a : A) : same_records (mret a : VStM (StateStore S) A).
Proof. done. Qed.
Lemma same_get : same_records (get : VStM (StateStore S) (StateStore S)).
Proof. done. Qed.
Lemma same_lift {A : Type} (r : VResult A) : same_records (lift r : VStM (StateStore S) A).
Proof. done. Qed.
Lemma same_db {A : Type} (m : VStM S A) : same_records (on_state_db m).
Proof. intros st. unfold on_state_db. by destruct (m (ss_db st)). Qed.
Lemma same_cache f :
  (forall c, sc_voter_participation (f c) = sc_voter_participation c) -> same_records (update_cache f).
Proof. intros Hf st. apply Hf. Qed.

#[local] Hint Resolve same_ret same_get same_lift same_db : core.
#[local] Hint Extern 0 (same_records (update_cache _)) => by apply same_cache : core.

Lemma same_for_each (f : key -> VStM (StateStore S) unit) l :
  (forall k, same_records (f k)) -> same_records (st_for_each f l).
Proof. intros Hf. induction l as [|k l IH]; [auto|]. apply same_bind; auto. Qed.

Lemma same_get_election id : same_records (get_election id).
Proof.
  apply same_bind; [auto|]. intros st. destruct (_ !! id); [auto|]. apply same_bind; [auto|].
  intros [d|]; [|auto]. apply same_bind; auto.
Qed.

Lemma same_change_election f id : same_records (change_election f id).
Proof.
  apply same_bind; [auto|intros _]. apply same_bind; [apply same_get_election|]. intros [e|]; [|auto]. apply same_bind; auto.
Qed.

Lemma same_load_state : same_records load_state_from_db.
Proof.
  apply same_bind; [auto|]. intros rh. apply same_bind.
  { destruct rh; [|auto]. apply same_bind; auto. }
  intros _. apply same_bind; [auto|]. intros rhash. apply same_bind.
  { destruct rhash; [|auto]. apply same_bind; auto. }
  intros _. apply same_bind; [apply same_bind; auto|intros _]. apply same_bind; [auto|]. intros keys.
  apply same_bind; [auto|intros _]. apply same_for_each. intros k. apply same_bind; [auto|]. intros [d|]; [|auto].
  apply same_bind; [auto|]. intros e. destruct (es_is_active e); auto.
Qed.

Lemma create_participation e st : participation (create_election e st).2 = <[es_id e := ∅]> (participation st).
Proof.
  unfold create_election, mbind, stM_bind, lift. cbn. destruct (encode_election e) as [d| |]; [|done..]. by rewrite same_db.
Qed.

(** The effect of an operation on the record of an election that it does not create. *)
Definition add_record (id : ElectionId) (op : StateOp) (voters : gset VoterIdentifier) : gset VoterIdentifier :=
  match op with
  | SRecord id' voter => if decide (id' = id) then {[voter]} ∪ voters else voters
  | _ => voters
  end.

Lemma participation_op op id st :
  keeps_election id op -> participation (state_op op st) !! id = add_record id op <$> participation st !! id.
Proof.
  assert (forall A (m : VStM (StateStore S) A), same_records m ->
            participation (m st).2 !! id = (fun voters => voters) <$> participation st !! id) as Hsame.
  { intros A m Hm. rewrite Hm. by destruct (participation st !! id). }
  intros Hk. destruct op as [h hash|v|v|e|id' h|id'|id' voter|tx|tx_id|cutoff]; cbn [state_op add_record].
  - apply Hsame, same_bind; [auto|intros _]. apply same_bind; auto.
  - apply Hsame, same_bind; auto.
  - apply Hsame, same_bind; auto.
  - rewrite create_participation, lookup_insert_ne by done. by destruct (_ !! id).
  - apply Hsame, same_change_election.
  - apply Hsame, same_change_election.
  - unfold record_voter_participation. unfold_st. unfold participation.
    destruct (sc_voter_participation (ss_cache st) !! id') as [voters|] eqn:E; destruct (decide (id' = id)) as [->|]; cbn.
    + rewrite lookup_insert_eq, E. cbn. by rewrite decide_True.
    + rewrite lookup_insert_ne by done. destruct (_ !! id); [|done]. cbn. by rewrite decide_False.
    + by rewrite E.
    + destruct (_ !! id); [|done]. cbn. by rewrite decide_False.
  - apply Hsame, same_bind; auto.
  - apply Hsame, same_bind; auto.
  - apply Hsame, same_bind; [auto|]. intros st'. apply same_bind; auto.
Qed.

(** What the store answers to the calls that record this voter in this election, in the course
    of a sequence of operations. *)
Definition answer (id : ElectionId) (voter : VoterIdentifier) (op : StateOp) (st : StateStore S) : list (VResult bool) :=
  match op with
  | SRecord id' voter' =>
      if decide (id' = id /\ voter' = voter) then [(record_voter_participation id voter st).1] else []
  | _ => []
  end.
Fixpoint answers (id : ElectionId) (voter : VoterIdentifier) (ops : list StateOp) (st : StateStore S) : list (VResult bool) :=
  match ops with
  | [] => []
  | op :: ops' => answer id voter op st ++ answers id voter ops' (state_op op st)
  end.
Definition run_ops (ops : list StateOp) (st : StateStore S) : StateStore S := foldl (fun st op => state_op op st) st ops.

(** The answers of a store where the voter is recorded, or the election is unknown. *)
Lemma answers_refused id voter ops st :
  Forall (keeps_election id) ops -> (forall voters, participation st !! id = Some voters -> voter ∈ voters) ->
  answers id voter ops st = replicate (length (answers id voter ops st)) (Ok false) /\
  has_voter_participated (run_ops ops st) id voter = bool_decide (is_Some (participation st !! id)).
Proof.
  intros Hf. revert st. induction Hf as [|op ops Hop _ IH]; intros st Hst; cbn [answers run_ops foldl].
  - split; [done|]. unfold has_voter_participated. change (sc_voter_participation (ss_cache st)) with (participation st).
    destruct (participation st !! id) as [voters|] eqn:E; [|done]. by rewrite !bool_decide_true by eauto.
  - destruct (IH (state_op op st)) as [IH1 IH2].
    { intros voters. rewrite participation_op by done. intros (vs & Hvs & ->)%fmap_Some.
      apply Hst in Hvs. destruct op; cbn; try done. case_decide; set_solver. }
    split.
    + assert (answer id voter op st = replicate (length (answer id voter op st)) (Ok false)) as Ha.
      { destruct op as [| | | | | |id' voter'| | |]; try done. cbn. case_decide as Hd; [|done]. destruct Hd as [-> ->]. cbn.
        f_equal. unfold record_voter_participation. unfold_st. change (sc_voter_participation (ss_cache st)) with (participation st).
        destruct (participation st !! id) as [voters|] eqn:E; [|done]. cbn. by rewrite bool_decide_true by eauto. }
      rewrite length_app, replicate_add, <- Ha. f_equal. exact IH1.
    + change (foldl _ (state_op op st) ops) with (run_ops ops (state_op op st)). rewrite IH2, participation_op by done.
      by destruct (participation st !! id).
Qed.

(** The answers of a store that has the election and not the voter. *)
Lemma answers_first id voter ops st voters :
  Forall (keeps_election id) ops -> participation st !! id = Some voters -> voter ∉ voters ->
  answers id voter ops st = match length (answers id voter ops st) with O => [] | Datatypes.S n => Ok true :: replicate n (Ok false) end /\
  has_voter_participated (run_ops ops st) id voter = bool_decide (answers id voter ops st <> []).
Proof.
  intros Hf. revert st voters. induction Hf as [|op ops Hop Hops IH]; intros st voters Hv Hnot; cbn [answers run_ops foldl].
  { split; [done|]. unfold has_voter_participated. unfold participation in Hv. rewrite Hv. by apply bool_decide_eq_false. }
  pose proof (participation_op op id st Hop) as Hp. rewrite Hv in Hp. cbn in Hp.
  assert (answer id voter op st = [] /\ voter ∉ add_record id op voters \/
          answer id voter op st = [Ok true] /\ voter ∈ add_record id op voters) as [[-> Hn]|[-> Hy]].
  { destruct op as [| | | | | |id' voter'| | |]; try by left. cbn. repeat case_decide; try naive_solver; [|left; split; set_solver..].
    right. destruct_and!. subst. split; [|set_solver]. unfold record_voter_participation. unfold_st. unfold participation in Hv.
    rewrite Hv. cbn. by rewrite bool_decide_false. }
  - apply (IH _ _ Hp Hn).
  - destruct (answers_refused id voter ops (state_op op st) Hops) as [Ha Hh]; [rewrite Hp; naive_solver|].
    rewrite Hp in Hh. cbn. split; [by rewrite <- Ha|]. etrans; [exact Hh|]. by rewrite bool_decide_true by eauto.
Qed.

(** C28: One participation per voter and election.  From the creation of an election on, and
    whatever other operations run, short of creating it anew, the calls that record a voter
    are answered true the first time and false every time after, and the voter counts as
    participated exactly when there was such a call.  The record does not survive a restart:
    in a store opened on the same database no voter counts as participated in the election,
    and every call that records one is answered false. *)
Theorem participation_once (e : ElectionState) (voter : VoterIdentifier) (st : StateStore S) (ops : list StateOp) :
  let id := es_id e in
  let st0 := (create_election e st).2 in
  Forall (keeps_election id) ops ->
  answers id voter ops st0 =
    match length (answers id voter ops st0) with O => [] | Datatypes.S n => Ok true :: replicate n (Ok false) end /\
  has_voter_participated (run_ops ops st0) id voter = bool_decide (answers id voter ops st0 <> []) /\
  (forall st' ops', StateStore_new (ss_db (run_ops ops st0)) = Ok st' -> Forall (keeps_election id) ops' ->
     answers id voter ops' st' = replicate (length (answers id voter ops' st')) (Ok false) /\
     has_voter_participated (run_ops ops' st') id voter = false).
Proof.
  intros id st0 Hops.
  assert (participation st0 !! id = Some ∅) as Hnew.
  { unfold st0. rewrite create_participation. apply lookup_insert_eq. }
  destruct (answers_first id voter ops st0 ∅ Hops Hnew ltac:(set_solver)) as [Ha Hh]. split_and!; [done..|].
  intros st' ops' Hrestart Hops'.
  assert (participation st' !! id = None) as Hnone.
  { unfold StateStore_new in Hrestart. pose proof (same_load_state (mkStateStore (ss_db (run_ops ops st0)) StateCache_empty)) as Hsame.
    destruct (load_state_from_db _) as [[[]| |] st1]; [|done..]. injection Hrestart as <-. cbn [snd] in Hsame. by rewrite Hsame. }
  destruct (answers_refused id voter ops' st' Hops') as [Ha' Hh']; [by rewrite Hnone|]. rewrite Hnone in Hh'. done.
Qed.

(** Pruning the pool keeps exactly the recent transactions and returns how many it removed. *)
Lemma prune_pending_spec cutoff (st : StateStore S) :
  exists n st', prune_pending_transactions cutoff st = (Ok n, st') /\
    (forall i tx, get_pending_transaction st' i = Some tx <->
                  get_pending_transaction st i = Some tx /\ cutoff <= pt_added_at tx) /\
    n + Z.of_nat (size (sc_tx_pool (ss_cache st'))) = Z.of_nat (size (sc_tx_pool (ss_cache st))).
Proof.
  unfold prune_pending_transactions. unfold_st. eexists _, _. split; [reflexivity|]. split.
  - intros i tx. unfold get_pending_transaction. cbn. apply map_lookup_filter_Some.
  - cbn. rewrite <- !length_map_to_list. unfold len. set (pool := sc_tx_pool (ss_cache st)).
    assert (map_to_list (filter (fun kv => cutoff <= pt_added_at kv.2) pool) ≡ₚ
            filter (fun kv => cutoff <= pt_added_at kv.2) (map_to_list pool)) as ->.
    { apply NoDup_Permutation; [apply NoDup_map_to_list|apply NoDup_filter, NoDup_map_to_list|].
      intros [i tx]. rewrite list_elem_of_filter, !elem_of_map_to_list, map_lookup_filter_Some. cbn. tauto. }
    assert (forall (l : list (TxId * PendingTransaction)),
      (length (filter (fun kv => ~ (cutoff <= pt_added_at kv.2)%Z) l) +
       length (filter (fun kv => (cutoff <= pt_added_at kv.2)%Z) l) = length l)%nat) as Hl.
    { induction l as [|kv l IH]; [done|]. rewrite !filter_cons. repeat case_decide; cbn in *; lia. }
    rewrite <- Nat2Z.inj_add. f_equal. apply Hl.
Qed.
End participation.
