(* ===== verification/Snapshot.v ===== *)
(** * Snapshots: crates/storage/src/snapshot.rs

    The snapshot file format, its writer and reader, and the bookkeeping of the snapshot
    directory.  The file system is the class [FileSystem] with [FileSystemSpec]; a path is
    a directory, a stem and an extension.  A [BufWriter] is the list of bytes written to
    it, a [BufReader] the list of bytes it has not returned yet.  The traits
    [SnapshotDataProvider] and [SnapshotDataRestorer] are records of operations. *)
From stdpp Require Import prelude gmap strings list pretty.
From Stdlib Require Import Strings.Byte Sorting.Sorted.
From S2P Require Import Prelude Floats64 Types.

Local Open Scope Z_scope.

(** ** Files *)
Record FilePath := mkFilePath { fp_dir : string; fp_stem : string; fp_ext : option string }.

Global Instance FilePath_eq_dec : EqDecision FilePath.
Proof. solve_decision. Defined.
Global Instance FilePath_countable : Countable FilePath.
Proof.
  by apply (inj_countable' (fun p => (fp_dir p, fp_stem p, fp_ext p)) (fun '(d, s, e) => mkFilePath d s e)); intros [].
Defined.

(** [Path::with_extension]. *)
Definition with_extension (p : FilePath) (ext : string) : FilePath := mkFilePath (fp_dir p) (fp_stem p) (Some ext).

(** [std::fs]; errors are given by their display strings. *)
Class FileSystem (S : Type) := {
  fs_dir_exists : S -> string -> bool;
  fs_create_dir_all : string -> stM string S unit;
  fs_exists : S -> FilePath -> bool;
  fs_create : FilePath -> stM string S unit;
  fs_append : FilePath -> list byte -> stM string S unit;
  fs_read : FilePath -> stM string S (list byte);
  fs_read_dir : string -> stM string S (list (FilePath + string));
  fs_remove_file : FilePath -> stM string S unit
}.

(** [?] on an [io::Result]: [VotingError::IoError]. *)
Definition io {S A : Type} (err : string -> VotingError) (m : stM string S A) : VStM S A := fun s =>
  match m s with
  | (Ok a, s') => (Ok a, s')
  | (Err e, s') => (Err (err e), s')
  | (Panic, s') => (Panic, s')
  end.

(** A [BufWriter] that is dropped flushes its buffer and ignores errors. *)
Definition on_drop {S A : Type} (m : stM string S A) : VStM S unit := fun s => (Ok tt, (m s).2).

(** [common::utils::ensure_dir_exists]. *)
Definition ensure_dir_exists {S : Type} `{FileSystem S} (path : string) : stM string S unit :=
  self ← get;
  if negb (fs_dir_exists self path) then fs_create_dir_all path else mret tt.

(** ** Data *)
Record SnapshotMetadata := mkSnapshotMetadata {
  sm_version : Z;
  sm_block_height : Z;
  sm_block_hash : BlockHash;
  sm_created_at : Z;
  sm_size_bytes : Z;
  sm_block_count : Z;
  sm_transaction_count : Z;
  sm_checksum : array 32;
  sm_chain_id : string
}.

Record SnapshotManager := mkSnapshotManager { smg_snapshot_dir : string; smg_version : Z }.

Record SnapshotInfo := mkSnapshotInfo {
  si_metadata : SnapshotMetadata;
  si_snapshot_path : FilePath;
  si_metadata_path : FilePath
}.

Record SnapshotDataProvider := mkSnapshotDataProvider {
  get_blocks_for_snapshot : VResult (list (list byte));
  get_transaction_count_for_block : list byte -> VResult Z;
  get_state_for_snapshot : VResult (list byte)
}.

Record SnapshotDataRestorer (R : Type) := mkSnapshotDataRestorer {
  restore_block : list byte -> VStM R unit;
  restore_state : list byte -> VStM R unit
}.
Arguments restore_block {R}.
Arguments restore_state {R}.

(** [serde_json] for the metadata; its errors become [SerializationError]s. *)
Class JsonSnapshot := {
  json_metadata : SnapshotMetadata -> list byte;
  json_metadata_decode : list byte -> SnapshotMetadata + string
}.

Definition CURRENT_VERSION : Z := 1.
Definition SNAPSHOT_EXTENSION : string := "snapshot".
Definition METADATA_EXTENSION : string := "meta".

(** ** The file format *)

(** The loop over the blocks: the bytes written and the transactions counted, until the
    provider fails. *)
Fixpoint write_blocks (p : SnapshotDataProvider) (blocks : list (list byte)) (total_tx_count : Z) :
    list byte * VResult Z :=
  match blocks with
  | [] => ([], Ok total_tx_count)
  | block_data :: rest =>
      let bytes := u32_le (len block_data) ++ block_data in
      match get_transaction_count_for_block p block_data with
      | Ok tx_count =>
          let '(more, r) := write_blocks p rest (u64_add total_tx_count tx_count) in (bytes ++ more, r)
      | Err e => (bytes, Err e)
      | Panic => (bytes, Panic)
      end
  end.

(** [write_snapshot_data]: what reaches the writer, and the result. *)
Definition write_snapshot_data (m : SnapshotManager) (p : SnapshotDataProvider) : list byte * VResult (Z * Z) :=
  let header := u32_le (smg_version m) in
  match get_blocks_for_snapshot p with
  | Ok blocks =>
      let block_count := len blocks in
      let '(body, r) := write_blocks p blocks 0 in
      match r with
      | Ok total_tx_count =>
          match get_state_for_snapshot p with
          | Ok state_data =>
              (header ++ u64_le block_count ++ body ++ u32_le (len state_data) ++ state_data,
               Ok (block_count, total_tx_count))
          | Err e => (header ++ u64_le block_count ++ body, Err e)
          | Panic => (header ++ u64_le block_count ++ body, Panic)
          end
      | Err e => (header ++ u64_le block_count ++ body, Err e)
      | Panic => (header ++ u64_le block_count ++ body, Panic)
      end
  | Err e => (header, Err e)
  | Panic => (header, Panic)
  end.

(** [read_exact] of [n] bytes. *)
Definition read_exact (n : Z) (reader : list byte) : VResult (list byte * list byte) :=
  if n <=? len reader then Ok (take (Z.to_nat n) reader, drop (Z.to_nat n) reader)
  else Err (IoError "failed to fill whole buffer").

Section reader.
Context {R : Type} (restorer : SnapshotDataRestorer R).

(** The loop over [0..block_count]; returns the unread bytes. *)
Fixpoint read_blocks (count : nat) (reader : list byte) : VStM R (list byte) :=
  match count with
  | O => mret reader
  | S count' =>
      '(block_len_bytes, reader) ← lift (read_exact 4 reader);
      let block_len := le_val block_len_bytes in
      '(block_data, reader) ← lift (read_exact block_len reader);
      _ ← restore_block restorer block_data;
      read_blocks count' reader
  end.

Definition read_snapshot_data (m : SnapshotManager) (reader : list byte) : VStM R unit :=
  '(version_bytes, reader) ← lift (read_exact 4 reader);
  let version := le_val version_bytes in
  _ ← lift (ensure (version =? smg_version m)
       (StorageError ("Snapshot version mismatch: expected " ++ pretty (smg_version m) ++ ", got " ++ pretty version)));
  '(block_count_bytes, reader) ← lift (read_exact 8 reader);
  let block_count := le_val block_count_bytes in
  reader ← read_blocks (Z.to_nat block_count) reader;
  '(state_len_bytes, reader) ← lift (read_exact 4 reader);
  let state_len := le_val state_len_bytes in
  '(state_data, reader) ← lift (read_exact state_len reader);
  restore_state restorer state_data.
End reader.

(** ** The manager *)
Section manager.
Context {S : Type} `{FileSystem S, HashCrate, JsonSnapshot}.

Definition SnapshotManager_new (snapshot_dir : string) : VStM S SnapshotManager :=
  _ ← io IoError (ensure_dir_exists snapshot_dir);
  mret (mkSnapshotManager snapshot_dir CURRENT_VERSION).

Definition calculate_checksum (path : FilePath) : VStM S (array 32) :=
  buffer ← io IoError (fs_read path);
  mret (hash_data buffer).

Definition save_snapshot_metadata (path : FilePath) (metadata : SnapshotMetadata) : VStM S unit :=
  _ ← io IoError (fs_create path);
  io IoError (fs_append path (json_metadata metadata)).

Definition load_snapshot_metadata (path : FilePath) : VStM S SnapshotMetadata :=
  data ← io IoError (fs_read path);
  lift (match json_metadata_decode data with inl md => Ok md | inr e => Err (SerializationError e) end).

(** The file of a snapshot taken at a height and time. *)
Definition snapshot_file (m : SnapshotManager) (block_height timestamp : Z) (ext : string) : FilePath :=
  mkFilePath (smg_snapshot_dir m) ("snapshot_" ++ pretty block_height ++ "_" ++ pretty timestamp) (Some ext).

Definition create_snapshot (timestamp : Z) (m : SnapshotManager) (block_height : Z) (block_hash : BlockHash)
    (chain_id : string) (data_provider : SnapshotDataProvider) : VStM S SnapshotMetadata :=
  let snapshot_path := snapshot_file m block_height timestamp SNAPSHOT_EXTENSION in
  let metadata_path := snapshot_file m block_height timestamp METADATA_EXTENSION in
  _ ← io (fun e => StorageError ("Failed to create snapshot file: " ++ e)) (fs_create snapshot_path);
  let '(bytes, r) := write_snapshot_data m data_provider in
  _ ← (if is_ok r then io IoError (fs_append snapshot_path bytes) else on_drop (fs_append snapshot_path bytes));
  '(block_count, tx_count) ← lift r;
  written ← io IoError (fs_read snapshot_path);
  let size_bytes := len written in
  checksum ← calculate_checksum snapshot_path;
  let metadata := mkSnapshotMetadata (smg_version m) block_height block_hash timestamp size_bytes
                    block_count tx_count checksum chain_id in
  _ ← save_snapshot_metadata metadata_path metadata;
  mret metadata.

(** [restore_snapshot]: the file system and the restorer are separate states. *)
Definition restore_snapshot {R : Type} (restorer : SnapshotDataRestorer R) (m : SnapshotManager) (snapshot_path : FilePath) :
    VStM (S * R) SnapshotMetadata := fun '(s, r) =>
  let prepared : VStM S (SnapshotMetadata * list byte) :=
    let metadata_path := with_extension snapshot_path METADATA_EXTENSION in
    metadata ← load_snapshot_metadata metadata_path;
    checksum ← calculate_checksum snapshot_path;
    _ ← lift (ensure (bool_decide (checksum = sm_checksum metadata))
                (StorageError "Snapshot checksum verification failed"));
    reader ← io IoError (fs_read snapshot_path);
    mret (metadata, reader) in
  match prepared s with
  | (Ok (metadata, reader), s') =>
      match read_snapshot_data restorer m reader r with
      | (Ok _, r') => (Ok metadata, (s', r'))
      | (Err e, r') => (Err e, (s', r'))
      | (Panic, r') => (Panic, (s', r'))
      end
  | (Err e, s') => (Err e, (s', r))
  | (Panic, s') => (Panic, (s', r))
  end.

(** The loop of [list_snapshots] over the directory entries. *)
Fixpoint collect_snapshots (entries : list (FilePath + string)) : VStM S (list SnapshotInfo) :=
  match entries with
  | [] => mret []
  | inr e :: _ => lift (Err (IoError e))
  | inl path :: rest =>
      if bool_decide (fp_ext path = Some METADATA_EXTENSION) then
        self ← get;
        match load_snapshot_metadata path self with
        | (Ok metadata, s') =>
            let snapshot_path := with_extension path SNAPSHOT_EXTENSION in
            _ ← modify (fun _ => s');
            infos ← collect_snapshots rest;
            mret (if fs_exists s' snapshot_path then mkSnapshotInfo metadata snapshot_path path :: infos else infos)
        | (Err _, s') => _ ← modify (fun _ => s'); collect_snapshots rest
        | (Panic, s') => _ ← modify (fun _ => s'); lift Panic
        end
      else collect_snapshots rest
  end.

Definition higher (a b : SnapshotInfo) : bool :=
  sm_block_height (si_metadata b) <=? sm_block_height (si_metadata a).

Definition list_snapshots (m : SnapshotManager) : VStM S (list SnapshotInfo) :=
  entries ← io IoError (fs_read_dir (smg_snapshot_dir m));
  snapshots ← collect_snapshots entries;
  mret (sort_by higher snapshots).

Definition get_latest_snapshot (m : SnapshotManager) : VStM S (option SnapshotInfo) :=
  snapshots ← list_snapshots m;
  mret (head snapshots).

Definition delete_snapshot (info : SnapshotInfo) : VStM S unit :=
  _ ← io IoError (fs_remove_file (si_snapshot_path info));
  io IoError (fs_remove_file (si_metadata_path info)).

Definition prune_old_snapshots (m : SnapshotManager) (keep_count : Z) : VStM S Z :=
  snapshots ← list_snapshots m;
  if len snapshots <=? keep_count then mret 0
  else
    let to_delete := drop (Z.to_nat keep_count) snapshots in
    _ ← st_for_each delete_snapshot to_delete;
    mret (len to_delete).

(** The loop of [prune_snapshots_before]. *)
Fixpoint prune_before_loop (before_timestamp : Z) (snapshots : list SnapshotInfo) (deleted : Z) : VStM S Z :=
  match snapshots with
  | [] => mret deleted
  | snapshot :: rest =>
      if sm_created_at (si_metadata snapshot) <? before_timestamp then
        _ ← delete_snapshot snapshot;
        prune_before_loop before_timestamp rest (u64_add deleted 1)
      else prune_before_loop before_timestamp rest deleted
  end.

Definition prune_snapshots_before (m : SnapshotManager) (before_timestamp : Z) : VStM S Z :=
  snapshots ← list_snapshots m;
  prune_before_loop before_timestamp snapshots 0.

Definition verify_snapshot (info : SnapshotInfo) : VStM S bool :=
  checksum ← calculate_checksum (si_snapshot_path info);
  mret (bool_decide (checksum = sm_checksum (si_metadata info))).
End manager.

(** [size_mb]. *)
Definition size_mb (info : SnapshotInfo) : f64 :=
  f64_div (f64_of_Z (sm_size_bytes (si_metadata info))) (f64_mul (f64_of_Z 1024) (f64_of_Z 1024)).

(** ** Reading back what was written *)
Lemma read_exact_app (bs rest : list byte) : read_exact (len bs) (bs ++ rest) = Ok (bs, rest).
Proof.
  unfold read_exact. rewrite len_app. pose proof (len_nonneg rest).
  destruct (Z.leb_spec (len bs) (len bs + len rest)); [|lia].
  unfold len. rewrite Nat2Z.id, take_app_length, drop_app_length. done.
Qed.

Lemma read_exact_prefix n (bs rest : list byte) : length bs = Z.to_nat n -> 0 <= n -> read_exact n (bs ++ rest) = Ok (bs, rest).
Proof. intros Hl Hn. replace n with (len bs) by (unfold len; lia). apply read_exact_app. Qed.

Definition blocks_in_range (blocks : list (list byte)) : Prop := Forall (fun b => len b < 2 ^ 32) blocks.

Lemma is_u32_len {A} (l : list A) : len l < 2 ^ 32 -> is_u32 (len l).
Proof. pose proof (len_nonneg l). unfold is_u32. lia. Qed.

Section format.
Context {R : Type} (restorer : SnapshotDataRestorer R).

(** Handing the blocks to the restorer one after the other, then the state. *)
Definition restore_all (blocks : list (list byte)) (state : list byte) : VStM R unit :=
  _ ← st_for_each (restore_block restorer) blocks;
  restore_state restorer state.

Lemma read_blocks_written p blocks n total body rest :
  write_blocks p blocks n = (body, Ok total) -> blocks_in_range blocks ->
  forall r, read_blocks restorer (length blocks) (body ++ rest) r =
    (_ ← st_for_each (restore_block restorer) blocks; mret rest) r.
Proof.
  intros Hw Hr. revert n body Hw. induction Hr as [|b blocks Hb _ IH]; intros n body Hw r; cbn [write_blocks] in Hw.
  - by injection Hw as <- <-.
  - destruct (get_transaction_count_for_block p b) as [k| |]; [|done..].
    destruct (write_blocks p blocks (u64_add n k)) as [more res] eqn:Em. apply pair_inv in Hw as [<- ->].
    specialize (IH _ _ Em). cbn [length read_blocks]. rewrite <- ?app_assoc.
    rewrite (read_exact_prefix 4) by (rewrite ?length_u32_le; done).
    unfold mbind at 1, stM_bind at 1, lift at 1. rewrite le_val_u32 by (by apply is_u32_len).
    rewrite read_exact_app. unfold mbind, stM_bind, lift. cbn [st_for_each].
    destruct (restore_block restorer b r) as [[[]| |] r']; [|done..]. apply IH.
Qed.

Lemma read_written m p bytes n k blocks state rest :
  write_snapshot_data m p = (bytes, Ok (n, k)) ->
  get_blocks_for_snapshot p = Ok blocks -> get_state_for_snapshot p = Ok state ->
  is_u32 (smg_version m) -> len blocks < 2 ^ 64 -> blocks_in_range blocks -> len state < 2 ^ 32 ->
  forall r, read_snapshot_data restorer m (bytes ++ rest) r = restore_all blocks state r.
Proof.
  unfold write_snapshot_data. intros Hw Hb Hs Hv Hn Hr Hst r. rewrite Hb, Hs in Hw.
  destruct (write_blocks p blocks 0) as [body [total| |]] eqn:Ew; [|done..]. apply pair_inv in Hw as [<- _].
  unfold read_snapshot_data. rewrite <- ?app_assoc.
  rewrite (read_exact_prefix 4) by (rewrite ?length_u32_le; done).
  unfold mbind at 1, stM_bind at 1, lift at 1. rewrite le_val_u32, Z.eqb_refl by done.
  unfold mbind at 1, stM_bind at 1, lift at 1. cbn [ensure].
  rewrite (read_exact_prefix 8) by (rewrite ?length_u64_le; done).
  unfold mbind at 1, stM_bind at 1, lift at 1. rewrite le_val_u64 by (pose proof (len_nonneg blocks); unfold is_u64; lia).
  unfold len at 1. rewrite Nat2Z.id. unfold mbind at 1, stM_bind at 1.
  rewrite (read_blocks_written p blocks 0 total body _ Ew Hr). unfold restore_all.
  unfold mbind, stM_bind, mret, stM_ret, lift.
  destruct (st_for_each (restore_block restorer) blocks r) as [[[]| |] r']; [|done..].
  rewrite (read_exact_prefix 4) by (rewrite ?length_u32_le; done).
  rewrite le_val_u32 by (by apply is_u32_len). by rewrite read_exact_app.
Qed.
End format.

(** ** Snapshots on a file system *)

(** Documented of [std::fs]: what the operations that succeed do to the files. *)
Class FileSystemSpec (S : Type) `{FileSystem S} := {
  fs_files : S -> gmap FilePath (list byte);
  fs_exists_ok : forall s p, fs_exists s p = bool_decide (is_Some (fs_files s !! p));
  fs_create_ok : forall p s s', fs_create p s = (Ok tt, s') -> fs_files s' = <[p := []]> (fs_files s);
  fs_append_ok : forall p bs old s s', fs_append p bs s = (Ok tt, s') -> fs_files s !! p = Some old ->
    fs_files s' = <[p := old ++ bs]> (fs_files s);
  fs_read_ok : forall p bs s s', fs_read p s = (Ok bs, s') -> fs_files s !! p = Some bs /\ fs_files s' = fs_files s;
  fs_read_failed : forall p e s s', fs_read p s = (Err e, s') -> fs_files s' = fs_files s;
  fs_read_no_panic : forall p s, (fs_read p s).1 <> Panic;
  fs_remove_ok : forall p s s', fs_remove_file p s = (Ok tt, s') -> fs_files s' = delete p (fs_files s)
}.

(** Documented of [serde_json]: reading inverts writing. *)
Class JsonSnapshotSpec `{JsonSnapshot} := {
  json_metadata_round : forall md, json_metadata_decode (json_metadata md) = inl md
}.

Section snapshots.
Context {S R : Type} `{FileSystemSpec S, HashCrate, JsonSnapshotSpec} (restorer : SnapshotDataRestorer R).

Lemma io_Ok {A : Type} err (m : stM string S A) s a s' : io err m s = (Ok a, s') <-> m s = (Ok a, s').
Proof. unfold io. destruct (m s) as [[] ?]; naive_solver. Qed.

Lemma snapshot_files_differ m h t : snapshot_file m h t SNAPSHOT_EXTENSION <> snapshot_file m h t METADATA_EXTENSION.
Proof. by intros [=]. Qed.

(** What a successful [create_snapshot] leaves on the file system. *)
Lemma create_snapshot_files t m h hash chain_id p s md s' :
  create_snapshot t m h hash chain_id p s = (Ok md, s') ->
  exists bytes n k,
    write_snapshot_data m p = (bytes, Ok (n, k)) /\
    md = mkSnapshotMetadata (smg_version m) h hash t (len bytes) n k (hash_data bytes) chain_id /\
    fs_files s' !! snapshot_file m h t SNAPSHOT_EXTENSION = Some bytes /\
    fs_files s' !! snapshot_file m h t METADATA_EXTENSION = Some (json_metadata md).
Proof.
  pose proof (snapshot_files_differ m h t) as Hd. unfold create_snapshot.
  set (sp := snapshot_file m h t SNAPSHOT_EXTENSION) in *. set (mp := snapshot_file m h t METADATA_EXTENSION) in *.
  unfold mbind, stM_bind, lift, mret, stM_ret.
  destruct (io _ (fs_create sp) s) as [[[]| |] s1] eqn:E1; [|by intros [=]..]. apply io_Ok, fs_create_ok in E1.
  destruct (write_snapshot_data m p) as [bytes r] eqn:Ew.
  destruct r as [[n k]|e|]; cbn [is_ok]; [|unfold on_drop; by destruct (fs_append _ _ _)..].
  destruct (io _ (fs_append sp bytes) s1) as [[[]| |] s2] eqn:E2; [|by intros [=]..].
  apply io_Ok, (fs_append_ok sp bytes []) in E2; [|rewrite E1; apply lookup_insert_eq].
  destruct (io _ (fs_read sp) s2) as [[w| |] s3] eqn:E3; [|by intros [=]..]. apply io_Ok, fs_read_ok in E3 as [Hw E3].
  assert (w = bytes) as -> by (rewrite E2, lookup_insert_eq in Hw; by injection Hw as <-).
  unfold calculate_checksum, mbind, stM_bind, mret, stM_ret.
  destruct (io _ (fs_read sp) s3) as [[w| |] s4] eqn:E4; [|by intros [=]..]. apply io_Ok, fs_read_ok in E4 as [Hw' E4].
  assert (w = bytes) as -> by (rewrite E3, Hw in Hw'; by injection Hw' as <-).
  unfold save_snapshot_metadata, mbind, stM_bind.
  destruct (io _ (fs_create mp) s4) as [[[]| |] s5] eqn:E5; [|by intros [=]..]. apply io_Ok, fs_create_ok in E5.
  set (md0 := mkSnapshotMetadata _ _ _ _ _ _ _ _ _).
  destruct (io _ (fs_append mp _) s5) as [[[]| |] s6] eqn:E6; [|by intros [=]..].
  apply io_Ok, (fs_append_ok mp _ []) in E6; [|rewrite E5; apply lookup_insert_eq].
  intros [Emd <-]%pair_inv. assert (md = md0) as -> by congruence. exists bytes, n, k.
  split; [done|]. split; [done|]. rewrite E6, E5, E4, E3, E2.
  split; [by rewrite !lookup_insert_ne, lookup_insert_eq by done|apply lookup_insert_eq].
Qed.

(** A read of a file returns its contents or fails; it changes no file. *)
Lemma fs_read_cases path bs s :
  fs_files s !! path = Some bs ->
  exists r s', io IoError (fs_read path) s = (r, s') /\ fs_files s' = fs_files s /\
    (r = Ok bs \/ exists e, r = Err (IoError e)).
Proof.
  intros Hf. unfold io. pose proof (fs_read_no_panic path s) as Hp.
  destruct (fs_read path s) as [[bs'|e|] s'] eqn:E; [| |done].
  - apply fs_read_ok in E as [Hf' Hs]. assert (bs' = bs) as -> by congruence. eauto 6.
  - apply fs_read_failed in E. eauto 8.
Qed.

(** A snapshot that was created, with blocks and state shorter than 4 GiB, is restored
    from its file as it was taken: if restoring succeeds it returns the metadata of the
    creation and has handed to the restorer exactly the provider's blocks in order and then
    the state; it can only fail by a read error or in the restorer. *)
Theorem snapshot_round_trip (t : Z) (m : SnapshotManager) (h : Z) (hash : BlockHash) (chain_id : string)
    (p : SnapshotDataProvider) (blocks : list (list byte)) (state : list byte) (s s1 : S) (md : SnapshotMetadata) (r : R) :
  create_snapshot t m h hash chain_id p s = (Ok md, s1) ->
  get_blocks_for_snapshot p = Ok blocks -> get_state_for_snapshot p = Ok state ->
  is_u32 (smg_version m) -> len blocks < 2 ^ 64 -> blocks_in_range blocks -> len state < 2 ^ 32 ->
  match restore_snapshot restorer m (snapshot_file m h t SNAPSHOT_EXTENSION) (s1, r) with
  | (Ok md', (_, r')) => md' = md /\ restore_all restorer blocks state r = (Ok tt, r')
  | (Err e, (_, r')) => (exists msg, e = IoError msg /\ r' = r) \/ restore_all restorer blocks state r = (Err e, r')
  | (Panic, (_, r')) => restore_all restorer blocks state r = (Panic, r')
  end.
Proof.
  intros Hc Hb Hs Hv Hn Hr Hst. apply create_snapshot_files in Hc as (bytes & n & k & Hw & -> & Hf & Hm).
  pose proof (read_written restorer m p bytes n k blocks state [] Hw Hb Hs Hv Hn Hr Hst r) as Hread.
  rewrite app_nil_r in Hread. set (md := mkSnapshotMetadata _ _ _ _ _ _ _ _ _) in *.
  unfold restore_snapshot, load_snapshot_metadata, calculate_checksum, mbind, stM_bind, lift, mret, stM_ret.
  change (with_extension (snapshot_file m h t SNAPSHOT_EXTENSION) METADATA_EXTENSION) with (snapshot_file m h t METADATA_EXTENSION).
  destruct (fs_read_cases _ _ _ Hm) as (r1 & s2 & -> & E2 & [->|[e1 ->]]); [|by left; eauto].
  rewrite json_metadata_round. rewrite <- E2 in Hf.
  destruct (fs_read_cases _ _ _ Hf) as (r2 & s3 & -> & E3 & [->|[e2 ->]]); [|by left; eauto].
  rewrite bool_decide_true by done. cbn [ensure]. rewrite <- E3 in Hf.
  destruct (fs_read_cases _ _ _ Hf) as (r3 & s4 & -> & E4 & [->|[e3 ->]]); [|by left; eauto].
  rewrite Hread. destruct (restore_all restorer blocks state r) as [[[]| |] r'] eqn:Er; auto.
Qed.

(** If the snapshot file no longer has the bytes whose checksum is in its metadata,
    restoring fails before anything reaches the restorer, unless the checksums collide. *)
Theorem snapshot_tamper_detected (m : SnapshotManager) (path : FilePath) (md : SnapshotMetadata)
    (bytes bytes' : list byte) (s : S) (r : R) :
  fs_files s !! with_extension path METADATA_EXTENSION = Some (json_metadata md) ->
  sm_checksum md = hash_data bytes -> fs_files s !! path = Some bytes' ->
  blake2b256 bytes' <> blake2b256 bytes ->
  exists e s', restore_snapshot restorer m path (s, r) = (Err e, (s', r)).
Proof.
  intros Hm Hck Hf Hne.
  unfold restore_snapshot, load_snapshot_metadata, calculate_checksum, mbind, stM_bind, lift, mret, stM_ret.
  destruct (fs_read_cases _ _ _ Hm) as (r1 & s2 & -> & E2 & [->|[e1 ->]]); [|by eauto].
  rewrite json_metadata_round. rewrite <- E2 in Hf.
  destruct (fs_read_cases _ _ _ Hf) as (r2 & s3 & -> & E3 & [->|[e2 ->]]); [|by eauto].
  rewrite bool_decide_false; [cbn; eauto|]. rewrite Hck. done.
Qed.
End snapshots.

(** ** Ordering and pruning *)
Lemma higher_total a b : higher a b = true \/ higher b a = true.
Proof. unfold higher. destruct (Z.leb_spec (sm_block_height (si_metadata b)) (sm_block_height (si_metadata a))); [by left|right]. apply Z.leb_le. lia. Qed.

Lemma higher_trans a b c : higher a b = true -> higher b c = true -> higher a c = true.
Proof. unfold higher. rewrite !Z.leb_le. lia. Qed.

Section pruning.
Context {S : Type} `{FileSystem S, JsonSnapshot, HashCrate}.

(** The snapshots are listed by decreasing height; get_latest_snapshot returns one of
    maximal height, and prune_old_snapshots deletes exactly those beyond the first
    keep_count and returns their number, none when there are not more. *)
Theorem prune_old_snapshots_spec (m : SnapshotManager) (keep_count : Z) (s s1 : S) (infos : list SnapshotInfo) :
  list_snapshots m s = (Ok infos, s1) -> 0 <= keep_count ->
  StronglySorted (fun a b => higher a b = true) infos /\
  get_latest_snapshot m s = (Ok (head infos), s1) /\
  (forall latest info, head infos = Some latest -> info ∈ infos ->
     sm_block_height (si_metadata info) <= sm_block_height (si_metadata latest)) /\
  prune_old_snapshots m keep_count s =
    (let doomed := drop (Z.to_nat keep_count) infos in
     match st_for_each delete_snapshot doomed s1 with
     | (Ok _, s2) => (Ok (len infos - Z.min keep_count (len infos)), s2)
     | (Err e, s2) => (Err e, s2)
     | (Panic, s2) => (Panic, s2)
     end).
Proof.
  intros Hl Hk. assert (StronglySorted (fun a b => higher a b = true) infos) as Hsorted.
  { unfold list_snapshots in Hl. unfold mbind, stM_bind, mret, stM_ret in Hl.
    destruct (io _ _ s) as [[entries| |] s0]; [|done..]. destruct (collect_snapshots entries s0) as [[l| |] s0']; [|done..].
    injection Hl as <- _. apply sort_by_sorted; [apply higher_total|apply higher_trans]. }
  split_and!; [done| | |].
  - unfold get_latest_snapshot, mbind, stM_bind. by rewrite Hl.
  - intros latest info Hh Hin. destruct infos as [|x infos]; [done|]. injection Hh as ->.
    apply StronglySorted_inv in Hsorted as [_ Hall]. apply elem_of_cons in Hin as [->|Hin]; [lia|].
    rewrite List.Forall_forall in Hall. apply list_elem_of_In, Hall in Hin. unfold higher in Hin. by apply Z.leb_le in Hin.
  - unfold prune_old_snapshots, mbind, stM_bind. rewrite Hl. destruct (Z.leb_spec (len infos) keep_count).
    + rewrite drop_ge by (unfold len in *; lia). cbn. unfold mret, stM_ret. do 2 f_equal. lia.
    + unfold mret, stM_ret. destruct (st_for_each _ _ s1) as [[[]| |] s2]; [|done..]. do 2 f_equal.
      unfold len in *. rewrite length_drop. lia.
Qed.
End pruning.
