(* ===== verification/StorageManager.v ===== *)
(** * The storage manager: crates/storage/src/lib.rs

    One object that opens and owns the blockchain store, the state store, the caches, the
    snapshot manager and the jurisdiction tree, and adds jurisdiction queries, statistics and
    pruning by age.  It is generic in the database [S]; [StorageManager_new] opens the
    backend chosen by the cargo features.  The clock [now] is an argument. *)
From stdpp Require Import prelude gmap strings list.
From Stdlib Require Import Strings.Byte.
From S2P Require Import Prelude Floats64 Types Merkle Transaction Block Cache Database BlockchainStore Jurisdiction StateStore Snapshot.

Local Open Scope Z_scope.

(** ** Data *)
Inductive SyncMode := Immediate | Normal | Off.

Record StorageConfig := mkStorageConfig {
  stc_data_dir : string;
  stc_blockchain_path : string;
  stc_state_path : string;
  stc_block_cache_capacity : Z;
  stc_tx_cache_capacity : Z;
  stc_state_cache_capacity : Z;
  stc_enable_compression : bool;
  stc_enable_pruning : bool;
  stc_pruning_retention_days : Z;
  stc_max_db_size : option Z;
  stc_sync_mode : SyncMode
}.

Definition StorageConfig_default : StorageConfig :=
  mkStorageConfig "./data" "./data/blockchain" "./data/state" 1000 5000 2000 true false 365 None Normal.

Record AggregatedResults := mkAggregatedResults {
  ar_jurisdiction : JurisdictionPath;
  ar_election_id : ElectionId;
  ar_total_votes : Z;
  ar_timestamp : Z
}.

Record JurisdictionValidation := mkJurisdictionValidation {
  jv_jurisdiction : JurisdictionPath;
  jv_elections_count : Z;
  jv_validated_elections : Z;
  jv_total_votes : Z;
  jv_validation_timestamp : Z
}.

Record StorageStats := mkStorageStats {
  sts_blockchain_size : Z;
  sts_state_size : Z;
  sts_cache_stats : CacheStats;
  sts_total_blocks : Z;
  sts_total_transactions : Z;
  sts_total_elections : Z;
  sts_total_voters : Z
}.

Record PruneStats := mkPruneStats {
  ps_pruned_blocks : Z;
  ps_pruned_transactions : Z;
  ps_pruned_state : Z;
  ps_bytes_freed : Z
}.

Record StorageManager `{LruCrate} (S : Type) := mkStorageManager {
  stm_config : StorageConfig;
  stm_blockchain_store : BlockchainStore S;
  stm_state_store : StateStore S;
  stm_cache : Cache;
  stm_snapshot_manager : SnapshotManager;
  stm_jurisdiction_tree : JurisdictionTree
}.
Arguments mkStorageManager {_ S}.
Arguments stm_config {_ S}.
Arguments stm_blockchain_store {_ S}.
Arguments stm_state_store {_ S}.
Arguments stm_cache {_ S}.
Arguments stm_snapshot_manager {_ S}.
Arguments stm_jurisdiction_tree {_ S}.

(** A call on the blockchain store and one on the state store. *)
Definition on_blockchain `{LruCrate} {S A : Type} (m : VStM (BlockchainStore S) A) : VStM (StorageManager S) A := fun st =>
  let '(r, b) := m (stm_blockchain_store st) in
  (r, mkStorageManager (stm_config st) b (stm_state_store st) (stm_cache st) (stm_snapshot_manager st)
        (stm_jurisdiction_tree st)).
Definition on_state `{LruCrate} {S A : Type} (m : VStM (StateStore S) A) : VStM (StorageManager S) A := fun st =>
  let '(r, s) := m (stm_state_store st) in
  (r, mkStorageManager (stm_config st) (stm_blockchain_store st) s (stm_cache st) (stm_snapshot_manager st)
        (stm_jurisdiction_tree st)).

(** ** Opening

    The cargo feature [rocksdb-backend] selects RocksDB, otherwise Sled is used. *)
Section opening.
Context `{RocksCrate, SledCrate, LruCrate, HashCrate, HexCrate, BincodeTx, BincodeStore, BincodeElection}.
Context {D : Type} `{FileSystem D}.

Definition open_backend (rocksdb_backend sled_backend : bool) (path : string) : VResult AnyDatabase :=
  let config := DatabaseConfig_default rocksdb_backend sled_backend in
  if rocksdb_backend then AnyRocks <$> RocksDBDatabase_with_config path config
  else AnySled <$> SledDatabase_with_config path config.

Definition StorageManager_new (rocksdb_backend sled_backend : bool) (now : Z) (config : StorageConfig) :
    VStM D (StorageManager AnyDatabase) :=
  _ ← io IoError (ensure_dir_exists (stc_data_dir config));
  _ ← io IoError (ensure_dir_exists (stc_blockchain_path config));
  _ ← io IoError (ensure_dir_exists (stc_state_path config));
  blockchain_db ← lift (open_backend rocksdb_backend sled_backend (stc_blockchain_path config));
  state_db ← lift (open_backend rocksdb_backend sled_backend (stc_state_path config));
  blockchain_store ← lift (BlockchainStore_new now blockchain_db);
  state_store ← lift (StateStore_new state_db);
  cache ← lift (Cache_new (stc_block_cache_capacity config) (stc_tx_cache_capacity config)
                  (stc_state_cache_capacity config));
  snapshot_manager ← SnapshotManager_new (stc_data_dir config ++ "/snapshots");
  mret (mkStorageManager config blockchain_store state_store cache snapshot_manager JurisdictionTree_new).
End opening.

Section manager.
Context {S : Type} `{Database S, LruCrate, HashCrate, HexCrate, BincodeTx, BincodeStore, BincodeElection}.

(** ** Queries by jurisdiction *)
Definition query_elections_by_jurisdiction (jurisdiction_path : string) : VStM (StorageManager S) (list ElectionId) :=
  path ← lift (JurisdictionPath_parse jurisdiction_path);
  elections ← on_state get_all_elections;
  mret (es_id <$> elections).

Definition aggregate_results (now : Z) (jurisdiction_path : string) (election_id : ElectionId) :
    VStM (StorageManager S) AggregatedResults :=
  path ← lift (JurisdictionPath_parse jurisdiction_path);
  election ← on_state (get_election election_id);
  mret (mkAggregatedResults path election_id (match election with Some e => es_total_votes e | None => 0 end) now).

(** The loop of [validate_jurisdiction]. *)
Fixpoint validate_loop (elections : list ElectionId) (total_votes validated : Z) : VStM (StorageManager S) (Z * Z) :=
  match elections with
  | [] => mret (total_votes, validated)
  | election_id :: elections' =>
      oe ← on_state (get_election election_id);
      match oe with
      | Some election => validate_loop elections' (u64_add total_votes (es_total_votes election)) (u64_add validated 1)
      | None => validate_loop elections' total_votes validated
      end
  end.

Definition validate_jurisdiction (now : Z) (jurisdiction_path : string) : VStM (StorageManager S) JurisdictionValidation :=
  path ← lift (JurisdictionPath_parse jurisdiction_path);
  elections ← query_elections_by_jurisdiction jurisdiction_path;
  '(total_votes, validated_elections) ← validate_loop elections 0 0;
  mret (mkJurisdictionValidation path (len elections) validated_elections total_votes now).

(** ** Snapshots, statistics, maintenance *)
Definition manager_create_snapshot (name : string) : VStM (StorageManager S) unit :=
  lift (Err (NotImplemented "Snapshots not yet implemented")).
Definition manager_restore_snapshot (path : string) : VStM (StorageManager S) unit :=
  lift (Err (NotImplemented "Snapshots not yet implemented")).

Definition manager_stats (st : StorageManager S) : StorageStats :=
  mkStorageStats (store_size (stm_blockchain_store st)) 0 (cache_get_stats (stm_cache st))
    (store_block_count (stm_blockchain_store st)) (store_transaction_count (stm_blockchain_store st)) 0 0.

Definition manager_compact : VStM (StorageManager S) unit := on_blockchain store_compact.

Definition retention_seconds (config : StorageConfig) : Z :=
  u64_mul (u64_mul (stc_pruning_retention_days config) 24) 3600.

Definition prune (now : Z) : VStM (StorageManager S) PruneStats :=
  self ← get;
  _ ← lift (ensure (stc_enable_pruning (stm_config self)) (InvalidInput "Pruning is not enabled"));
  let cutoff := wrap 64 (now - retention_seconds (stm_config self)) in
  pruned_blocks ← on_blockchain (prune_before cutoff);
  mret (mkPruneStats pruned_blocks 0 0 0).

Definition manager_flush : VStM (StorageManager S) unit := on_blockchain store_flush.
Definition manager_close : VStM (StorageManager S) unit := _ ← manager_flush; mret tt.
End manager.

(** ** Facts *)
Lemma retention_exact config :
  0 <= stc_pruning_retention_days config -> stc_pruning_retention_days config * 86400 < 2 ^ 64 ->
  retention_seconds config = stc_pruning_retention_days config * 86400.
Proof. intros. unfold retention_seconds, u64_mul. rewrite !wrap_small; [lia..|rewrite wrap_small; lia]. Qed.

(** The blocks that remain under their heights after a prune with a given cutoff. *)
Definition pruned_at {S : Type} `{DatabaseSpec S, HashCrate, HexCrate, BincodeTx, BincodeStoreSpec}
    (cutoff : Z) (bs : list Block) (st' : BlockchainStore S) : Prop :=
  forall i b, bs !! i = Some b ->
    if prunable cutoff b then store_contents st' !! height_key (1 + Z.of_nat i) = None
    else block_at (store_contents st') (height_key (1 + Z.of_nat i)) b.

Section manager_facts.
Context {S : Type} `{DatabaseSpec S, LruCrate, HashCrate, HexCrate, BincodeTx, BincodeStoreSpec, BincodeElection}.
Context (F : Prop) `{!DatabaseFails S F}.

Lemma prune_outcome now b0 bs (st : StorageManager S) :
  let store := stm_blockchain_store st in
  let cutoff := wrap 64 (now - retention_seconds (stm_config st)) in
  stc_enable_pruning (stm_config st) = true ->
  1 + len bs <= 2 ^ 64 -> chain_height store = len bs -> holds (b0 :: bs) (1 + len bs) (store_contents store) ->
  match prune now st with
  | (Ok stats, st') =>
      ps_pruned_blocks stats = len (filter (fun b => prunable cutoff b = true) bs) /\
      chain_height (stm_blockchain_store st') = chain_height store /\
      block_at (store_contents (stm_blockchain_store st')) (height_key 0) b0 /\
      pruned_at cutoff bs (stm_blockchain_store st')
  | (Err _, _) => F
  | (Panic, _) => False
  end.
Proof.
  intros store cutoff Hen Hl Hch Hho. unfold prune. unfold_st. rewrite Hen. cbn. unfold on_blockchain.
  fold store cutoff. pose proof (prune_before_spec F cutoff b0 bs store Hl Hch Hho) as Hp.
  destruct (prune_before cutoff store) as [[n| |] st']; done.
Qed.

(** With pruning enabled and a retention period that lies in the past, prune removes
    exactly the blocks after the genesis that are older than the period, and reports their
    number.  When the period is longer than the time since 1970 the cutoff wraps around
    and every block after the genesis is removed. *)
Theorem prune_by_age (now : Z) (b0 : Block) (bs : list Block) (st : StorageManager S) :
  let store := stm_blockchain_store st in
  let retention := stc_pruning_retention_days (stm_config st) * 86400 in
  stc_enable_pruning (stm_config st) = true -> 0 <= now < 2 ^ 63 -> 0 <= retention < 2 ^ 63 ->
  Forall (fun b => block_timestamp b <= now) bs ->
  1 + len bs <= 2 ^ 64 -> chain_height store = len bs -> holds (b0 :: bs) (1 + len bs) (store_contents store) ->
  match prune now st with
  | (Ok stats, st') =>
      let c' := store_contents (stm_blockchain_store st') in
      let removed b := retention <= now -> block_timestamp b + retention < now in
      block_at c' (height_key 0) b0 /\
      (forall i b, bs !! i = Some b -> removed b -> c' !! height_key (1 + Z.of_nat i) = None) /\
      (forall i b, bs !! i = Some b -> ~ removed b -> block_at c' (height_key (1 + Z.of_nat i)) b) /\
      (now < retention -> ps_pruned_blocks stats = len bs)
  | (Err _, _) => F
  | (Panic, _) => False
  end.
Proof.
  intros store retention Hen Hnow Hret Hts Hl Hch Hho. pose proof (prune_outcome now b0 bs st Hen Hl Hch Hho) as Hp.
  destruct (prune now st) as [[stats| |] st']; [|done..]. destruct Hp as (Hn & _ & Hb0 & Hpr).
  unfold pruned_at in Hpr. rewrite Forall_forall in Hts.
  rewrite retention_exact in Hn, Hpr by (unfold retention in *; lia). fold retention in Hn, Hpr.
  assert (forall b, b ∈ bs -> (prunable (wrap 64 (now - retention)) b = true <->
            (retention <= now -> block_timestamp b + retention < now))) as Hpb.
  { intros b Hb%Hts. unfold prunable. rewrite Z.ltb_lt. unfold wrap.
    destruct (decide (retention <= now)); [rewrite Z.mod_small by lia; lia|].
    assert ((now - retention) mod 2 ^ 64 = now - retention + 2 ^ 64) as ->; [|lia].
    symmetry. apply (Z.mod_unique_pos _ _ (-1)); lia. }
  cbn. split_and!; [done| | |].
  - intros i b Hi Hr. specialize (Hpr i b Hi). apply list_elem_of_lookup_2 in Hi.
    by rewrite (proj2 (Hpb b Hi) Hr) in Hpr.
  - intros i b Hi Hr. specialize (Hpr i b Hi). apply list_elem_of_lookup_2 in Hi.
    destruct (prunable _ b) eqn:E; [|done]. destruct Hr. by apply (Hpb b Hi).
  - intros Hlt. rewrite Hn, filter_id; [done|]. apply Forall_forall. intros b Hb. apply Hpb; [done|]. lia.
Qed.

(** A query by jurisdiction returns every stored election whatever valid path it is
    given, and the validation of a jurisdiction therefore counts the votes of all. *)
Theorem query_ignores_path (now : Z) (p q : string) (pp qp : JurisdictionPath) (st : StorageManager S) :
  JurisdictionPath_parse p = Ok pp -> JurisdictionPath_parse q = Ok qp ->
  query_elections_by_jurisdiction p st = query_elections_by_jurisdiction q st /\
  match validate_jurisdiction now p st, validate_jurisdiction now q st with
  | (Ok a, s), (Ok b, s') =>
      s = s' /\ jv_jurisdiction a = pp /\ jv_jurisdiction b = qp /\ jv_elections_count a = jv_elections_count b /\
      jv_validated_elections a = jv_validated_elections b /\ jv_total_votes a = jv_total_votes b
  | (Err e, s), (Err e', s') => e = e' /\ s = s'
  | (Panic, s), (Panic, s') => s = s'
  | _, _ => False
  end.
Proof.
  intros Hp Hq.
  assert (query_elections_by_jurisdiction p st = query_elections_by_jurisdiction q st) as E.
  { unfold query_elections_by_jurisdiction. unfold_st. by rewrite Hp, Hq. }
  split; [done|]. unfold validate_jurisdiction. unfold_st. rewrite Hp, Hq. cbn. rewrite E.
  destruct (query_elections_by_jurisdiction q st) as [[es| |] s]; [|done..].
  destruct (validate_loop es 0 0 s) as [[[tv n]| |] s']; done.
Qed.
End manager_facts.
