(* ===== verification/Protocol.v ===== *)
(** * The wire protocol: crates/network/src/protocol.rs, and PeerId of peer.rs

    Messages, their payloads and the handler that checks them.  The crate [bincode] is the
    class [Bincode], with one instance per payload type; the clock [now] and the random
    [nonce] of a new message are arguments.  The handlers only decode and log: the logging
    has no model. *)
From stdpp Require Import prelude gmap strings list.
From Stdlib Require Import Strings.Byte.
From S2P Require Import Prelude Types Merkle Transaction Block.

Local Open Scope Z_scope.

(** ** Identifiers and addresses *)
Record PeerId := mkPeerId { peer_id_bytes : array 32 }.

Global Instance PeerId_eq_dec : EqDecision PeerId.
Proof. solve_decision. Defined.
Global Instance PeerId_countable : Countable PeerId.
Proof. by apply (inj_countable' peer_id_bytes mkPeerId); intros []. Defined.

(** [PeerId::random]: the bytes are those of the generator. *)
Definition PeerId_random (random : array 32) : PeerId := mkPeerId random.
Definition PeerId_to_hex `{HexCrate} (p : PeerId) : string := hex_encode (array_list (peer_id_bytes p)).
Definition PeerId_from_hex `{HexCrate} (hex_display : FromHexError -> string) (s : string) : VResult PeerId :=
  match hex_decode s with
  | Ok bytes =>
      id ← ok_or (array_of 32 bytes) (NetworkError "Invalid peer ID length");
      Ok (mkPeerId id)
  | Err e => Err (NetworkError ("Invalid hex: " ++ hex_display e))
  | Panic => Panic
  end.
(** [Display]: the first eight digits; the slice is out of range on shorter strings. *)
Definition PeerId_display `{HexCrate} (p : PeerId) : VResult string :=
  let s := PeerId_to_hex p in
  if (8 <=? String.length s)%nat then Ok (String.substring 0 8 s) else Panic.

(** [std::net::SocketAddr]. *)
Inductive SocketAddr :=
| SocketV4 (octets : array 4) (port : Z)
| SocketV6 (octets : array 16) (port flowinfo scope_id : Z).

Global Instance SocketAddr_eq_dec : EqDecision SocketAddr.
Proof. solve_decision. Defined.
Global Instance SocketAddr_countable : Countable SocketAddr.
Proof.
  apply (inj_countable'
    (fun a => match a with SocketV4 o p => inl (o, p) | SocketV6 o p f s => inr (o, p, f, s) end)
    (fun x => match x with inl (o, p) => SocketV4 o p | inr (o, p, f, s) => SocketV6 o p f s end)).
  by intros [].
Defined.

(** ** Messages *)
Inductive MessageType :=
| MHandshake | MPing | MPong | MGetPeers | MPeers | MGetBlocks | MBlocks | MNewBlock
| MGetTransactions | MTransactions | MNewTransaction | MGetStatus | MStatus | MDisconnect.

Global Instance MessageType_eq_dec : EqDecision MessageType.
Proof. solve_decision. Defined.

Record Message := mkMessage {
  msg_type : MessageType;
  msg_payload : list byte;
  msg_timestamp : Z;
  msg_nonce : Z
}.

Record HandshakeInfo := mkHandshakeInfo {
  hs_protocol_version : Z;
  hs_network_id : string;
  hs_user_agent : string;
  hs_best_height : Z;
  hs_best_hash : BlockHash;
  hs_genesis_hash : BlockHash;
  hs_timestamp : Z
}.

Record PeerAddr := mkPeerAddr { pa_addr : string; pa_last_seen : Z }.
Record PeerList := mkPeerList { pl_peers : list PeerAddr }.
Record BlockRequest := mkBlockRequest { br_start_height : Z; br_end_height : Z; br_max_blocks : Z }.
Record BlockResponse := mkBlockResponse { bp_blocks : list Block; bp_start_height : Z; bp_end_height : Z }.
Record TransactionRequest := mkTransactionRequest { tq_tx_ids : list (array 32) }.
Record TransactionResponse := mkTransactionResponse { tp_transactions : list Transaction }.

Record StatusInfo := mkStatusInfo {
  st_best_height : Z;
  st_best_hash : BlockHash;
  st_peer_count : Z;
  st_syncing : bool;
  st_timestamp : Z
}.

Inductive DisconnectReason :=
| ShuttingDown | ProtocolViolation | IncompatibleProtocol | TooManyPeers | DBanned | DTimeout | DError (s : string).

Definition Message_new (now nonce : Z) (t : MessageType) (payload : list byte) : Message :=
  mkMessage t payload now nonce.

(** A message whose payload is a serialized value. *)
Definition encoded {A : Type} `{Bincode A} (t : MessageType) (now nonce : Z) (a : A) : VResult Message :=
  payload ← serialize a; Ok (Message_new now nonce t payload).

Definition Message_decode_payload {A : Type} `{Bincode A} (m : Message) : VResult A :=
  map_err DeserializationError (bincode_decode (msg_payload m)).

Definition Message_size (m : Message) : Z := u64_add (len (msg_payload m)) 24.

Definition Message_ping (now nonce : Z) : Message := Message_new now nonce MPing [].
Definition Message_pong (now nonce : Z) : Message := Message_new now nonce MPong [].
Definition Message_get_peers (now nonce : Z) : Message := Message_new now nonce MGetPeers [].
Definition Message_get_status (now nonce : Z) : Message := Message_new now nonce MGetStatus [].

Section protocol.
Context `{!Bincode HandshakeInfo, !Bincode PeerList, !Bincode BlockRequest, !Bincode BlockResponse, !Bincode Block,
          !Bincode TransactionRequest, !Bincode TransactionResponse, !Bincode Transaction, !Bincode StatusInfo,
          !Bincode DisconnectReason}.

Definition Message_handshake : Z -> Z -> HandshakeInfo -> VResult Message := encoded MHandshake.
Definition Message_peers : Z -> Z -> PeerList -> VResult Message := encoded MPeers.
Definition Message_get_blocks : Z -> Z -> BlockRequest -> VResult Message := encoded MGetBlocks.
Definition Message_blocks : Z -> Z -> BlockResponse -> VResult Message := encoded MBlocks.
Definition Message_new_block : Z -> Z -> Block -> VResult Message := encoded MNewBlock.
Definition Message_get_transactions : Z -> Z -> TransactionRequest -> VResult Message := encoded MGetTransactions.
Definition Message_transactions : Z -> Z -> TransactionResponse -> VResult Message := encoded MTransactions.
Definition Message_new_transaction : Z -> Z -> Transaction -> VResult Message := encoded MNewTransaction.
Definition Message_status : Z -> Z -> StatusInfo -> VResult Message := encoded MStatus.
Definition Message_disconnect : Z -> Z -> DisconnectReason -> VResult Message := encoded MDisconnect.

(** ** The handler *)
Record ProtocolHandler := mkProtocolHandler { ph_network_id : string; ph_protocol_version : Z }.

Definition handle_handshake (h : ProtocolHandler) (peer_id : PeerId) (m : Message) : VResult unit :=
  handshake ← (Message_decode_payload m : VResult HandshakeInfo);
  _ ← ensure (bool_decide (hs_network_id handshake = ph_network_id h)) (NetworkError "Network ID mismatch");
  _ ← ensure (hs_protocol_version handshake =? ph_protocol_version h) (NetworkError "Protocol version mismatch");
  Ok tt.

Definition handle_ping (h : ProtocolHandler) (peer_id : PeerId) (m : Message) : VResult unit := Ok tt.
Definition handle_pong (h : ProtocolHandler) (peer_id : PeerId) (m : Message) : VResult unit := Ok tt.
Definition handle_get_peers (h : ProtocolHandler) (peer_id : PeerId) (m : Message) : VResult unit := Ok tt.
Definition handle_get_status (h : ProtocolHandler) (peer_id : PeerId) (m : Message) : VResult unit := Ok tt.

Definition handle_peers (h : ProtocolHandler) (peer_id : PeerId) (m : Message) : VResult unit :=
  _ ← (Message_decode_payload m : VResult PeerList); Ok tt.
Definition handle_get_blocks (h : ProtocolHandler) (peer_id : PeerId) (m : Message) : VResult unit :=
  _ ← (Message_decode_payload m : VResult BlockRequest); Ok tt.
Definition handle_blocks (h : ProtocolHandler) (peer_id : PeerId) (m : Message) : VResult unit :=
  _ ← (Message_decode_payload m : VResult BlockResponse); Ok tt.
Definition handle_new_block (h : ProtocolHandler) (peer_id : PeerId) (m : Message) : VResult unit :=
  _ ← (Message_decode_payload m : VResult Block); Ok tt.
Definition handle_get_transactions (h : ProtocolHandler) (peer_id : PeerId) (m : Message) : VResult unit :=
  _ ← (Message_decode_payload m : VResult TransactionRequest); Ok tt.
Definition handle_transactions (h : ProtocolHandler) (peer_id : PeerId) (m : Message) : VResult unit :=
  _ ← (Message_decode_payload m : VResult TransactionResponse); Ok tt.
Definition handle_new_transaction (h : ProtocolHandler) (peer_id : PeerId) (m : Message) : VResult unit :=
  _ ← (Message_decode_payload m : VResult Transaction); Ok tt.
Definition handle_status (h : ProtocolHandler) (peer_id : PeerId) (m : Message) : VResult unit :=
  _ ← (Message_decode_payload m : VResult StatusInfo); Ok tt.
Definition handle_disconnect (h : ProtocolHandler) (peer_id : PeerId) (m : Message) : VResult unit :=
  _ ← (Message_decode_payload m : VResult DisconnectReason); Ok tt.

Definition protocol_handle (h : ProtocolHandler) (peer_id : PeerId) (m : Message) : VResult unit :=
  match msg_type m with
  | MHandshake => handle_handshake h peer_id m
  | MPing => handle_ping h peer_id m
  | MPong => handle_pong h peer_id m
  | MGetPeers => handle_get_peers h peer_id m
  | MPeers => handle_peers h peer_id m
  | MGetBlocks => handle_get_blocks h peer_id m
  | MBlocks => handle_blocks h peer_id m
  | MNewBlock => handle_new_block h peer_id m
  | MGetTransactions => handle_get_transactions h peer_id m
  | MTransactions => handle_transactions h peer_id m
  | MNewTransaction => handle_new_transaction h peer_id m
  | MGetStatus => handle_get_status h peer_id m
  | MStatus => handle_status h peer_id m
  | MDisconnect => handle_disconnect h peer_id m
  end.

Definition validate_message (now : Z) (m : Message) (max_size : Z) : VResult unit :=
  _ ← ensure (negb (max_size <? Message_size m)) (NetworkError "Message exceeds maximum size");
  let age := u64_saturating_sub now (msg_timestamp m) in
  _ ← ensure (negb (300 <? age)) (NetworkError "Message is too old");
  Ok tt.

(** ** Facts *)

(** The typed payloads a node can send. *)
Inductive Outgoing :=
| SendHandshake (i : HandshakeInfo) | SendPing | SendPong | SendGetPeers | SendPeers (l : PeerList)
| SendGetBlocks (r : BlockRequest) | SendBlocks (r : BlockResponse) | SendNewBlock (b : Block)
| SendGetTransactions (r : TransactionRequest) | SendTransactions (r : TransactionResponse)
| SendNewTransaction (t : Transaction) | SendGetStatus | SendStatus (s : StatusInfo)
| SendDisconnect (r : DisconnectReason).

Definition make_message (now nonce : Z) (o : Outgoing) : VResult Message :=
  match o with
  | SendHandshake i => Message_handshake now nonce i
  | SendPing => Ok (Message_ping now nonce)
  | SendPong => Ok (Message_pong now nonce)
  | SendGetPeers => Ok (Message_get_peers now nonce)
  | SendPeers l => Message_peers now nonce l
  | SendGetBlocks r => Message_get_blocks now nonce r
  | SendBlocks r => Message_blocks now nonce r
  | SendNewBlock b => Message_new_block now nonce b
  | SendGetTransactions r => Message_get_transactions now nonce r
  | SendTransactions r => Message_transactions now nonce r
  | SendNewTransaction t => Message_new_transaction now nonce t
  | SendGetStatus => Ok (Message_get_status now nonce)
  | SendStatus s => Message_status now nonce s
  | SendDisconnect r => Message_disconnect now nonce r
  end.

(** What the handler of a node answers to such a message. *)
Definition expected_answer (h : ProtocolHandler) (o : Outgoing) : VResult unit :=
  match o with
  | SendHandshake i =>
      if negb (bool_decide (hs_network_id i = ph_network_id h)) then Err (NetworkError "Network ID mismatch")
      else if negb (hs_protocol_version i =? ph_protocol_version h) then Err (NetworkError "Protocol version mismatch")
      else Ok tt
  | _ => Ok tt
  end.

Lemma decode_encoded {A : Type} `{BincodeSpec A} t now nonce (a : A) m :
  encoded t now nonce a = Ok m -> msg_type m = t /\ msg_timestamp m = now /\ Message_decode_payload m = Ok a.
Proof.
  unfold encoded, serialize, map_err, Message_decode_payload. destruct (bincode_encode a) as [d|e] eqn:E; [|done].
  intros [= <-]. cbn. by rewrite (bincode_decode_encode a d E).
Qed.

Context `{!BincodeSpec HandshakeInfo, !BincodeSpec PeerList, !BincodeSpec BlockRequest, !BincodeSpec BlockResponse,
          !BincodeSpec Block, !BincodeSpec TransactionRequest, !BincodeSpec TransactionResponse,
          !BincodeSpec Transaction, !BincodeSpec StatusInfo, !BincodeSpec DisconnectReason}.

(** A message a node builds is dispatched by its peer to the handler of its own type,
    which decodes the payload that was sent: the handler accepts it, except that a
    handshake is refused with the matching error on another network or version.  The
    receiver's check of size and age accepts it within 300 seconds of its creation. *)
Theorem message_round_trip (now nonce now' max_size : Z) (h : ProtocolHandler) (peer : PeerId)
    (o : Outgoing) (m : Message) :
  make_message now nonce o = Ok m -> now <= now' <= now + 300 -> Message_size m <= max_size ->
  protocol_handle h peer m = expected_answer h o /\ validate_message now' m max_size = Ok tt.
Proof.
  intros Hm Hnow Hsize.
  assert (msg_timestamp m = now) as Ht.
  { destruct o; cbn in Hm; try (by injection Hm as <-); by apply decode_encoded in Hm as (_ & ? & _). }
  split.
  - destruct o; cbn in Hm; try (injection Hm as <-; reflexivity); apply decode_encoded in Hm as (Hty & _ & Hd);
      unfold protocol_handle; rewrite Hty;
      unfold handle_handshake, handle_peers, handle_get_blocks, handle_blocks, handle_new_block,
        handle_get_transactions, handle_transactions, handle_new_transaction, handle_status, handle_disconnect;
      rewrite Hd; cbn; [|done..].
    case_bool_decide; cbn; [|done]. by destruct (_ =? _).
  - unfold validate_message. rewrite Ht. rewrite (proj2 (Z.ltb_ge _ _) Hsize). cbn.
    rewrite (proj2 (Z.ltb_ge _ _)); [done|]. unfold u64_saturating_sub. lia.
Qed.
End protocol.
