(* ===== verification/Peer.v ===== *)
(** * Peers: crates/network/src/peer.rs

    A peer's shared cells (information, counters, message queue), its reputation and the
    peer manager.  [Peer] is a bundle of [Arc]s: its clones share the cells.  A [Vec<Peer>] is
    a list of cells and a clone taken from it is a position in that list.  Both ends of the
    message channel belong to the peer, so the channel is open as long as the peer exists:
    it is a queue, and the errors of a closed channel do not occur.  The receiver of the
    [disconnect_tx] channel is dropped at creation, so sending on it has no effect. *)
From stdpp Require Import prelude gmap strings list.
From Stdlib Require Import Strings.Byte.
From S2P Require Import Prelude Types Protocol.

Local Open Scope Z_scope.

(** [i32] arithmetic of the release profile: two's complement. *)
Definition i32_wrap (x : Z) : Z := (x + 2 ^ 31) mod 2 ^ 32 - 2 ^ 31.
Definition is_i32 (x : Z) : Prop := - 2 ^ 31 <= x < 2 ^ 31.
Definition clamp (lo hi x : Z) : Z := Z.max lo (Z.min hi x).

(** ** Data *)
Inductive PeerStatus := Connecting | Connected | Disconnected | Banned.
Inductive ConnectionDirection := Inbound | Outbound.

Global Instance PeerStatus_eq_dec : EqDecision PeerStatus.
Proof. solve_decision. Defined.
Global Instance ConnectionDirection_eq_dec : EqDecision ConnectionDirection.
Proof. solve_decision. Defined.

Record PeerInfo := mkPeerInfo {
  pi_id : PeerId;
  pi_addr : SocketAddr;
  pi_status : PeerStatus;
  pi_direction : ConnectionDirection;
  pi_connected_at : Z;
  pi_last_seen : Z;
  pi_protocol_version : Z;
  pi_network_id : string;
  pi_user_agent : string;
  pi_best_height : Z
}.

Definition uptime (now : Z) (i : PeerInfo) : Z := u64_saturating_sub now (pi_connected_at i).
Definition info_is_stale (now stale_threshold : Z) (i : PeerInfo) : bool :=
  stale_threshold <? u64_saturating_sub now (pi_last_seen i).

Record PeerStats := mkPeerStats {
  pst_messages_sent : Z;
  pst_messages_received : Z;
  pst_bytes_sent : Z;
  pst_bytes_received : Z;
  pst_errors : Z;
  pst_last_error : option string
}.

Definition PeerStats_default : PeerStats := mkPeerStats 0 0 0 0 0 None.

Record Peer := mkPeer { p_info : PeerInfo; p_stats : PeerStats; p_queue : list Message }.

(** ** Operations on a peer's cells; [now] is the clock *)
Definition Peer_new (now : Z) (id : PeerId) (addr : SocketAddr) (direction : ConnectionDirection)
    (protocol_version : Z) (network_id : string) : Peer :=
  mkPeer (mkPeerInfo id addr Connecting direction now now protocol_version network_id "voting-node/0.1.0" 0)
    PeerStats_default [].

Definition with_status (s : PeerStatus) (i : PeerInfo) : PeerInfo :=
  mkPeerInfo (pi_id i) (pi_addr i) s (pi_direction i) (pi_connected_at i) (pi_last_seen i) (pi_protocol_version i)
    (pi_network_id i) (pi_user_agent i) (pi_best_height i).
Definition with_last_seen (now : Z) (i : PeerInfo) : PeerInfo :=
  mkPeerInfo (pi_id i) (pi_addr i) (pi_status i) (pi_direction i) (pi_connected_at i) now (pi_protocol_version i)
    (pi_network_id i) (pi_user_agent i) (pi_best_height i).
Definition on_info (f : PeerInfo -> PeerInfo) (p : Peer) : Peer := mkPeer (f (p_info p)) (p_stats p) (p_queue p).

Definition p_id (p : Peer) : PeerId := pi_id (p_info p).
Definition p_addr (p : Peer) : SocketAddr := pi_addr (p_info p).
Definition is_connected (p : Peer) : bool := bool_decide (pi_status (p_info p) = Connected).
Definition mark_connected (now : Z) : Peer -> Peer := on_info (fun i => with_last_seen now (with_status Connected i)).
Definition mark_disconnected : Peer -> Peer := on_info (with_status Disconnected).
Definition update_last_seen (now : Z) : Peer -> Peer := on_info (with_last_seen now).
Definition update_best_height (height : Z) : Peer -> Peer :=
  on_info (fun i => mkPeerInfo (pi_id i) (pi_addr i) (pi_status i) (pi_direction i) (pi_connected_at i) (pi_last_seen i)
    (pi_protocol_version i) (pi_network_id i) (pi_user_agent i) height).

Definition count_sent (s : PeerStats) : PeerStats :=
  mkPeerStats (u64_add (pst_messages_sent s) 1) (pst_messages_received s) (pst_bytes_sent s) (pst_bytes_received s)
    (pst_errors s) (pst_last_error s).
Definition count_received (s : PeerStats) : PeerStats :=
  mkPeerStats (pst_messages_sent s) (u64_add (pst_messages_received s) 1) (pst_bytes_sent s) (pst_bytes_received s)
    (pst_errors s) (pst_last_error s).

Definition peer_send (now : Z) (m : Message) (p : Peer) : VResult unit * Peer :=
  (Ok tt, update_last_seen now (mkPeer (p_info p) (count_sent (p_stats p)) (p_queue p ++ [m]))).

Definition peer_receive (now : Z) (p : Peer) : VResult (option Message) * Peer :=
  match p_queue p with
  | m :: rest => (Ok (Some m), update_last_seen now (mkPeer (p_info p) (count_received (p_stats p)) rest))
  | [] => (Ok None, p)
  end.

Definition record_error (error : string) (p : Peer) : Peer :=
  let s := p_stats p in
  mkPeer (p_info p) (mkPeerStats (pst_messages_sent s) (pst_messages_received s) (pst_bytes_sent s)
    (pst_bytes_received s) (u64_add (pst_errors s) 1) (Some error)) (p_queue p).

Definition ban : Peer -> Peer := on_info (with_status Banned).
Definition is_banned (p : Peer) : bool := bool_decide (pi_status (p_info p) = Banned).
Definition peer_disconnect (p : Peer) : VResult unit * Peer := (Ok tt, mark_disconnected p).
Definition peer_direction (p : Peer) : ConnectionDirection := pi_direction (p_info p).
Definition is_inbound (p : Peer) : bool := bool_decide (peer_direction p = Inbound).
Definition is_outbound (p : Peer) : bool := bool_decide (peer_direction p = Outbound).

(** ** Reputation *)
Definition REP_MAX : Z := 100.
Definition REP_MIN : Z := -100.
Definition REP_INITIAL : Z := 0.

Definition Reputation_new (score : Z) : Z := clamp REP_MIN REP_MAX score.
Definition rep_increase (amount r : Z) : Z := clamp REP_MIN REP_MAX (i32_wrap (r + amount)).
Definition rep_decrease (amount r : Z) : Z := clamp REP_MIN REP_MAX (i32_wrap (r - amount)).
Definition rep_is_good (r : Z) : bool := 0 <? r.
Definition rep_is_bad (r : Z) : bool := r <? 0.
Definition rep_should_ban (r : Z) : bool := r <=? REP_MIN.

(** ** The peer manager *)
Record PeerManager := mkPeerManager {
  pm_peers : list Peer;
  pm_reputations : gmap PeerId Z;
  pm_max_peers : Z
}.

Definition PeerManager_new (max_peers : Z) : PeerManager := mkPeerManager [] ∅ max_peers.

Definition pm_add_peer (peer : Peer) (m : PeerManager) : VResult unit * PeerManager :=
  if pm_max_peers m <=? len (pm_peers m) then (Err (NetworkError "Maximum peer count reached"), m)
  else (Ok tt, mkPeerManager (pm_peers m ++ [peer]) (pm_reputations m) (pm_max_peers m)).

(** [position] and [Vec::remove]: the first peer with the id is removed. *)
Fixpoint remove_first (f : Peer -> bool) (l : list Peer) : list Peer :=
  match l with
  | [] => []
  | p :: l' => if f p then l' else p :: remove_first f l'
  end.
Definition has_id (id : PeerId) (p : Peer) : bool := bool_decide (p_id p = id).

Definition pm_remove_peer (id : PeerId) (m : PeerManager) : VResult unit * PeerManager :=
  (Ok tt, mkPeerManager (remove_first (has_id id) (pm_peers m)) (pm_reputations m) (pm_max_peers m)).

Definition pm_get_peer (id : PeerId) (m : PeerManager) : option PeerInfo := p_info <$> find_by (has_id id) (pm_peers m).
Definition pm_peer_count (m : PeerManager) : Z := len (pm_peers m).
Definition pm_get_all_peers (m : PeerManager) : list PeerInfo := p_info <$> pm_peers m.
Definition pm_get_reputation (id : PeerId) (m : PeerManager) : Z := default REP_INITIAL (pm_reputations m !! id).

Definition pm_update_reputation (id : PeerId) (change : Z) (m : PeerManager) : PeerManager :=
  let r := pm_get_reputation id m in
  let r' := if 0 <? change then rep_increase change r else rep_decrease (i32_wrap (Z.abs change)) r in
  mkPeerManager (pm_peers m) (<[id := r']> (pm_reputations m)) (pm_max_peers m).

Definition pm_should_ban (id : PeerId) (m : PeerManager) : bool := rep_should_ban (pm_get_reputation id m).

(** ** Facts *)
Lemma i32_wrap_small x : is_i32 x -> i32_wrap x = x.
Proof. unfold is_i32, i32_wrap. intros. rewrite Z.mod_small by lia. lia. Qed.

Lemma clamp_range lo hi x : lo <= hi -> lo <= clamp lo hi x <= hi.
Proof. unfold clamp. lia. Qed.

(** The operations of the manager, as one step. *)
Inductive manager_step : PeerManager -> PeerManager -> Prop :=
| step_add m p : manager_step m (pm_add_peer p m).2
| step_remove m id : manager_step m (pm_remove_peer id m).2
| step_reputation m id change : is_i32 change -> manager_step m (pm_update_reputation id change m).

Definition reputation_ok (r : Z) : Prop := REP_MIN <= r <= REP_MAX.
Definition manager_ok (max : Z) (m : PeerManager) : Prop :=
  pm_max_peers m = max /\ len (pm_peers m) <= max /\ map_Forall (fun _ => reputation_ok) (pm_reputations m).

Lemma remove_first_length f l : (length (remove_first f l) <= length l)%nat.
Proof. induction l as [|p l IH]; cbn; [done|]. destruct (f p); cbn; lia. Qed.

Lemma manager_step_ok max m m' : manager_step m m' -> manager_ok max m -> manager_ok max m'.
Proof.
  unfold manager_ok. intros [m0 p|m0 id|m0 id change Hc] (Hmax & Hlen & Hrep).
  - unfold pm_add_peer. destruct (Z.leb_spec (pm_max_peers m0) (len (pm_peers m0))); [done|]. cbn.
    rewrite len_app. split_and!; [done| |done]. unfold len in *. cbn. lia.
  - cbn. split_and!; [done| |done]. pose proof (remove_first_length (has_id id) (pm_peers m0)). unfold len in *. lia.
  - cbn. split_and!; [done..|]. apply map_Forall_insert_2; [|done]. unfold reputation_ok.
    destruct (0 <? change); by apply clamp_range.
Qed.

Lemma reputation_in_range max m id : manager_ok max m -> reputation_ok (pm_get_reputation id m).
Proof.
  intros (_ & _ & Hrep). unfold pm_get_reputation. destruct (_ !! id) as [r|] eqn:E; [by apply (Hrep id)|done].
Qed.

Lemma update_exact max m id change :
  manager_ok max m -> Z.abs change <= 2 ^ 31 - 101 ->
  pm_get_reputation id (pm_update_reputation id change m) = clamp (-100) 100 (pm_get_reputation id m + change).
Proof.
  intros Hok Hc. pose proof (reputation_in_range _ _ id Hok) as Hr. unfold reputation_ok, REP_MIN, REP_MAX in Hr.
  unfold pm_get_reputation at 1, pm_update_reputation. cbn. rewrite lookup_insert_eq. cbn.
  destruct (Z.ltb_spec 0 change); unfold rep_increase, rep_decrease, REP_MIN, REP_MAX.
  - rewrite i32_wrap_small by (unfold is_i32; lia). done.
  - rewrite (i32_wrap_small (Z.abs change)) by (unfold is_i32; lia).
    rewrite i32_wrap_small by (unfold is_i32; lia). f_equal. lia.
Qed.

(** However peers are added, removed and scored, a manager never holds more than
    max_peers peers and every reputation stays between -100 and 100; a change adds to the
    score and the sum is clamped, provided its size is at most 2^31 - 101. *)
Theorem peer_manager_bounds (max : Z) (m : PeerManager) (id : PeerId) (change : Z) :
  0 <= max -> rtc manager_step (PeerManager_new max) m ->
  len (pm_peers m) <= max /\ -100 <= pm_get_reputation id m <= 100 /\
  (pm_should_ban id m = true <-> pm_get_reputation id m = -100) /\
  (Z.abs change <= 2 ^ 31 - 101 ->
   pm_get_reputation id (pm_update_reputation id change m) = clamp (-100) 100 (pm_get_reputation id m + change)).
Proof.
  intros Hmax Hr. assert (manager_ok max m) as Hok.
  { apply (rtc_invariant _ (manager_ok max) _ _ (fun a b => manager_step_ok max a b)) in Hr; [done|].
    unfold manager_ok, len. cbn. split_and!; [done..|]. apply map_Forall_empty. }
  pose proof (reputation_in_range _ _ id Hok) as Hrep. unfold reputation_ok, REP_MIN, REP_MAX in Hrep.
  split_and!; [by apply Hok|apply Hrep..| |intros; by apply (update_exact max)].
  unfold pm_should_ban, rep_should_ban, REP_MIN. rewrite Z.leb_le. lia.
Qed.

(** Outside that range the 32-bit sum wraps: the largest reward gives a peer with a
    positive score the worst reputation, and the largest punishment gives a peer with a
    negative score the best one. *)
Theorem reputation_overflow (id : PeerId) (m : PeerManager) :
  (1 <= pm_get_reputation id m <= 100 -> pm_get_reputation id (pm_update_reputation id (2 ^ 31 - 1) m) = -100) /\
  (-100 <= pm_get_reputation id m <= -1 -> pm_get_reputation id (pm_update_reputation id (- 2 ^ 31) m) = 100).
Proof.
  assert (forall c, pm_get_reputation id (pm_update_reputation id c m) =
    if 0 <? c then rep_increase c (pm_get_reputation id m) else rep_decrease (i32_wrap (Z.abs c)) (pm_get_reputation id m)) as E.
  { intros c. unfold pm_get_reputation at 1, pm_update_reputation. cbn. by rewrite lookup_insert_eq. }
  generalize dependent (pm_get_reputation id m). intros r E. split; intros Hr; rewrite E.
  - change (0 <? 2 ^ 31 - 1) with true. cbn iota. unfold rep_increase, i32_wrap.
    replace (r + (2 ^ 31 - 1) + 2 ^ 31) with (r - 1 + 1 * 2 ^ 32) by lia. rewrite Z.mod_add, Z.mod_small by lia.
    unfold clamp, REP_MIN, REP_MAX. lia.
  - change (0 <? - 2 ^ 31) with false. change (i32_wrap (Z.abs (- 2 ^ 31))) with (- 2 ^ 31). cbn iota.
    unfold rep_decrease, i32_wrap. rewrite Z.mod_small by lia. unfold clamp, REP_MIN, REP_MAX. lia.
Qed.

(** ** The queue of a peer *)
Definition send_all (now : Z) (ms : list Message) (p : Peer) : Peer := foldl (fun p m => (peer_send now m p).2) p ms.
Fixpoint receive_n (now : Z) (n : nat) (p : Peer) : list (option Message) * Peer :=
  match n with
  | O => ([], p)
  | S n' => match peer_receive now p with
            | (Ok r, p') => let '(rs, p'') := receive_n now n' p' in (r :: rs, p'')
            | (_, p') => ([], p')
            end
  end.

Lemma send_all_queue now ms p : p_queue (send_all now ms p) = p_queue p ++ ms.
Proof.
  unfold send_all. revert p. induction ms as [|m ms IH]; intros p; cbn; [by rewrite app_nil_r|].
  rewrite IH. cbn. by rewrite <- app_assoc.
Qed.

Lemma send_all_id now ms p : p_id (send_all now ms p) = p_id p /\ is_connected (send_all now ms p) = is_connected p.
Proof. unfold send_all. revert p. induction ms as [|m ms IH]; intros p; cbn; [done|]. by rewrite !(proj1 (IH _)), !(proj2 (IH _)). Qed.

Lemma receive_queue now ms rest p :
  p_queue p = ms ++ rest -> exists p', receive_n now (length ms) p = (Some <$> ms, p') /\ p_queue p' = rest.
Proof.
  revert p. induction ms as [|m ms IH]; intros p Hq; cbn; [by exists p|].
  unfold peer_receive. rewrite Hq. cbn. destruct (IH (update_last_seen now
    (mkPeer (p_info p) (count_received (p_stats p)) (ms ++ rest))) eq_refl) as (p' & -> & Hr). by exists p'.
Qed.

(** The messages sent to a peer come out of the same peer's receive, in order and each
    once; nothing passes through a connection. *)
Theorem peer_loops_back (now now' : Z) (ms : list Message) (p : Peer) :
  p_queue p = [] ->
  exists p', receive_n now' (length ms) (send_all now ms p) = (Some <$> ms, p') /\
             peer_receive now' p' = (Ok None, p').
Proof.
  intros Hq. destruct (receive_queue now' ms [] (send_all now ms p)) as (p' & E & Hr).
  { by rewrite send_all_queue, Hq, app_nil_r. }
  exists p'. split; [done|]. unfold peer_receive. by rewrite Hr.
Qed.
