(* ===== verification/Gossip.v ===== *)
(** * Gossip: crates/network/src/gossip.rs

    Messages are forwarded to a random subset of the connected peers; an entry per message
    id remembers when it was first seen and to whom it went.  The state is the protocol
    together with the shared vector of peers; a target is a position in that vector.  The
    clock [now], the generator ([seed] of the shuffle, [nonce k] of the k-th message sent)
    are arguments.  [cleanup_loop] runs [cleanup_stale_entries] every minute while running. *)
From stdpp Require Import prelude gmap strings list.
From Stdlib Require Import Strings.Byte.
From S2P Require Import Prelude Floats64 Types Merkle Transaction Block Protocol Peer.

Local Open Scope Z_scope.

(** ** Data *)
Record BlockAnnouncement := mkBlockAnnouncement {
  ba_height : Z;
  ba_hash : BlockHash;
  ba_timestamp : Z;
  ba_transaction_count : Z
}.

Record TransactionAnnouncement := mkTransactionAnnouncement {
  ta_tx_id : TxId;
  ta_timestamp : Z;
  ta_size : Z
}.

Inductive GossipMessage :=
| GNewBlock (b : Block)
| GNewTransaction (t : Transaction)
| GBlockAnnouncement (a : BlockAnnouncement)
| GTransactionAnnouncement (a : TransactionAnnouncement).

Record GossipId := mkGossipId { gossip_id_bytes : array 32 }.

Global Instance GossipId_eq_dec : EqDecision GossipId.
Proof. solve_decision. Defined.
Global Instance GossipId_countable : Countable GossipId.
Proof. by apply (inj_countable' gossip_id_bytes mkGossipId); intros []. Defined.

Definition GossipId_from_block_hash (h : BlockHash) : GossipId := mkGossipId (block_hash_bytes h).
Definition GossipId_from_tx_id (i : TxId) : GossipId := mkGossipId (tx_id_bytes i).

Record GossipEntry := mkGossipEntry {
  ge_id : GossipId;
  ge_first_seen : Z;
  ge_propagated_to : gset PeerId
}.

Definition GossipEntry_new (now : Z) (id : GossipId) : GossipEntry := mkGossipEntry id now ∅.
Definition entry_add_peer (peer_id : PeerId) (e : GossipEntry) : GossipEntry :=
  mkGossipEntry (ge_id e) (ge_first_seen e) ({[peer_id]} ∪ ge_propagated_to e).
Definition entry_has_peer (e : GossipEntry) (peer_id : PeerId) : bool := bool_decide (peer_id ∈ ge_propagated_to e).
Definition entry_is_stale (now ttl : Z) (e : GossipEntry) : bool := ttl <? u64_saturating_sub now (ge_first_seen e).

Record GossipProtocol := mkGossipProtocol {
  gp_fanout : Z;
  gp_seen_messages : gmap GossipId GossipEntry;
  gp_message_ttl : Z;
  gp_running : bool
}.

Definition GossipProtocol_new (fanout : Z) : GossipProtocol := mkGossipProtocol fanout ∅ 300 false.
Definition with_ttl (ttl : Z) (g : GossipProtocol) : GossipProtocol :=
  mkGossipProtocol (gp_fanout g) (gp_seen_messages g) ttl (gp_running g).
Definition with_seen (f : gmap GossipId GossipEntry -> gmap GossipId GossipEntry) (g : GossipProtocol) : GossipProtocol :=
  mkGossipProtocol (gp_fanout g) (f (gp_seen_messages g)) (gp_message_ttl g) (gp_running g).
Definition set_gossip_running (b : bool) (g : GossipProtocol) : GossipProtocol :=
  mkGossipProtocol (gp_fanout g) (gp_seen_messages g) (gp_message_ttl g) b.

Definition gossip_start (g : GossipProtocol) : VResult unit * GossipProtocol :=
  if gp_running g then (Err (NetworkError "Gossip already running"), g) else (Ok tt, set_gossip_running true g).
Definition gossip_stop (g : GossipProtocol) : VResult unit * GossipProtocol := (Ok tt, set_gossip_running false g).

Definition cleanup_stale_entries (now : Z) (g : GossipProtocol) : VResult Z * GossipProtocol :=
  let stale_ids := (filter (fun kv => entry_is_stale now (gp_message_ttl g) kv.2 = true)
                      (map_to_list (gp_seen_messages g))).*1 in
  (Ok (len stale_ids), with_seen (fun seen => foldl (fun m id => delete id m) seen stale_ids) g).

(** One round of [cleanup_loop]. *)
Definition cleanup_round (now : Z) (g : GossipProtocol) : GossipProtocol :=
  if gp_running g then (cleanup_stale_entries now g).2 else g.

Definition has_seen (id : GossipId) (g : GossipProtocol) : bool := bool_decide (is_Some (gp_seen_messages g !! id)).
Definition mark_seen (now : Z) (id : GossipId) (g : GossipProtocol) : GossipProtocol :=
  with_seen (fun seen => match seen !! id with Some _ => seen | None => <[id := GossipEntry_new now id]> seen end) g.
Definition mark_propagated_to (id : GossipId) (peer_id : PeerId) (g : GossipProtocol) : GossipProtocol :=
  with_seen (alter (entry_add_peer peer_id) id) g.

Record GossipStats := mkGossipStats {
  gs_seen_messages : Z;
  gs_total_propagations : Z;
  gs_average_fanout : f64
}.

Definition gossip_get_stats (g : GossipProtocol) : GossipStats :=
  let seen := gp_seen_messages g in
  let total := foldr (fun kv acc => u64_add (Z.of_nat (size (ge_propagated_to kv.2))) acc) 0 (map_to_list seen) in
  mkGossipStats (Z.of_nat (size seen)) total
    (if bool_decide (seen = ∅) then f64_zero else f64_div (f64_of_Z total) (f64_of_Z (Z.of_nat (size seen)))).

Definition gossip_clear (g : GossipProtocol) : GossipProtocol := with_seen (fun _ => ∅) g.

Section gossip.
Context `{HashCrate, ShuffleCrate, !Bincode Block, !Bincode Transaction, !Bincode BlockAnnouncement,
          !Bincode TransactionAnnouncement}.

Definition encode_gossip_message (now nonce : Z) (m : GossipMessage) : VResult Message :=
  match m with
  | GNewBlock block => Message_new_block now nonce block
  | GNewTransaction tx => Message_new_transaction now nonce tx
  | GBlockAnnouncement ann => encoded MNewBlock now nonce ann
  | GTransactionAnnouncement ann => encoded MNewTransaction now nonce ann
  end.

Definition get_message_id (m : GossipMessage) : GossipId :=
  match m with
  | GNewBlock block => GossipId_from_block_hash (block_hash block)
  | GNewTransaction tx => GossipId_from_tx_id (tx_id tx)
  | GBlockAnnouncement ann => GossipId_from_block_hash (ba_hash ann)
  | GTransactionAnnouncement ann => GossipId_from_tx_id (ta_tx_id ann)
  end.

(** The positions of the connected peers that did not get the message yet. *)
Definition gossip_candidate (g : GossipProtocol) (id : GossipId) (p : Peer) : bool :=
  is_connected p &&
  negb (match gp_seen_messages g !! id with Some entry => entry_has_peer entry (p_id p) | None => false end).

Definition candidate_positions (g : GossipProtocol) (id : GossipId) (peers : list Peer) : list nat :=
  filter (fun i => match peers !! i with Some p => gossip_candidate g id p | None => false end = true)
    (seq 0 (length peers)).

Definition select_gossip_targets (seed : nat) (g : GossipProtocol) (id : GossipId) (peers : list Peer) : list nat :=
  take (Z.to_nat (gp_fanout g)) (rand_shuffle seed (candidate_positions g id peers)).

(** [send_to_peer]: encode, then queue the message at the peer in position [i]. *)
Definition gossip_send_to_peer (now nonce : Z) (m : GossipMessage) (i : nat) (peers : list Peer) :
    VResult unit * list Peer :=
  match encode_gossip_message now nonce m with
  | Ok pm => match peers !! i with
             | Some p => let '(r, p') := peer_send now pm p in (r, <[i := p']> peers)
             | None => (Panic, peers)
             end
  | Err e => (Err e, peers)
  | Panic => (Panic, peers)
  end.

(** The loop of [gossip] over the targets; [k] counts the messages drawn so far. *)
Fixpoint gossip_loop (now : Z) (nonce : nat -> Z) (k : nat) (m : GossipMessage) (id : GossipId) (targets : list nat)
    (g : GossipProtocol) (peers : list Peer) : Z * (GossipProtocol * list Peer) :=
  match targets with
  | [] => (0, (g, peers))
  | i :: targets' =>
      let '(r, peers') := gossip_send_to_peer now (nonce k) m i peers in
      let sent := is_ok r in
      let g' := match peers !! i with
                | Some p => if sent then mark_propagated_to id (p_id p) g else g
                | None => g
                end in
      let '(n, st) := gossip_loop now nonce (S k) m id targets' g' peers' in
      ((if sent then 1 else 0) + n, st)
  end.

Definition gossip (now : Z) (seed : nat) (nonce : nat -> Z) (m : GossipMessage) :
    VStM (GossipProtocol * list Peer) Z := fun '(g, peers) =>
  let id := get_message_id m in
  if has_seen id g then (Ok 0, (g, peers))
  else
    let g1 := mark_seen now id g in
    let '(n, st) := gossip_loop now nonce 0 m id (select_gossip_targets seed g1 id peers) g1 peers in
    (Ok n, st).

Definition handle_received_message (now : Z) (seed : nat) (nonce : nat -> Z) (m : GossipMessage) (from_peer : PeerId) :
    VStM (GossipProtocol * list Peer) unit :=
  let id := get_message_id m in
  self ← get;
  _ ← (if negb (has_seen id self.1) then
         _ ← modify (fun '(g, peers) => (mark_seen now id g, peers));
         _ ← gossip now seed nonce m; mret tt
       else mret tt);
  modify (fun '(g, peers) => (mark_propagated_to id from_peer g, peers)).

(** ** Facts *)
Lemma mark_seen_seen now id g : is_Some (gp_seen_messages (mark_seen now id g) !! id).
Proof. unfold mark_seen. cbn. destruct (gp_seen_messages g !! id) eqn:E; [by rewrite E|]. by rewrite lookup_insert_eq. Qed.

Lemma elem_candidates g id peers i :
  i ∈ candidate_positions g id peers <-> exists p, peers !! i = Some p /\ gossip_candidate g id p = true.
Proof.
  unfold candidate_positions. rewrite list_elem_of_filter, elem_of_seq. split.
  - intros [Hc _]. destruct (peers !! i) as [p|] eqn:E; [by exists p|done].
  - intros (p & E & Hc). rewrite E. split; [done|]. apply lookup_lt_Some in E. lia.
Qed.

Lemma candidates_length g id f peers :
  (forall p, gossip_candidate g id p = f p) ->
  len (candidate_positions g id peers) = len (filter (fun p => f p = true) peers).
Proof.
  intros Hf. unfold len. f_equal.
  enough (forall before rest, length (filter (fun i => match (before ++ rest) !! i with
      | Some p => gossip_candidate g id p | None => false end = true) (seq (length before) (length rest))) =
    length (filter (fun p => f p = true) rest)) as Hgen by exact (Hgen [] peers).
  intros before rest. revert before. induction rest as [|p rest IH]; intros before; [done|].
  cbn [length seq]. rewrite !filter_cons. rewrite list_lookup_middle by done. rewrite Hf.
  specialize (IH (before ++ [p])). rewrite <- app_assoc, length_app, Nat.add_1_r in IH. cbn [app] in IH.
  destruct (f p); repeat case_decide; try done; cbn [length]; by rewrite IH.
Qed.

Context `{!ShuffleSpec}.

Lemma targets_nodup seed g id peers : NoDup (select_gossip_targets seed g id peers).
Proof.
  assert (NoDup (rand_shuffle seed (candidate_positions g id peers))) as Hnd.
  { rewrite rand_shuffle_perm. apply NoDup_filter, NoDup_seq. }
  rewrite <- (take_drop (Z.to_nat (gp_fanout g)) (rand_shuffle seed (candidate_positions g id peers))) in Hnd.
  by apply NoDup_app in Hnd as [? _].
Qed.

Lemma targets_candidates seed g id peers i :
  i ∈ select_gossip_targets seed g id peers -> exists p, peers !! i = Some p /\ gossip_candidate g id p = true.
Proof.
  intros Hi. apply elem_candidates. rewrite <- (rand_shuffle_perm _ seed). apply (subseteq_take _ _ _ Hi).
Qed.

Lemma targets_length seed g id peers :
  0 <= gp_fanout g ->
  len (select_gossip_targets seed g id peers) = Z.min (gp_fanout g) (len (candidate_positions g id peers)).
Proof.
  intros. unfold select_gossip_targets, len. rewrite length_take, rand_shuffle_perm. lia.
Qed.

(** The effect of the loop when the message encodes: every target gets one more message. *)
Lemma gossip_loop_spec now nonce k m id targets g peers :
  NoDup targets -> (forall n, exists pm, encode_gossip_message now n m = Ok pm) ->
  (forall i, i ∈ targets -> (i < length peers)%nat) -> is_Some (gp_seen_messages g !! id) ->
  exists g' peers', gossip_loop now nonce k m id targets g peers = (len targets, (g', peers')) /\
    length peers' = length peers /\ is_Some (gp_seen_messages g' !! id) /\
    (forall i p, peers !! i = Some p -> i ∉ targets -> peers' !! i = Some p) /\
    (forall i p, peers !! i = Some p -> i ∈ targets ->
       exists n pm, encode_gossip_message now n m = Ok pm /\ peers' !! i = Some (peer_send now pm p).2).
Proof.
  intros Hnd Henc. revert k g peers. induction Hnd as [|i targets Hi Hnd IH]; intros k g peers Hlt Hg.
  { exists g, peers. split_and!; [done..|]. intros i p _ []%not_elem_of_nil. }
  cbn [gossip_loop]. unfold gossip_send_to_peer. destruct (Henc (nonce k)) as [pm Hpm]. rewrite Hpm.
  destruct (lookup_lt_is_Some_2 peers i (Hlt i ltac:(left))) as [p Hp]. rewrite Hp. cbn [fst snd peer_send is_ok].
  destruct (IH (S k) (mark_propagated_to id (p_id p) g) (<[i := (peer_send now pm p).2]> peers)) as (g' & peers' & E & Hlen & Hg' & Hkeep & Hsent).
  { intros j Hj. rewrite length_insert. apply Hlt. by right. }
  { unfold mark_propagated_to. cbn. rewrite lookup_alter_eq. by apply fmap_is_Some. }
  cbn [peer_send snd] in E. rewrite E. exists g', peers'.
  assert (i < length peers)%nat by by eapply lookup_lt_Some.
  split_and!; [unfold len; cbn [length]; f_equal; lia|by rewrite Hlen, length_insert|done| |].
  - intros j q Hj [Hne Hj']%not_elem_of_cons. apply Hkeep; [|done]. by rewrite list_lookup_insert_ne.
  - intros j q Hj [->|Hj']%elem_of_cons.
    + replace q with p in * by congruence. exists (nonce k), pm. split; [done|]. apply Hkeep; [|done].
      by apply list_lookup_insert_eq.
    + assert (i <> j) by (intros ->; done). apply Hsent; [|done]. by rewrite list_lookup_insert_ne.
Qed.

(** Gossiping a message that serializes and was not seen before queues it exactly once
    at each of the chosen peers and nowhere else: connected peers only, as many as the
    fanout allows or are connected.  Gossiping a message with the same id again, before
    its entry expires, sends nothing. *)
Theorem gossip_sends_once (now now' : Z) (seed seed' : nat) (nonce nonce' : nat -> Z) (m m' : GossipMessage)
    (g : GossipProtocol) (peers : list Peer) :
  0 <= gp_fanout g -> (forall n, exists pm, encode_gossip_message now n m = Ok pm) ->
  has_seen (get_message_id m) g = false -> get_message_id m' = get_message_id m ->
  exists (targets : list nat) g' peers',
    gossip now seed nonce m (g, peers) = (Ok (len targets), (g', peers')) /\
    NoDup targets /\ len targets = Z.min (gp_fanout g) (len (filter (fun p => is_connected p = true) peers)) /\
    (forall i p, peers !! i = Some p ->
       if bool_decide (i ∈ targets)
       then is_connected p = true /\ exists n pm, encode_gossip_message now n m = Ok pm /\
              peers' !! i = Some (peer_send now pm p).2
       else peers' !! i = Some p) /\
    gossip now' seed' nonce' m' (g', peers') = (Ok 0, (g', peers')).
Proof.
  intros Hf Henc Hseen Hid. set (id := get_message_id m) in *. set (g1 := mark_seen now id g).
  assert (gp_seen_messages g !! id = None) as Hnone.
  { unfold has_seen in Hseen. apply bool_decide_eq_false in Hseen. by apply eq_None_not_Some. }
  assert (forall p, gossip_candidate g1 id p = is_connected p) as Hcand.
  { intros p. unfold gossip_candidate, g1, mark_seen. cbn. rewrite Hnone, lookup_insert_eq.
    unfold entry_has_peer. cbn. rewrite bool_decide_false by set_solver. by rewrite andb_true_r. }
  set (targets := select_gossip_targets seed g1 id peers).
  destruct (gossip_loop_spec now nonce 0 m id targets g1 peers) as (g' & peers' & E & _ & Hg' & Hkeep & Hsent);
    [apply targets_nodup|done|by intros i (p & Hp & _)%targets_candidates; eapply lookup_lt_Some|apply mark_seen_seen|].
  exists targets, g', peers'. unfold gossip at 1. fold id. rewrite Hseen. fold g1 targets. rewrite E.
  split_and!; [done|apply targets_nodup| | |].
  - unfold targets. rewrite targets_length by done. cbn. by rewrite (candidates_length g1 id is_connected).
  - intros i p Hp. case_bool_decide as Hi; [|by apply Hkeep]. split; [|by apply Hsent].
    apply targets_candidates in Hi as (q & Hq & Hc). replace p with q by congruence. by rewrite <- Hcand.
  - unfold gossip. rewrite Hid. unfold has_seen. by rewrite bool_decide_true.
Qed.

(** A message that arrives from a peer is never passed on: whatever the state, handling
    it leaves every peer's queue as it was, because it is marked as seen before it is
    handed to gossip. *)
Theorem received_not_forwarded (now : Z) (seed : nat) (nonce : nat -> Z) (m : GossipMessage) (from_peer : PeerId)
    (g : GossipProtocol) (peers : list Peer) :
  exists g', handle_received_message now seed nonce m from_peer (g, peers) = (Ok tt, (g', peers)) /\
             has_seen (get_message_id m) g' = true.
Proof.
  set (id := get_message_id m).
  assert (forall g0, is_Some (gp_seen_messages g0 !! id) -> has_seen id (mark_propagated_to id from_peer g0) = true) as Hp.
  { intros g0 Hg0. unfold has_seen, mark_propagated_to. apply bool_decide_eq_true. cbn. rewrite lookup_alter_eq.
    by apply fmap_is_Some. }
  unfold handle_received_message. fold id. unfold_st. destruct (has_seen id g) eqn:E; cbn.
  - eexists. split; [done|]. apply Hp. unfold has_seen in E. by apply bool_decide_eq_true in E.
  - fold id. unfold has_seen at 1. rewrite bool_decide_true by apply mark_seen_seen. cbn.
    eexists. split; [done|]. apply Hp, mark_seen_seen.
Qed.
End gossip.

(** The cleanup removes exactly the entries older than the time to live. *)
Lemma cleanup_spec (now : Z) (g : GossipProtocol) (id : GossipId) (e : GossipEntry) :
  gp_seen_messages (cleanup_stale_entries now g).2 !! id = Some e <->
  gp_seen_messages g !! id = Some e /\ entry_is_stale now (gp_message_ttl g) e = false.
Proof.
  cbn. set (seen := gp_seen_messages g). set (stale := (filter _ (map_to_list seen)).*1).
  assert (forall ids (m : gmap GossipId GossipEntry), foldl (fun m id => delete id m) m ids !! id = Some e <-> m !! id = Some e /\ id ∉ ids) as Hd.
  { induction ids as [|j ids IH]; intros m0; cbn; [set_solver|]. rewrite IH, lookup_delete_Some. set_solver. }
  rewrite Hd. enough (seen !! id = Some e -> (id ∈ stale <-> entry_is_stale now (gp_message_ttl g) e = true)) as Hs.
  { destruct (entry_is_stale _ _ e); naive_solver. }
  intros He. unfold stale. rewrite list_elem_of_fmap. split.
  - intros ([j e'] & -> & [Hst Hin]%list_elem_of_filter). apply elem_of_map_to_list in Hin. cbn in *.
    replace e with e' by congruence. done.
  - intros Hst. exists (id, e). split; [done|]. apply list_elem_of_filter. split; [done|]. by apply elem_of_map_to_list.
Qed.
