(* ===== verification/BlockSync.v ===== *)
(** * Block synchronisation: crates/network/src/sync.rs

    Ranges of blocks are requested in batches from random connected peers; responses are
    queued and the progress is tracked.  The locked fields are one record; [sync_loop] runs
    [sync_round] every second while running.  The clock [now], the seeds of the choices and
    the nonces of the messages are arguments.  The request loop does not terminate for a
    batch size of zero: it has fuel, and [None] means that the fuel ran out. *)
From stdpp Require Import prelude gmap strings list.
From Stdlib Require Import Strings.Byte.
From S2P Require Import Prelude Floats64 Types Merkle Transaction Block Protocol Peer.

Local Open Scope Z_scope.

(** ** Data *)
Inductive SyncState := Idle | Syncing | Catching | Synced | SyncFailed.

Global Instance SyncState_eq_dec : EqDecision SyncState.
Proof. solve_decision. Defined.

Record SyncStatus := mkSyncStatus {
  sy_state : SyncState;
  sy_current_height : Z;
  sy_target_height : Z;
  sy_start_height : Z;
  sy_synced_blocks : Z;
  sy_pending_requests : Z;
  sy_active_peers : Z;
  sy_sync_speed : f64;
  sy_started_at : option Z;
  sy_estimated_completion : option Z
}.

Definition progress_percent (s : SyncStatus) : f64 :=
  if sy_target_height s <=? sy_start_height s then f64_hundred
  else
    let total := sy_target_height s - sy_start_height s in
    let dn := u64_saturating_sub (sy_current_height s) (sy_start_height s) in
    f64_mul (f64_div (f64_of_Z dn) (f64_of_Z total)) f64_hundred.
Definition remaining_blocks (s : SyncStatus) : Z := u64_saturating_sub (sy_target_height s) (sy_current_height s).
Definition status_is_syncing (s : SyncStatus) : bool :=
  match sy_state s with Syncing | Catching => true | _ => false end.

Record SyncRequest := mkSyncRequest {
  sr_request_id : Z;
  sr_peer_id : PeerId;
  sr_start_height : Z;
  sr_end_height : Z;
  sr_requested_at : Z;
  sr_timeout : Z
}.

Definition is_timed_out (now : Z) (r : SyncRequest) : bool :=
  sr_timeout r <? u64_saturating_sub now (sr_requested_at r).

Record BlockSync := mkBlockSync {
  bs_batch_size : Z;
  bs_state : SyncState;
  bs_current_height : Z;
  bs_target_height : Z;
  bs_start_height : Z;
  bs_pending_requests : gmap Z SyncRequest;
  bs_received_blocks : list Block;
  bs_next_request_id : Z;
  bs_request_timeout : Z;
  bs_running : bool;
  bs_sync_start_time : option Z;
  bs_synced_blocks : Z
}.

Definition BlockSync_new (batch_size : Z) : BlockSync :=
  mkBlockSync batch_size Idle 0 0 0 ∅ [] 0 30 false None 0.
Definition with_timeout (timeout : Z) (s : BlockSync) : BlockSync :=
  mkBlockSync (bs_batch_size s) (bs_state s) (bs_current_height s) (bs_target_height s) (bs_start_height s)
    (bs_pending_requests s) (bs_received_blocks s) (bs_next_request_id s) timeout (bs_running s)
    (bs_sync_start_time s) (bs_synced_blocks s).

Definition set_sync_running (b : bool) (s : BlockSync) : BlockSync :=
  mkBlockSync (bs_batch_size s) (bs_state s) (bs_current_height s) (bs_target_height s) (bs_start_height s)
    (bs_pending_requests s) (bs_received_blocks s) (bs_next_request_id s) (bs_request_timeout s) b
    (bs_sync_start_time s) (bs_synced_blocks s).
Definition sync_set_state (st : SyncState) (s : BlockSync) : BlockSync :=
  mkBlockSync (bs_batch_size s) st (bs_current_height s) (bs_target_height s) (bs_start_height s)
    (bs_pending_requests s) (bs_received_blocks s) (bs_next_request_id s) (bs_request_timeout s) (bs_running s)
    (bs_sync_start_time s) (bs_synced_blocks s).
Definition set_pending (f : gmap Z SyncRequest -> gmap Z SyncRequest) (s : BlockSync) : BlockSync :=
  mkBlockSync (bs_batch_size s) (bs_state s) (bs_current_height s) (bs_target_height s) (bs_start_height s)
    (f (bs_pending_requests s)) (bs_received_blocks s) (bs_next_request_id s) (bs_request_timeout s) (bs_running s)
    (bs_sync_start_time s) (bs_synced_blocks s).

Definition sync_start (s : BlockSync) : VResult unit * BlockSync :=
  if bs_running s then (Err (NetworkError "Sync already running"), s) else (Ok tt, set_sync_running true s).
Definition sync_stop (s : BlockSync) : VResult unit * BlockSync := (Ok tt, set_sync_running false s).

(** ** The background loop *)
Definition complete_sync (s : BlockSync) : BlockSync := sync_set_state Synced s.
Definition process_syncing (s : BlockSync) : BlockSync :=
  if bs_target_height s <=? bs_current_height s then complete_sync s else s.
Definition process_catching (s : BlockSync) : BlockSync := s.
Definition process_sync (s : BlockSync) : BlockSync :=
  match bs_state s with Syncing => process_syncing s | Catching => process_catching s | _ => s end.

Definition check_timeouts (now : Z) (s : BlockSync) : BlockSync :=
  let timed_out := (filter (fun kv => is_timed_out now kv.2 = true) (map_to_list (bs_pending_requests s))).*1 in
  set_pending (fun p => foldl (fun m id => delete id m) p timed_out) s.

(** One round of [sync_loop]. *)
Definition sync_round (now : Z) (s : BlockSync) : BlockSync :=
  if bs_running s then check_timeouts now (process_sync s) else s.

(** ** Responses *)
Definition handle_block_response (response : BlockResponse) (from_peer : PeerId) (s : BlockSync) :
    VResult unit * BlockSync :=
  let blocks := bs_received_blocks s ++ bp_blocks response in
  let synced := u64_add (bs_synced_blocks s) (len blocks) in
  let current := match last blocks with Some b => block_height b | None => bs_current_height s end in
  (Ok tt, mkBlockSync (bs_batch_size s) (bs_state s) current (bs_target_height s) (bs_start_height s)
            (bs_pending_requests s) blocks (bs_next_request_id s) (bs_request_timeout s) (bs_running s)
            (bs_sync_start_time s) synced).

Definition get_next_block (s : BlockSync) : option Block * BlockSync :=
  match bs_received_blocks s with
  | b :: rest =>
      (Some b, mkBlockSync (bs_batch_size s) (bs_state s) (bs_current_height s) (bs_target_height s)
                 (bs_start_height s) (bs_pending_requests s) rest (bs_next_request_id s) (bs_request_timeout s)
                 (bs_running s) (bs_sync_start_time s) (bs_synced_blocks s))
  | [] => (None, s)
  end.
Definition pending_block_count (s : BlockSync) : Z := len (bs_received_blocks s).

Definition sync_status (now : Z) (s : BlockSync) : SyncStatus :=
  let sync_speed :=
    match bs_sync_start_time s with
    | Some started =>
        let elapsed := u64_saturating_sub now started in
        if 0 <? elapsed then f64_div (f64_of_Z (bs_synced_blocks s)) (f64_of_Z elapsed) else f64_zero
    | None => f64_zero
    end in
  let estimated_completion :=
    if f64_gt sync_speed f64_zero then
      let remaining := u64_saturating_sub (bs_target_height s) (bs_current_height s) in
      Some (u64_add now (f64_to_usize (f64_div (f64_of_Z remaining) sync_speed)))
    else None in
  mkSyncStatus (bs_state s) (bs_current_height s) (bs_target_height s) (bs_start_height s) (bs_synced_blocks s)
    (Z.of_nat (size (bs_pending_requests s))) 0 sync_speed (bs_sync_start_time s) estimated_completion.
Definition sync_is_syncing (now : Z) (s : BlockSync) : bool := status_is_syncing (sync_status now s).

(** ** Requests *)
Section requests.
Context `{ChooseCrate, !Bincode BlockRequest}.

Definition connected_positions (peers : list Peer) : list nat :=
  filter (fun i => match peers !! i with Some p => is_connected p | None => false end = true) (seq 0 (length peers)).

(** The chosen peer, as a position in the vector. *)
Definition select_sync_peer (seed : nat) (peers : list Peer) : VResult nat :=
  let connected := connected_positions peers in
  _ ← ensure (negb (bool_decide (connected = []))) (NetworkError "No peers available");
  ok_or (rand_choose seed connected) (NetworkError "Failed to select peer").

Definition next_request_id (s : BlockSync) : Z * BlockSync :=
  (bs_next_request_id s,
   mkBlockSync (bs_batch_size s) (bs_state s) (bs_current_height s) (bs_target_height s) (bs_start_height s)
     (bs_pending_requests s) (bs_received_blocks s) (u64_add (bs_next_request_id s) 1) (bs_request_timeout s)
     (bs_running s) (bs_sync_start_time s) (bs_synced_blocks s)).

Definition request_block_batch (now nonce : Z) (seed : nat) (first last : Z) : VStM (BlockSync * list Peer) unit :=
  '(s, peers) ← get;
  i ← lift (select_sync_peer seed peers);
  let '(request_id, s1) := next_request_id s in
  _ ← modify (fun _ => (s1, peers));
  message ← lift (Message_get_blocks now nonce (mkBlockRequest first last (bs_batch_size s)));
  peer ← lift (unwrap (peers !! i));
  _ ← modify (fun _ => (s1, <[i := (peer_send now message peer).2]> peers));
  modify (fun '(s, peers) =>
    (set_pending (<[request_id := mkSyncRequest request_id (p_id peer) first last now (bs_request_timeout s)]>) s, peers)).

(** The batches of [request_blocks]; the outcome of each is only logged. *)
Fixpoint request_loop (fuel : nat) (now : Z) (nonce : nat -> Z) (seed : nat -> nat) (k : nat) (current last : Z)
    (st : BlockSync * list Peer) : option (BlockSync * list Peer) :=
  if last <=? current then Some st
  else match fuel with
  | O => None
  | S fuel' =>
      let batch_end := Z.min (u64_add current (bs_batch_size st.1)) last in
      let '(_, st') := request_block_batch now (nonce k) (seed k) current batch_end st in
      request_loop fuel' now nonce seed (S k) batch_end last st'
  end.

Definition begin_sync (now first last : Z) (s : BlockSync) : BlockSync :=
  mkBlockSync (bs_batch_size s) Syncing first last first (bs_pending_requests s) (bs_received_blocks s)
    (bs_next_request_id s) (bs_request_timeout s) (bs_running s) (Some now) (bs_synced_blocks s).

Definition request_blocks (fuel : nat) (now : Z) (nonce : nat -> Z) (seed : nat -> nat) (first last : Z)
    (st : BlockSync * list Peer) : option (VResult unit * (BlockSync * list Peer)) :=
  let '(s, peers) := st in
  if last <=? first then Some (Err (NetworkError "Invalid block range"), st)
  else st' ← request_loop fuel now nonce seed 0 first last (begin_sync now first last s, peers); Some (Ok tt, st').
End requests.

(** ** Facts *)

(** The heights from [a] to [c] (exclusive) cut into consecutive batches of [size], the last
    one possibly shorter. *)
Inductive batches (size : Z) : Z -> Z -> list (Z * Z) -> Prop :=
| batches_nil a : batches size a a []
| batches_cons a c l : a < c -> batches size (Z.min (a + size) c) c l ->
    batches size a c ((a, Z.min (a + size) c) :: l).

Definition requested_at (s : BlockSync) (id : Z) (first last now : Z) (ids : list PeerId) : Prop :=
  exists peer, peer ∈ ids /\
    bs_pending_requests s !! id = Some (mkSyncRequest id peer first last now (bs_request_timeout s)).

Section request_facts.
Context `{ChooseSpec, !Bincode BlockRequest}.

Definition connected_ids (peers : list Peer) : list PeerId := p_id <$> filter (fun p => is_connected p = true) peers.

Lemma elem_connected i peers :
  i ∈ connected_positions peers <-> exists p, peers !! i = Some p /\ is_connected p = true.
Proof.
  unfold connected_positions. rewrite list_elem_of_filter, elem_of_seq. split.
  - intros [Hc _]. destruct (peers !! i) as [p|] eqn:E; [by exists p|done].
  - intros (p & E & Hc). rewrite E. split; [done|]. apply lookup_lt_Some in E. lia.
Qed.

Lemma no_connected peers : connected_positions peers = [] -> connected_ids peers = [].
Proof.
  intros Hn. unfold connected_ids. destruct (filter _ peers) as [|p l] eqn:E; [done|].
  assert (p ∈ filter (fun p => is_connected p = true) peers) as [Hc Hp]%list_elem_of_filter by (rewrite E; left).
  apply list_elem_of_lookup_1 in Hp as [i Hi]. assert (i ∈ connected_positions peers) as Hin by (apply elem_connected; eauto).
  rewrite Hn in Hin. by apply not_elem_of_nil in Hin.
Qed.

Lemma filter_insert_same (P : Peer -> bool) (i : nat) (p q : Peer) (peers : list Peer) :
  peers !! i = Some p -> p_id q = p_id p -> P q = P p ->
  p_id <$> filter (fun p => P p = true) (<[i := q]> peers) = p_id <$> filter (fun p => P p = true) peers.
Proof.
  revert i. induction peers as [|r peers IH]; intros i Hi Hid HP; [done|]. destruct i as [|i]; cbn in Hi.
  - injection Hi as ->. change (<[0%nat := q]> (p :: peers)) with (q :: peers). rewrite !filter_cons, HP.
    destruct (decide (P p = true)); cbn; by rewrite ?Hid.
  - change (<[S i := q]> (r :: peers)) with (r :: <[i := q]> peers). rewrite !filter_cons.
    destruct (decide (P r = true)); cbn; by rewrite IH.
Qed.

Lemma request_batch_ok now nonce seed a b s peers :
  connected_ids peers <> [] -> (forall n r, exists m, Message_get_blocks now n r = Ok m) ->
  exists peer peers', peer ∈ connected_ids peers /\ connected_ids peers' = connected_ids peers /\
    request_block_batch now nonce seed a b (s, peers) =
      (Ok tt, (set_pending (<[bs_next_request_id s :=
                 mkSyncRequest (bs_next_request_id s) peer a b now (bs_request_timeout s)]>) (next_request_id s).2, peers')).
Proof.
  intros Hne Henc. destruct (rand_choose_some _ seed (connected_positions peers)) as [i Hi]; [by intros ?%no_connected|].
  pose proof (rand_choose_elem _ _ _ _ Hi) as (p & Hp & Hc)%elem_connected.
  destruct (Henc nonce (mkBlockRequest a b (bs_batch_size s))) as [m Hm].
  exists (p_id p), (<[i := (peer_send now m p).2]> peers). split_and!.
  - apply list_elem_of_fmap. exists p. split; [done|]. apply list_elem_of_filter. split; [done|]. by eapply list_elem_of_lookup_2.
  - by apply (filter_insert_same is_connected i p).
  - unfold request_block_batch. unfold_st. unfold select_sync_peer.
    rewrite bool_decide_false by (by intros ?%no_connected). cbn. rewrite Hi. cbn. rewrite Hm. cbn. by rewrite Hp.
Qed.

(** What the loop of [request_blocks] leaves behind. *)
Definition requested (now : Z) (ids : list PeerId) (s s' : BlockSync) (ranges : list (Z * Z)) : Prop :=
  bs_state s' = bs_state s /\ bs_current_height s' = bs_current_height s /\ bs_target_height s' = bs_target_height s /\
  bs_start_height s' = bs_start_height s /\ bs_received_blocks s' = bs_received_blocks s /\
  bs_batch_size s' = bs_batch_size s /\ bs_request_timeout s' = bs_request_timeout s /\
  bs_next_request_id s' = bs_next_request_id s + len ranges /\
  (forall k a b, ranges !! k = Some (a, b) -> requested_at s' (bs_next_request_id s + Z.of_nat k) a b now ids) /\
  (forall id, id < bs_next_request_id s -> bs_pending_requests s' !! id = bs_pending_requests s !! id).

Lemma request_loop_ok fuel now nonce seed k a c s peers :
  0 < bs_batch_size s -> 0 <= a <= c -> c + bs_batch_size s < 2 ^ 64 -> (Z.to_nat (c - a) <= fuel)%nat ->
  0 <= bs_next_request_id s -> bs_next_request_id s + (c - a) < 2 ^ 64 ->
  connected_ids peers <> [] -> (forall n r, exists m, Message_get_blocks now n r = Ok m) ->
  exists ranges s' peers', request_loop fuel now nonce seed k a c (s, peers) = Some (s', peers') /\
    batches (bs_batch_size s) a c ranges /\ requested now (connected_ids peers) s s' ranges.
Proof.
  intros Hb Ha Hc Hf Hid0 Hid Hne Henc. revert k a s peers Hb Ha Hc Hf Hid0 Hid Hne.
  induction fuel as [|fuel IH]; intros k a s peers Hb Ha Hc Hf Hid0 Hid Hne; cbn [request_loop].
  - assert (a = c) as -> by lia. rewrite Z.leb_refl. exists [], s, peers.
    split_and!; [done|constructor|]. unfold requested, len. cbn. split_and!; try done; lia.
  - destruct (Z.leb_spec c a).
    { assert (a = c) as -> by lia. exists [], s, peers. split_and!; [done|constructor|].
      unfold requested, len. cbn. split_and!; try done; lia. }
    cbn [fst]. set (e := Z.min (u64_add a (bs_batch_size s)) c).
    assert (e = Z.min (a + bs_batch_size s) c) as Ee by (unfold e; rewrite u64_add_small; lia).
    destruct (request_batch_ok now (nonce k) (seed k) a e s peers Hne Henc) as (peer & peers1 & Hpeer & Hids & ->).
    set (s1 := set_pending _ _).
    assert (bs_next_request_id s1 = bs_next_request_id s + 1) as Hnext by (unfold s1; cbn; apply u64_add_small; lia).
    assert (bs_batch_size s1 = bs_batch_size s) as Hbs by done.
    destruct (IH (S k) e s1 peers1) as (ranges & s' & peers' & -> & Hba & Hreq); [rewrite ?Hbs, ?Hids; (done || lia)..|].
    exists ((a, Z.min (a + bs_batch_size s) c) :: ranges), s', peers'. split; [done|]. split.
    { constructor; [lia|]. rewrite <- Ee. by rewrite <- Hbs. }
    rewrite Hids in Hreq. destruct Hreq as (? & ? & ? & ? & ? & ? & Ht & Hn & Hr & Hold). unfold requested.
    split_and!; try done.
    + rewrite Hn, Hnext. unfold len. cbn [length]. lia.
    + intros [|j] x y Hj; cbn in Hj.
      * injection Hj as <- <-. exists peer. split; [done|]. rewrite Z.add_0_r, Hold by lia. unfold s1 at 1. cbn.
        rewrite lookup_insert_eq, Ht. by rewrite <- Ee.
      * specialize (Hr j x y Hj). rewrite Hnext in Hr. by replace (_ + Z.of_nat (S j)) with (bs_next_request_id s + 1 + Z.of_nat j) by lia.
    + intros id Hlt. rewrite Hold by lia. unfold s1. cbn. apply lookup_insert_ne. lia.
Qed.

(** C30: With a positive batch size and a connected peer, requesting the blocks from one
    height to another terminates; the range is cut into consecutive batches and one
    request per batch, with a fresh identifier and addressed to a connected peer, is
    pending afterwards; the synchronisation is in state Syncing towards the end height. *)
Theorem request_blocks_covers (now : Z) (nonce : nat -> Z) (seed : nat -> nat) (first last : Z)
    (s : BlockSync) (peers : list Peer) :
  0 < bs_batch_size s -> 0 <= first < last -> last + bs_batch_size s < 2 ^ 64 ->
  0 <= bs_next_request_id s -> bs_next_request_id s + (last - first) < 2 ^ 64 ->
  connected_ids peers <> [] -> (forall n r, exists m, Message_get_blocks now n r = Ok m) ->
  exists ranges s' peers',
    request_blocks (Z.to_nat (last - first)) now nonce seed first last (s, peers) = Some (Ok tt, (s', peers')) /\
    batches (bs_batch_size s) first last ranges /\ bs_state s' = Syncing /\
    bs_current_height s' = first /\ bs_target_height s' = last /\
    (forall k a b, ranges !! k = Some (a, b) ->
       requested_at s' (bs_next_request_id s + Z.of_nat k) a b now (connected_ids peers)).
Proof.
  intros Hb Hf Hl Hid0 Hid Hne Henc. unfold request_blocks. destruct (Z.leb_spec last first); [lia|].
  destruct (request_loop_ok (Z.to_nat (last - first)) now nonce seed 0 first last (begin_sync now first last s) peers)
    as (ranges & s' & peers' & -> & Hba & Hreq); [cbn; (done || lia)..|].
  exists ranges, s', peers'. destruct Hreq as (Hst & Hcur & Htar & _ & _ & _ & _ & _ & Hr & _).
  by split_and!.
Qed.

Lemma batch_keeps_size now nonce seed a b s peers :
  bs_batch_size (request_block_batch now nonce seed a b (s, peers)).2.1 = bs_batch_size s.
Proof.
  unfold request_block_batch. unfold_st. destruct (select_sync_peer seed peers); cbn; [|done..].
  destruct (Message_get_blocks _ _ _); cbn; [|done..]. by destruct (peers !! _).
Qed.

Lemma request_loop_zero fuel now nonce seed k a c s peers :
  bs_batch_size s = 0 -> 0 <= a < c -> c < 2 ^ 64 -> request_loop fuel now nonce seed k a c (s, peers) = None.
Proof.
  intros Hb Ha Hc. revert k s peers Hb. induction fuel as [|fuel IH]; intros k s peers Hb; cbn [request_loop];
    (destruct (Z.leb_spec c a); [lia|]); [done|]. cbn [fst]. rewrite Hb.
  rewrite u64_add_small, Z.add_0_r, Z.min_l by lia.
  pose proof (batch_keeps_size now (nonce k) (seed k) a a s peers) as Hk.
  destruct (request_block_batch _ _ _ a a (s, peers)) as [r [s1 peers1]]. apply IH. cbn in Hk. congruence.
Qed.

(** With a batch size of zero, requesting a non-empty range never terminates. *)
Theorem zero_batch_diverges (fuel : nat) (now : Z) (nonce : nat -> Z) (seed : nat -> nat) (first last : Z) (peers : list Peer) :
  0 <= first < last -> last < 2 ^ 64 ->
  request_blocks fuel now nonce seed first last (BlockSync_new 0, peers) = None.
Proof.
  intros Hf Hl. unfold request_blocks. destruct (Z.leb_spec last first); [lia|].
  rewrite request_loop_zero; [done..|lia|done].
Qed.
End request_facts.

(** Responses are counted with the whole queue: after two responses that nobody has
    consumed in between, the blocks of the first count twice.  The request that was
    answered stays pending, and a single block at the target height ends the
    synchronisation however many blocks are missing. *)
Theorem responses_overcounted (r1 r2 : BlockResponse) (p1 p2 : PeerId) (s : BlockSync) (b : Block) :
  bs_received_blocks s = [] -> bs_state s = Syncing -> 0 <= bs_synced_blocks s ->
  bs_synced_blocks s + 2 * len (bp_blocks r1) + len (bp_blocks r2) < 2 ^ 64 ->
  last (bp_blocks r2) = Some b -> bs_target_height s <= block_height b ->
  let s' := (handle_block_response r2 p2 (handle_block_response r1 p1 s).2).2 in
  bs_synced_blocks s' = bs_synced_blocks s + 2 * len (bp_blocks r1) + len (bp_blocks r2) /\
  pending_block_count s' = len (bp_blocks r1) + len (bp_blocks r2) /\
  bs_pending_requests s' = bs_pending_requests s /\ bs_state (process_sync s') = Synced.
Proof.
  intros Hq Hst H0 Hlt Hlast Htar s'. pose proof (len_nonneg (bp_blocks r1)). pose proof (len_nonneg (bp_blocks r2)).
  unfold s', handle_block_response, pending_block_count, process_sync. cbn. rewrite Hq, Hst, app_nil_l.
  unfold process_syncing. cbn. rewrite last_app, Hlast.
  rewrite !u64_add_small; rewrite ?len_app; [|lia|rewrite u64_add_small; lia].
  split_and!; [lia|done..|]. rewrite (proj2 (Z.leb_le _ _)) by lia. done.
Qed.
