(* ===== verification/Discovery.v ===== *)
(** * Peer discovery: crates/network/src/discovery.rs

    The table of discovered addresses and the set of connected ones.  The clock [now] is an
    argument; [discovery_loop] runs [discovery_round] at every interval while running.  The
    iteration order of the hash map is the order of [map_to_list]. *)
From stdpp Require Import prelude gmap strings list.
From Stdlib Require Import Strings.Byte.
From S2P Require Import Prelude Types Protocol.

Local Open Scope Z_scope.

(** ** Data *)
Record DiscoveryConfig := mkDiscoveryConfig {
  dc_bootstrap_peers : list SocketAddr;
  dc_discovery_interval : Z;
  dc_max_peers : Z;
  dc_max_peers_per_query : Z;
  dc_advertisement_interval : Z;
  dc_stale_threshold : Z
}.

Definition DiscoveryConfig_default : DiscoveryConfig := mkDiscoveryConfig [] 60 50 10 300 600.

Inductive PeerSource := FromBootstrap | FromPeer | FromManual.

Global Instance PeerSource_eq_dec : EqDecision PeerSource.
Proof. solve_decision. Defined.

Record DiscoveredPeer := mkDiscoveredPeer {
  dp_addr : SocketAddr;
  dp_discovered_at : Z;
  dp_last_seen : Z;
  dp_source : PeerSource
}.

Definition DiscoveredPeer_new (now : Z) (addr : SocketAddr) (source : PeerSource) : DiscoveredPeer :=
  mkDiscoveredPeer addr now now source.
Definition touch (now : Z) (p : DiscoveredPeer) : DiscoveredPeer :=
  mkDiscoveredPeer (dp_addr p) (dp_discovered_at p) now (dp_source p).
Definition discovered_is_stale (now threshold : Z) (p : DiscoveredPeer) : bool :=
  threshold <? u64_saturating_sub now (dp_last_seen p).

Record PeerDiscovery := mkPeerDiscovery {
  pd_config : DiscoveryConfig;
  pd_discovered_peers : gmap SocketAddr DiscoveredPeer;
  pd_connected_peers : gset SocketAddr;
  pd_running : bool
}.

Definition PeerDiscovery_new (now : Z) (config : DiscoveryConfig) : PeerDiscovery :=
  mkPeerDiscovery config
    (foldl (fun m addr => <[addr := DiscoveredPeer_new now addr FromBootstrap]> m) ∅ (dc_bootstrap_peers config)) ∅ false.

Definition with_discovered (f : gmap SocketAddr DiscoveredPeer -> gmap SocketAddr DiscoveredPeer) (d : PeerDiscovery) :
    PeerDiscovery :=
  mkPeerDiscovery (pd_config d) (f (pd_discovered_peers d)) (pd_connected_peers d) (pd_running d).
Definition with_connected (f : gset SocketAddr -> gset SocketAddr) (d : PeerDiscovery) : PeerDiscovery :=
  mkPeerDiscovery (pd_config d) (pd_discovered_peers d) (f (pd_connected_peers d)) (pd_running d).
Definition set_discovery_running (b : bool) (d : PeerDiscovery) : PeerDiscovery :=
  mkPeerDiscovery (pd_config d) (pd_discovered_peers d) (pd_connected_peers d) b.

(** ** Operations *)
Definition discovery_start (d : PeerDiscovery) : VResult unit * PeerDiscovery :=
  if pd_running d then (Err (NetworkError "Discovery already running"), d) else (Ok tt, set_discovery_running true d).
Definition discovery_stop (d : PeerDiscovery) : VResult unit * PeerDiscovery := (Ok tt, set_discovery_running false d).
Definition discovery_is_running (d : PeerDiscovery) : bool := pd_running d.

Definition get_discovery_candidates (now count : Z) (d : PeerDiscovery) : list SocketAddr :=
  (take (Z.to_nat count)
     (filter (fun kv => (kv.1 ∉ pd_connected_peers d) /\
                        discovered_is_stale now (dc_stale_threshold (pd_config d)) kv.2 = false)
        (map_to_list (pd_discovered_peers d)))).*1.

(** [discover_peers] computes the candidates and logs their number. *)
Definition discover_peers (now : Z) (d : PeerDiscovery) : VResult (option (list SocketAddr)) :=
  let connected_count := Z.of_nat (size (pd_connected_peers d)) in
  if dc_max_peers (pd_config d) <=? connected_count then Ok None
  else Ok (Some (get_discovery_candidates now (dc_max_peers (pd_config d) - connected_count) d)).

Definition discovery_add_peer (now : Z) (addr : SocketAddr) (source : PeerSource) (d : PeerDiscovery) :
    VResult unit * PeerDiscovery :=
  if u64_mul (dc_max_peers (pd_config d)) 2 <=? Z.of_nat (size (pd_discovered_peers d))
  then (Err (NetworkError "Discovered peers limit reached"), d)
  else (Ok tt, with_discovered (fun m =>
          match m !! addr with
          | Some p => <[addr := touch now p]> m
          | None => <[addr := DiscoveredPeer_new now addr source]> m
          end) d).

Fixpoint discovery_add_peers (now : Z) (peers : list SocketAddr) (source : PeerSource) (d : PeerDiscovery) :
    VResult Z * PeerDiscovery :=
  match peers with
  | [] => (Ok 0, d)
  | addr :: peers' =>
      let '(r, d1) := discovery_add_peer now addr source d in
      let '(n, d2) := discovery_add_peers now peers' source d1 in
      ((fun n => (if is_ok r then 1 else 0) + n) <$> n, d2)
  end.

Definition discovery_mark_connected (now : Z) (addr : SocketAddr) (d : PeerDiscovery) : VResult unit * PeerDiscovery :=
  (Ok tt, with_discovered (alter (touch now) addr) (with_connected (fun c => {[addr]} ∪ c) d)).
Definition discovery_mark_disconnected (addr : SocketAddr) (d : PeerDiscovery) : VResult unit * PeerDiscovery :=
  (Ok tt, with_connected (fun c => c ∖ {[addr]}) d).
Definition discovery_remove_peer (addr : SocketAddr) (d : PeerDiscovery) : VResult unit * PeerDiscovery :=
  (Ok tt, with_connected (fun c => c ∖ {[addr]}) (with_discovered (delete addr) d)).

Definition clean_stale_peers (now : Z) (d : PeerDiscovery) : VResult Z * PeerDiscovery :=
  let stale := (filter (fun kv => discovered_is_stale now (dc_stale_threshold (pd_config d)) kv.2 = true)
                  (map_to_list (pd_discovered_peers d))).*1 in
  (Ok (len stale), with_discovered (fun m => foldl (fun m a => delete a m) m stale) d).

(** One round of [discovery_loop]. *)
Definition discovery_round (now : Z) (d : PeerDiscovery) : PeerDiscovery :=
  if pd_running d then (clean_stale_peers now d).2 else d.

Definition get_discovered_peers (d : PeerDiscovery) : list DiscoveredPeer := (map_to_list (pd_discovered_peers d)).*2.
Definition connected_count (d : PeerDiscovery) : Z := Z.of_nat (size (pd_connected_peers d)).
Definition discovered_count (d : PeerDiscovery) : Z := Z.of_nat (size (pd_discovered_peers d)).
Definition request_peers (peer_id : PeerId) (d : PeerDiscovery) : VResult (list SocketAddr) := Ok [].
Definition handle_peer_list (now : Z) (peers : list SocketAddr) (d : PeerDiscovery) : VResult unit * PeerDiscovery :=
  let '(r, d') := discovery_add_peers now peers FromPeer d in ((fun _ => tt) <$> r, d').

Record DiscoveryStats := mkDiscoveryStats {
  ds_discovered_peers : Z;
  ds_connected_peers : Z;
  ds_bootstrap_peers : Z;
  ds_peer_discovered : Z;
  ds_manual_peers : Z
}.

Definition count_source (source : PeerSource) (d : PeerDiscovery) : Z :=
  len (filter (fun p => dp_source p = source) (get_discovered_peers d)).
Definition discovery_get_stats (d : PeerDiscovery) : DiscoveryStats :=
  mkDiscoveryStats (discovered_count d) (connected_count d) (count_source FromBootstrap d) (count_source FromPeer d)
    (count_source FromManual d).

(** ** Facts *)
Inductive discovery_step : PeerDiscovery -> PeerDiscovery -> Prop :=
| dstep_add now addr source d : discovery_step d (discovery_add_peer now addr source d).2
| dstep_list now addrs source d : discovery_step d (discovery_add_peers now addrs source d).2
| dstep_connected now addr d : discovery_step d (discovery_mark_connected now addr d).2
| dstep_disconnected addr d : discovery_step d (discovery_mark_disconnected addr d).2
| dstep_remove addr d : discovery_step d (discovery_remove_peer addr d).2
| dstep_round now d : discovery_step d (discovery_round now d)
| dstep_start d : discovery_step d (discovery_start d).2
| dstep_stop d : discovery_step d (discovery_stop d).2.

(** The entries are filed under their own addresses and there are at most [n] of them. *)
Record discovery_ok (config : DiscoveryConfig) (n : Z) (d : PeerDiscovery) : Prop := {
  dok_config : pd_config d = config;
  dok_addr : map_Forall (fun addr p => dp_addr p = addr) (pd_discovered_peers d);
  dok_size : Z.of_nat (size (pd_discovered_peers d)) <= n
}.

Lemma delete_all_lookup (l : list SocketAddr) (m : gmap SocketAddr DiscoveredPeer) a :
  foldl (fun m a => delete a m) m l !! a = if bool_decide (a ∈ l) then None else m !! a.
Proof.
  revert m. induction l as [|b l IH]; intros m; cbn; [done|]. rewrite IH. destruct (decide (a = b)) as [->|Hne].
  - rewrite (bool_decide_true (b ∈ b :: l)) by set_solver. rewrite lookup_delete_eq. by case_bool_decide.
  - rewrite lookup_delete_ne by done.
    rewrite (bool_decide_ext (a ∈ b :: l) (a ∈ l)) by set_solver. done.
Qed.

Lemma delete_all_submap (l : list SocketAddr) (m : gmap SocketAddr DiscoveredPeer) :
  foldl (fun m a => delete a m) m l ⊆ m.
Proof. apply map_subseteq_spec. intros a p. rewrite delete_all_lookup. by case_bool_decide. Qed.

Lemma discovery_ok_sub config n d m' :
  discovery_ok config n d -> m' ⊆ pd_discovered_peers d -> discovery_ok config n (with_discovered (fun _ => m') d).
Proof.
  intros [Hc Ha Hs] Hsub. split; cbn; [done| |].
  - intros a p Hp. by apply (Ha a), (lookup_weaken _ _ _ _ Hp).
  - apply map_subseteq_size in Hsub. lia.
Qed.

Lemma add_peer_ok config n d now addr source :
  discovery_ok config n d -> 0 <= dc_max_peers config < 2 ^ 63 -> 2 * dc_max_peers config <= n ->
  discovery_ok config n (discovery_add_peer now addr source d).2.
Proof.
  intros [Hc Ha Hs] Hm Hn. unfold discovery_add_peer. rewrite Hc.
  destruct (Z.leb_spec (u64_mul (dc_max_peers config) 2) (Z.of_nat (size (pd_discovered_peers d)))); [done|].
  unfold u64_mul in *. rewrite wrap_small in * by lia. cbn. split; cbn; [done| |].
  - destruct (pd_discovered_peers d !! addr) as [p|] eqn:E.
    + apply map_Forall_insert_2; [|done]. exact (Ha addr p E).
    + by apply map_Forall_insert_2.
  - destruct (pd_discovered_peers d !! addr) as [p|] eqn:E.
    + rewrite map_size_insert_Some by (by eexists). done.
    + rewrite map_size_insert_None by done. lia.
Qed.

Lemma add_peers_ok config n now addrs source d :
  0 <= dc_max_peers config < 2 ^ 63 -> 2 * dc_max_peers config <= n ->
  discovery_ok config n d -> discovery_ok config n (discovery_add_peers now addrs source d).2.
Proof.
  intros Hm Hn. revert d. induction addrs as [|a addrs IH]; intros d Hok; cbn; [done|].
  pose proof (add_peer_ok config n d now a source Hok Hm Hn) as H1.
  destruct (discovery_add_peer now a source d) as [r d1]. specialize (IH d1 H1).
  by destruct (discovery_add_peers now addrs source d1).
Qed.

Lemma discovery_step_ok config n d d' :
  0 <= dc_max_peers config < 2 ^ 63 -> 2 * dc_max_peers config <= n ->
  discovery_step d d' -> discovery_ok config n d -> discovery_ok config n d'.
Proof.
  intros Hm Hn Hstep Hok. destruct Hstep as [now addr source d|now addrs source d|now addr d|addr d|addr d|now d|d|d].
  - by apply add_peer_ok.
  - by apply add_peers_ok.
  - destruct Hok as [Hc Ha Hs]. split; cbn; [done| |by rewrite <- size_dom, dom_alter_L, size_dom].
    intros a p Hp. apply lookup_alter_Some in Hp as [(-> & q & Hq & ->)|[_ Hq]]; by apply Ha in Hq.
  - by destruct Hok.
  - apply (discovery_ok_sub config n d) with (m' := delete addr (pd_discovered_peers d)) in Hok as []; [done|].
    apply delete_subseteq.
  - unfold discovery_round. destruct (pd_running d); [|done].
    by apply (discovery_ok_sub config n d _ Hok (delete_all_submap _ _)).
  - unfold discovery_start. destruct (pd_running d); [done|]. by destruct Hok.
  - by destruct Hok.
Qed.

Lemma new_ok now config :
  discovery_ok config (len (dc_bootstrap_peers config)) (PeerDiscovery_new now config).
Proof.
  unfold PeerDiscovery_new.
  enough (forall (l : list SocketAddr) (m : gmap SocketAddr DiscoveredPeer), map_Forall (fun addr p => dp_addr p = addr) m ->
    map_Forall (fun addr p => dp_addr p = addr) (foldl (fun m addr => <[addr := DiscoveredPeer_new now addr FromBootstrap]> m) m l) /\
    (size (foldl (fun m addr => <[addr := DiscoveredPeer_new now addr FromBootstrap]> m) m l) <= size m + length l)%nat) as Hg.
  { destruct (Hg (dc_bootstrap_peers config) ∅) as [H1 H2]; [apply map_Forall_empty|]. split; cbn; [done..|].
    unfold len. rewrite map_size_empty in H2. lia. }
  induction l as [|a l IH]; intros m Hm; cbn; [split; [done|lia]|].
  destruct (IH (<[a := DiscoveredPeer_new now a FromBootstrap]> m)) as [H1 H2]; [by apply map_Forall_insert_2|].
  split; [done|]. assert (size (<[a := DiscoveredPeer_new now a FromBootstrap]> m) <= S (size m))%nat; [|lia].
  rewrite map_size_insert. destruct (m !! a); unfold id; lia.
Qed.

(** Whatever is announced, connected, removed or cleaned, the table holds at most twice
    max_peers addresses (or the bootstrap peers, if they are more), each filed under its
    own address; the candidates of a round are known, not connected and not stale, and no
    more than the free slots. *)
Theorem discovery_bounded (now0 : Z) (config : DiscoveryConfig) (d : PeerDiscovery) (now : Z) :
  0 <= dc_max_peers config < 2 ^ 63 -> rtc discovery_step (PeerDiscovery_new now0 config) d ->
  discovered_count d <= Z.max (2 * dc_max_peers config) (len (dc_bootstrap_peers config)) /\
  map_Forall (fun addr p => dp_addr p = addr) (pd_discovered_peers d) /\
  match discover_peers now d with
  | Ok (Some candidates) =>
      len candidates + connected_count d <= dc_max_peers config /\ NoDup candidates /\
      Forall (fun a => (a ∉ pd_connected_peers d) /\ exists p, pd_discovered_peers d !! a = Some p /\
                       discovered_is_stale now (dc_stale_threshold config) p = false) candidates
  | Ok None => dc_max_peers config <= connected_count d
  | _ => False
  end.
Proof.
  intros Hm Hr. set (n := Z.max (2 * dc_max_peers config) (len (dc_bootstrap_peers config))).
  assert (discovery_ok config n d) as [Hc Ha Hs].
  { apply (rtc_invariant _ (discovery_ok config n) _ _) in Hr; [done|..].
    - intros a b Hab. apply discovery_step_ok; [done|lia|done].
    - destruct (new_ok now0 config) as [? ? ?]. split; [done..|lia]. }
  split_and!; [done..|]. unfold discover_peers. rewrite Hc. fold (connected_count d).
  destruct (Z.leb_spec (dc_max_peers config) (connected_count d)); [done|].
  unfold get_discovery_candidates. rewrite Hc. set (l := filter _ (map_to_list _)). split_and!.
  - unfold len. rewrite length_fmap, length_take. lia.
  - assert (NoDup l.*1) as Hnd by (unfold l; apply (sublist_NoDup _ (map_to_list (pd_discovered_peers d)).*1); [apply NoDup_fst_map_to_list|apply fmap_sublist, sublist_filter]).
    apply (sublist_NoDup _ l.*1 Hnd). apply fmap_sublist, sublist_take.
  - apply Forall_fmap, Forall_forall. intros [a p] Hin. apply subseteq_take in Hin.
    apply list_elem_of_filter in Hin as [[Hn Hst] Hin]. apply elem_of_map_to_list in Hin. cbn in *. split; [done|]. by exists p.
Qed.

(** In a full table an address that is already known is refused as well: its last-seen
    time is not renewed, and the next cleaning after the threshold drops the peer. *)
Theorem full_table_refuses_refresh (now now' : Z) (addr : SocketAddr) (source : PeerSource) (d : PeerDiscovery) (p : DiscoveredPeer) :
  0 <= dc_max_peers (pd_config d) < 2 ^ 63 -> 2 * dc_max_peers (pd_config d) <= discovered_count d ->
  pd_discovered_peers d !! addr = Some p -> dp_last_seen p + dc_stale_threshold (pd_config d) < now' ->
  0 <= dc_stale_threshold (pd_config d) ->
  let d1 := (discovery_add_peer now addr source d).2 in
  d1 = d /\ pd_discovered_peers (clean_stale_peers now' d1).2 !! addr = None.
Proof.
  intros Hm Hfull Hp Hold Hth. unfold discovery_add_peer, u64_mul. rewrite wrap_small by lia.
  rewrite (proj2 (Z.leb_le _ _)) by (unfold discovered_count in Hfull; lia). cbn. split; [done|].
  rewrite delete_all_lookup, bool_decide_true; [done|]. apply list_elem_of_fmap. exists (addr, p). split; [done|].
  apply list_elem_of_filter. split; [|by apply elem_of_map_to_list]. cbn. unfold discovered_is_stale, u64_saturating_sub.
  apply Z.ltb_lt. lia.
Qed.
