(* ===== verification/Transport.v ===== *)
(** * Transport: crates/network/src/transport.rs

    Length-prefixed messages on TCP connections, the listener's state, and the frame
    format.  [tokio]'s TCP is the class [Tcp]: a stream [T] with its operations; a read is
    bounded by a timeout.  The accept loop is modelled by its rounds. *)
From stdpp Require Import prelude gmap strings list.
From Stdlib Require Import Strings.Byte.
From S2P Require Import Prelude Types Protocol Peer.

Local Open Scope Z_scope.

(** [u32::to_be_bytes] and [u32::from_be_bytes]. *)
Definition u32_be (z : Z) : list byte := rev (u32_le z).
Definition be_val (l : list byte) : Z := le_val (rev l).

Arguments u32_be : simpl never.
Arguments be_val : simpl never.

Lemma length_u32_be z : length (u32_be z) = 4%nat.
Proof. unfold u32_be. by rewrite length_rev, length_u32_le. Qed.
Lemma be_val_u32 z : is_u32 z -> be_val (u32_be z) = z.
Proof. intros. unfold be_val, u32_be. rewrite rev_involutive. by apply le_val_u32. Qed.

(** ** Frames *)
Record MessageFrame := mkMessageFrame {
  fr_version : byte;
  fr_flags : byte;
  fr_payload_length : Z;
  fr_payload : list byte
}.

Definition FRAME_VERSION : byte := x01.

Definition MessageFrame_new (payload : list byte) : MessageFrame :=
  mkMessageFrame FRAME_VERSION x00 (wrap 32 (len payload)) payload.

Definition frame_encode (f : MessageFrame) : list byte :=
  [fr_version f; fr_flags f] ++ u32_be (fr_payload_length f) ++ fr_payload f.

Definition frame_decode (data : list byte) : VResult MessageFrame :=
  _ ← ensure (negb (len data <? 6)) (NetworkError "Frame too short");
  version ← unwrap (data !! 0%nat);
  _ ← ensure (bool_decide (version = FRAME_VERSION)) (NetworkError "Unsupported protocol version");
  flags ← unwrap (data !! 1%nat);
  let payload_length := be_val (take 4 (drop 2 data)) in
  _ ← ensure (negb (len data <? 6 + payload_length)) (NetworkError "Incomplete frame");
  Ok (mkMessageFrame version flags payload_length (take (Z.to_nat payload_length) (drop 6 data))).

(** ** Streams *)
Inductive ReadError := ReadTimeout | ReadFailed (e : string).

Class Tcp (T : Type) := {
  tcp_write_all : list byte -> stM string T unit;
  tcp_flush : stM string T unit;
  tcp_read_exact : Z -> nat -> stM ReadError T (list byte);
  tcp_shutdown : stM string T unit;
  tcp_bind : SocketAddr -> option string;
  tcp_connect : Z -> SocketAddr -> T + ReadError
}.

Record Connection (T : Type) := mkConnection {
  cn_stream : T;
  cn_addr : SocketAddr;
  cn_direction : ConnectionDirection;
  cn_timeout : Z;
  cn_max_message_size : Z
}.
Arguments mkConnection {T}.
Arguments cn_stream {T}.
Arguments cn_addr {T}.
Arguments cn_direction {T}.
Arguments cn_timeout {T}.
Arguments cn_max_message_size {T}.

Definition set_stream {T : Type} (t : T) (c : Connection T) : Connection T :=
  mkConnection t (cn_addr c) (cn_direction c) (cn_timeout c) (cn_max_message_size c).

(** A call on the stream; [err] makes the error of the failure. *)
Definition on_stream {T E A : Type} (err : E -> VotingError) (m : stM E T A) : VStM (Connection T) A := fun c =>
  match m (cn_stream c) with
  | (Ok a, t) => (Ok a, set_stream t c)
  | (Err e, t) => (Err (err e), set_stream t c)
  | (Panic, t) => (Panic, set_stream t c)
  end.

Definition network_error (prefix e : string) : VotingError := NetworkError (prefix ++ e).
Definition read_error (prefix : string) (e : ReadError) : VotingError :=
  match e with ReadTimeout => NetworkError "Read timeout" | ReadFailed e => NetworkError (prefix ++ e) end.

Section connection.
Context {T : Type} `{Tcp T, !Bincode Message}.

Definition encode_message (m : Message) : VResult (list byte) := map_err SerializationError (bincode_encode m).
Definition decode_message (data : list byte) : VResult Message := map_err DeserializationError (bincode_decode data).

Definition send_message (m : Message) : VStM (Connection T) unit :=
  self ← get;
  data ← lift (encode_message m);
  _ ← lift (ensure (negb (cn_max_message_size self <? len data)) (NetworkError "Message exceeds maximum size"));
  _ ← on_stream (network_error "Failed to write length: ") (tcp_write_all (u32_be (wrap 32 (len data))));
  _ ← on_stream (network_error "Failed to write message: ") (tcp_write_all data);
  on_stream (network_error "Failed to flush: ") tcp_flush.

Definition receive_message : VStM (Connection T) Message :=
  self ← get;
  len_bytes ← on_stream (read_error "Failed to read length: ") (tcp_read_exact (cn_timeout self) 4);
  let n := be_val len_bytes in
  _ ← lift (ensure (negb (cn_max_message_size self <? n)) (NetworkError "Message exceeds maximum size"));
  data ← on_stream (read_error "Failed to read message: ") (tcp_read_exact (cn_timeout self) (Z.to_nat n));
  lift (decode_message data).

Definition connection_close : VStM (Connection T) unit := on_stream (network_error "Failed to shutdown: ") tcp_shutdown.

(** ** The transport *)
Record TransportConfig := mkTransportConfig {
  tc_listen_addr : SocketAddr;
  tc_connection_timeout : Z;
  tc_max_message_size : Z;
  tc_rate_limit : Z
}.

Definition any_addr (port : Z) : SocketAddr := SocketV4 (array_fill 4 x00) port.
Definition TransportConfig_default : TransportConfig := mkTransportConfig (any_addr 9000) 30 (10 * 1024 * 1024) 100.

(** [tr_shutdown] is the pending signal of [shutdown_tx]. *)
Record Transport := mkTransport {
  tr_config : TransportConfig;
  tr_listening : bool;
  tr_connections : list (Connection T);
  tr_started : bool;
  tr_shutdown : bool
}.

Definition Transport_new (config : TransportConfig) : VResult Transport := Ok (mkTransport config false [] false false).

Definition transport_start (t : Transport) : VResult unit * Transport :=
  match tcp_bind (tc_listen_addr (tr_config t)) with
  | Some e => (Err (NetworkError ("Failed to bind listener: " ++ e)), t)
  | None => (Ok tt, mkTransport (tr_config t) true (tr_connections t) true false)
  end.

(** [stop]: signal the accept loop, drop the listener, close and drop the connections. *)
Definition transport_stop (t : Transport) : VResult unit * Transport :=
  (Ok tt, mkTransport (tr_config t) false [] false (tr_started t)).

Definition new_connection (t : Transport) (stream : T) (addr : SocketAddr) (direction : ConnectionDirection) : Connection T :=
  mkConnection stream addr direction (tc_connection_timeout (tr_config t)) (tc_max_message_size (tr_config t)).
Definition push_connection (c : Connection T) (t : Transport) : Transport :=
  mkTransport (tr_config t) (tr_listening t) (tr_connections t ++ [c]) (tr_started t) (tr_shutdown t).

Definition handle_inbound_connection (stream : T) (addr : SocketAddr) (t : Transport) : VResult unit * Transport :=
  (Ok tt, push_connection (new_connection t stream addr Inbound) t).

(** One round of [accept_loop]; [None] when it ends. *)
Inductive AcceptEvent := Accepted (stream : T) (addr : SocketAddr) | AcceptError (e : string) | AcceptTimeout.

Definition accept_round (ev : AcceptEvent) (t : Transport) : option Transport :=
  if tr_shutdown t then None
  else if negb (tr_listening t) then Some t
  else match ev with
       | Accepted stream addr => Some (handle_inbound_connection stream addr t).2
       | _ => Some t
       end.

(** [connect]; [random] is the generator's peer id. *)
Definition transport_connect (now : Z) (random : array 32) (addr : SocketAddr) (t : Transport) : VResult Peer * Transport :=
  match tcp_connect (tc_connection_timeout (tr_config t)) addr with
  | inr ReadTimeout => (Err (NetworkError "Connection timeout"), t)
  | inr (ReadFailed e) => (Err (NetworkError ("Failed to connect: " ++ e)), t)
  | inl stream =>
      (Ok (mark_connected now (Peer_new now (PeerId_random random) addr Outbound 1 "voting-network")),
       push_connection (new_connection t stream addr Outbound) t)
  end.

Definition connection_count (t : Transport) : Z := len (tr_connections t).

Record TransportStats := mkTransportStats {
  trs_total_connections : Z;
  trs_inbound_connections : Z;
  trs_outbound_connections : Z;
  trs_bytes_sent : Z;
  trs_bytes_received : Z
}.

Definition transport_get_stats (t : Transport) : TransportStats :=
  let inbound := len (filter (fun c => cn_direction c = Inbound) (tr_connections t)) in
  mkTransportStats (len (tr_connections t)) inbound (len (tr_connections t) - inbound) 0 0.
End connection.

Arguments Transport : clear implicits.

(** ** Facts *)
Lemma app_split2 (l : list byte) : 6 <= len l -> exists v f b0 b1 b2 b3 rest, l = v :: f :: [b0; b1; b2; b3] ++ rest.
Proof.
  unfold len. destruct l as [|v [|f [|b0 [|b1 [|b2 [|b3 rest]]]]]]; cbn; [lia..|]. intros _.
  by exists v, f, b0, b1, b2, b3, rest.
Qed.

Lemma be_val_range b0 b1 b2 b3 : 0 <= be_val [b0; b1; b2; b3] < 2 ^ 32.
Proof. unfold be_val. cbn. pose proof byte_val_range. pose proof (H b0). pose proof (H b1). pose proof (H b2). pose proof (H b3). lia. Qed.

Lemma be_val_inj4 b0 b1 b2 b3 : u32_be (be_val [b0; b1; b2; b3]) = [b0; b1; b2; b3].
Proof.
  unfold u32_be, be_val. cbn [rev app]. enough (u32_le (le_val [b3; b2; b1; b0]) = [b3; b2; b1; b0]) as -> by done.
  unfold u32_le. cbn. pose proof (byte_val_range b0). pose proof (byte_val_range b1). pose proof (byte_val_range b2).
  pose proof (byte_val_range b3).
  assert (forall b x, byte_of_Z (byte_val b + 256 * x) = b) as Hb.
  { intros b x. apply byte_val_inj. rewrite byte_val_of_Z. rewrite Z.mul_comm, Z.mod_add by lia.
    apply Z.mod_small, byte_val_range. }
  assert (forall b x, (byte_val b + 256 * x) / 256 = x) as Hd.
  { intros b x. rewrite Z.mul_comm, Z.div_add by lia. rewrite Z.div_small by apply byte_val_range. done. }
  by rewrite Hb, Hd, Hb, Hd, Hb, Hd, Hb.
Qed.


(** Documented behaviour of a TCP stream: what is written is appended to the bytes on the
    way to the other end; an exact read of [n] bytes that succeeds takes the first [n]. *)
Class TcpSpec (T : Type) `{Tcp T} := {
  tcp_sent : T -> list byte;
  tcp_incoming : T -> list byte;
  tcp_write_ok : forall bs t t', tcp_write_all bs t = (Ok tt, t') -> tcp_sent t' = tcp_sent t ++ bs;
  tcp_flush_ok : forall t t', tcp_flush t = (Ok tt, t') -> tcp_sent t' = tcp_sent t;
  tcp_read_ok : forall to n bs t t', tcp_read_exact to n t = (Ok bs, t') ->
    tcp_incoming t = bs ++ tcp_incoming t' /\ length bs = n
}.

Section delivery.
Context {T : Type} `{TcpSpec T, !Bincode Message, !BincodeSpec Message}.

Lemma on_stream_Ok {E A : Type} (err : E -> VotingError) (m : stM E T A) c a c' :
  on_stream err m c = (Ok a, c') -> m (cn_stream c) = (Ok a, cn_stream c') /\ c' = set_stream (cn_stream c') c.
Proof. unfold on_stream. destruct (m (cn_stream c)) as [[] t]; intros [= <- <-]; done. Qed.

Lemma send_message_sent m c c' :
  send_message m c = (Ok tt, c') -> exists data, encode_message m = Ok data /\ len data <= cn_max_message_size c /\
    tcp_sent (cn_stream c') = tcp_sent (cn_stream c) ++ u32_be (wrap 32 (len data)) ++ data.
Proof.
  unfold send_message. unfold_st. destruct (encode_message m) as [data| |]; cbn; [|done..].
  destruct (Z.ltb_spec (cn_max_message_size c) (len data)); cbn; [done|].
  destruct (on_stream _ (tcp_write_all (u32_be _)) c) as [[[]| |] c1] eqn:E1; [|done..].
  destruct (on_stream _ (tcp_write_all data) c1) as [[[]| |] c2] eqn:E2; [|done..]. intros E3.
  apply on_stream_Ok in E1 as [E1 _], E2 as [E2 _], E3 as [E3 _].
  apply tcp_write_ok in E1, E2. apply tcp_flush_ok in E3. exists data. split; [done|]. split; [done|].
  by rewrite E3, E2, E1, <- app_assoc.
Qed.

Lemma receive_message_read m c c' :
  receive_message c = (Ok m, c') -> exists len_bytes data rest,
    tcp_incoming (cn_stream c) = len_bytes ++ data ++ rest /\ length len_bytes = 4%nat /\
    length data = Z.to_nat (be_val len_bytes) /\ decode_message data = Ok m /\ tcp_incoming (cn_stream c') = rest.
Proof.
  unfold receive_message. unfold_st.
  destruct (on_stream _ (tcp_read_exact _ 4) c) as [[lb| |] c1] eqn:E1; [|done..].
  destruct (Z.ltb_spec (cn_max_message_size c) (be_val lb)); cbn; [done|].
  destruct (on_stream _ (tcp_read_exact _ _) c1) as [[data| |] c2] eqn:E2; [|done..]. intros [= E3 <-].
  apply on_stream_Ok in E1 as [E1 _], E2 as [E2 _]. apply tcp_read_ok in E1 as [E1 L1], E2 as [E2 L2].
  exists lb, data, (tcp_incoming (cn_stream c2)). by rewrite E1, E2.
Qed.

(** A message sent on one end of a connection and received on the other, with the bytes
    in between as TCP delivers them, is the message that was sent, for every message whose
    encoding is within the limit and shorter than 2^32 bytes; the bytes that follow it stay
    in the stream. *)
Theorem message_delivery (m m' : Message) (sender sender' receiver receiver' : Connection T) (before after : list byte) :
  send_message m sender = (Ok tt, sender') -> tcp_sent (cn_stream sender) = before ->
  before ++ tcp_incoming (cn_stream receiver) = tcp_sent (cn_stream sender') ++ after ->
  cn_max_message_size sender < 2 ^ 32 ->
  receive_message receiver = (Ok m', receiver') ->
  m' = m /\ tcp_incoming (cn_stream receiver') = after.
Proof.
  intros Hs Hb Hw Hmax Hr. apply send_message_sent in Hs as (data & Hd & Hle & Hsent).
  apply receive_message_read in Hr as (lb & data' & rest & Hin & L1 & L2 & Hd' & Hrest).
  rewrite Hsent, Hb, <- !app_assoc, Hin in Hw. apply app_inv_head in Hw.
  apply app_inj_len in Hw as [-> Hw]; [|by rewrite L1, length_u32_be].
  pose proof (len_nonneg data). rewrite wrap_small, be_val_u32 in L2 by (unfold is_u32; lia).
  apply app_inj_len in Hw as [-> Hw]; [|rewrite L2; unfold len; lia].
  split; [|congruence]. unfold encode_message, decode_message in *.
  destruct (bincode_encode m) as [d|] eqn:E; cbn in Hd; [|done]. injection Hd as ->.
  rewrite (bincode_decode_encode m data E) in Hd'. cbn in Hd'. congruence.
Qed.
End delivery.
