(* ===== verification/Network.v ===== *)
(** * The network manager: crates/network/src/lib.rs

    Owns the transport, the peers and the discovery, gossip, synchronisation and protocol
    components and composes their operations.  The peers' vector is shared with gossip and
    synchronisation.  The clock [now] and the generator (peer ids, seeds, nonces) are
    arguments. *)
From stdpp Require Import prelude gmap strings list.
From Stdlib Require Import Strings.Byte.
From S2P Require Import Prelude Types Merkle Transaction Block Protocol Peer Gossip BlockSync Discovery Transport.

Local Open Scope Z_scope.

Record NetworkConfig := mkNetworkConfig {
  nc_listen_addr : SocketAddr;
  nc_bootstrap_peers : list SocketAddr;
  nc_max_peers : Z;
  nc_max_inbound : Z;
  nc_max_outbound : Z;
  nc_connection_timeout : Z;
  nc_enable_discovery : bool;
  nc_discovery_interval : Z;
  nc_network_id : string;
  nc_protocol_version : Z;
  nc_enable_gossip : bool;
  nc_gossip_fanout : Z;
  nc_sync_batch_size : Z;
  nc_max_message_size : Z;
  nc_rate_limit : Z
}.

Definition NetworkConfig_default : NetworkConfig :=
  mkNetworkConfig (any_addr 9000) [] 50 25 25 30 true 60 "voting-mainnet" 1 true 4 100 (10 * 1024 * 1024) 100.

Record NetworkStats := mkNetworkStats {
  ns_peer_count : Z;
  ns_inbound_count : Z;
  ns_outbound_count : Z;
  ns_messages_sent : Z;
  ns_messages_received : Z;
  ns_bytes_sent : Z;
  ns_bytes_received : Z
}.

Section network.
Context {T : Type} `{Tcp T, HashCrate, ShuffleCrate, ChooseCrate, !Bincode HandshakeInfo, !Bincode PeerList,
  !Bincode BlockRequest, !Bincode BlockResponse, !Bincode Block, !Bincode TransactionRequest,
  !Bincode TransactionResponse, !Bincode Transaction, !Bincode StatusInfo, !Bincode DisconnectReason,
  !Bincode BlockAnnouncement, !Bincode TransactionAnnouncement, !Bincode Message}.

Record NetworkManager := mkNetworkManager {
  nm_config : NetworkConfig;
  nm_transport : Transport T;
  nm_peers : list Peer;
  nm_discovery : PeerDiscovery;
  nm_gossip : GossipProtocol;
  nm_sync : BlockSync;
  nm_protocol : ProtocolHandler
}.

Definition NetworkManager_new (now : Z) (config : NetworkConfig) : VResult NetworkManager :=
  transport ← Transport_new (mkTransportConfig (nc_listen_addr config) (nc_connection_timeout config)
                               (nc_max_message_size config) (nc_rate_limit config));
  let discovery := PeerDiscovery_new now
    (mkDiscoveryConfig (nc_bootstrap_peers config) (nc_discovery_interval config) (nc_max_peers config) 20 300 3600) in
  Ok (mkNetworkManager config transport [] discovery (GossipProtocol_new (nc_gossip_fanout config))
        (BlockSync_new (nc_sync_batch_size config))
        (mkProtocolHandler (nc_network_id config) (nc_protocol_version config))).

(** ** Updates of one component *)
Definition set_peers (ps : list Peer) (n : NetworkManager) : NetworkManager :=
  mkNetworkManager (nm_config n) (nm_transport n) ps (nm_discovery n) (nm_gossip n) (nm_sync n) (nm_protocol n).
Definition on_transport {A : Type} (m : VStM (Transport T) A) : VStM NetworkManager A := fun n =>
  let '(r, t) := m (nm_transport n) in
  (r, mkNetworkManager (nm_config n) t (nm_peers n) (nm_discovery n) (nm_gossip n) (nm_sync n) (nm_protocol n)).
Definition on_discovery {A : Type} (m : VStM PeerDiscovery A) : VStM NetworkManager A := fun n =>
  let '(r, d) := m (nm_discovery n) in
  (r, mkNetworkManager (nm_config n) (nm_transport n) (nm_peers n) d (nm_gossip n) (nm_sync n) (nm_protocol n)).
Definition on_gossip {A : Type} (m : VStM (GossipProtocol * list Peer) A) : VStM NetworkManager A := fun n =>
  let '(r, (g, ps)) := m (nm_gossip n, nm_peers n) in
  (r, mkNetworkManager (nm_config n) (nm_transport n) ps (nm_discovery n) g (nm_sync n) (nm_protocol n)).
Definition on_sync {A : Type} (m : VStM BlockSync A) : VStM NetworkManager A := fun n =>
  let '(r, s) := m (nm_sync n) in
  (r, mkNetworkManager (nm_config n) (nm_transport n) (nm_peers n) (nm_discovery n) (nm_gossip n) s (nm_protocol n)).

(** The parts of the protocol that do not touch the peers. *)
Definition on_gossip_state {A : Type} (m : VStM GossipProtocol A) : VStM NetworkManager A :=
  on_gossip (fun '(g, ps) => let '(r, g') := m g in (r, (g', ps))).

(** ** Connections *)
Definition connect_peer (now : Z) (random : array 32) (addr : SocketAddr) : VStM NetworkManager PeerId :=
  self ← get;
  _ ← lift (ensure (negb (nc_max_peers (nm_config self) <=? len (nm_peers self)))
              (NetworkError "Maximum peer count reached"));
  peer ← on_transport (transport_connect now random addr);
  _ ← modify (fun n => set_peers (nm_peers n ++ [peer]) n);
  mret (p_id peer).

(** The first peer with the id is removed and disconnected. *)
Definition disconnect_peer (peer_id : PeerId) : VStM NetworkManager unit :=
  modify (fun n => set_peers (remove_first (has_id peer_id) (nm_peers n)) n).

Fixpoint connect_all (now : Z) (random : nat -> array 32) (k : nat) (addrs : list SocketAddr) : VStM NetworkManager unit :=
  match addrs with
  | [] => mret tt
  | addr :: addrs' => _ ← connect_peer now (random k) addr; connect_all now random (S k) addrs'
  end.

Definition network_start (now : Z) (random : nat -> array 32) : VStM NetworkManager unit :=
  self ← get;
  _ ← on_transport transport_start;
  _ ← (if nc_enable_discovery (nm_config self) then on_discovery discovery_start else mret tt);
  _ ← (if nc_enable_gossip (nm_config self) then on_gossip_state gossip_start else mret tt);
  _ ← on_sync sync_start;
  connect_all now random 0 (nc_bootstrap_peers (nm_config self)).

Definition network_stop : VStM NetworkManager unit :=
  _ ← on_sync sync_stop;
  _ ← on_gossip_state gossip_stop;
  _ ← on_discovery discovery_stop;
  _ ← on_transport transport_stop;
  modify (set_peers []).

(** ** Messages *)
Definition get_peers (n : NetworkManager) : list PeerInfo := p_info <$> nm_peers n.
Definition network_peer_count (n : NetworkManager) : Z := len (nm_peers n).

(** The loop of [broadcast]. *)
Fixpoint broadcast_loop (now : Z) (m : Message) (peers : list Peer) : Z * list Peer :=
  match peers with
  | [] => (0, [])
  | p :: peers' =>
      let '(n, rest) := broadcast_loop now m peers' in
      if is_connected p then
        let '(r, p') := peer_send now m p in ((if is_ok r then 1 else 0) + n, p' :: rest)
      else (n, p :: rest)
  end.

Definition broadcast (now : Z) (m : Message) : VStM NetworkManager Z := fun n =>
  let '(sent_count, ps) := broadcast_loop now m (nm_peers n) in (Ok sent_count, set_peers ps n).

Fixpoint update_first (f : Peer -> bool) (g : Peer -> Peer) (l : list Peer) : option (list Peer) :=
  match l with
  | [] => None
  | p :: l' => if f p then Some (g p :: l') else (cons p) <$> update_first f g l'
  end.

Definition send_to_peer (now : Z) (peer_id : PeerId) (m : Message) : VStM NetworkManager unit := fun n =>
  match update_first (has_id peer_id) (fun p => (peer_send now m p).2) (nm_peers n) with
  | Some ps => (Ok tt, set_peers ps n)
  | None => (Err (NetworkError "Peer not found"), n)
  end.

Definition network_gossip (now : Z) (seed : nat) (nonce : nat -> Z) (m : GossipMessage) : VStM NetworkManager Z :=
  on_gossip (gossip now seed nonce m).

Definition sync_blocks (fuel : nat) (now : Z) (nonce : nat -> Z) (seed : nat -> nat) (first last : Z)
    (n : NetworkManager) : option (VResult unit * NetworkManager) :=
  '(r, (s, ps)) ← request_blocks fuel now nonce seed first last (nm_sync n, nm_peers n);
  Some (r, mkNetworkManager (nm_config n) (nm_transport n) ps (nm_discovery n) (nm_gossip n) s (nm_protocol n)).

Definition network_sync_status (now : Z) (n : NetworkManager) : SyncStatus := sync_status now (nm_sync n).
Definition network_handle_message (peer_id : PeerId) (m : Message) (n : NetworkManager) : VResult unit :=
  protocol_handle (nm_protocol n) peer_id m.
Definition network_get_stats (n : NetworkManager) : NetworkStats := mkNetworkStats 0 0 0 0 0 0 0.

(** ** Facts *)

(** A broadcast reaches exactly the connected peers and returns their number. *)
Lemma broadcast_spec now m peers :
  broadcast_loop now m peers =
    (len (filter (fun p => is_connected p = true) peers),
     (fun p => if is_connected p then (peer_send now m p).2 else p) <$> peers).
Proof.
  induction peers as [|p peers IH]; [done|]. cbn [broadcast_loop fmap list_fmap]. rewrite IH, filter_cons.
  unfold len. destruct (is_connected p); case_decide; try done; cbn [length]; f_equal; cbn; lia.
Qed.

Lemma connect_peer_outcome now random addr n :
  match connect_peer now random addr n with
  | (Ok id, n') => len (nm_peers n) < nc_max_peers (nm_config n) /\ nm_config n' = nm_config n /\
      (exists p, nm_peers n' = nm_peers n ++ [p] /\ p_id p = id /\ id = mkPeerId random /\ is_connected p = true) /\
      connection_count (nm_transport n') = connection_count (nm_transport n) + 1
  | (Err _, n') => n' = n
  | (Panic, _) => False
  end.
Proof.
  unfold connect_peer. unfold_st. destruct (Z.leb_spec (nc_max_peers (nm_config n)) (len (nm_peers n))); cbn; [done|].
  unfold on_transport, transport_connect. destruct (tcp_connect _ addr) as [stream|[|e]]; cbn; [|by destruct n..].
  split_and!; [done..|by eexists|]. unfold connection_count. cbn. by rewrite len_app.
Qed.

Lemma remove_first_snoc f l (p : Peer) :
  (forall q, q ∈ l -> f q = false) -> f p = true -> remove_first f (l ++ [p]) = l.
Proof.
  intros Hl Hp. induction l as [|q l IH]; cbn; [by rewrite Hp|].
  rewrite (Hl q) by left. f_equal. apply IH. intros r Hr. apply Hl. by right.
Qed.

(** A connection attempt beyond max_peers fails and changes nothing; below it, it adds
    one connected peer.  Disconnecting that peer removes it from the peers, but its
    connection stays in the transport: connecting and disconnecting leaks connections. *)
Theorem disconnect_leaks_connection (now : Z) (random : array 32) (addr : SocketAddr) (n : NetworkManager) :
  (nc_max_peers (nm_config n) <= len (nm_peers n) ->
   connect_peer now random addr n = (Err (NetworkError "Maximum peer count reached"), n)) /\
  (forall id n1, connect_peer now random addr n = (Ok id, n1) -> (forall p, p ∈ nm_peers n -> p_id p <> id) ->
     let n2 := (disconnect_peer id n1).2 in
     network_peer_count n1 = network_peer_count n + 1 /\ network_peer_count n1 <= nc_max_peers (nm_config n) /\
     nm_peers n2 = nm_peers n /\
     connection_count (nm_transport n2) = connection_count (nm_transport n) + 1).
Proof.
  split.
  - intros Hle. unfold connect_peer. unfold_st. by rewrite (proj2 (Z.leb_le _ _) Hle).
  - intros id n1 E Hfresh. pose proof (connect_peer_outcome now random addr n) as Ho. rewrite E in Ho.
    destruct Ho as (Hlt & _ & (p & Hp & Hid & _) & Hc). cbn. unfold network_peer_count. rewrite Hp, len_app.
    split_and!; [done|unfold len in *; cbn; lia| |done]. apply remove_first_snoc.
    + intros q Hq. unfold has_id. apply bool_decide_eq_false. by apply Hfresh.
    + unfold has_id. by apply bool_decide_eq_true.
Qed.
End network.
