(* ===== verification/RangeProof.v ===== *)
(** * Zero-knowledge helpers and range proofs: crates/crypto/src/zkp/mod.rs, zkp/range_proof.rs

    The proof containers and statistics of zkp/mod.rs that the voting code does not use, and
    the range proofs.  [bincode] is the class [Bincode] at the proof types; random bytes are
    arguments. *)
From stdpp Require Import prelude gmap strings list pretty.
From Stdlib Require Import Strings.Byte.
From S2P Require Import Prelude Floats64 Types Merkle Crypto.

Local Open Scope Z_scope.

(** ** zkp/mod.rs *)
Inductive ProofType := PBallotValidity | PRangeProof | PEligibilityProof | PCommitmentProof | PDecryptionProof.

Definition ProofType_display (t : ProofType) : string :=
  match t with
  | PBallotValidity => "ballot_validity"
  | PRangeProof => "range_proof"
  | PEligibilityProof => "eligibility_proof"
  | PCommitmentProof => "commitment_proof"
  | PDecryptionProof => "decryption_proof"
  end.

Record ZkProof := mkZkProof {
  zk_proof_type : ProofType;
  zk_proof_data : list byte;
  zk_public_inputs : list byte
}.

Definition ZkProof_new (t : ProofType) (proof_data public_inputs : list byte) : ZkProof := mkZkProof t proof_data public_inputs.
Definition ZkProof_size (p : ZkProof) : Z := u64_add (len (zk_proof_data p)) (len (zk_public_inputs p)).
Definition ZkProof_to_bytes `{Bincode ZkProof} (p : ZkProof) : VResult (list byte) :=
  match bincode_encode p with inl d => Ok d | inr _ => Panic end.
Definition ZkProof_from_bytes `{Bincode ZkProof} (bytes : list byte) : VResult ZkProof :=
  map_err (fun e => CryptoError ("Failed to deserialize proof: " ++ e)) (bincode_decode bytes).

Record ProofParams := mkProofParams { pp_security_bits : Z; pp_max_proof_size : Z; pp_optimize : bool }.
Definition ProofParams_default : ProofParams := mkProofParams 128 (10 * 1024) true.

Record ProofStats := mkProofStats {
  pr_proofs_generated : Z;
  pr_proofs_verified : Z;
  pr_verification_failures : Z;
  pr_avg_proof_size : Z;
  pr_avg_verification_time_ms : Z
}.
Definition ProofStats_new : ProofStats := mkProofStats 0 0 0 0 0.

(** The running average [(avg * (n - 1) + x) / n] on 64-bit integers; a zero count panics. *)
Definition running_average (avg n x : Z) : VResult Z :=
  if n =? 0 then Panic else Ok (u64_add (u64_mul avg (n - 1)) x / n).

Definition record_generation (proof_size : Z) (s : ProofStats) : VResult ProofStats :=
  let n := u64_add (pr_proofs_generated s) 1 in
  avg ← running_average (pr_avg_proof_size s) n proof_size;
  Ok (mkProofStats n (pr_proofs_verified s) (pr_verification_failures s) avg (pr_avg_verification_time_ms s)).
Definition record_proof_verification (success : bool) (time_ms : Z) (s : ProofStats) : VResult ProofStats :=
  let n := u64_add (pr_proofs_verified s) 1 in
  let failures := if success then pr_verification_failures s else u64_add (pr_verification_failures s) 1 in
  avg ← running_average (pr_avg_verification_time_ms s) n time_ms;
  Ok (mkProofStats (pr_proofs_generated s) n failures (pr_avg_proof_size s) avg).
Definition success_rate (s : ProofStats) : f64 :=
  if pr_proofs_verified s =? 0 then f64_zero
  else f64_div (f64_of_Z (wrap 64 (pr_proofs_verified s - pr_verification_failures s))) (f64_of_Z (pr_proofs_verified s)).

Definition SchnorrProof_new (challenge response : list byte) : SchnorrProof := mkSchnorrProof challenge response.

Record BatchVerifier := mkBatchVerifier { bv_proofs : list ZkProof; bv_max_batch_size : Z }.
Definition BatchVerifier_new (max_batch_size : Z) : BatchVerifier := mkBatchVerifier [] max_batch_size.
Definition add_proof (p : ZkProof) : VStM BatchVerifier unit := fun b =>
  if bv_max_batch_size b <=? len (bv_proofs b) then (Err (CryptoError "Batch is full"), b)
  else (Ok tt, mkBatchVerifier (bv_proofs b ++ [p]) (bv_max_batch_size b)).
Definition batch_verify_proofs (b : BatchVerifier) : VResult (list bool) :=
  Ok ((fun p => negb (bool_decide (zk_proof_data p = []))) <$> bv_proofs b).
Definition batch_size (b : BatchVerifier) : Z := len (bv_proofs b).
Definition batch_clear (b : BatchVerifier) : BatchVerifier := mkBatchVerifier [] (bv_max_batch_size b).

Definition fiat_shamir_challenge `{HashCrate} (values : list (list byte)) : list byte :=
  array_list (hash_blake2b_multiple values).

(** ** range_proof.rs *)
Record RangeProof := mkRangeProof {
  rp_commitments : list (list byte);
  rp_challenges : list (list byte);
  rp_responses : list (list byte);
  rp_range_min : Z;
  rp_range_max : Z
}.

Definition bits_needed (max_value : Z) : Z := if max_value =? 0 then 1 else Z.log2 max_value + 1.
Definition to_bits (value num_bits : Z) : list byte :=
  (fun i => byte_of_Z (Z.land (Z.shiftr value i) 1)) <$> seqZ 0 num_bits.

Definition sum_len (l : list (list byte)) : Z := foldr (fun c acc => len c + acc) 0 l.

Section range_proofs.
Context `{HashCrate}.

(** The commitment, challenge and response for bit number [i]. *)
Definition prove_bit (value : Z) (randomness : list byte) (i : Z) (bit : byte) : list byte * list byte * list byte :=
  let bit_randomness := array_list (hash_blake2b_multiple [randomness; [byte_of_Z i]]) in
  let commitment := cm_value (Commitment_new [bit] bit_randomness) in
  let challenge := array_list (hash_blake2b_multiple [commitment; u64_le value; [byte_of_Z i]]) in
  let response := array_list (hash_blake2b_multiple [bit_randomness; challenge]) in
  (commitment, challenge, response).

Definition RangeProof_generate (value min max : Z) (randomness : list byte) : VResult RangeProof :=
  _ ← ensure (negb ((value <? min) || (max <? value)))
        (CryptoError ("Value " ++ pretty value ++ " is not in range [" ++ pretty min ++ ", " ++ pretty max ++ "]"));
  let bits := bits_needed max in
  let value_bits := to_bits value bits in
  let parts := imap (fun i bit => prove_bit value randomness (Z.of_nat i) bit) value_bits in
  Ok (mkRangeProof ((fun x => x.1.1) <$> parts) ((fun x => x.1.2) <$> parts) ((fun x => x.2) <$> parts) min max).

Definition RangeProof_verify (p : RangeProof) (commitment : list byte) : VResult unit :=
  _ ← ensure (negb (bool_decide (rp_commitments p = []))) (CryptoError "Invalid range proof: no commitments");
  _ ← ensure ((len (rp_commitments p) =? len (rp_challenges p)) && (len (rp_commitments p) =? len (rp_responses p)))
        (CryptoError "Invalid range proof: mismatched lengths");
  let aggregate_commitment := array_list (hash_blake2b_multiple (rp_commitments p)) in
  ensure (constant_time_eq aggregate_commitment commitment) (CryptoError "Range proof verification failed").

Definition RangeProof_to_zk_proof `{Bincode RangeProof} (p : RangeProof) : VResult ZkProof :=
  match bincode_encode p with
  | inl proof_data => Ok (ZkProof_new PRangeProof proof_data (concat (rp_commitments p)))
  | inr _ => Panic
  end.
Definition RangeProof_size (p : RangeProof) : Z :=
  sum_len (rp_commitments p) + sum_len (rp_challenges p) + sum_len (rp_responses p).

Record AggregatedRangeProof := mkAggregatedRangeProof {
  agg_proofs : list RangeProof;
  agg_total_commitment : list byte
}.
Definition AggregatedRangeProof_new (proofs : list RangeProof) : VResult AggregatedRangeProof :=
  _ ← ensure (negb (bool_decide (proofs = []))) (CryptoError "Cannot create aggregated proof from empty list");
  Ok (mkAggregatedRangeProof proofs (array_list (hash_blake2b_multiple (concat (rp_commitments <$> proofs))))).
Definition AggregatedRangeProof_verify (a : AggregatedRangeProof) : VResult unit :=
  for_each (fun p => RangeProof_verify p (array_list (hash_blake2b_multiple (rp_commitments p)))) (agg_proofs a).
Definition AggregatedRangeProof_total_size (a : AggregatedRangeProof) : Z :=
  foldr (fun p acc => RangeProof_size p + acc) 0 (agg_proofs a) + len (agg_total_commitment a).

Record RangeProofVerifier := mkRangeProofVerifier { rv_min_value : Z; rv_max_value : Z }.
Definition RangeProofVerifier_new (min_value max_value : Z) : VResult RangeProofVerifier :=
  _ ← ensure (negb (max_value <? min_value)) (CryptoError "Invalid range: min > max");
  Ok (mkRangeProofVerifier min_value max_value).
Definition verify_proof (v : RangeProofVerifier) (p : RangeProof) (commitment : list byte) : VResult unit :=
  _ ← ensure ((rp_range_min p =? rv_min_value v) && (rp_range_max p =? rv_max_value v)) (CryptoError "Range mismatch in proof");
  RangeProof_verify p commitment.
Definition batch_verify (v : RangeProofVerifier) (proofs : list (RangeProof * list byte)) : VResult (list bool) :=
  Ok ((fun pc => is_ok (verify_proof v pc.1 pc.2)) <$> proofs).

Record BulletproofStyle := mkBulletproofStyle {
  bp_commitment : list byte;
  bp_proof_a : list byte;
  bp_proof_s : list byte;
  bp_tau_x : list byte;
  bp_mu : list byte;
  bp_t_hat : list byte;
  bp_inner_product_proof : list byte
}.

(** [randomness] is the generated blinding factor. *)
Definition generate_simplified (randomness : list byte) (value min max : Z) : VResult BulletproofStyle :=
  _ ← ensure (negb ((value <? min) || (max <? value))) (CryptoError "Value out of range");
  let commitment := Commitment_new (u64_le value) randomness in
  let proof_a := array_list (hash_blake2b (u64_le value)) in
  let proof_s := array_list (hash_blake2b randomness) in
  let tau_x := array_list (hash_blake2b_multiple [proof_a; proof_s]) in
  let mu := array_list (hash_blake2b_multiple [tau_x; u64_le value]) in
  let t_hat := array_list (hash_blake2b_multiple [mu; randomness]) in
  let inner := array_list (hash_blake2b_multiple [proof_a; proof_s; tau_x; mu; t_hat]) in
  Ok (mkBulletproofStyle (cm_value commitment) proof_a proof_s tau_x mu t_hat inner).

Definition verify_simplified (b : BulletproofStyle) : VResult unit :=
  let empty (l : list byte) := bool_decide (l = []) in
  _ ← ensure (negb (empty (bp_commitment b) || empty (bp_proof_a b) || empty (bp_proof_s b) || empty (bp_tau_x b) ||
                    empty (bp_mu b) || empty (bp_t_hat b) || empty (bp_inner_product_proof b)))
        (CryptoError "Invalid bulletproof: missing components");
  let recomputed_inner := array_list (hash_blake2b_multiple [bp_proof_a b; bp_proof_s b; bp_tau_x b; bp_mu b; bp_t_hat b]) in
  ensure (constant_time_eq recomputed_inner (bp_inner_product_proof b)) (CryptoError "Bulletproof verification failed").

Definition BulletproofStyle_size (b : BulletproofStyle) : Z :=
  len (bp_commitment b) + len (bp_proof_a b) + len (bp_proof_s b) + len (bp_tau_x b) + len (bp_mu b) + len (bp_t_hat b) +
  len (bp_inner_product_proof b).

Record TallyRangeProof := mkTallyRangeProof {
  trp_tally_commitment : list byte;
  trp_range_proof : RangeProof;
  trp_max_voters : Z
}.
Definition TallyRangeProof_generate (tally max_voters : Z) (randomness : list byte) : VResult TallyRangeProof :=
  let commitment := Commitment_new (u64_le tally) randomness in
  range_proof ← RangeProof_generate tally 0 max_voters randomness;
  Ok (mkTallyRangeProof (cm_value commitment) range_proof max_voters).
Definition TallyRangeProof_verify (t : TallyRangeProof) : VResult unit :=
  _ ← ensure (rp_range_max (trp_range_proof t) =? trp_max_voters t) (CryptoError "Max voters mismatch");
  RangeProof_verify (trp_range_proof t) (trp_tally_commitment t).

(** ** Facts *)
Lemma RangeProof_verify_Ok p c :
  RangeProof_verify p c = Ok tt <->
  rp_commitments p <> [] /\ len (rp_challenges p) = len (rp_commitments p) /\ len (rp_responses p) = len (rp_commitments p) /\
  c = array_list (hash_blake2b_multiple (rp_commitments p)).
Proof.
  unfold RangeProof_verify. rewrite !ensure_bind, negb_bool_decide_true, andb_true_iff, !Z.eqb_eq, ensure_Ok, constant_time_eq_spec.
  naive_solver congruence.
Qed.

Lemma bits_needed_range m : 0 <= m < 2 ^ 64 -> 1 <= bits_needed m <= 64 /\ m < 2 ^ bits_needed m.
Proof.
  intros Hm. unfold bits_needed. destruct (Z.eqb_spec m 0) as [->|Hne]; [done|].
  pose proof (Z.log2_nonneg m). pose proof (Z.log2_spec m ltac:(lia)) as [_ Hlt].
  assert (Z.log2 m < 64) by (apply Z.log2_lt_pow2; lia). rewrite Z.add_1_r in *. lia.
Qed.

Lemma length_to_bits v n : 0 <= n -> len (to_bits v n) = n.
Proof. intros. unfold to_bits, len. rewrite length_fmap, length_seqZ. lia. Qed.

(** The number with the given bits, the least significant first. *)
Fixpoint bits_value (l : list byte) : Z :=
  match l with [] => 0 | b :: l' => byte_val b + 2 * bits_value l' end.

Lemma bits_value_to_bits n v : 0 <= n -> 0 <= v < 2 ^ n -> bits_value (to_bits v n) = v.
Proof.
  intros Hn. revert v. pattern n. apply natlike_ind; [|clear n Hn; intros n Hn IH|done].
  - intros v Hv. rewrite Z.pow_0_r in Hv. change (bits_value (to_bits v 0)) with 0. lia.
  - intros v Hv. unfold to_bits. rewrite seqZ_cons by lia. cbn [fmap list_fmap bits_value].
    rewrite Z.shiftr_0_r. change 1 with (Z.ones 1). rewrite Z.land_ones by lia. rewrite Z.pow_1_r.
    assert ((fun i => byte_of_Z (Z.land (Z.shiftr v i) (Z.ones 1))) <$> seqZ (Z.succ 0) (Z.pred (Z.succ n)) = to_bits (v / 2) n) as ->.
    { unfold to_bits. rewrite Z.pred_succ. replace (Z.succ 0) with (0 + 1) by lia.
      rewrite (Z.add_comm 0 1), <- (fmap_add_seqZ 1 0 n).
      rewrite <- list_fmap_compose. apply list_fmap_ext. intros i x Hx. cbn. f_equal. f_equal.
      apply lookup_seqZ in Hx as [-> Hi]. rewrite <- Z.shiftr_shiftr by lia. by rewrite (Z.shiftr_div_pow2 v 1). }
    rewrite Z.pow_succ_r in Hv by done. rewrite IH by (split; [apply Z.div_pos; lia|apply Z.div_lt_upper_bound; lia]).
    rewrite byte_val_of_Z. rewrite (Z.mod_small (v mod 2)) by (pose proof (Z.mod_pos_bound v 2); lia).
    pose proof (Z.div_mod v 2). lia.
Qed.

(** The bit commitments of a generated proof. *)
Definition bit_randomness (randomness : list byte) (i : Z) : list byte :=
  array_list (hash_blake2b_multiple [randomness; [byte_of_Z i]]).

Lemma generate_commitments v min max r p :
  RangeProof_generate v min max r = Ok p ->
  min <= v <= max /\ rp_range_min p = min /\ rp_range_max p = max /\
  rp_commitments p = imap (fun i bit => cm_value (Commitment_new [bit] (bit_randomness r (Z.of_nat i)))) (to_bits v (bits_needed max)) /\
  len (rp_challenges p) = len (rp_commitments p) /\ len (rp_responses p) = len (rp_commitments p).
Proof.
  unfold RangeProof_generate. rewrite ensure_bind, negb_true_iff, orb_false_iff, !Z.ltb_ge. intros [Hr [= <-]].
  unfold len. cbn. rewrite !length_fmap, !fmap_imap. done.
Qed.

(** C31: Generating a range proof fails exactly when the value is outside the range.  A
    generated proof has one commitment per bit of the maximum, between 1 and 64; the
    committed bits are those of the value, each opens with its own randomness, and the
    proof verifies against the hash of its commitments. *)
Theorem range_proof_complete (v min max : Z) (r : list byte) :
  0 <= min -> 0 <= v -> max < 2 ^ 64 ->
  match RangeProof_generate v min max r with
  | Ok p =>
      min <= v <= max /\ len (rp_commitments p) = bits_needed max /\ 1 <= bits_needed max <= 64 /\
      bits_value (to_bits v (bits_needed max)) = v /\
      (forall i bit, to_bits v (bits_needed max) !! i = Some bit -> exists c, rp_commitments p !! i = Some c /\
         verify_opening c [bit] (bit_randomness r (Z.of_nat i)) = true) /\
      RangeProof_verify p (array_list (hash_blake2b_multiple (rp_commitments p))) = Ok tt
  | Err _ => v < min \/ max < v
  | Panic => False
  end.
Proof.
  intros Hmin Hv Hmax. destruct (RangeProof_generate v min max r) as [p|e|] eqn:E.
  - apply generate_commitments in E as (Hr & _ & _ & Hc & Hl1 & Hl2).
    destruct (bits_needed_range max ltac:(lia)) as [Hb Hlt].
    assert (len (rp_commitments p) = bits_needed max) as Hlen.
    { rewrite Hc. unfold len. rewrite length_imap. apply length_to_bits. lia. }
    split_and!; [lia|lia|lia|lia|lia|apply bits_value_to_bits; lia| |].
    + intros i bit Hi. eexists. split; [rewrite Hc, list_lookup_imap, Hi; reflexivity|].
      unfold verify_opening. by apply bool_decide_eq_true.
    + apply RangeProof_verify_Ok. split_and!; [|done..]. intros E. rewrite E in Hlen. unfold len in Hlen. cbn in Hlen. lia.
  - unfold RangeProof_generate in E. destruct (Z.ltb_spec v min); [lia|]. destruct (Z.ltb_spec max v); [lia|done].
  - unfold RangeProof_generate in E. by destruct ((v <? min) || (max <? v)).
Qed.

(** The same proof with another range written on it. *)
Definition relabel (min max : Z) (p : RangeProof) : RangeProof :=
  mkRangeProof (rp_commitments p) (rp_challenges p) (rp_responses p) min max.

(** The verification does not look at the range: a proof made for a value is accepted
    by the verifier of any other range once that range is written on it, also one that
    does not contain the value; and any byte strings as commitments, challenges and
    responses pass, as long as there are equally many and at least one. *)
Theorem range_not_checked (v min max min' max' : Z) (r : list byte) (p : RangeProof) (cs chs rs : list (list byte)) :
  RangeProof_generate v min max r = Ok p -> 0 <= max < 2 ^ 64 ->
  cs <> [] -> length chs = length cs -> length rs = length cs ->
  let verifier := mkRangeProofVerifier min' max' in
  verify_proof verifier (relabel min' max' p) (array_list (hash_blake2b_multiple (rp_commitments p))) = Ok tt /\
  verify_proof verifier (mkRangeProof cs chs rs min' max') (array_list (hash_blake2b_multiple cs)) = Ok tt.
Proof.
  intros Hg Hmax Hne Hl1 Hl2. unfold verify_proof. cbn. rewrite !Z.eqb_refl. cbn. split; apply RangeProof_verify_Ok.
  - apply generate_commitments in Hg as (_ & _ & _ & Hc & H1 & H2). split_and!; [|done..]. cbn. rewrite Hc.
    destruct (bits_needed_range max Hmax) as [Hb _]. intros E. apply (f_equal length) in E. rewrite length_imap in E.
    pose proof (length_to_bits v (bits_needed max) ltac:(lia)) as Hlen. unfold len in Hlen. cbn in E. lia.
  - cbn. unfold len. split_and!; [done|lia..|done].
Qed.

Lemma concat_imap_length {A : Type} (f : nat -> A -> list byte) n (l : list A) :
  (forall i a, length (f i a) = n) -> length (concat (imap f l)) = (n * length (imap f l))%nat.
Proof.
  intros Hf. revert f Hf. induction l as [|a l IH]; intros f Hf; cbn; [lia|].
  rewrite length_app, Hf, IH by (intros; apply Hf). lia.
Qed.

(** A tally proof made by the code is rejected by its own verification: the commitment
    it carries hashes the tally and the randomness, while the verification expects the hash
    of the bit commitments.  With 32 bytes of randomness the two inputs have different
    lengths, so only a hash collision could make them agree. *)
Theorem tally_proof_rejected (tally max_voters : Z) (r : list byte) (t : TallyRangeProof) :
  TallyRangeProof_generate tally max_voters r = Ok t -> len r = 32 ->
  no_collision [concat (rp_commitments (trp_range_proof t))] [u64_le tally ++ r] ->
  TallyRangeProof_verify t <> Ok tt.
Proof.
  unfold TallyRangeProof_generate, TallyRangeProof_verify. intros Hg Hr Hnc.
  apply bind_Ok in Hg as (p & Hp & [= <-]). cbn in *. rewrite ensure_bind, RangeProof_verify_Ok. intros (_ & _ & _ & _ & E).
  unfold hash_blake2b_multiple in E. cbn in E. rewrite app_nil_r in E. apply array_list_inj in E.
  apply generate_commitments in Hp as (_ & _ & _ & Hc & _).
  assert (length (concat (rp_commitments p)) = (32 * length (rp_commitments p))%nat) as Hlen.
  { rewrite Hc. apply concat_imap_length. intros. apply length_array_list. }
  assert (concat (rp_commitments p) = u64_le tally ++ r) as Heq by (apply Hnc; [by left|by left|done]).
  apply (f_equal length) in Heq. rewrite Hlen, length_app, length_u64_le in Heq. unfold len in Hr. lia.
Qed.

(** A commitment does not fix where the value ends and the randomness begins: the
    commitment to a longer value opens as a commitment to any of its prefixes. *)
Theorem commitment_not_binding (value more randomness : list byte) :
  let c := cm_value (Commitment_new (value ++ more) randomness) in
  verify_opening c (value ++ more) randomness = true /\ verify_opening c value (more ++ randomness) = true.
Proof.
  cbn. unfold verify_opening, hash_blake2b_multiple. cbn. rewrite !app_nil_r. split; apply bool_decide_eq_true; [done|].
  by rewrite app_assoc.
Qed.
End range_proofs.
