(* ===== verification/NodeConfig.v ===== *)
(** * Configuration: crates/common/src/config.rs and crates/node/src/config.rs

    The records with their defaults, the node configuration, its validation and its builder.
    Reading and writing TOML files is left to the crate [toml] and the file system: they are
    arguments of [config_from_file] and [config_to_file]. *)
From stdpp Require Import prelude gmap strings list.
From Stdlib Require Import Strings.Byte.
From S2P Require Import Prelude Floats64 Types Protocol Transport.

Local Open Scope Z_scope.

(** ** common/config.rs *)
Record CommonNetworkConfig := mkCommonNetworkConfig {
  cnc_listen_addr : SocketAddr;
  cnc_bootstrap_peers : list SocketAddr;
  cnc_max_peers : Z;
  cnc_connection_timeout : Z;
  cnc_enable_discovery : bool;
  cnc_network_id : string
}.
Definition localhost (port : Z) : SocketAddr := SocketV4 (exist _ [x7f; x00; x00; x01] eq_refl) port.
Definition CommonNetworkConfig_default : CommonNetworkConfig :=
  mkCommonNetworkConfig (any_addr 9000) [] 50 30 true "voting-mainnet".

Record CommonStorageConfig := mkCommonStorageConfig {
  csc_data_dir : string;
  csc_blockchain_db_path : string;
  csc_state_db_path : string;
  csc_enable_compression : bool;
  csc_cache_size_mb : Z;
  csc_enable_pruning : bool;
  csc_pruning_days : Z
}.
Definition CommonStorageConfig_default : CommonStorageConfig :=
  mkCommonStorageConfig "./data" "./data/blockchain" "./data/state" true 128 false 365.

Inductive ConsensusAlgorithm := AlgProofOfAuthority | AlgProofOfStake.

Record ConsensusConfig := mkConsensusConfig {
  cc_algorithm : ConsensusAlgorithm;
  cc_block_time : Z;
  cc_min_validators : Z;
  cc_finality_threshold : f64;
  cc_is_validator : bool;
  cc_validator_key_path : option string
}.
Definition ConsensusConfig_default : ConsensusConfig :=
  mkConsensusConfig AlgProofOfAuthority 5 3 f64_0_67 false None.

Record CommonRpcConfig := mkCommonRpcConfig {
  crc_enabled : bool;
  crc_listen_addr : SocketAddr;
  crc_enable_cors : bool;
  crc_cors_origins : list string;
  crc_request_timeout : Z;
  crc_max_request_size : Z;
  crc_rate_limit : Z
}.
Definition CommonRpcConfig_default : CommonRpcConfig :=
  mkCommonRpcConfig true (localhost 8545) true ["*"%string] 30 (10 * 1024 * 1024) 100.

Inductive LogLevel := LTrace | LDebug | LInfo | LWarn | LError.
Definition LogLevel_display (l : LogLevel) : string :=
  match l with LTrace => "trace" | LDebug => "debug" | LInfo => "info" | LWarn => "warn" | LError => "error" end.
Inductive LogFormat := FJson | FPretty.

Record LoggingConfig := mkLoggingConfig {
  lc_level : LogLevel;
  lc_format : LogFormat;
  lc_log_to_file : bool;
  lc_log_file_path : string;
  lc_log_to_console : bool;
  lc_enable_metrics : bool;
  lc_metrics_addr : option SocketAddr
}.
Definition LoggingConfig_default : LoggingConfig :=
  mkLoggingConfig LInfo FPretty true "./data/logs/node.log" true true (Some (localhost 9090)).

Record CommonNodeConfig := mkCommonNodeConfig {
  cn_network : CommonNetworkConfig;
  cn_storage : CommonStorageConfig;
  cn_consensus : ConsensusConfig;
  cn_rpc : CommonRpcConfig;
  cn_logging : LoggingConfig
}.
Definition CommonNodeConfig_default : CommonNodeConfig :=
  mkCommonNodeConfig CommonNetworkConfig_default CommonStorageConfig_default ConsensusConfig_default
    CommonRpcConfig_default LoggingConfig_default.

(** [NodeConfig::from_file] and [to_file]; errors by their display strings. *)
Definition config_from_file (read_to_string : string -> string + string) (from_str : string -> CommonNodeConfig + string)
    (path : string) : CommonNodeConfig + string :=
  match read_to_string path with inl contents => from_str contents | inr e => inr e end.
Definition config_to_file (to_string_pretty : CommonNodeConfig -> string + string) (write : string -> string -> option string)
    (path : string) (c : CommonNodeConfig) : option string :=
  match to_string_pretty c with inl contents => write path contents | inr e => Some e end.

Record CommonGenesisConfig := mkCommonGenesisConfig {
  cgc_timestamp : Z;
  cgc_validators : list string;
  cgc_chain_id : string;
  cgc_network_name : string
}.
Definition CommonGenesisConfig_default : CommonGenesisConfig :=
  mkCommonGenesisConfig 0 [] "voting-chain-1" "Voting Network Mainnet".

(** ** node/config.rs *)
Inductive NodeType := NValidator | NFull | NLight.

Global Instance NodeType_eq_dec : EqDecision NodeType.
Proof. solve_decision. Defined.

Definition NodeType_display (t : NodeType) : string :=
  match t with NValidator => "validator" | NFull => "full" | NLight => "light" end.
(** [FromStr]; [to_lowercase] is [str::to_lowercase]. *)
Definition NodeType_from_str (to_lowercase : string -> string) (s : string) : NodeType + string :=
  let l := to_lowercase s in
  if String.eqb l "validator" then inl NValidator
  else if String.eqb l "full" then inl NFull
  else if String.eqb l "light" then inl NLight
  else inr ("Unknown node type: " ++ s)%string.

Record NodeConfig := mkNodeConfig {
  ndc_node_type : NodeType;
  ndc_network : CommonNetworkConfig;
  ndc_storage : CommonStorageConfig;
  ndc_consensus : ConsensusConfig;
  ndc_genesis_path : option string;
  ndc_validator_key_path : option string;
  ndc_data_dir : string;
  ndc_enable_metrics : bool;
  ndc_metrics_addr : option string;
  ndc_enable_rpc : bool;
  ndc_rpc_addr : option string;
  ndc_log_level : string;
  ndc_log_to_file : bool;
  ndc_log_file_path : option string
}.

Definition config_of_type (t : NodeType) (storage : CommonStorageConfig) : NodeConfig :=
  mkNodeConfig t CommonNetworkConfig_default storage ConsensusConfig_default None None "./data" true
    (Some "127.0.0.1:9090"%string) true (Some "127.0.0.1:8545"%string) "info" false None.
Definition NodeConfig_default : NodeConfig := config_of_type NFull CommonStorageConfig_default.
Definition NodeConfig_validator : NodeConfig := config_of_type NValidator CommonStorageConfig_default.
Definition NodeConfig_full_node : NodeConfig := config_of_type NFull CommonStorageConfig_default.
Definition with_pruning (s : CommonStorageConfig) : CommonStorageConfig :=
  mkCommonStorageConfig (csc_data_dir s) (csc_blockchain_db_path s) (csc_state_db_path s) (csc_enable_compression s)
    (csc_cache_size_mb s) true (csc_pruning_days s).
Definition NodeConfig_light_node : NodeConfig := config_of_type NLight (with_pruning CommonStorageConfig_default).

(** The setters, shared by the configuration and its builder. *)
Definition with_data_dir (path : string) (c : NodeConfig) : NodeConfig :=
  mkNodeConfig (ndc_node_type c) (ndc_network c) (ndc_storage c) (ndc_consensus c) (ndc_genesis_path c)
    (ndc_validator_key_path c) path (ndc_enable_metrics c) (ndc_metrics_addr c) (ndc_enable_rpc c) (ndc_rpc_addr c)
    (ndc_log_level c) (ndc_log_to_file c) (ndc_log_file_path c).
Definition with_genesis (path : string) (c : NodeConfig) : NodeConfig :=
  mkNodeConfig (ndc_node_type c) (ndc_network c) (ndc_storage c) (ndc_consensus c) (Some path)
    (ndc_validator_key_path c) (ndc_data_dir c) (ndc_enable_metrics c) (ndc_metrics_addr c) (ndc_enable_rpc c) (ndc_rpc_addr c)
    (ndc_log_level c) (ndc_log_to_file c) (ndc_log_file_path c).
Definition with_validator_key (path : string) (c : NodeConfig) : NodeConfig :=
  mkNodeConfig (ndc_node_type c) (ndc_network c) (ndc_storage c) (ndc_consensus c) (ndc_genesis_path c)
    (Some path) (ndc_data_dir c) (ndc_enable_metrics c) (ndc_metrics_addr c) (ndc_enable_rpc c) (ndc_rpc_addr c)
    (ndc_log_level c) (ndc_log_to_file c) (ndc_log_file_path c).
Definition with_metrics (enable : bool) (c : NodeConfig) : NodeConfig :=
  mkNodeConfig (ndc_node_type c) (ndc_network c) (ndc_storage c) (ndc_consensus c) (ndc_genesis_path c)
    (ndc_validator_key_path c) (ndc_data_dir c) enable (ndc_metrics_addr c) (ndc_enable_rpc c) (ndc_rpc_addr c)
    (ndc_log_level c) (ndc_log_to_file c) (ndc_log_file_path c).
Definition with_rpc (enable : bool) (c : NodeConfig) : NodeConfig :=
  mkNodeConfig (ndc_node_type c) (ndc_network c) (ndc_storage c) (ndc_consensus c) (ndc_genesis_path c)
    (ndc_validator_key_path c) (ndc_data_dir c) (ndc_enable_metrics c) (ndc_metrics_addr c) enable (ndc_rpc_addr c)
    (ndc_log_level c) (ndc_log_to_file c) (ndc_log_file_path c).
Definition with_log_level (level : string) (c : NodeConfig) : NodeConfig :=
  mkNodeConfig (ndc_node_type c) (ndc_network c) (ndc_storage c) (ndc_consensus c) (ndc_genesis_path c)
    (ndc_validator_key_path c) (ndc_data_dir c) (ndc_enable_metrics c) (ndc_metrics_addr c) (ndc_enable_rpc c) (ndc_rpc_addr c)
    level (ndc_log_to_file c) (ndc_log_file_path c).
Definition with_network (n : CommonNetworkConfig) (c : NodeConfig) : NodeConfig :=
  mkNodeConfig (ndc_node_type c) n (ndc_storage c) (ndc_consensus c) (ndc_genesis_path c)
    (ndc_validator_key_path c) (ndc_data_dir c) (ndc_enable_metrics c) (ndc_metrics_addr c) (ndc_enable_rpc c) (ndc_rpc_addr c)
    (ndc_log_level c) (ndc_log_to_file c) (ndc_log_file_path c).
Definition with_storage (s : CommonStorageConfig) (c : NodeConfig) : NodeConfig :=
  mkNodeConfig (ndc_node_type c) (ndc_network c) s (ndc_consensus c) (ndc_genesis_path c)
    (ndc_validator_key_path c) (ndc_data_dir c) (ndc_enable_metrics c) (ndc_metrics_addr c) (ndc_enable_rpc c) (ndc_rpc_addr c)
    (ndc_log_level c) (ndc_log_to_file c) (ndc_log_file_path c).
Definition with_consensus (s : ConsensusConfig) (c : NodeConfig) : NodeConfig :=
  mkNodeConfig (ndc_node_type c) (ndc_network c) (ndc_storage c) s (ndc_genesis_path c)
    (ndc_validator_key_path c) (ndc_data_dir c) (ndc_enable_metrics c) (ndc_metrics_addr c) (ndc_enable_rpc c) (ndc_rpc_addr c)
    (ndc_log_level c) (ndc_log_to_file c) (ndc_log_file_path c).
Definition with_metrics_addr (addr : string) (c : NodeConfig) : NodeConfig :=
  mkNodeConfig (ndc_node_type c) (ndc_network c) (ndc_storage c) (ndc_consensus c) (ndc_genesis_path c)
    (ndc_validator_key_path c) (ndc_data_dir c) (ndc_enable_metrics c) (Some addr) (ndc_enable_rpc c) (ndc_rpc_addr c)
    (ndc_log_level c) (ndc_log_to_file c) (ndc_log_file_path c).
Definition with_rpc_addr (addr : string) (c : NodeConfig) : NodeConfig :=
  mkNodeConfig (ndc_node_type c) (ndc_network c) (ndc_storage c) (ndc_consensus c) (ndc_genesis_path c)
    (ndc_validator_key_path c) (ndc_data_dir c) (ndc_enable_metrics c) (ndc_metrics_addr c) (ndc_enable_rpc c) (Some addr)
    (ndc_log_level c) (ndc_log_to_file c) (ndc_log_file_path c).

Definition log_levels : list string := ["trace"; "debug"; "info"; "warn"; "error"]%string.

Definition is_none {A : Type} (o : option A) : bool := match o with Some _ => false | None => true end.

(** [validate]; [Some e] is the error. *)
Definition NodeConfig_validate (c : NodeConfig) : option string :=
  if bool_decide (ndc_node_type c = NValidator) && is_none (ndc_validator_key_path c)
  then Some "Validator nodes require a validator_key_path"%string
  else if is_none (ndc_genesis_path c) then Some "genesis_path is required"%string
  else if negb (bool_decide (ndc_log_level c ∈ log_levels)) then Some ("Invalid log level: " ++ ndc_log_level c)%string
  else None.

Definition NodeConfigBuilder_new (t : NodeType) : NodeConfig :=
  match t with NValidator => NodeConfig_validator | NFull => NodeConfig_full_node | NLight => NodeConfig_light_node end.
Definition NodeConfigBuilder_build (c : NodeConfig) : NodeConfig + string :=
  match NodeConfig_validate c with Some e => inr e | None => inl c end.

(** The calls on a builder. *)
Inductive builder_step : NodeConfig -> NodeConfig -> Prop :=
| bs_data_dir p c : builder_step c (with_data_dir p c)
| bs_genesis p c : builder_step c (with_genesis p c)
| bs_validator_key p c : builder_step c (with_validator_key p c)
| bs_network n c : builder_step c (with_network n c)
| bs_storage s c : builder_step c (with_storage s c)
| bs_consensus s c : builder_step c (with_consensus s c)
| bs_metrics b c : builder_step c (with_metrics b c)
| bs_metrics_addr a c : builder_step c (with_metrics_addr a c)
| bs_rpc b c : builder_step c (with_rpc b c)
| bs_rpc_addr a c : builder_step c (with_rpc_addr a c)
| bs_log_level l c : builder_step c (with_log_level l c).

(** What a node can rely on in a configuration that was built. *)
Record node_config_ok (t : NodeType) (c : NodeConfig) : Prop := {
  nco_type : ndc_node_type c = t;
  nco_genesis : is_Some (ndc_genesis_path c);
  nco_key : t = NValidator -> is_Some (ndc_validator_key_path c);
  nco_level : ndc_log_level c ∈ log_levels
}.

Lemma validate_None c :
  NodeConfig_validate c = None <->
  (ndc_node_type c = NValidator -> is_Some (ndc_validator_key_path c)) /\ is_Some (ndc_genesis_path c) /\ ndc_log_level c ∈ log_levels.
Proof.
  unfold NodeConfig_validate. destruct (ndc_validator_key_path c) as [k|], (ndc_genesis_path c) as [g|]; cbn;
    rewrite ?andb_false_r, ?andb_true_r; repeat (case_bool_decide; cbn); naive_solver.
Qed.

(** A builder started for a node type and used in any way builds only configurations of
    that type that the node can start with: a genesis path, a key path for validators and
    a known log level; it refuses exactly the others. *)
Theorem builder_builds_valid (t : NodeType) (c : NodeConfig) :
  rtc builder_step (NodeConfigBuilder_new t) c ->
  match NodeConfigBuilder_build c with
  | inl c' => c' = c /\ node_config_ok t c
  | inr _ => ~ node_config_ok t c
  end.
Proof.
  intros Hr. assert (ndc_node_type c = t) as Ht.
  { apply (rtc_invariant _ (fun c => ndc_node_type c = t) _ _) in Hr; [done| |by destruct t].
    intros a b Hab Ha. by destruct Hab. }
  unfold NodeConfigBuilder_build. destruct (NodeConfig_validate c) as [e|] eqn:E.
  - intros [_ Hg Hk Hl]. assert (NodeConfig_validate c = None); [|congruence]. apply validate_None.
    rewrite Ht. by split_and!.
  - apply validate_None in E as (Hk & Hg & Hl). split; [done|]. split; [done..| |done]. by rewrite Ht in Hk.
Qed.
