(* ===== verification/Node.v ===== *)
(** * Nodes: crates/node/src/lib.rs, full_node.rs, light_node.rs and validator.rs

    The three kinds of node behind the trait [Node].  A full node and a validator own a chain,
    a storage manager and a network manager, made when the node starts; a light node keeps
    headers.  Operations that touch the file system run on the pair of the file system and the
    node.  The spawned loops call one function per tick; [production_step] is such a tick of
    the validator.  The clock, the generator, the cargo features, the genesis file and the
    address parser are the arguments gathered in [NodeInputs]. *)
From stdpp Require Import prelude gmap strings list pretty.
From Stdlib Require Import Strings.Byte.
From S2P Require Import Prelude Floats64 Types Merkle Transaction Block Genesis Chain ChainProperties ValidatorSet ProofOfAuthority Crypto Cache Database BlockchainStore StateStore Snapshot StorageManager Protocol Peer BlockSync Transport Network CryptoTools NodeConfig.

Local Open Scope Z_scope.

(** ** node/lib.rs *)
Record NodeStatus := mkNodeStatus {
  nst_node_type : NodeType;
  nst_is_running : bool;
  nst_is_syncing : bool;
  nst_current_height : Z;
  nst_best_hash : BlockHash;
  nst_peer_count : Z;
  nst_uptime : Z;
  nst_started_at : option Z
}.

Record NodeStats := mkNodeStats {
  nds_blocks_processed : Z;
  nds_transactions_processed : Z;
  nds_votes_verified : Z;
  nds_blocks_produced : Z;
  nds_blocks_validated : Z;
  nds_network_messages_sent : Z;
  nds_network_messages_received : Z
}.
Definition NodeStats_default : NodeStats := mkNodeStats 0 0 0 0 0 0 0.

Definition count_processed (txs : Z) (s : NodeStats) : NodeStats :=
  mkNodeStats (u64_add (nds_blocks_processed s) 1) (u64_add (nds_transactions_processed s) txs) (nds_votes_verified s)
    (nds_blocks_produced s) (nds_blocks_validated s) (nds_network_messages_sent s) (nds_network_messages_received s).
Definition count_transaction (s : NodeStats) : NodeStats :=
  mkNodeStats (nds_blocks_processed s) (u64_add (nds_transactions_processed s) 1) (nds_votes_verified s)
    (nds_blocks_produced s) (nds_blocks_validated s) (nds_network_messages_sent s) (nds_network_messages_received s).
Definition count_validated (s : NodeStats) : NodeStats :=
  mkNodeStats (nds_blocks_processed s) (nds_transactions_processed s) (nds_votes_verified s)
    (nds_blocks_produced s) (u64_add (nds_blocks_validated s) 1) (nds_network_messages_sent s)
    (nds_network_messages_received s).
Definition count_produced (s : NodeStats) : NodeStats :=
  mkNodeStats (nds_blocks_processed s) (nds_transactions_processed s) (nds_votes_verified s)
    (u64_add (nds_blocks_produced s) 1) (u64_add (nds_blocks_validated s) 1) (nds_network_messages_sent s)
    (nds_network_messages_received s).

(** The arguments; [ni_clock i] is the [i]-th reading of the clock of an operation. *)
Record NodeInputs := mkNodeInputs {
  ni_rocksdb_backend : bool;
  ni_sled_backend : bool;
  ni_clock : nat -> Z;
  ni_random : nat -> array 32;
  ni_read_to_string : string -> string + string;
  ni_genesis_from_str : string -> GenesisBlock + string;
  ni_parse_addr : string -> SocketAddr + string
}.

(** The conversions of the configuration written out in the three [initialize]. *)
Definition storage_config_of (c : NodeConfig) : StorageConfig :=
  let s := ndc_storage c in
  mkStorageConfig (csc_data_dir s) (csc_blockchain_db_path s) (csc_state_db_path s) 1000 10000 5000
    (csc_enable_compression s) (csc_enable_pruning s) (csc_pruning_days s)
    (Some (1024 * 1024 * 1024 * 100)) Normal.
Definition network_config_of (c : NodeConfig) : NetworkConfig :=
  let n := ndc_network c in
  let d := NetworkConfig_default in
  mkNetworkConfig (cnc_listen_addr n) (cnc_bootstrap_peers n) (nc_max_peers d) (cnc_max_peers n / 2) (cnc_max_peers n / 2)
    (cnc_connection_timeout n) (cnc_enable_discovery n) (nc_discovery_interval d) (cnc_network_id n)
    (nc_protocol_version d) (nc_enable_gossip d) (nc_gossip_fanout d) (nc_sync_batch_size d) (nc_max_message_size d)
    (nc_rate_limit d).

Section node.
Context {T D : Type} `{Tcp T, FileSystem D, RocksCrate, SledCrate, LruCrate, HashCrate, HexCrate, BincodeTx, BincodeStore,
  BincodeElection, ShuffleCrate, ChooseCrate, !Bincode HandshakeInfo, !Bincode PeerList, !Bincode BlockRequest,
  !Bincode BlockResponse, !Bincode Block, !Bincode TransactionRequest, !Bincode TransactionResponse, !Bincode Transaction,
  !Bincode StatusInfo, !Bincode DisconnectReason, !Bincode Gossip.BlockAnnouncement, !Bincode Gossip.TransactionAnnouncement,
  !Bincode Message, Ed25519Crate, AeadCrate, Base64Crate, Argon2Crate}.

Record NodeComponents := mkNodeComponents {
  cmp_blockchain : Blockchain;
  cmp_storage : StorageManager AnyDatabase;
  cmp_network : NetworkManager (T := T)
}.

Definition get_current_height (c : NodeComponents) : Z := bc_height (cmp_blockchain c).
Definition best_hash_of (c : Blockchain) : BlockHash :=
  match get_best_block c with Ok b => bh_hash (block_header b) | _ => BlockHash_zero end.
Definition get_best_hash (c : NodeComponents) : BlockHash := best_hash_of (cmp_blockchain c).

(** Calls on one component. *)
Definition on_chain {A : Type} (m : VStM Blockchain A) : VStM NodeComponents A := fun c =>
  let '(r, b) := m (cmp_blockchain c) in (r, mkNodeComponents b (cmp_storage c) (cmp_network c)).
Definition on_network {A : Type} (m : VStM NetworkManager A) : VStM NodeComponents A := fun c =>
  let '(r, n) := m (cmp_network c) in (r, mkNodeComponents (cmp_blockchain c) (cmp_storage c) n).

(** The beginning of [initialize] of the full node and of the validator: the genesis file, the
    chain, the storage and the network. *)
Definition load_genesis (i : NodeInputs) (config : NodeConfig) : VResult GenesisBlock :=
  genesis_path ← ok_or (ndc_genesis_path config) (ConfigError "Genesis path required");
  from_file (ni_read_to_string i) (ni_genesis_from_str i) genesis_path.
Definition open_components (i : NodeInputs) (config : NodeConfig) : VStM D (GenesisBlock * NodeComponents) :=
  genesis ← lift (load_genesis i config);
  blockchain ← lift (Blockchain_new (ni_clock i 0) genesis);
  storage ← StorageManager_new (ni_rocksdb_backend i) (ni_sled_backend i) (ni_clock i 1) (storage_config_of config);
  network ← lift (NetworkManager_new (ni_clock i 2) (network_config_of config));
  mret (genesis, mkNodeComponents blockchain storage network).

(** Uptime as [status] computes it. *)
Definition uptime (now : Z) (started_at : option Z) : Z :=
  match started_at with Some start => u64_saturating_sub now start | None => 0 end.

(** The tuple [status] reads from the components. *)
Definition components_status (now : Z) (oc : option NodeComponents) : Z * BlockHash * Z * bool :=
  match oc with
  | Some c => (get_current_height c, get_best_hash c, network_peer_count (cmp_network c),
               status_is_syncing (network_sync_status now (cmp_network c)))
  | None => (0, BlockHash_zero, 0, false)
  end.

(** ** full_node.rs *)
Record FullNode := mkFullNode {
  fn_config : NodeConfig;
  fn_components : option NodeComponents;
  fn_running : bool;
  fn_started_at : option Z;
  fn_stats : NodeStats;
  fn_pending_transactions : gset TxId
}.

Definition FullNode_new (config : NodeConfig) : VResult FullNode :=
  Ok (mkFullNode config None false None NodeStats_default ∅).

Definition fn_set_components (c : NodeComponents) (f : FullNode) : FullNode :=
  mkFullNode (fn_config f) (Some c) (fn_running f) (fn_started_at f) (fn_stats f) (fn_pending_transactions f).

(** A call on the components, [NodeNotInitialized] without them. *)
Definition fn_on_components {A : Type} (m : VStM NodeComponents A) : VStM FullNode A := fun f =>
  match fn_components f with
  | None => (Err NodeNotInitialized, f)
  | Some c => let '(r, c') := m c in (r, fn_set_components c' f)
  end.

Definition full_initialize (i : NodeInputs) : VStM (D * FullNode) unit := fun '(d, f) =>
  match open_components i (fn_config f) d with
  | (Ok (_, c), d') => (Ok tt, (d', fn_set_components c f))
  | (Err e, d') => (Err e, (d', f))
  | (Panic, d') => (Panic, (d', f))
  end.

(** [sync_with_network]: the status is read and nothing is changed. *)
Definition sync_with_network (now : Z) (f : FullNode) : VResult unit :=
  match fn_components f with
  | None => Ok tt
  | Some c => if status_is_syncing (network_sync_status now (cmp_network c)) then Ok tt else Ok tt
  end.

Definition process_block (b : Block) : VStM FullNode unit :=
  _ ← fn_on_components (on_chain (add_block b));
  modify (fun f => mkFullNode (fn_config f) (fn_components f) (fn_running f) (fn_started_at f)
    (count_processed (len (block_transactions b)) (fn_stats f))
    (foldl (fun pending tx => pending ∖ {[ tx_id tx ]}) (fn_pending_transactions f) (block_transactions b))).

Definition full_submit_transaction (now nonce : Z) (tx : Transaction) : VStM FullNode unit :=
  _ ← fn_on_components (lift (Transaction_validate tx));
  _ ← modify (fun f => mkFullNode (fn_config f) (fn_components f) (fn_running f) (fn_started_at f) (fn_stats f)
                (fn_pending_transactions f ∪ {[ tx_id tx ]}));
  message ← lift (Message_new_transaction now nonce tx);
  _ ← fn_on_components (on_network (broadcast now message));
  mret tt.

(** The loop [for height in 0..=blockchain.height()] of [get_transaction]. *)
Definition block_tx_at (c : Blockchain) (id : TxId) (height : Z) : option Transaction :=
  match get_block_at_height c height with
  | Ok b => find_by (fun tx => bool_decide (tx_id tx = id)) (block_transactions b)
  | _ => None
  end.
Definition full_get_transaction (id : TxId) (f : FullNode) : VResult (option Transaction) :=
  match fn_components f with
  | None => Ok None
  | Some c => Ok (head (omap (block_tx_at (cmp_blockchain c) id) (seqZ 0 (bc_height (cmp_blockchain c) + 1))))
  end.

Definition full_get_block (height : Z) (f : FullNode) : VResult (option Block) :=
  match fn_components f with
  | None => Ok None
  | Some c => match get_block_at_height (cmp_blockchain c) height with Ok b => Ok (Some b) | _ => Ok None end
  end.

Definition pending_transaction_count (f : FullNode) : Z := Z.of_nat (size (fn_pending_transactions f)).

Definition fn_set_running (b : bool) (started_at : option Z) (f : FullNode) : FullNode :=
  mkFullNode (fn_config f) (fn_components f) b started_at (fn_stats f) (fn_pending_transactions f).

(** Operations on the node next to the file system. *)
Definition on_node {N A : Type} (m : VStM N A) : VStM (D * N) A := fun '(d, n) => let '(r, n') := m n in (r, (d, n')).

Definition full_start (i : NodeInputs) : VStM (D * FullNode) unit :=
  '(_, self) ← get;
  _ ← lift (ensure (negb (fn_running self)) NodeAlreadyRunning);
  _ ← full_initialize i;
  _ ← on_node (fn_on_components (on_network (network_start (ni_clock i 3) (ni_random i))));
  on_node (modify (fn_set_running true (Some (ni_clock i 4)))).

Definition full_stop : VStM FullNode unit :=
  self ← get;
  _ ← lift (ensure (fn_running self) NodeNotRunning);
  _ ← modify (fn_set_running false (fn_started_at self));
  match fn_components self with
  | Some _ => fn_on_components (on_network network_stop)
  | None => mret tt
  end.

Definition full_status (now now' : Z) (f : FullNode) : NodeStatus :=
  let '(height, hash, peers, syncing) := components_status now (fn_components f) in
  mkNodeStatus NFull (fn_running f) syncing height hash peers (uptime now' (fn_started_at f)) (fn_started_at f).
Definition full_current_height (f : FullNode) : Z :=
  match fn_components f with Some c => get_current_height c | None => 0 end.
Definition full_best_hash (f : FullNode) : BlockHash :=
  match fn_components f with Some c => get_best_hash c | None => BlockHash_zero end.

(** ** light_node.rs *)
Record LightHeader := mkLightHeader {
  lh_height : Z;
  lh_hash : BlockHash;
  lh_previous_hash : BlockHash;
  lh_transactions_root : BlockHash;
  lh_timestamp : Z;
  lh_validator : PublicKey
}.

Definition header_from_block (b : Block) : LightHeader :=
  let h := block_header b in
  mkLightHeader (bh_height h) (bh_hash h) (bh_previous_hash h) (bh_transactions_root h) (bh_timestamp h) (bh_validator h).

Definition light_header_validate (h : LightHeader) (previous : option LightHeader) : VResult unit :=
  match previous with
  | Some prev =>
      _ ← ensure (lh_height h =? u64_add (lh_height prev) 1)
            (BlockHeightMismatch (u64_add (lh_height prev) 1) (lh_height h));
      ensure (bool_decide (lh_previous_hash h = lh_hash prev))
        (InvalidPreviousHash ("Expected " ++ BlockHash_to_hex (lh_hash prev) ++ ", got " ++
           BlockHash_to_hex (lh_previous_hash h)))
  | None => Ok tt
  end.

Record VerifiedTransaction := mkVerifiedTransaction {
  vt_transaction : Transaction;
  vt_block_height : Z;
  vt_block_hash : BlockHash;
  vt_merkle_proof : list BlockHash;
  vt_verified_at : Z
}.

Record LightNode := mkLightNode {
  ln_config : NodeConfig;
  ln_network : option (NetworkManager (T := T));
  ln_block_headers : gmap Z LightHeader;
  ln_verified_transactions : gmap TxId VerifiedTransaction;
  ln_trusted_validators : list PublicKey;
  ln_running : bool;
  ln_started_at : option Z;
  ln_stats : NodeStats;
  ln_current_height : Z
}.

Definition LightNode_new (config : NodeConfig) : VResult LightNode :=
  Ok (mkLightNode config None ∅ ∅ [] false None NodeStats_default 0).

Definition ln_set_network (n : option NetworkManager) (l : LightNode) : LightNode :=
  mkLightNode (ln_config l) n (ln_block_headers l) (ln_verified_transactions l) (ln_trusted_validators l) (ln_running l)
    (ln_started_at l) (ln_stats l) (ln_current_height l).
Definition ln_set_trusted (vs : list PublicKey) (l : LightNode) : LightNode :=
  mkLightNode (ln_config l) (ln_network l) (ln_block_headers l) (ln_verified_transactions l) vs (ln_running l)
    (ln_started_at l) (ln_stats l) (ln_current_height l).
Definition ln_add_header (height : Z) (h : LightHeader) (l : LightNode) : LightNode :=
  mkLightNode (ln_config l) (ln_network l) (<[height := h]> (ln_block_headers l)) (ln_verified_transactions l)
    (ln_trusted_validators l) (ln_running l) (ln_started_at l) (ln_stats l) (ln_current_height l).
Definition ln_set_running (b : bool) (started_at : option Z) (l : LightNode) : LightNode :=
  mkLightNode (ln_config l) (ln_network l) (ln_block_headers l) (ln_verified_transactions l) (ln_trusted_validators l) b
    started_at (ln_stats l) (ln_current_height l).

(** The block the light node takes for the genesis block. *)
Definition light_genesis_block (now : Z) (genesis : GenesisBlock) : VResult Block :=
  Block_new now 0 BlockHash_zero [] (default (mkPublicKey (array_fill 32 x00)) (head (gb_validators genesis))).

Definition light_initialize (i : NodeInputs) : VStM LightNode unit :=
  self ← get;
  network ← lift (NetworkManager_new (ni_clock i 0) (network_config_of (ln_config self)));
  _ ← match ndc_genesis_path (ln_config self) with
      | None => mret tt
      | Some genesis_path =>
          genesis ← lift (from_file (ni_read_to_string i) (ni_genesis_from_str i) genesis_path);
          _ ← modify (fun l => ln_set_trusted (ln_trusted_validators l ++ gb_validators genesis) l);
          genesis_block ← lift (light_genesis_block (ni_clock i 1) genesis);
          modify (ln_add_header 0 (header_from_block genesis_block))
      end;
  modify (ln_set_network (Some network)).

(** [sync_headers]: nothing is changed. *)
Definition sync_headers (l : LightNode) : VResult unit :=
  match ln_network l with None => Ok tt | Some _ => Ok tt end.

Definition light_verify_transaction (now : Z) (tx : Transaction) (block_height : Z) (merkle_proof : MerkleProof) :
    VStM LightNode bool := fun l =>
  match ln_block_headers l !! block_height with
  | None => (Err (BlockNotFound (pretty block_height)), l)
  | Some header =>
      if negb (verify_proof merkle_proof) then (Ok false, l)
      else if negb (bool_decide (mp_root merkle_proof = lh_transactions_root header)) then (Ok false, l)
      else
        let verified := mkVerifiedTransaction tx block_height (lh_hash header) [] now in
        (Ok true,
         mkLightNode (ln_config l) (ln_network l) (ln_block_headers l)
           (<[tx_id tx := verified]> (ln_verified_transactions l)) (ln_trusted_validators l) (ln_running l)
           (ln_started_at l) (count_transaction (ln_stats l)) (ln_current_height l))
  end.

Definition get_header (height : Z) (l : LightNode) : option LightHeader := ln_block_headers l !! height.
Definition get_verified_transaction (id : TxId) (l : LightNode) : option VerifiedTransaction :=
  ln_verified_transactions l !! id.
Definition header_count (l : LightNode) : Z := Z.of_nat (size (ln_block_headers l)).
Definition verified_transaction_count (l : LightNode) : Z := Z.of_nat (size (ln_verified_transactions l)).
Definition add_trusted_validator (v : PublicKey) (l : LightNode) : LightNode :=
  ln_set_trusted (ln_trusted_validators l ++ [v]) l.
Definition remove_trusted_validator (v : PublicKey) (l : LightNode) : LightNode :=
  ln_set_trusted (filter (fun w => w <> v) (ln_trusted_validators l)) l.
Definition trusted_validator_count (l : LightNode) : Z := len (ln_trusted_validators l).
Definition is_validator_trusted (v : PublicKey) (l : LightNode) : bool := bool_decide (v ∈ ln_trusted_validators l).

(** A call on the network, [NodeNotInitialized] without it. *)
Definition ln_on_network {A : Type} (m : VStM NetworkManager A) : VStM LightNode A := fun l =>
  match ln_network l with
  | None => (Err NodeNotInitialized, l)
  | Some n => let '(r, n') := m n in (r, ln_set_network (Some n') l)
  end.

Definition light_start (i : NodeInputs) : VStM LightNode unit :=
  self ← get;
  _ ← lift (ensure (negb (ln_running self)) NodeAlreadyRunning);
  _ ← light_initialize i;
  _ ← ln_on_network (network_start (ni_clock i 2) (ni_random i));
  modify (ln_set_running true (Some (ni_clock i 3))).

Definition light_stop : VStM LightNode unit :=
  self ← get;
  _ ← lift (ensure (ln_running self) NodeNotRunning);
  _ ← modify (ln_set_running false (ln_started_at self));
  match ln_network self with
  | Some _ => ln_on_network network_stop
  | None => mret tt
  end.

Definition light_best_hash (l : LightNode) : BlockHash :=
  match ln_block_headers l !! ln_current_height l with Some h => lh_hash h | None => BlockHash_zero end.
Definition light_status (now now' : Z) (l : LightNode) : NodeStatus :=
  let '(peers, syncing) :=
    match ln_network l with
    | Some n => (network_peer_count n, status_is_syncing (network_sync_status now n))
    | None => (0, false)
    end in
  mkNodeStatus NLight (ln_running l) syncing (ln_current_height l) (light_best_hash l) peers
    (uptime now' (ln_started_at l)) (ln_started_at l).

(** ** validator.rs *)
Record ValidatorNode := mkValidatorNode {
  vn_config : NodeConfig;
  vn_validator_key : KeyPair;
  vn_components : option NodeComponents;
  vn_consensus : option ProofOfAuthority;
  vn_running : bool;
  vn_started_at : option Z;
  vn_stats : NodeStats
}.

(** [read] is [std::fs::read]. *)
Definition ValidatorNode_new (read : string -> list byte + string) (config : NodeConfig) : VResult ValidatorNode :=
  key_path ← ok_or (ndc_validator_key_path config) (ConfigError "Validator key path required");
  validator_key ← KeyPair_load_from_file read key_path "";
  Ok (mkValidatorNode config validator_key None None false None NodeStats_default).

Definition validator_public_key (v : ValidatorNode) : PublicKey := kp_public (vn_validator_key v).

Definition vn_set_components (c : NodeComponents) (v : ValidatorNode) : ValidatorNode :=
  mkValidatorNode (vn_config v) (vn_validator_key v) (Some c) (vn_consensus v) (vn_running v) (vn_started_at v) (vn_stats v).
Definition vn_set_consensus (p : ProofOfAuthority) (v : ValidatorNode) : ValidatorNode :=
  mkValidatorNode (vn_config v) (vn_validator_key v) (vn_components v) (Some p) (vn_running v) (vn_started_at v) (vn_stats v).
Definition vn_set_running (b : bool) (started_at : option Z) (v : ValidatorNode) : ValidatorNode :=
  mkValidatorNode (vn_config v) (vn_validator_key v) (vn_components v) (vn_consensus v) b started_at (vn_stats v).
Definition vn_set_stats (s : NodeStats) (v : ValidatorNode) : ValidatorNode :=
  mkValidatorNode (vn_config v) (vn_validator_key v) (vn_components v) (vn_consensus v) (vn_running v) (vn_started_at v) s.

Definition vn_on_components {A : Type} (m : VStM NodeComponents A) : VStM ValidatorNode A := fun v =>
  match vn_components v with
  | None => (Err NodeNotInitialized, v)
  | Some c => let '(r, c') := m c in (r, vn_set_components c' v)
  end.

(** The checks of [initialize]: membership, and the schedule of the first ten heights that is logged. *)
Definition check_validator (consensus : ProofOfAuthority) (our_pubkey : PublicKey) : VResult unit :=
  _ ← ensure (poa_is_validator consensus our_pubkey) (InvalidValidator "Unauthorized validator");
  for_each (fun height => _ ← get_block_producer consensus height; Ok tt) (seqZ 1 10).

Definition validator_initialize (i : NodeInputs) : VStM (D * ValidatorNode) unit := fun '(d, v) =>
  match open_components i (vn_config v) d with
  | (Ok (genesis, c), d') =>
      let consensus := ProofOfAuthority_new (ValidatorSet_new (ni_clock i 3) (gb_validators genesis)) in
      match check_validator consensus (validator_public_key v) with
      | Ok _ => (Ok tt, (d', vn_set_consensus consensus (vn_set_components c v)))
      | Err e => (Err e, (d', v))
      | Panic => (Panic, (d', v))
      end
  | (Err e, d') => (Err e, (d', v))
  | (Panic, d') => (Panic, (d', v))
  end.

(** Reading [consensus], [NodeNotInitialized] without it. *)
Definition vn_initialized (v : ValidatorNode) : VResult (NodeComponents * ProofOfAuthority) :=
  components ← ok_or (vn_components v) NodeNotInitialized;
  consensus ← ok_or (vn_consensus v) NodeNotInitialized;
  Ok (components, consensus).

(** The part of [produce_block] after the turn check, before the chain is extended. *)
Definition make_block (now next_height : Z) (previous_hash : BlockHash) (key : KeyPair) : VResult Block :=
  block ← Block_new now next_height previous_hash [] (kp_public key);
  signature ← sign_message key (array_list (block_hash_bytes (block_hash block)));
  Ok (add_signature block (kp_public key) (mkSignature signature)).

(** [produce_block]; [now] is read for the block, [t] and [nonce] for the message. *)
Definition produce_block (now t nonce : Z) : VStM ValidatorNode unit :=
  self ← get;
  '(components, consensus) ← lift (vn_initialized self);
  let our_pubkey := validator_public_key self in
  _ ← lift (ensure (poa_is_validator consensus our_pubkey) (InvalidValidator "Unauthorized validator"));
  let blockchain := cmp_blockchain components in
  let next_height := u64_add (bc_height blockchain) 1 in
  best ← lift (get_best_block blockchain);
  expected_producer ← lift (get_block_producer consensus next_height);
  if negb (bool_decide (expected_producer = our_pubkey)) then mret tt
  else
    block ← lift (make_block now next_height (bh_hash (block_header best)) (vn_validator_key self));
    _ ← lift (validate_block consensus block);
    _ ← vn_on_components (on_chain (add_block block));
    message ← lift (Message_new_block t nonce block);
    _ ← vn_on_components (on_network (broadcast t message));
    modify (fun v => vn_set_stats (count_produced (vn_stats v)) v).

Definition validator_handle_new_block (block : Block) : VStM ValidatorNode unit :=
  self ← get;
  '(_, consensus) ← lift (vn_initialized self);
  _ ← lift (ensure (poa_is_validator consensus (bh_validator (block_header block)))
              (InvalidValidator "Unauthorized validator"));
  _ ← lift (validate_block consensus block);
  _ ← vn_on_components (on_chain (add_block block));
  modify (fun v => vn_set_stats (count_validated (vn_stats v)) v).

Definition validator_is_validator (v : ValidatorNode) : bool :=
  match vn_consensus v with Some p => poa_is_validator p (validator_public_key v) | None => false end.

(** [start]; the RPC task only reads the shared chain and network. *)
Definition validator_start (i : NodeInputs) : VStM (D * ValidatorNode) unit :=
  '(_, self) ← get;
  _ ← lift (ensure (negb (vn_running self)) NodeAlreadyRunning);
  _ ← validator_initialize i;
  _ ← on_node (vn_on_components (on_network (network_start (ni_clock i 4) (ni_random i))));
  _ ← (if ndc_enable_rpc (vn_config self) then
         rpc_addr ← lift (ok_or (ndc_rpc_addr (vn_config self)) (ConfigError "RPC address required"));
         lift (match ni_parse_addr i rpc_addr with
               | inl _ => Ok tt
               | inr e => Err (ConfigError ("Invalid RPC address: " ++ e))
               end)
       else mret tt);
  on_node (modify (vn_set_running true (Some (ni_clock i 5)))).

Definition validator_stop : VStM ValidatorNode unit :=
  self ← get;
  _ ← lift (ensure (vn_running self) NodeNotRunning);
  _ ← modify (vn_set_running false (vn_started_at self));
  match vn_components self with
  | Some _ => vn_on_components (on_network network_stop)
  | None => mret tt
  end.

Definition validator_status (now now' : Z) (v : ValidatorNode) : NodeStatus :=
  let '(height, hash, peers, syncing) := components_status now (vn_components v) in
  mkNodeStatus NValidator (vn_running v) syncing height hash peers (uptime now' (vn_started_at v)) (vn_started_at v).
Definition validator_current_height (v : ValidatorNode) : Z :=
  match vn_components v with Some c => get_current_height c | None => 0 end.
Definition validator_best_hash (v : ValidatorNode) : BlockHash :=
  match vn_components v with Some c => get_best_hash c | None => BlockHash_zero end.

(** ** [NodeBuilder::build] *)
Inductive AnyNode := NodeV (v : ValidatorNode) | NodeF (f : FullNode) | NodeL (l : LightNode).
Definition NodeBuilder_build (read : string -> list byte + string) (config : NodeConfig) : VResult AnyNode :=
  match ndc_node_type config with
  | NValidator => NodeV <$> ValidatorNode_new read config
  | NFull => NodeF <$> FullNode_new config
  | NLight => NodeL <$> LightNode_new config
  end.

(** ** Ticks of the block production loop *)
Definition production_step (v v' : ValidatorNode) : Prop :=
  if vn_running v then exists now t nonce r, produce_block now t nonce v = (r, v') else v' = v.

(** ** Lookups of the full node *)

Lemma omap_none {A B : Type} (g : A -> option B) (l : list A) : (forall x, x ∈ l -> g x = None) -> omap g l = [].
Proof.
  induction l as [|x l IH]; intros Hl; cbn; [done|]. rewrite (Hl x) by left. apply IH. intros y Hy. apply Hl. by right.
Qed.

Lemma head_omap_unique {A B : Type} (g : A -> option B) (l : list A) x y :
  x ∈ l -> g x = Some y -> (forall z, z ∈ l -> g z = None \/ g z = Some y) -> head (omap g l) = Some y.
Proof.
  induction l as [|z l IH]; intros Hx Hy Hl; [by apply elem_of_nil in Hx|]. cbn.
  destruct (g z) as [w|] eqn:E; cbn.
  - destruct (Hl z); [left|congruence|congruence].
  - apply elem_of_cons in Hx as [->|Hx]; [congruence|]. apply IH; [done..|]. intros u Hu. apply Hl. by right.
Qed.

Lemma block_tx_at_Some c id h tx :
  chain_wf c -> 0 <= h -> block_tx_at c id h = Some tx -> bc_tx_to_block c !! id = Some h.
Proof.
  intros Hwf Hpos. unfold block_tx_at, get_block_at_height. rewrite wf_search_height by done.
  destruct (bc_blocks c !! Z.to_nat h) as [b|] eqn:Hb; cbn; [|done].
  intros [Hin Hid]%find_by_Some. apply bool_decide_eq_true in Hid as <-.
  rewrite (wf_tx_complete c Hwf _ _ _ Hb Hin). f_equal. lia.
Qed.

Lemma block_tx_at_index c id h b :
  chain_wf c -> 0 <= h -> bc_blocks c !! Z.to_nat h = Some b -> block_tx_at c id h = block_get_transaction b id.
Proof. intros Hwf Hpos Hb. unfold block_tx_at, get_block_at_height. by rewrite wf_search_height, Hb. Qed.

(** On a well-formed chain the full node's scan over all heights and their transactions
    returns exactly what the chain's own index returns, and its lookup by height what the
    direct access returns; without components both return nothing. *)
Theorem full_node_scan_is_lookup (f : FullNode) (id : TxId) (height : Z) :
  (fn_components f = None -> full_get_transaction id f = Ok None /\ full_get_block height f = Ok None) /\
  (forall c, fn_components f = Some c -> chain_wf (cmp_blockchain c) -> 0 <= height ->
      full_get_transaction id f = get_transaction (cmp_blockchain c) id /\
      full_get_block height f = get_block_by_height (cmp_blockchain c) height).
Proof.
  unfold full_get_transaction, full_get_block. split; [by intros ->|]. intros comps ->.
  set (c := cmp_blockchain comps). intros Hwf Hh. split.
  - pose proof (wf_get_transaction c id Hwf) as Hg. pose proof (wf_height c Hwf) as Hlen.
    destruct (bc_tx_to_block c !! id) as [h|] eqn:E.
    + destruct Hg as (b & tx & Hpos & Hb & Hbt & ->). f_equal. apply (head_omap_unique _ _ h).
      * apply elem_of_seqZ. apply lookup_lt_Some in Hb. unfold len in *. lia.
      * by rewrite (block_tx_at_index c id h b).
      * intros z [Hz _]%elem_of_seqZ. destruct (block_tx_at c id z) as [ux|] eqn:Ez; [right|by left].
        assert (z = h) as -> by (apply block_tx_at_Some in Ez; [congruence|done..]).
        rewrite (block_tx_at_index c id h b) in Ez by done. congruence.
    + rewrite Hg. f_equal. rewrite omap_none; [done|]. intros z [Hz _]%elem_of_seqZ.
      destruct (block_tx_at c id z) as [ux|] eqn:Ez; [|done]. apply block_tx_at_Some in Ez; [congruence|done..].
  - rewrite wf_lookup_height by done. unfold get_block_at_height. rewrite wf_search_height by done.
    by destruct (bc_blocks c !! Z.to_nat height).
Qed.

(** ** Starting *)

Lemma open_components_Ok i config d g c d' :
  open_components i config d = (Ok (g, c), d') ->
  load_genesis i config = Ok g /\ Blockchain_new (ni_clock i 0) g = Ok (cmp_blockchain c).
Proof.
  unfold open_components. unfold_st. destruct (load_genesis i config) as [g'| |]; [|by intros [=]..].
  destruct (Blockchain_new _ g') as [b| |] eqn:Eb; [|by intros [=]..].
  destruct (StorageManager_new _ _ _ _ d) as [[st| |] d1]; [|by intros [=]..].
  by intros [= <- <- <-].
Qed.

Lemma on_network_chain {A : Type} (m : VStM NetworkManager A) c r c' :
  on_network m c = (r, c') -> cmp_blockchain c' = cmp_blockchain c.
Proof. unfold on_network. destruct (m _). by intros [= _ <-]. Qed.

Lemma Blockchain_new_single now g c : Blockchain_new now g = Ok c -> bc_height c = 0 /\ length (bc_blocks c) = 1%nat.
Proof. unfold Blockchain_new. by intros (b & _ & [= <-])%bind_Ok. Qed.

(** A node that is running refuses to start again; a start that succeeds puts the node on
    the chain of the genesis file alone, whatever chain it had before and whatever its storage
    holds: the blocks of an earlier run are forgotten while the pending transactions stay. *)
Theorem restart_forgets_chain (i : NodeInputs) (d d' : D) (f f' : FullNode) (r : VResult unit) :
  full_start i (d, f) = (r, (d', f')) ->
  (fn_running f = true -> r = Err NodeAlreadyRunning /\ f' = f) /\
  (r = Ok tt ->
   exists g c, load_genesis i (fn_config f) = Ok g /\ Blockchain_new (ni_clock i 0) g = Ok (cmp_blockchain c) /\
     fn_components f' = Some c /\ full_current_height f' = 0 /\ len (bc_blocks (cmp_blockchain c)) = 1 /\
     fn_running f' = true /\ fn_pending_transactions f' = fn_pending_transactions f).
Proof.
  unfold full_start. unfold_st. destruct (fn_running f); cbn; [by intros [= <- <- <-]|].
  intros E. split; [done|]. intros ->. revert E. unfold full_initialize.
  destruct (open_components i (fn_config f) d) as [[[g c]| |] d1] eqn:Eo; [|by intros [=]..].
  apply open_components_Ok in Eo as [Hg Hc]. unfold on_node, fn_on_components. cbn [fn_components fn_set_components].
  destruct (on_network _ c) as [[u| |] c1] eqn:En; [|by intros [=]..]. intros [= <- <-].
  apply on_network_chain in En. rewrite <- En in Hc. apply Blockchain_new_single in Hc as Hb. destruct Hb as [Hh Hl].
  exists g, c1. unfold len. rewrite Hl. done.
Qed.

(** ** The validator *)
Definition vn_chain (v : ValidatorNode) : option Blockchain := cmp_blockchain <$> vn_components v.

Lemma vn_initialized_Ok v c p : vn_initialized v = Ok (c, p) <-> vn_components v = Some c /\ vn_consensus v = Some p.
Proof. unfold vn_initialized. destruct (vn_components v), (vn_consensus v); cbn; naive_solver. Qed.

#[local] Arguments make_block : simpl never.
#[local] Arguments Message_new_block : simpl never.
#[local] Arguments poa_validate_block : simpl never.
#[local] Arguments vn_on_components : simpl never.
#[local] Arguments get_best_block : simpl never.
#[local] Arguments get_block_producer : simpl never.
#[local] Arguments vn_initialized : simpl never.
#[local] Arguments u64_add : simpl never.

(** What one tick does: nothing to the chain, or it appends the node's own block on its turn. *)
Definition tick_effect (v v' : ValidatorNode) : Prop :=
  vn_consensus v' = vn_consensus v /\ vn_validator_key v' = vn_validator_key v /\
  (vn_chain v' = vn_chain v \/
   exists c p b, vn_chain v = Some c /\ vn_consensus v = Some p /\
     get_block_producer p (u64_add (bc_height c) 1) = Ok (validator_public_key v) /\
     block_height b = u64_add (bc_height c) 1 /\ block_acceptable c b /\ vn_chain v' = Some (append_block b c)).

Lemma tick_effect_refl v : tick_effect v v.
Proof. unfold tick_effect. auto. Qed.

Lemma make_block_height now h prev key b : make_block now h prev key = Ok b -> block_height b = h.
Proof.
  unfold make_block. intros (b0 & Hb0 & (sg & _ & [= <-])%bind_Ok)%bind_Ok.
  unfold Block_new in Hb0. by apply bind_Ok in Hb0 as (root & _ & [= <-]).
Qed.

Lemma produce_block_effect now t nonce v r v' : produce_block now t nonce v = (r, v') -> tick_effect v v'.
Proof.
  pose proof (tick_effect_refl v). unfold produce_block. unfold_st.
  destruct (vn_initialized v) as [[c p]| |] eqn:Ei; [|by intros [= _ <-]..].
  apply vn_initialized_Ok in Ei as [Hc Hp].
  destruct (poa_is_validator p (validator_public_key v)); cbn; [|by intros [= _ <-]].
  destruct (get_best_block (cmp_blockchain c)) as [best| |]; [|by intros [= _ <-]..].
  destruct (get_block_producer p _) as [w| |] eqn:Ew; [|by intros [= _ <-]..].
  case_bool_decide as Hw; cbn; [subst w|by intros [= _ <-]].
  destruct (make_block _ _ _ _) as [b| |] eqn:Em; [|by intros [= _ <-]..]. apply make_block_height in Em as Hb.
  destruct (poa_validate_block p b) as [u| |]; [|by intros [= _ <-]..].
  unfold vn_on_components at 1. rewrite Hc. unfold on_chain at 1.
  destruct (add_block b (cmp_blockchain c)) as [ra c1] eqn:Ea.
  assert (ra <> Ok tt -> c1 = cmp_blockchain c) as Hne by by intros ?; eapply add_block_not_Ok.
  destruct ra as [[]|e|].
  2,3: rewrite Hne by done; intros [= _ <-]; split_and!; [done..|left; unfold vn_chain; by rewrite Hc].
  apply add_block_Ok in Ea as [Hacc ->]. set (v1 := vn_set_components _ v).
  assert (forall v2 : ValidatorNode, vn_consensus v2 = vn_consensus v -> vn_validator_key v2 = vn_validator_key v ->
            vn_chain v2 = vn_chain v1 -> tick_effect v v2) as Hdone.
  { intros v2 E1 E2 E3. split_and!; [done..|]. right. exists (cmp_blockchain c), p, b.
    rewrite E3. unfold vn_chain at 1. by rewrite Hc. }
  destruct (Message_new_block t nonce b) as [m| |]; [|by intros [= _ <-]; apply Hdone..].
  unfold vn_on_components. cbn [vn_components vn_set_components v1]. destruct (on_network _ _) as [rb c2] eqn:Eb.
  apply on_network_chain in Eb.
  destruct rb as [z| |]; intros [= _ <-]; apply Hdone; try done; unfold vn_chain; cbn; by rewrite Eb.
Qed.

(** Distinct validators do not produce at neighbouring heights. *)
Lemma next_producer_differs p h v :
  NoDup (vset_validators (poa_validator_set p)) -> 2 <= validator_count (poa_validator_set p) ->
  get_block_producer p h = Ok v -> get_block_producer p (h + 1) <> Ok v.
Proof.
  intros Hnd Hn Hp Hq. rewrite <- len_sorted in Hn.
  assert (NoDup (sorted_validators p)) as Hsnd by (unfold sorted_validators; by rewrite sort_by_perm).
  assert (vset_validators (poa_validator_set p) <> []) as Hne.
  { apply producer_is_validator in Hp. intros E. rewrite E in Hp. by apply elem_of_nil in Hp. }
  destruct (get_block_producer_index p h Hne) as (w & Hw & Ew). rewrite Ew in Hp. injection Hp as ->.
  destruct (get_block_producer_index p (h + 1) Hne) as (w & Hw' & Ew'). rewrite Ew' in Hq. injection Hq as ->.
  pose proof (NoDup_lookup _ _ _ _ Hsnd Hw Hw') as E.
  pose proof (Z.mod_pos_bound h (len (sorted_validators p)) ltac:(lia)).
  pose proof (Z.mod_pos_bound (h + 1) (len (sorted_validators p)) ltac:(lia)).
  assert (h mod len (sorted_validators p) = (h + 1) mod len (sorted_validators p)) as Em by lia.
  assert (h = h + 1); [|lia]. eapply (mod_window_inj (len (sorted_validators p)) h); [lia..|done].
Qed.

(** At height 0, or at height 1 with the node's own block. *)
Definition stalled (p : ProofOfAuthority) (key : KeyPair) (v : ValidatorNode) : Prop :=
  vn_consensus v = Some p /\ vn_validator_key v = key /\
  exists c, vn_chain v = Some c /\
    (bc_height c = 0 \/ (bc_height c = 1 /\ get_block_producer p 1 = Ok (kp_public key))).

Lemma production_step_stalled p key v v' :
  NoDup (vset_validators (poa_validator_set p)) -> 2 <= validator_count (poa_validator_set p) ->
  stalled p key v -> production_step v v' -> stalled p key v'.
Proof.
  intros Hnd Hn (Hp & Hk & c & Hc & Hh). unfold production_step. destruct (vn_running v); [|intros ->; by split_and!; [..|exists c]].
  intros (now & t & nonce & r & E). apply produce_block_effect in E as (Ep & Ek & Hch).
  split; [congruence|]. split; [congruence|].
  destruct Hch as [Hch|(c0 & p0 & b & Hc0 & Hp0 & Hturn & Hb & _ & Hc')]; [exists c; split; [congruence|done]|].
  assert (c0 = c) as -> by congruence. assert (p0 = p) as -> by congruence.
  unfold validator_public_key in Hturn. rewrite Hk in Hturn. exists (append_block b c). split; [done|]. cbn. rewrite Hb.
  destruct Hh as [Hh|[Hh Hown]]; rewrite Hh in *.
  - right. split; [done|]. done.
  - exfalso. by eapply (next_producer_differs p 1).
Qed.

Lemma validator_start_Ok i d d' v0 v g :
  load_genesis i (vn_config v0) = Ok g -> validator_start i (d, v0) = (Ok tt, (d', v)) ->
  exists p c, vset_validators (poa_validator_set p) = gb_validators g /\ vn_consensus v = Some p /\
    vn_validator_key v = vn_validator_key v0 /\ vn_chain v = Some c /\ Blockchain_new (ni_clock i 0) g = Ok c.
Proof.
  intros Hg. unfold validator_start. unfold_st. destruct (vn_running v0); cbn; [done|]. unfold validator_initialize.
  destruct (open_components i (vn_config v0) d) as [[[g' c]| |] d1] eqn:Eo; [|by intros [=]..].
  apply open_components_Ok in Eo as [Hg' Hc]. assert (g' = g) as -> by congruence.
  set (p := ProofOfAuthority_new _). destruct (check_validator p _); [|by intros [=]..].
  unfold on_node, vn_on_components. cbn [vn_components vn_set_components vn_set_consensus].
  destruct (on_network _ c) as [[u| |] c1] eqn:En; [|by intros [=]..]. apply on_network_chain in En.
  intros E. exists p, (cmp_blockchain c1). rewrite En. split; [apply ValidatorSet_new_validators|].
  assert (v = vn_set_running true (Some (ni_clock i 5))
                (vn_set_components c1 (vn_set_consensus p (vn_set_components c v0)))) as ->.
  { revert E. destruct (ndc_enable_rpc _); cbn; [|by intros [= _ <-]].
    destruct (ndc_rpc_addr _); cbn; [|by intros [=]]. destruct (ni_parse_addr i _); cbn; [by intros [= _ <-]|by intros [=]]. }
  split_and!; [done..| |done]. cbn. by rewrite En.
Qed.

(** C37: With two or more distinct validators a validator node stalls: received blocks are
    never handed to [handle_new_block], so the chain changes by the production loop only, and
    however many ticks run after a successful start the node's chain stops at height one (its
    own block, when it has the first turn) or stays at the genesis block. *)
Theorem validator_chain_stalls (i : NodeInputs) (d d' : D) (v0 v v' : ValidatorNode) (g : GenesisBlock) :
  load_genesis i (vn_config v0) = Ok g -> NoDup (gb_validators g) -> 2 <= len (gb_validators g) ->
  validator_start i (d, v0) = (Ok tt, (d', v)) -> rtc production_step v v' ->
  0 <= validator_current_height v' <= 1.
Proof.
  intros Hg Hnd Hn E Hsteps.
  destruct (validator_start_Ok _ _ _ _ _ _ Hg E) as (p & c0 & Hvs & Hp & Hk & Hc0 & Hnew).
  apply Blockchain_new_single in Hnew as [Hh0 _].
  assert (NoDup (vset_validators (poa_validator_set p)) /\ 2 <= validator_count (poa_validator_set p)) as [Hpnd Hpn]
    by (unfold validator_count; by rewrite Hvs).
  assert (stalled p (vn_validator_key v0) v) as Hst by (split_and!; [done..|exists c0; auto]).
  assert (stalled p (vn_validator_key v0) v') as (_ & _ & c & Hc & Hh).
  { clear -Hsteps Hst Hpnd Hpn. induction Hsteps; [done|]. eauto using production_step_stalled. }
  unfold validator_current_height, vn_chain in *. destruct (vn_components v') as [cm|]; [|done].
  injection Hc as <-. unfold get_current_height. lia.
Qed.

(** A block made on top of the latest one is acceptable when the clock has not gone back. *)
Lemma make_block_acceptable now c best key :
  chain_wf c -> bc_height c < 2 ^ 64 - 1 -> last (bc_blocks c) = Some best -> block_timestamp best <= now ->
  exists b sig, make_block now (bc_height c + 1) (bh_hash (block_header best)) key = Ok b /\
    sign_message key (array_list (block_hash_bytes (block_hash b))) = Ok sig /\
    block_signatures b = [mkValidatorSignature (kp_public key) (mkSignature sig)] /\ bh_validator (block_header b) = kp_public key /\
    block_timestamp b = now /\ block_height b = bc_height c + 1 /\ block_acceptable c b.
Proof.
  intros Hwf Hmax Hlast Hclock. unfold make_block, Block_new.
  destruct (transactions_root_total []) as [root Hroot]. rewrite Hroot. cbn.
  do 2 eexists. split; [done|]. split; [done|]. split_and!; [done..|]. unfold block_acceptable. split_and!.
  - apply Block_validate_Ok. cbn. split_and!; done.
  - exists best. split; [done|]. apply validate_chain_link_Ok. cbn. split_and!; [|done..].
    pose proof (wf_height c Hwf) as Hh. rewrite last_lookup in Hlast.
    rewrite (wf_block_height c _ _ Hwf Hlast). apply lookup_lt_Some in Hlast. unfold len in Hh.
    rewrite u64_add_small; lia.
  - constructor.
Qed.

(** C11: One tick of the block production loop of an initialised validator.  When it is
    another validator's turn nothing changes.  On its own turn, unless the clock is behind
    the latest block, the node extends its chain by a block that carries its verifying
    signature and passes consensus, keeps the chain well formed, and hands the block to every
    connected peer; the call succeeds and counts the block. *)
Theorem produce_block_on_turn `{!Ed25519Spec} (v : ValidatorNode) (comps : NodeComponents) (p : ProofOfAuthority)
    (sk : array 32) (best : Block) (now t nonce : Z) :
  let c := cmp_blockchain comps in
  let us := validator_public_key v in
  vn_components v = Some comps -> vn_consensus v = Some p -> vn_validator_key v = KeyPair_from_private_key sk ->
  chain_wf c -> bc_height c < 2 ^ 64 - 1 -> last (bc_blocks c) = Some best ->
  vset_wf (poa_validator_set p) -> us ∈ vset_validators (poa_validator_set p) -> 0 < poa_block_time p ->
  is_u64 now -> now + poa_block_time p < 2 ^ 64 -> (forall b : Block, exists d, bincode_encode b = inl d) ->
  (get_block_producer p (bc_height c + 1) <> Ok us -> produce_block now t nonce v = (Ok tt, v)) /\
  (get_block_producer p (bc_height c + 1) = Ok us -> block_timestamp best <= now ->
   exists b m v' comps', produce_block now t nonce v = (Ok tt, v') /\
     vn_components v' = Some comps' /\ cmp_blockchain comps' = append_block b c /\ chain_wf (append_block b c) /\
     validate_block p b = Ok tt /\
     (exists sig, block_signatures b = [mkValidatorSignature us sig] /\
        verify_signature (array_list (block_hash_bytes (block_hash b))) sig us = Ok tt) /\
     Message_new_block t nonce b = Ok m /\
     nm_peers (cmp_network comps') =
       ((fun q => if is_connected q then (peer_send t m q).2 else q) <$> nm_peers (cmp_network comps)) /\
     nds_blocks_produced (vn_stats v') = u64_add (nds_blocks_produced (vn_stats v)) 1).
Proof.
  intros c us Hc Hp Hkey Hwf Hmax Hlast Hvs Hin Hbt Hnow Hnow' Henc.
  assert (0 <= bc_height c).
  { rewrite (wf_height c Hwf). apply wf_nonempty in Hwf. destruct (bc_blocks c); [done|unfold len; cbn; lia]. }
  assert (vset_validators (poa_validator_set p) <> []) as Hne
    by (intros E; rewrite E in Hin; by apply elem_of_nil in Hin).
  destruct (get_block_producer_index p (bc_height c + 1) Hne) as (w & _ & Hw).
  assert (vn_initialized v = Ok (comps, p)) as Hi by by apply vn_initialized_Ok.
  assert (poa_is_validator p us = true) as Hval by by apply is_validator_true.
  assert (get_best_block c = Ok best) as Hbest by (unfold get_best_block; by rewrite Hlast).
  unfold produce_block. unfold_st. rewrite Hi. cbn. fold us c. rewrite Hval. cbn. rewrite Hbest. cbn.
  rewrite u64_add_small by lia. rewrite Hw. cbn. split.
  - intros Hturn. rewrite bool_decide_eq_false_2 by congruence. done.
  - intros [= ->] Hclock. rewrite bool_decide_eq_true_2 by done. cbn.
    destruct (make_block_acceptable now c best (vn_validator_key v)) as (b & sig & Hb & Hs & Hsigs & Hbv & Hts & Hbh & Hacc); [done..|].
    rewrite Hb. assert (poa_validate_block p b = Ok tt) as Hvalid
      by (apply poa_validate_block_Ok; rewrite ?Hts, ?Hbh, ?Hbv; done).
    destruct (Henc b) as [d Hd].
    assert (exists m, Message_new_block t nonce b = Ok m) as [m Hm]
      by (unfold Message_new_block, encoded, serialize; rewrite Hd; by eexists).
    rewrite Hvalid. unfold vn_on_components at 1, on_chain. rewrite Hc. fold c.
    rewrite (proj2 (add_block_Ok b c _) (conj Hacc eq_refl)). rewrite Hm.
    unfold vn_on_components. cbn [vn_components vn_set_components]. unfold on_network, broadcast.
    cbn [cmp_network]. rewrite broadcast_spec. exists b, m. do 2 eexists. split; [done|]. split; [done|].
    split; [done|]. split; [by apply append_block_wf|]. split; [done|]. split; [|done].
    exists (mkSignature sig). split; [done|]. unfold us, validator_public_key. rewrite Hkey in *.
    eapply verify_own_signature. unfold sign. unfold sign_message in Hs. injection Hs as <-. done.
Qed.

(** A full node accepts exactly the blocks its chain accepts: then the block is appended,
    its transactions leave the pending set and the counters advance; a refused block changes
    nothing, and without components the call reports [NodeNotInitialized]. *)
Theorem process_block_spec (b : Block) (f f' : FullNode) (r : VResult unit) :
  process_block b f = (r, f') ->
  match fn_components f with
  | None => r = Err NodeNotInitialized /\ f' = f
  | Some c =>
      (r = Ok tt <-> block_acceptable (cmp_blockchain c) b) /\
      (r <> Ok tt -> f' = f) /\
      (r = Ok tt ->
        (exists c', fn_components f' = Some c' /\ cmp_blockchain c' = append_block b (cmp_blockchain c) /\
           cmp_network c' = cmp_network c) /\
        fn_pending_transactions f' =
          fn_pending_transactions f ∖ list_to_set (tx_id <$> block_transactions b) /\
        nds_blocks_processed (fn_stats f') = u64_add (nds_blocks_processed (fn_stats f)) 1)
  end.
Proof.
  unfold process_block, fn_on_components. unfold_st. destruct f as [config [c|] running started stats pending]; cbn; [|by intros [= <- <-]].
  unfold on_chain. destruct (add_block b (cmp_blockchain c)) as [ra c1] eqn:Ea.
  assert (ra = Ok tt <-> block_acceptable (cmp_blockchain c) b) as Hiff.
  { split; [intros ->; by apply add_block_Ok in Ea as [? _]|]. intros Hacc.
    rewrite (proj2 (add_block_Ok b _ _) (conj Hacc eq_refl)) in Ea. congruence. }
  assert (ra <> Ok tt -> c1 = cmp_blockchain c) as Hne by by intros ?; eapply add_block_not_Ok.
  destruct ra as [[]|e|].
  2,3: rewrite Hne by done; intros [= <- <-]; split; [done|]; split; [|done]; by destruct c.
  apply add_block_Ok in Ea as [Hacc ->]. intros [= <- <-]. split; [done|]. split; [done|]. intros _.
  split; [by eexists|]. split; [|done]. cbn. clear. revert pending.
  induction (block_transactions b) as [|tx txs IH]; intros pending; cbn; [set_solver|]. rewrite IH. set_solver.
Qed.

(** ** The light node *)

(** A light node accepts a transaction whenever the proof it is given is a valid proof
    for the header's root.  The transaction is not compared with the proof's leaf: with one
    valid proof the node records any transaction as verified in that block. *)
Theorem light_accepts_any_transaction (now : Z) (tx : Transaction) (height : Z) (proof : MerkleProof) (l : LightNode) :
  let '(r, l') := light_verify_transaction now tx height proof l in
  match get_header height l with
  | None => r = Err (BlockNotFound (pretty height)) /\ l' = l
  | Some h =>
      if verify_proof proof && bool_decide (mp_root proof = lh_transactions_root h)
      then r = Ok true /\ ln_block_headers l' = ln_block_headers l /\
           (exists vt, get_verified_transaction (tx_id tx) l' = Some vt /\ vt_transaction vt = tx /\ vt_block_hash vt = lh_hash h) /\
           (forall ux, tx_id ux <> tx_id tx -> get_verified_transaction (tx_id ux) l' = get_verified_transaction (tx_id ux) l)
      else r = Ok false /\ l' = l
  end.
Proof.
  unfold light_verify_transaction, get_header, get_verified_transaction. destruct (ln_block_headers l !! height) as [h|]; [|done].
  destruct (verify_proof proof); cbn; [|done]. case_bool_decide; cbn; [|done]. split_and!; [done..| |].
  - eexists. rewrite lookup_insert_eq. done.
  - intros ux Hne. by rewrite lookup_insert_ne by done.
Qed.

(** The light node's genesis header is not that of the genesis block: the block it makes
    up has no transactions and the time of the start, so its root is the zero hash, and a
    header of the first block of a real chain links to it only if the hashes collide. *)
Theorem light_genesis_differs (now now' : Z) (g : GenesisBlock) (b lb first : Block) :
  create_block now g = Ok b -> light_genesis_block now' g = Ok lb ->
  validate_chain_link first b = Ok tt ->
  lh_timestamp (header_from_block lb) = now' /\ lh_transactions_root (header_from_block lb) = BlockHash_zero /\
  block_timestamp b = gb_timestamp g /\
  (block_hash b <> block_hash lb ->
   light_header_validate (header_from_block first) (Some (header_from_block lb)) =
     Err (InvalidPreviousHash ("Expected " ++ BlockHash_to_hex (block_hash lb) ++ ", got " ++
            BlockHash_to_hex (block_previous_hash first)))).
Proof.
  intros Hb Hlb Hlink. apply create_block_Ok in Hb as (_ & Hh & _ & Ht & _).
  apply validate_chain_link_Ok in Hlink as (Hfh & Hfp & _). unfold light_genesis_block, Block_new in Hlb. cbn in Hlb.
  injection Hlb as <-. split_and!; [done..|]. intros Hne. unfold light_header_validate. cbn.
  rewrite Hh in Hfh. unfold block_height in Hfh. rewrite Hfh. cbn. unfold block_previous_hash in *.
  rewrite bool_decide_eq_false_2; [done|]. rewrite Hfp. done.
Qed.
End node.
