(* ===== verification/Utils.v ===== *)
(** * Helpers: crates/common/src/utils.rs

    The helpers that are not modelled with the types: percentages, thresholds, truncation,
    ranges and the retry loop.  A string is its UTF-8 bytes; a character is a byte that does
    not continue another together with the continuation bytes after it.  The sleeps of the
    retry loop are recorded in the order they are made. *)
From stdpp Require Import prelude strings list.
From Stdlib Require Import Strings.Byte Strings.Ascii.
From S2P Require Import Prelude Floats64 Types.

Local Open Scope Z_scope.

Definition calculate_percentage (part total : Z) : f64 :=
  if total =? 0 then f64_zero else f64_div (f64_of_Z part) (f64_of_Z total).
Definition meets_threshold (part total : Z) (threshold : f64) : bool :=
  f64_ge (calculate_percentage part total) threshold.

Definition validate_range (value min max : Z) : bool := (min <=? value) && (value <=? max).

Definition bytes_to_hex `{HexCrate} (bytes : list byte) : string := hex_encode bytes.
Definition hex_to_bytes `{HexCrate} (hex_str : string) : Result FromHexError (list byte) := hex_decode hex_str.

(** ** Truncation *)
Definition continues (c : ascii) : bool := let n := N_of_ascii c in ((128 <=? n) && (n <? 192))%N.

(** [s.chars().count()] and [s.chars().take(n).collect()]. *)
Fixpoint char_count (s : string) : nat :=
  match s with
  | EmptyString => O
  | String c s' => (if continues c then 0 else 1) + char_count s'
  end.
Fixpoint take_chars (n : nat) (s : string) : string :=
  match s with
  | EmptyString => EmptyString
  | String c s' =>
      if continues c then String c (take_chars n s')
      else match n with O => EmptyString | S n' => String c (take_chars n' s') end
  end.

Definition truncate_string (s : string) (max_len : nat) : string :=
  if (String.length s <=? max_len)%nat then s
  else if (max_len <? 3)%nat then take_chars max_len s
  else take_chars (max_len - 3) s ++ "...".

Definition format_hash_short `{HexCrate} (hash : array 32) : string := truncate_string (hex_encode (array_list hash)) 8.

(** ** Retrying *)
Section retry.
Context {St E T : Type} (operation : stM E St T).

(** The loop with [attempts] left; [None] is the initial [last_error], whose [unwrap] panics. *)
Fixpoint retry_loop (attempts : nat) (delay : Z) (last_error : option E) (s : St) : Result E T * St * list Z :=
  match attempts with
  | O => (match last_error with Some e => Err e | None => Panic end, s, [])
  | S attempts' =>
      match operation s with
      | (Ok result, s') => (Ok result, s', [])
      | (Panic, s') => (Panic, s', [])
      | (Err e, s') =>
          match attempts' with
          | O => retry_loop attempts' delay (Some e) s'
          | _ => let '(r, s'', sleeps) := retry_loop attempts' (u64_mul delay 2) (Some e) s' in (r, s'', delay :: sleeps)
          end
      end
  end.
Definition retry_with_backoff (max_retries : nat) (initial_delay_ms : Z) (s : St) : Result E T * St * list Z :=
  retry_loop max_retries initial_delay_ms None s.

(** [failures n s e s']: [n] calls from [s] all fail, the last with [e], and lead to [s']. *)
Inductive failures : nat -> St -> E -> St -> Prop :=
| failures_one s e s' : operation s = (Err e, s') -> failures 1 s e s'
| failures_more n s e s1 e' s' : operation s = (Err e, s1) -> failures n s1 e' s' -> failures (S n) s e' s'.

(** The delays [d, 2d, 4d, ...]. *)
Fixpoint backoff (n : nat) (delay : Z) : list Z :=
  match n with O => [] | S n' => delay :: backoff n' (u64_mul delay 2) end.

Lemma failures_retry n s e s' delay last :
  failures n s e s' -> retry_loop n delay last s = (Err e, s', backoff (pred n) delay).
Proof.
  intros Hf. revert delay last. induction Hf as [s e s' E0|n s e s1 e' s' E0 Hf IH]; intros delay last; cbn [retry_loop]; rewrite E0.
  - done.
  - destruct n as [|n]; [inversion Hf|]. by rewrite IH.
Qed.

Lemma failures_then_success k n s e s1 t s2 delay last :
  failures k s e s1 -> operation s1 = (Ok t, s2) ->
  retry_loop (k + S n) delay last s = (Ok t, s2, backoff k delay).
Proof.
  intros Hf Hok. revert delay last. induction Hf as [s e s' E0|k s e s' e' s1 E0 Hf IH]; intros delay last; cbn [Nat.add retry_loop].
  - rewrite E0, Hok. done.
  - rewrite E0. destruct (k + S n)%nat as [|m] eqn:Em; [lia|]. rewrite (IH Hok). done.
Qed.
End retry.

(** Retrying ends after at most [max_retries] calls.  It returns the first success, after
    a wait that doubles between the failed calls; when all calls fail it returns the last
    error and does not wait after it.  With no retries allowed nothing is called and the
    unwrapped missing error panics. *)
Theorem retry_spec {St E T : Type} (operation : stM E St T) (n : nat) (delay : Z) (s s1 s2 : St) (e : E) (t : T) :
  (operation s = (Ok t, s2) -> retry_with_backoff operation (n + 1) delay s = (Ok t, s2, [])) /\
  (forall k, failures operation k s e s1 -> operation s1 = (Ok t, s2) ->
     retry_with_backoff operation (k + 1 + n) delay s = (Ok t, s2, backoff k delay)) /\
  (failures operation n s e s1 ->
     retry_with_backoff operation n delay s = (Err e, s1, backoff (pred n) delay)) /\
  retry_with_backoff operation 0 delay s = (Panic, s, []).
Proof.
  unfold retry_with_backoff. split_and!; [| | |done].
  - intros E0. rewrite Nat.add_1_r. cbn [retry_loop]. by rewrite E0.
  - intros k Hf Hok. rewrite <- Nat.add_assoc. by eapply failures_then_success.
  - intros Hf. by apply failures_retry.
Qed.

(** ** Truncation keeps its promise *)

Lemma char_count_take n s : (char_count (take_chars n s) <= n)%nat.
Proof.
  revert n. induction s as [|c s IH]; intros n; cbn; [lia|]. destruct (continues c) eqn:E; cbn; rewrite ?E; [apply IH|].
  destruct n; cbn; [lia|]. rewrite E. specialize (IH n). lia.
Qed.

Lemma char_count_app s t : char_count (s ++ t) = (char_count s + char_count t)%nat.
Proof.
  induction s as [|c s IH]; [done|]. change (String c s ++ t)%string with (String c (s ++ t)). cbn [char_count].
  rewrite IH. lia.
Qed.

Lemma dots_count : char_count "..." = 3%nat.
Proof. done. Qed.

Lemma char_count_length s : (char_count s <= String.length s)%nat.
Proof. induction s as [|c s IH]; cbn; [done|]. destruct (continues c); lia. Qed.

Lemma take_chars_ascii n s : char_count s = String.length s -> String.length (take_chars n s) = Nat.min n (String.length s).
Proof.
  revert n. induction s as [|c s IH]; intros n; cbn; [lia|]. pose proof (char_count_length s).
  destruct (continues c); [lia|]. destruct n; cbn; [done|]. intros Hc. rewrite IH by lia. done.
Qed.

(** A truncated string has at most [max_len] characters; a string of single-byte
    characters that does not fit comes out exactly [max_len] long, and one that fits is kept. *)
Theorem truncate_bounded (s : string) (max_len : nat) :
  (char_count (truncate_string s max_len) <= max_len)%nat /\
  ((String.length s <= max_len)%nat -> truncate_string s max_len = s) /\
  (char_count s = String.length s -> (max_len < String.length s)%nat -> String.length (truncate_string s max_len) = max_len).
Proof.
  unfold truncate_string. destruct (Nat.leb_spec (String.length s) max_len) as [Hle|Hgt].
  - split; [pose proof (char_count_length s); lia|]. split; [done|lia].
  - destruct (Nat.ltb_spec max_len 3) as [H3|H3].
    + split; [pose proof (char_count_take max_len s); lia|]. split; [lia|]. intros Ha _. rewrite take_chars_ascii by done. lia.
    + split; [rewrite char_count_app, dots_count; pose proof (char_count_take (max_len - 3) s); lia|]. split; [lia|].
      intros Ha _. rewrite length_string_app, take_chars_ascii by done. cbn. lia.
Qed.
