(* ===== verification/Benford.v ===== *)
(** * Benford analysis: crates/analytics/src/benford.rs

    First digits of vote counts against Benford's law, in bit-exact floating point.  The
    arrays [[u64; 10]] and [[f64; 10]] are lists of ten entries. *)
From stdpp Require Import prelude gmap strings list pretty.
From Stdlib Require Import Strings.Ascii Floats.SpecFloat.
From S2P Require Import Prelude Floats64 Types.

Local Open Scope Z_scope.

Definition BENFORD_FREQUENCIES : list f64 :=
  [f64_zero; f64_dec 30103 5; f64_dec 17609 5; f64_dec 12494 5; f64_dec 9691 5; f64_dec 7918 5; f64_dec 6695 5;
   f64_dec 5799 5; f64_dec 5115 5; f64_dec 4576 5].

(** The digits [1..=9]. *)
Definition digits : list nat := seq 1 9.

(** [a[i]] for an array of floats. *)
Definition at_f (l : list f64) (i : nat) : f64 := default f64_zero (l !! i).
Definition at_z (l : list Z) (i : nat) : Z := default 0 (l !! i).

Definition get_critical_value (alpha : f64) : f64 :=
  let near x := f64_lt (f64_abs (f64_sub alpha x)) (f64_dec 1 4) in
  if near (f64_dec 10 2) then f64_dec 13362 3
  else if near (f64_dec 5 2) then f64_dec 15507 3
  else if near (f64_dec 1 2) then f64_dec 20090 3
  else if near (f64_dec 1 3) then f64_dec 26125 3
  else f64_dec 15507 3.

Record BenfordResult := mkBenfordResult {
  bfr_total_values : Z;
  bfr_digit_counts : list Z;
  bfr_observed_frequencies : list f64;
  bfr_expected_frequencies : list f64;
  bfr_chi_square_statistic : f64;
  bfr_p_value : f64;
  bfr_complies_with_benford : bool;
  bfr_degrees_of_freedom : Z;
  bfr_max_deviation : f64
}.

Record DigitAnalysis := mkDigitAnalysis {
  da_digit : Z;
  da_observed_count : Z;
  da_observed_frequency : f64;
  da_expected_frequency : f64;
  da_deviation : f64;
  da_percent_deviation : f64
}.

Record DigitDistribution := mkDigitDistribution {
  dd_position : Z;
  dd_counts : list Z;
  dd_frequencies : list f64;
  dd_total_values : Z
}.

Record BenfordReport := mkBenfordReport {
  bfp_result : BenfordResult;
  bfp_digit_analysis : list DigitAnalysis;
  bfp_significance_level : string;
  bfp_interpretation : string
}.

(** The loop [while value >= 10 { value /= 10; }]; a [u64] has at most 20 digits. *)
Fixpoint leading (fuel : nat) (value : Z) : option Z :=
  if value <? 10 then Some value
  else match fuel with O => None | S fuel' => leading fuel' (value / 10) end.
Definition extract_first_digit (value : Z) : option Z :=
  if value =? 0 then Some 0 else leading 19 value.

(** One iteration of [count_first_digits]; [None] would be a loop that does not end. *)
Definition count_digit (counts : option (list Z)) (value : Z) : option (list Z) :=
  cs ← counts;
  if value =? 0 then Some cs
  else
    first_digit ← extract_first_digit value;
    Some (if (0 <? first_digit) && (first_digit <=? 9)
          then alter (fun n => u64_add n 1) (Z.to_nat first_digit) cs else cs).
Definition count_first_digits (values : list Z) : option (list Z) :=
  foldl count_digit (Some (replicate 10 0)) values.

Definition calculate_chi_square (observed : list Z) (total : f64) : f64 :=
  foldl (fun chi_square digit =>
    let observed_count := f64_of_Z (at_z observed digit) in
    let expected_count := f64_mul (at_f BENFORD_FREQUENCIES digit) total in
    if f64_gt expected_count f64_zero then
      let diff := f64_sub observed_count expected_count in
      f64_add chi_square (f64_div (f64_mul diff diff) expected_count)
    else chi_square) f64_zero digits.

Definition estimate_p_value (chi_square : f64) : f64 :=
  if f64_lt chi_square (get_critical_value (f64_dec 10 2)) then f64_one
  else if f64_lt chi_square (get_critical_value (f64_dec 5 2)) then f64_dec 75 3
  else if f64_lt chi_square (get_critical_value (f64_dec 1 2)) then f64_dec 3 2
  else if f64_lt chi_square (get_critical_value (f64_dec 1 3)) then f64_dec 5 3
  else f64_dec 5 4.

Definition calculate_max_deviation (observed : list f64) : f64 :=
  foldl (fun max_deviation digit =>
    let deviation := f64_abs (f64_sub (at_f observed digit) (at_f BENFORD_FREQUENCIES digit)) in
    if f64_gt deviation max_deviation then deviation else max_deviation) f64_zero digits.

(** [analyze]; [None] would be a loop that does not end. *)
Definition benford_analyze (values : list Z) : option (VResult BenfordResult) :=
  if len values =? 0 then Some (Err (InsufficientData "No values provided for Benford analysis"))
  else if len values <? 30 then
    Some (Err (InsufficientData ("Benford analysis requires at least 30 values, got " ++ pretty (len values))))
  else
    digit_counts ← count_first_digits values;
    let total := f64_of_Z (len values) in
    let chi_square := calculate_chi_square digit_counts total in
    let p_value := estimate_p_value chi_square in
    let complies := f64_lt chi_square (get_critical_value (f64_dec 5 2)) in
    let observed_frequencies := f64_zero :: ((fun d => f64_div (f64_of_Z (at_z digit_counts d)) total) <$> digits) in
    Some (Ok (mkBenfordResult (len values) digit_counts observed_frequencies BENFORD_FREQUENCIES chi_square p_value
                complies 8 (calculate_max_deviation observed_frequencies))).

(** [s.chars().rev().nth(position)]. *)
Fixpoint string_rev (s acc : string) : string :=
  match s with EmptyString => acc | String c s' => string_rev s' (String c acc) end.
(** [char::to_digit(10)]. *)
Definition to_digit (c : ascii) : option Z :=
  let n := Z.of_N (N_of_ascii c) in
  if (48 <=? n) && (n <=? 57) then Some (n - 48) else None.

(** [extract_digit_at_position]: [pretty] is [to_string]. *)
Definition extract_digit_at_position (value : Z) (position : nat) : option Z :=
  let s := pretty value in
  if (String.length s <=? position)%nat then None
  else digit_char ← String.get position (string_rev s ""); to_digit digit_char.

Definition analyze_by_position (values : list Z) (position : nat) : VResult DigitDistribution :=
  if len values =? 0 then Err (InsufficientData "No values provided")
  else
    let found := omap (fun v => extract_digit_at_position v position) values in
    let counts := foldl (fun cs d => alter (fun n => u64_add n 1) (Z.to_nat d) cs) (replicate 10 0) found in
    let valid_count := len found in
    let frequencies :=
      if 0 <? valid_count then (fun c => f64_div (f64_of_Z c) (f64_of_Z valid_count)) <$> counts
      else replicate 10 f64_zero in
    Ok (mkDigitDistribution (Z.of_nat position) counts frequencies valid_count).

Definition interpret_result (r : BenfordResult) : string :=
  if bfr_complies_with_benford r
  then "Data complies with Benford's Law. No significant evidence of manipulation detected."
  else "Data deviates significantly from Benford's Law (chi-square: " ++ f64_fixed 2 (bfr_chi_square_statistic r) ++
       ", p-value: " ++ f64_fixed 4 (bfr_p_value r) ++ "). Maximum deviation: " ++ f64_fixed 4 (bfr_max_deviation r) ++
       ". This may indicate data manipulation, but could also result from legitimate factors such as vote count ranges, jurisdictional boundaries, or other systematic effects.".

Definition digit_analysis (r : BenfordResult) (digit : nat) : DigitAnalysis :=
  let observed := at_f (bfr_observed_frequencies r) digit in
  let expected := at_f BENFORD_FREQUENCIES digit in
  let deviation := f64_sub observed expected in
  let percent_deviation :=
    if f64_gt expected f64_zero then f64_mul (f64_div deviation expected) f64_hundred else f64_zero in
  mkDigitAnalysis (Z.of_nat digit) (at_z (bfr_digit_counts r) digit) observed expected deviation percent_deviation.

Definition benford_generate_report (r : BenfordResult) : BenfordReport :=
  let chi := bfr_chi_square_statistic r in
  let significance_level : string :=
    if f64_lt chi (get_critical_value (f64_dec 10 2)) then "Not significant (p > 0.10)"
    else if f64_lt chi (get_critical_value (f64_dec 5 2)) then "Marginally significant (0.05 < p < 0.10)"
    else if f64_lt chi (get_critical_value (f64_dec 1 2)) then "Significant (0.01 < p < 0.05)"
    else if f64_lt chi (get_critical_value (f64_dec 1 3)) then "Very significant (0.001 < p < 0.01)"
    else "Highly significant (p < 0.001)" in
  mkBenfordReport r (digit_analysis r <$> digits) significance_level (interpret_result r).

(** ** First digits *)

Lemma leading_spec fuel v :
  0 < v < 10 ^ (Z.of_nat fuel + 1) ->
  exists d k, leading fuel v = Some d /\ 1 <= d <= 9 /\ 0 <= k /\ d * 10 ^ k <= v < (d + 1) * 10 ^ k.
Proof.
  revert v. induction fuel as [|fuel IH]; intros v Hv; cbn [leading].
  - destruct (Z.ltb_spec v 10); [|change (10 ^ (Z.of_nat 0 + 1)) with 10 in Hv; lia].
    exists v, 0. rewrite Z.pow_0_r. split; [done|]. lia.
  - destruct (Z.ltb_spec v 10) as [Hlt|Hge]; [exists v, 0; rewrite Z.pow_0_r; split; [done|lia]|].
    destruct (IH (v / 10)) as (d & k & Hd & Hdr & Hk & Hb).
    { split; [apply Z.div_str_pos; lia|]. apply Z.div_lt_upper_bound; [lia|].
      rewrite Nat2Z.inj_succ, <- Z.add_1_r, (Z.pow_add_r 10 (Z.of_nat fuel + 1) 1) in Hv by lia. lia. }
    exists d, (k + 1). split; [done|]. split; [done|]. split; [lia|]. rewrite Z.pow_add_r, Z.pow_1_r by lia.
    pose proof (Z.div_mod v 10 ltac:(lia)). pose proof (Z.mod_pos_bound v 10 ltac:(lia)). nia.
Qed.

Lemma first_digit_spec v :
  is_u64 v -> v <> 0 ->
  exists d k, extract_first_digit v = Some d /\ 1 <= d <= 9 /\ 0 <= k /\ d * 10 ^ k <= v < (d + 1) * 10 ^ k.
Proof.
  intros [Hlo Hhi] Hne. unfold extract_first_digit. destruct (Z.eqb_spec v 0); [done|].
  apply leading_spec. split; [lia|]. etransitivity; [exact Hhi|]. done.
Qed.

(** The values with a first digit. *)
Definition with_first_digit (d : Z) (values : list Z) : list Z :=
  filter (fun v => v <> 0 /\ extract_first_digit v = Some d) values.

Lemma with_first_digit_snoc d values v :
  with_first_digit d (values ++ [v]) =
    with_first_digit d values ++ (if decide (v <> 0 /\ extract_first_digit v = Some d) then [v] else []).
Proof. unfold with_first_digit. by rewrite list.filter_app, filter_cons, filter_nil. Qed.

Lemma count_first_digits_snoc values v :
  count_first_digits (values ++ [v]) = count_digit (count_first_digits values) v.
Proof. unfold count_first_digits. by rewrite foldl_app. Qed.

Lemma count_first_digits_spec values :
  Forall is_u64 values -> len values < 2 ^ 64 ->
  exists counts, count_first_digits values = Some counts /\ length counts = 10%nat /\
    forall d, (d < 10)%nat -> counts !! d = Some (len (with_first_digit (Z.of_nat d) values)).
Proof.
  induction values as [|v values IH] using rev_ind; intros Hall Hlen.
  - exists (replicate 10 0). split; [done|]. split; [done|]. intros d Hd. by rewrite lookup_replicate_2.
  - apply Forall_app in Hall as [Hall Hv]. rewrite Forall_singleton in Hv. rewrite len_app in Hlen. change (len [v]) with 1 in Hlen.
    destruct IH as (cs & Hcs & Hl & Hlook); [done|lia|]. rewrite count_first_digits_snoc, Hcs. cbn [count_digit mbind option_bind].
    destruct (Z.eqb_spec v 0) as [->|Hne].
    { exists cs. split; [done|]. split; [done|]. intros d Hd.
      rewrite with_first_digit_snoc, decide_False, app_nil_r by naive_solver. by apply Hlook. }
    destruct (first_digit_spec v Hv Hne) as (e & k & He & Her & _). rewrite He. cbn [mbind option_bind].
    rewrite (proj2 (Z.ltb_lt 0 e)), (proj2 (Z.leb_le e 9)) by lia. cbn [andb].
    eexists. split; [done|]. split; [by rewrite length_alter|]. intros d Hd. rewrite with_first_digit_snoc.
    destruct (decide (Z.of_nat d = e)) as [<-|Hde].
    + rewrite Nat2Z.id, list_lookup_alter_eq, Hlook by done. cbn. f_equal. rewrite decide_True, len_app by done.
      change (len [v]) with 1. apply u64_add_small.
      assert (len (with_first_digit (Z.of_nat d) values) <= len values) by (unfold len, with_first_digit; pose proof (length_filter (fun v => v <> 0 /\ extract_first_digit v = Some (Z.of_nat d)) values); lia).
      pose proof (len_nonneg (with_first_digit (Z.of_nat d) values)). lia.
    + rewrite list_lookup_alter_ne by lia. rewrite decide_False, app_nil_r; [by apply Hlook|]. intros [_ E]. congruence.
Qed.

Lemma len_first_digit_cons d v values :
  is_u64 v ->
  len (with_first_digit d (v :: values)) =
    (if v =? 0 then 0 else match extract_first_digit v with Some e => if e =? d then 1 else 0 | None => 0 end) +
    len (with_first_digit d values).
Proof.
  intros Hv. unfold with_first_digit. rewrite filter_cons.
  destruct (Z.eqb_spec v 0); [rewrite decide_False by naive_solver; done|].
  destruct (extract_first_digit v) as [e|]; [|rewrite decide_False by naive_solver; done].
  destruct (Z.eqb_spec e d); case_decide; try naive_solver; rewrite len_cons; done.
Qed.

(** The ten counts of [count_first_digits_spec] add up to the number of nonzero values. *)
Lemma sum_of_counts values :
  Forall is_u64 values ->
  foldr Z.add 0 ((fun d => len (with_first_digit (Z.of_nat d) values)) <$> seq 0 10) = len (filter (fun v => v <> 0) values).
Proof.
  induction 1 as [|v values Hv _ IH]; [done|]. rewrite filter_cons.
  cbn [seq fmap list_fmap foldr] in *.
  repeat match goal with |- context [Z.of_nat ?n] => let z := eval vm_compute in (Z.of_nat n) in change (Z.of_nat n) with z in * end.
  rewrite !len_first_digit_cons by done.
  destruct (Z.eqb_spec v 0) as [Hz|Hne]; [rewrite decide_False by naive_solver; lia|]. rewrite decide_True, len_cons by done.
  destruct (first_digit_spec v Hv Hne) as (e & k & He & Her & _). rewrite He.
  assert (e = 1 \/ e = 2 \/ e = 3 \/ e = 4 \/ e = 5 \/ e = 6 \/ e = 7 \/ e = 8 \/ e = 9) as Hc by lia.
  destruct Hc as [->|[->|[->|[->|[->|[->|[->|[->| ->]]]]]]]]; cbn [Z.eqb Pos.eqb]; lia.
Qed.

(** The first-digit counts are exact: for [u64] values the digit loop ends, each count is
    the number of nonzero values whose first digit it is, where the first digit [d] of a value
    is the one with [d * 10^k <= value < (d + 1) * 10^k], and the nine counts add up to the
    number of nonzero values; the unused entry 0 stays 0. *)
Theorem first_digits_exact (values : list Z) :
  Forall is_u64 values -> len values < 2 ^ 64 ->
  exists counts, count_first_digits values = Some counts /\ length counts = 10%nat /\
    (forall d, (d < 10)%nat -> counts !! d = Some (len (with_first_digit (Z.of_nat d) values))) /\
    (forall d v, v ∈ with_first_digit d values -> v ∈ values /\ 1 <= d <= 9 /\
       exists k, 0 <= k /\ d * 10 ^ k <= v < (d + 1) * 10 ^ k) /\
    foldr Z.add 0 counts = len (filter (fun v => v <> 0) values).
Proof.
  intros Hall Hlen. destruct (count_first_digits_spec values Hall Hlen) as (cs & Hcs & Hl & Hlook).
  exists cs. split; [done|]. split; [done|]. split; [done|]. split.
  - intros d v ([Hne Hd] & Hin)%list_elem_of_filter. split; [done|].
    rewrite Forall_forall in Hall. destruct (first_digit_spec v (Hall v Hin) Hne) as (e & k & He & Her & Hk & Hb).
    rewrite Hd in He. injection He as <-. eauto.
  - assert (cs = (fun d => len (with_first_digit (Z.of_nat d) values)) <$> seq 0 10) as ->.
    { apply list_eq. intros d. destruct (decide (d < 10)%nat) as [Hd|Hd].
      - rewrite Hlook, list_lookup_fmap, lookup_seq_lt by done. done.
      - rewrite !lookup_ge_None_2; [done|rewrite length_fmap, length_seq; lia|lia]. }
    by apply sum_of_counts.
Qed.

(** ** The verdict *)

Lemma f64_lt_weaken (x : f64) (m m' : positive) (e : Z) :
  (m <= m')%positive -> f64_lt x (S754_finite false m e) = true -> f64_lt x (S754_finite false m' e) = true.
Proof.
  intros Hm. unfold f64_lt, SFltb, SFcompare. destruct x as [|[]| |[] mx ex]; try done.
  destruct (ex ?= e); try done. change (Pos.compare_cont Eq mx m) with (mx ?= m)%positive.
  change (Pos.compare_cont Eq mx m') with (mx ?= m')%positive.
  destruct (Pos.compare_spec mx m); try done. intros _. by rewrite (proj2 (Pos.compare_lt_iff mx m')) by lia.
Qed.

Lemma not_significant_complies chi :
  f64_lt chi (get_critical_value (f64_dec 10 2)) = true -> f64_lt chi (get_critical_value (f64_dec 5 2)) = true.
Proof.
  change (get_critical_value (f64_dec 10 2)) with (S754_finite false 7522137277615571 (-49)).
  change (get_critical_value (f64_dec 5 2)) with (S754_finite false 8729664927704285 (-49)).
  apply f64_lt_weaken. lia.
Qed.

(** The analysis of a list of [u64] values always answers: with fewer than thirty values
    by the documented error, otherwise by a result whose parts agree: the counts are those of
    the first digits, the data comply exactly when the estimated p-value exceeds 0.05, exactly
    when the report calls the deviation at most marginally significant. *)
Theorem benford_verdict (values : list Z) :
  Forall is_u64 values -> len values < 2 ^ 64 ->
  if len values <? 30 then exists msg, benford_analyze values = Some (Err (InsufficientData msg))
  else exists r, benford_analyze values = Some (Ok r) /\ bfr_total_values r = len values /\
    count_first_digits values = Some (bfr_digit_counts r) /\
    bfr_complies_with_benford r = f64_gt (bfr_p_value r) (f64_dec 5 2) /\
    (bfr_complies_with_benford r = true <->
       bfp_significance_level (benford_generate_report r) ∈
         ["Not significant (p > 0.10)"; "Marginally significant (0.05 < p < 0.10)"]%string).
Proof.
  intros Hall Hlen. unfold benford_analyze. destruct (Z.ltb_spec (len values) 30) as [Hlt|Hge].
  - destruct (Z.eqb_spec (len values) 0); by eexists.
  - destruct (Z.eqb_spec (len values) 0); [lia|].
    destruct (count_first_digits_spec values Hall Hlen) as (cs & Hcs & _). rewrite Hcs. cbn [mbind option_bind].
    eexists. split; [done|]. split; [done|]. split; [done|]. unfold benford_generate_report, estimate_p_value.
    cbn [bfr_complies_with_benford bfr_p_value bfp_significance_level bfr_chi_square_statistic].
    generalize (calculate_chi_square cs (f64_of_Z (len values))) as chi. clear. intros chi.
    destruct (f64_lt chi (get_critical_value (f64_dec 10 2))) eqn:E1.
    { apply not_significant_complies in E1. rewrite E1. split; [done|]. split; [by left|done]. }
    destruct (f64_lt chi (get_critical_value (f64_dec 5 2))); [split; [done|]; split; [by right; left|done]|].
    split; [by repeat case_match|]. split; [done|].
    intros Hin. exfalso. repeat case_match; rewrite !elem_of_cons, elem_of_nil in Hin; naive_solver.
Qed.

(** ** Digits by position *)

(** The decimal digits from the lowest on. *)
Fixpoint low_digits (fuel : nat) (x : N) (acc : string) : string :=
  match fuel with
  | O => acc
  | S fuel' => if decide (x = 0)%N then acc else String (pretty_N_char (x mod 10)) (low_digits fuel' (x / 10) acc)
  end.

Lemma div10_fuel (x : N) (n : nat) : x <> 0%N -> (N.to_nat x <= S n)%nat -> (N.to_nat (x / 10) <= n)%nat.
Proof. intros Hx Hn. pose proof (N.div_lt x 10 ltac:(lia) ltac:(lia)). lia. Qed.

Lemma string_rev_go fuel x s acc :
  (N.to_nat x <= fuel)%nat -> string_rev (pretty_N_go x s) acc = string_rev s (low_digits fuel x acc).
Proof.
  revert x s. induction fuel as [|fuel IH]; intros x s Hf.
  - assert (x = 0%N) as -> by lia. by rewrite pretty_N_go_0.
  - cbn [low_digits]. case_decide as Hx; [subst; by rewrite pretty_N_go_0|].
    rewrite pretty_N_go_step by lia. rewrite IH by by apply div10_fuel. done.
Qed.

Lemma get_low_digits fuel x p :
  (N.to_nat x <= fuel)%nat ->
  String.get p (low_digits fuel x "") =
    if decide (10 ^ N.of_nat p <= x)%N then Some (pretty_N_char ((x / 10 ^ N.of_nat p) mod 10)) else None.
Proof.
  revert x p. induction fuel as [|fuel IH]; intros x p Hf.
  - assert (x = 0%N) as -> by lia. pose proof (N.pow_nonzero 10 (N.of_nat p) ltac:(lia)).
    rewrite decide_False by lia. by destruct p.
  - cbn [low_digits]. pose proof (N.pow_nonzero 10 (N.of_nat p) ltac:(lia)).
    case_decide as Hx; [subst; rewrite decide_False by lia; by destruct p|].
    destruct p as [|p]; cbn [String.get].
    + rewrite N.pow_0_r, N.div_1_r, decide_True by lia. done.
    + rewrite IH by by apply div10_fuel. rewrite Nat2N.inj_succ, N.pow_succ_r', <- N.Div0.div_div.
      pose proof (N.pow_nonzero 10 (N.of_nat p) ltac:(lia)).
      destruct (decide (10 ^ N.of_nat p <= x / 10)%N) as [Hle|Hle].
      * rewrite decide_True; [done|]. etransitivity; [apply N.mul_le_mono_l, Hle|]. apply N.Div0.mul_div_le.
      * rewrite decide_False; [done|]. intros Hc. apply Hle. apply N.div_le_lower_bound; lia.
Qed.

Lemma to_digit_char x : (x < 10)%N -> to_digit (pretty_N_char x) = Some (Z.of_N x).
Proof. intros Hx. assert (x = 0 \/ x = 1 \/ x = 2 \/ x = 3 \/ x = 4 \/ x = 5 \/ x = 6 \/ x = 7 \/ x = 8 \/ x = 9)%N as Hc by lia. naive_solver. Qed.

Lemma length_string_rev s acc : String.length (string_rev s acc) = (String.length s + String.length acc)%nat.
Proof. revert acc. induction s as [|c s IH]; intros acc; cbn; [done|]. rewrite IH. cbn. lia. Qed.

Lemma get_beyond p s : (String.length s <= p)%nat -> String.get p s = None.
Proof. revert p. induction s as [|c s IH]; intros p Hp; [by destruct p|]. destruct p; cbn in *; [lia|]. apply IH. lia. Qed.

(** The digit at a position, read from the decimal string, is the arithmetic one: position
    [p] counted from the right has the digit [value / 10^p mod 10] when the value has more than
    [p] digits, and none otherwise; zero has the single digit 0. *)
Theorem digit_at_position_exact (value : Z) (p : nat) :
  0 <= value ->
  extract_digit_at_position value p =
    if decide (10 ^ Z.of_nat p <= value \/ value = 0 /\ p = 0%nat)
    then Some ((value / 10 ^ Z.of_nat p) mod 10) else None.
Proof.
  intros Hv. unfold extract_digit_at_position.
  assert (forall b, (if (String.length (pretty value) <=? p)%nat then None
                     else String.get p (string_rev (pretty value) "") ≫= to_digit) = b <->
                    String.get p (string_rev (pretty value) "") ≫= to_digit = b) as Hguard.
  { intros b. destruct (Nat.leb_spec (String.length (pretty value)) p); [|done].
    rewrite get_beyond; [done|]. rewrite length_string_rev. cbn. lia. }
  apply Hguard. clear Hguard. destruct value as [|x|x]; [| |lia].
  - destruct p as [|p]; [done|]. rewrite decide_False; [done|].
    intros [Hle|[_ ?]]; [|done]. pose proof (Z.pow_pos_nonneg 10 (Z.of_nat (S p)) ltac:(lia) ltac:(lia)). lia.
  - change (pretty (Z.pos x)) with (pretty_N_go (N.pos x) "").
    rewrite (string_rev_go (N.to_nat (N.pos x))) by done. cbn [string_rev]. rewrite get_low_digits by done.
    assert (Z.of_N (10 ^ N.of_nat p) = 10 ^ Z.of_nat p) as Hpow by (rewrite N2Z.inj_pow, nat_N_Z; done).
    assert (Z.of_N (N.pos x / 10 ^ N.of_nat p) = Z.pos x / 10 ^ Z.of_nat p) as Hdiv by (rewrite N2Z.inj_div, Hpow; done).
    destruct (decide (10 ^ N.of_nat p <= N.pos x)%N) as [Hle|Hle].
    + rewrite decide_True by lia. cbn. rewrite to_digit_char by (apply N.mod_lt; lia). f_equal. rewrite N2Z.inj_mod, Hdiv. done.
    + rewrite decide_False; [done|]. intros [Hc|[? _]]; lia.
Qed.
