(* ===== verification/Analytics.v ===== *)
(** * The analytics engine: crates/analytics/src/lib.rs, anomaly.rs, statistics.rs, audit.rs,
      metrics.rs and reports.rs

    The detectors, the statistics, the integrity check and the report generator are written in
    the source as placeholders with fixed answers, and are modelled so.  The files patterns.rs,
    statistical.rs, fraud_detection.rs, correlation.rs, entropy.rs and reporting.rs are not
    declared as modules in lib.rs and are not part of the compiled crate.  The clock is an
    argument. *)
From stdpp Require Import prelude gmap strings list pretty.
From S2P Require Import Prelude Floats64 Types.

Local Open Scope Z_scope.

Record AnalyticsConfig := mkAnalyticsConfig {
  ac_anomaly_threshold : f64;
  ac_enable_benford_analysis : bool;
  ac_enable_geographic_analysis : bool;
  ac_enable_temporal_analysis : bool;
  ac_min_sample_size : Z;
  ac_confidence_level : f64;
  ac_enable_realtime : bool;
  ac_realtime_update_interval : Z;
  ac_max_report_history : Z
}.
Definition AnalyticsConfig_default : AnalyticsConfig :=
  mkAnalyticsConfig (f64_dec 25 1) true true true 30 (f64_dec 95 2) false 60 100.

Record VoteData := mkVoteData {
  vd_tx_id : string;
  vd_timestamp : Z;
  vd_block_height : Z;
  vd_jurisdiction : option string;
  vd_coordinates : option (f64 * f64);
  vd_voter_hash : option string;
  vd_election_id : string;
  vd_registered_voters_in_jurisdiction : option Z
}.

(** ** anomaly.rs *)
Record AnomalyReport := mkAnomalyReport { anr_anomaly_type : string; anr_severity : string; anr_description : string }.
Inductive AnomalySeverity := SevLow | SevMedium | SevHigh | SevCritical.
Inductive AnomalyType := AnStatistical | AnTemporal | AnGeographic | AnBehavioral.

Record AnomalyDetector := mkAnomalyDetector { ad_threshold : f64 }.
Definition AnomalyDetector_new (threshold : f64) : AnomalyDetector := mkAnomalyDetector threshold.
Definition set_threshold (threshold : f64) (d : AnomalyDetector) : AnomalyDetector := mkAnomalyDetector threshold.
Definition detect_temporal_anomalies (d : AnomalyDetector) (votes : list VoteData) (threshold : f64) :
  VResult (list AnomalyReport) := Ok [].
Definition detect_geographic_anomalies (d : AnomalyDetector) (votes : list VoteData) (threshold : f64) :
  VResult (list AnomalyReport) := Ok [].
Definition detect_benford_violations (d : AnomalyDetector) (votes : list VoteData) (threshold : f64) :
  VResult (list AnomalyReport) := Ok [].
Definition detect_timing_spikes (d : AnomalyDetector) (votes : list VoteData) (threshold : f64) :
  VResult (list AnomalyReport) := Ok [].
Definition detect_sequential_patterns (d : AnomalyDetector) (votes : list VoteData) (threshold : f64) :
  VResult (list AnomalyReport) := Ok [].

(** ** statistics.rs *)
Record VoteStatistics := mkVoteStatistics {
  vst_total_votes : Z;
  vst_mean : f64;
  vst_median : f64;
  vst_turnout_percentage : f64
}.
Record TurnoutStatistics := mkTurnoutStatistics {
  tst_registered_voters : Z;
  tst_votes_cast : Z;
  tst_turnout_percentage : f64
}.
Record StatisticsEngine := mkStatisticsEngine { se_min_sample_size : Z }.
Definition StatisticsEngine_new (min_sample_size : Z) : StatisticsEngine := mkStatisticsEngine min_sample_size.
Definition set_min_sample_size (size : Z) (e : StatisticsEngine) : StatisticsEngine := mkStatisticsEngine size.
Definition generate_statistics (e : StatisticsEngine) (votes : list VoteData) : VResult VoteStatistics :=
  Ok (mkVoteStatistics 0 f64_zero f64_zero f64_zero).

(** ** audit.rs *)
Record AuditReport := mkAuditReport { aur_timestamp : Z; aur_findings : list string }.
Record IntegrityCheck := mkIntegrityCheck { ic_passed : bool; ic_details : string; ic_integrity_percentage : f64 }.
Definition check_integrity (election_id : string) (votes : list VoteData) : VResult IntegrityCheck :=
  Ok (mkIntegrityCheck true "Integrity check passed" f64_hundred).

(** ** metrics.rs *)
Record AnalyticsMetrics := mkAnalyticsMetrics { am_analyses_performed : Z; am_anomalies_detected : Z }.
Record MetricsCollector := mkMetricsCollector { mc_metrics : AnalyticsMetrics }.
Definition MetricsCollector_new : MetricsCollector := mkMetricsCollector (mkAnalyticsMetrics 0 0).
Definition record_analysis (vote_count anomaly_count : Z) (c : MetricsCollector) : MetricsCollector :=
  mkMetricsCollector (mkAnalyticsMetrics (u64_add (am_analyses_performed (mc_metrics c)) 1)
                        (am_anomalies_detected (mc_metrics c))).

(** ** lib.rs *)
Record AnalysisResult := mkAnalysisResult {
  anl_election_id : string;
  anl_total_votes : Z;
  anl_anomalies : list AnomalyReport;
  anl_statistics : VoteStatistics;
  anl_integrity : IntegrityCheck;
  anl_timestamp : Z
}.
Record ComparisonResult := mkComparisonResult {
  cmr_current_election : string;
  cmr_baseline_election : string;
  cmr_vote_count_delta : Z;
  cmr_anomaly_count_delta : Z;
  cmr_turnout_delta : f64;
  cmr_integrity_delta : f64;
  cmr_timestamp : Z
}.
Record TurnoutData := mkTurnoutData {
  td_jurisdiction : string;
  td_vote_count : Z;
  td_registered_voters : Z;
  td_turnout_percentage : f64
}.

(** reports.rs *)
Inductive ReportFormat := RJson | RMarkdown | RHtml.
Definition generate_report (election_id : string) (analysis : AnalysisResult) (format : ReportFormat) : VResult string :=
  Ok "Report generated"%string.

Record AnalyticsEngine := mkAnalyticsEngine {
  ae_config : AnalyticsConfig;
  ae_anomaly_detector : AnomalyDetector;
  ae_statistics_engine : StatisticsEngine;
  ae_metrics_collector : MetricsCollector
}.
Definition AnalyticsEngine_with_config (config : AnalyticsConfig) : AnalyticsEngine :=
  mkAnalyticsEngine config (AnomalyDetector_new (ac_anomaly_threshold config))
    (StatisticsEngine_new (ac_min_sample_size config)) MetricsCollector_new.
Definition AnalyticsEngine_new : AnalyticsEngine := AnalyticsEngine_with_config AnalyticsConfig_default.

(** A detector that runs when it is enabled. *)
Definition when_enabled (enabled : bool) (m : VResult (list AnomalyReport)) : VResult (list AnomalyReport) :=
  if enabled then m else Ok [].

Definition analyze_election (now : Z) (election_id : string) (votes : list VoteData) : VStM AnalyticsEngine AnalysisResult :=
  self ← get;
  let config := ae_config self in
  let detector := ae_anomaly_detector self in
  let threshold := ac_anomaly_threshold config in
  _ ← lift (ensure (negb (len votes <? ac_min_sample_size config))
              (InsufficientData ("Need at least " ++ pretty (ac_min_sample_size config) ++ " votes for analysis, got " ++
                 pretty (len votes))));
  a1 ← lift (when_enabled (ac_enable_temporal_analysis config) (detect_temporal_anomalies detector votes threshold));
  a2 ← lift (when_enabled (ac_enable_geographic_analysis config) (detect_geographic_anomalies detector votes threshold));
  a3 ← lift (when_enabled (ac_enable_benford_analysis config) (detect_benford_violations detector votes threshold));
  let anomalies := a1 ++ a2 ++ a3 in
  statistics ← lift (generate_statistics (ae_statistics_engine self) votes);
  integrity ← lift (check_integrity election_id votes);
  _ ← modify (fun e => mkAnalyticsEngine (ae_config e) (ae_anomaly_detector e) (ae_statistics_engine e)
                (record_analysis (len votes) (len anomalies) (ae_metrics_collector e)));
  mret (mkAnalysisResult election_id (len votes) anomalies statistics integrity now).

Definition realtime_analysis (election_id : string) (votes : list VoteData) (e : AnalyticsEngine) : VResult (list AnomalyReport) :=
  let threshold := ac_anomaly_threshold (ae_config e) in
  _ ← ensure (ac_enable_realtime (ae_config e)) (ConfigurationError "Real-time analysis not enabled");
  a1 ← detect_timing_spikes (ae_anomaly_detector e) votes threshold;
  a2 ← detect_sequential_patterns (ae_anomaly_detector e) votes threshold;
  Ok (a1 ++ a2).

Definition generate_audit_report (election_id : string) (analysis : AnalysisResult) (format : ReportFormat) : VResult string :=
  generate_report election_id analysis format.
Definition get_metrics (e : AnalyticsEngine) : AnalyticsMetrics := mc_metrics (ae_metrics_collector e).
Definition update_config (config : AnalyticsConfig) (e : AnalyticsEngine) : AnalyticsEngine :=
  mkAnalyticsEngine config (set_threshold (ac_anomaly_threshold config) (ae_anomaly_detector e))
    (set_min_sample_size (ac_min_sample_size config) (ae_statistics_engine e)) (ae_metrics_collector e).

(** [a as i64 - b as i64] for lengths. *)
Definition i64_delta (a b : Z) : Z := (a - b + 2 ^ 63) mod 2 ^ 64 - 2 ^ 63.
Definition compare_elections (now : Z) (current baseline : AnalysisResult) : VResult ComparisonResult :=
  Ok (mkComparisonResult (anl_election_id current) (anl_election_id baseline)
        (i64_delta (anl_total_votes current) (anl_total_votes baseline))
        (i64_delta (len (anl_anomalies current)) (len (anl_anomalies baseline)))
        (f64_sub (vst_turnout_percentage (anl_statistics current)) (vst_turnout_percentage (anl_statistics baseline)))
        (f64_sub (ic_integrity_percentage (anl_integrity current)) (ic_integrity_percentage (anl_integrity baseline)))
        now).

(** The two loops of [get_turnout_by_jurisdiction]. *)
Definition count_turnout (m : gmap string TurnoutData) (vote : VoteData) : gmap string TurnoutData :=
  match vd_jurisdiction vote with
  | Some j =>
      let entry := default (mkTurnoutData j 0 (default 0 (vd_registered_voters_in_jurisdiction vote)) f64_zero) (m !! j) in
      <[j := mkTurnoutData (td_jurisdiction entry) (u64_add (td_vote_count entry) 1) (td_registered_voters entry)
               (td_turnout_percentage entry)]> m
  | None => m
  end.
Definition finish_turnout (t : TurnoutData) : TurnoutData :=
  if 0 <? td_registered_voters t then
    mkTurnoutData (td_jurisdiction t) (td_vote_count t) (td_registered_voters t)
      (f64_mul (f64_div (f64_of_Z (td_vote_count t)) (f64_of_Z (td_registered_voters t))) f64_hundred)
  else t.
Definition get_turnout_by_jurisdiction (votes : list VoteData) : VResult (gmap string TurnoutData) :=
  Ok (finish_turnout <$> foldl count_turnout ∅ votes).

(** ** Properties *)

(** The votes of a jurisdiction. *)
Definition votes_of (j : string) (votes : list VoteData) : list VoteData :=
  filter (fun v => vd_jurisdiction v = Some j) votes.

Lemma votes_of_snoc j votes v :
  votes_of j (votes ++ [v]) = votes_of j votes ++ (if decide (vd_jurisdiction v = Some j) then [v] else []).
Proof. unfold votes_of. by rewrite list.filter_app, filter_cons, filter_nil. Qed.

Lemma len_votes_of j votes : len (votes_of j votes) <= len votes.
Proof. unfold len, votes_of. pose proof (length_filter (fun v => vd_jurisdiction v = Some j) votes). lia. Qed.

(** What the first loop leaves under a jurisdiction. *)
Definition turnout_entry (j : string) (votes : list VoteData) : option TurnoutData :=
  v ← head (votes_of j votes);
  Some (mkTurnoutData j (len (votes_of j votes)) (default 0 (vd_registered_voters_in_jurisdiction v)) f64_zero).

Lemma count_turnout_lookup votes j :
  len votes < 2 ^ 64 -> foldl count_turnout ∅ votes !! j = turnout_entry j votes.
Proof.
  induction votes as [|v votes IH] using rev_ind; intros Hlen; [done|]. rewrite foldl_app. cbn [foldl].
  rewrite len_app in Hlen. change (len [v]) with 1 in Hlen. specialize (IH ltac:(lia)).
  unfold turnout_entry in *. rewrite votes_of_snoc. unfold count_turnout at 1.
  destruct (vd_jurisdiction v) as [k|] eqn:Ej; [|rewrite decide_False, app_nil_r by done; exact IH].
  destruct (decide (k = j)) as [->|Hne].
  - rewrite lookup_insert_eq, decide_True by done. pose proof (len_votes_of j votes) as Hle. rewrite IH.
    destruct (votes_of j votes) as [|w ws] eqn:Ew; cbn [head app mbind option_bind default].
    + cbn. done.
    + cbn [from_option id td_jurisdiction td_vote_count td_registered_voters td_turnout_percentage]. do 2 f_equal.
      cbn [id td_vote_count]. pose proof (len_nonneg (w :: ws)). rewrite u64_add_small by lia.
      change (w :: (ws ++ [v])) with ((w :: ws) ++ [v]). by rewrite len_app.
  - rewrite lookup_insert_ne by done. rewrite decide_False, app_nil_r by congruence. exact IH.
Qed.

(** The turnout map has an entry exactly for the jurisdictions that occur in the votes; it
    counts the votes of that jurisdiction, takes the number of registered voters from its first
    vote, and the percentage is 0 when that number is missing or 0 and the rounded quotient
    otherwise. *)
Theorem turnout_exact (votes : list VoteData) (j : string) :
  len votes < 2 ^ 64 ->
  exists m, get_turnout_by_jurisdiction votes = Ok m /\
    match votes_of j votes with
    | [] => m !! j = None
    | first :: _ =>
        let n := len (votes_of j votes) in
        let registered := default 0 (vd_registered_voters_in_jurisdiction first) in
        m !! j = Some (mkTurnoutData j n registered
          (if 0 <? registered then f64_mul (f64_div (f64_of_Z n) (f64_of_Z registered)) f64_hundred else f64_zero))
    end.
Proof.
  intros Hlen. eexists. split; [done|]. rewrite lookup_fmap, count_turnout_lookup by done. unfold turnout_entry.
  destruct (votes_of j votes) as [|v vs]; [done|]. cbn [head mbind option_bind fmap option_fmap option_map].
  unfold finish_turnout. cbn [td_registered_voters]. by destruct (0 <? _).
Qed.

(** The analysis does not look at the votes: with enough of them every election gets the
    same result, no anomalies, zero statistics and a passed integrity check of 100 percent, and
    the detected anomalies are never counted; with fewer it fails and changes nothing. *)
Theorem analysis_ignores_votes (now : Z) (id : string) (votes votes' : list VoteData) (e : AnalyticsEngine) :
  if len votes <? ac_min_sample_size (ae_config e)
  then exists msg, analyze_election now id votes e = (Err (InsufficientData msg), e)
  else exists r e', analyze_election now id votes e = (Ok r, e') /\
    anl_total_votes r = len votes /\ anl_anomalies r = [] /\ vst_total_votes (anl_statistics r) = 0 /\
    ic_passed (anl_integrity r) = true /\ ic_integrity_percentage (anl_integrity r) = f64_hundred /\
    am_analyses_performed (get_metrics e') = u64_add (am_analyses_performed (get_metrics e)) 1 /\
    am_anomalies_detected (get_metrics e') = am_anomalies_detected (get_metrics e) /\
    (len votes' = len votes -> analyze_election now id votes' e = (Ok r, e')).
Proof.
  unfold analyze_election. unfold_st. destruct (Z.ltb_spec (len votes) (ac_min_sample_size (ae_config e))) as [Hlt|Hge]; cbn [negb].
  - by eexists.
  - destruct (ae_config e) as [th bf ge tp mn cl rt ri mh] eqn:Ec. cbn in *.
    destruct bf, ge, tp; cbn; do 2 eexists; (split; [done|]); cbn; split_and!; try done; intros Hl;
      rewrite Hl; rewrite (proj2 (Z.ltb_ge _ _) Hge); done.
Qed.
