(* ===== verification/Rpc.v ===== *)
(** * The JSON-RPC interface: crates/rpc/src/types.rs, lib.rs, methods/mod.rs

    The response types, the error objects, the rate limiter, the service trait as a record of
    operations on its state, and the handler that routes a request to it.  [serde_json] is a
    parameter: its values, their accessors and the conversions of the types used.  An
    [Instant] is a number of nanoseconds of the monotonic clock. *)
From stdpp Require Import prelude gmap strings list.
From S2P Require Import Prelude Floats64 Types.

Local Open Scope Z_scope.

(** ** [serde_json] *)
Class JsonCrate := {
  Value : Type;
  value_get : Value -> string -> option Value;
  value_as_str : Value -> option string;
  value_as_u64 : Value -> option Z;
  value_is_null : Value -> bool;
  value_as_object : Value -> option (list (string * Value))
}.

(** [to_value] and [from_value] for one type; an error is its text. *)
Class ToValue `{JsonCrate} (A : Type) := to_value : A -> Value + string.
Class FromValue `{JsonCrate} (A : Type) := from_value : Value -> A + string.

(** ** types.rs *)
Record NodeInfo := mkNodeInfo {
  ni_version : string;
  ni_node_type : string;
  ni_public_key : string;
  ni_network_id : string;
  ni_height : Z;
  ni_latest_block_hash : string;
  ni_peer_count : Z;
  ni_syncing : bool;
  ni_uptime : Z
}.

Record ChainInfo := mkChainInfo {
  chi_height : Z;
  chi_genesis_hash : string;
  chi_latest_block_hash : string;
  chi_latest_block_time : Z;
  chi_total_transactions : Z;
  chi_total_votes : Z;
  chi_total_validators : Z;
  chi_active_validators : Z;
  chi_active_elections : Z
}.

Record TransactionSummary := mkTransactionSummary {
  tsu_id : string;
  tsu_tx_type : string;
  tsu_block_height : Z;
  tsu_timestamp : Z
}.

Record RpcBlockResponse := mkRpcBlockResponse {
  rbr_height : Z;
  rbr_hash : string;
  rbr_previous_hash : string;
  rbr_timestamp : Z;
  rbr_validator : string;
  rbr_transactions_root : string;
  rbr_transaction_count : Z;
  rbr_transactions : list TransactionSummary;
  rbr_signature : string
}.

Record RpcTransactionResponse `{JsonCrate} := mkRpcTransactionResponse {
  rtr_id : string;
  rtr_tx_type : string;
  rtr_block_height : Z;
  rtr_block_hash : string;
  rtr_timestamp : Z;
  rtr_data : Value;
  rtr_signature : string
}.
Arguments mkRpcTransactionResponse {_}.

Record VoteResponse := mkVoteResponse {
  vrp_tx_id : string;
  vrp_election_id : string;
  vrp_encrypted_vote : string;
  vrp_timestamp : Z;
  vrp_block_height : Z;
  vrp_zk_proof : option string;
  vrp_verified : bool
}.

Record RpcCandidate := mkRpcCandidate {
  rcd_id : string;
  rcd_name : string;
  rcd_party : option string;
  rcd_vote_count : option Z
}.

Record JurisdictionInfo := mkJurisdictionInfo {
  jin_level : string;
  jin_name : string;
  jin_parent : option string
}.

Record ElectionResponse := mkElectionResponse {
  erp_id : string;
  erp_name : string;
  erp_description : option string;
  erp_start_time : Z;
  erp_end_time : Z;
  erp_vote_count : Z;
  erp_is_active : bool;
  erp_is_finalized : bool;
  erp_created_at_height : Z;
  erp_closed_at_height : option Z;
  erp_candidates : list RpcCandidate;
  erp_jurisdiction : option JurisdictionInfo
}.

Record CandidateResult := mkCandidateResult {
  crs_candidate_id : string;
  crs_candidate_name : string;
  crs_votes : Z;
  crs_percentage : f64
}.

Record ElectionResultsResponse := mkElectionResultsResponse {
  err_election_id : string;
  err_total_votes : Z;
  err_results : list CandidateResult;
  err_finalized : bool;
  err_verification_proof : option string
}.

Record ValidatorResponse := mkValidatorResponse {
  vlr_address : string;
  vlr_public_key : string;
  vlr_stake : Z;
  vlr_is_active : bool;
  vlr_registered_at_height : Z;
  vlr_blocks_produced : Z;
  vlr_last_block_height : option Z
}.

Record ValidatorSetResponse := mkValidatorSetResponse {
  vsr_height : Z;
  vsr_total_validators : Z;
  vsr_validators : list ValidatorResponse
}.

Record VerifyVoteRequest := mkVerifyVoteRequest {
  vvq_tx_id : string;
  vvq_zk_proof : string;
  vvq_voter_signature : option string
}.

Record VerifyVoteResponse := mkVerifyVoteResponse {
  vvr_valid : bool;
  vvr_details : option string;
  vvr_block_height : option Z;
  vvr_election_id : option string
}.

Record SubmitResponse := mkSubmitResponse {
  sbr_tx_id : string;
  sbr_accepted : bool;
  sbr_error : option string
}.

Record MempoolResponse := mkMempoolResponse {
  mpr_pending_count : Z;
  mpr_transactions : list TransactionSummary
}.

Record RpcPeerInfo := mkRpcPeerInfo {
  rpi_peer_id : string;
  rpi_address : string;
  rpi_direction : string;
  rpi_height : Z;
  rpi_connected_duration : Z
}.

Record PeersResponse := mkPeersResponse {
  prs_total_peers : Z;
  prs_peers : list RpcPeerInfo
}.

Record SyncStatusResponse := mkSyncStatusResponse {
  ssr_syncing : bool;
  ssr_current_height : Z;
  ssr_target_height : Z;
  ssr_progress : f64;
  ssr_estimated_time_remaining : option Z
}.

Record BlockQuery := mkBlockQuery {
  bq_start_height : option Z;
  bq_end_height : option Z;
  bq_validator : option string;
  bq_min_timestamp : option Z;
  bq_max_timestamp : option Z;
  bq_limit : option Z;
  bq_offset : option Z
}.

Record BlockSearchResponse := mkBlockSearchResponse {
  bsr_total : Z;
  bsr_blocks : list RpcBlockResponse;
  bsr_has_more : bool
}.

Record TransactionQuery := mkTransactionQuery {
  tq_tx_type : option string;
  tq_start_height : option Z;
  tq_end_height : option Z;
  tq_election_id : option string;
  tq_min_timestamp : option Z;
  tq_max_timestamp : option Z;
  tq_limit : option Z;
  tq_offset : option Z
}.

Record TransactionSearchResponse `{JsonCrate} := mkTransactionSearchResponse {
  tsr_total : Z;
  tsr_transactions : list RpcTransactionResponse;
  tsr_has_more : bool
}.
Arguments mkTransactionSearchResponse {_}.

Record HealthResponse := mkHealthResponse {
  hrp_status : string;
  hrp_database : string;
  hrp_network : string;
  hrp_consensus : string;
  hrp_timestamp : Z
}.

(** ** lib.rs: configuration and messages *)
Definition RPC_VERSION : string := "1.0".
Definition MAX_QUERY_LIMIT : Z := 100.
Definition DEFAULT_QUERY_LIMIT : Z := 20.

Definition BlockQuery_default : BlockQuery := mkBlockQuery None None None None None (Some DEFAULT_QUERY_LIMIT) None.
Definition TransactionQuery_default : TransactionQuery :=
  mkTransactionQuery None None None None None None (Some DEFAULT_QUERY_LIMIT) None.

Record TlsConfig := mkTlsConfig { tls_cert_path : string; tls_key_path : string }.

Record RpcConfig := mkRpcConfig {
  rpc_listen_addr : string;
  rpc_port : Z;
  rpc_enable_cors : bool;
  rpc_cors_origins : list string;
  rpc_request_timeout : Z;
  rpc_max_request_size : Z;
  rpc_enable_rate_limit : bool;
  rpc_rate_limit_per_second : Z;
  rpc_enable_auth : bool;
  rpc_api_key : option string;
  rpc_enable_metrics : bool;
  rpc_tls : option TlsConfig
}.

Definition RpcConfig_default : RpcConfig :=
  mkRpcConfig "127.0.0.1" 8545 true ["*"%string] 30 (1024 * 1024) true 100 false None true None.

Inductive RequestId :=
| IdString (s : string)
| IdNumber (n : Z)
| IdNull.

Section messages.
Context `{JsonCrate}.

Record JsonRpcRequest := mkJsonRpcRequest {
  jrq_jsonrpc : string;
  jrq_method : string;
  jrq_params : Value;
  jrq_id : RequestId
}.

Record JsonRpcError := mkJsonRpcError {
  jre_code : Z;
  jre_message : string;
  jre_data : option Value
}.

Record JsonRpcResponse := mkJsonRpcResponse {
  jrs_jsonrpc : string;
  jrs_result : option Value;
  jrs_error : option JsonRpcError;
  jrs_id : RequestId
}.

Definition parse_error (message : string) : JsonRpcError := mkJsonRpcError (-32700) message None.
Definition invalid_request (message : string) : JsonRpcError := mkJsonRpcError (-32600) message None.
Definition method_not_found (method : string) : JsonRpcError :=
  mkJsonRpcError (-32601) ("Method not found: " ++ method) None.
Definition invalid_params (message : string) : JsonRpcError := mkJsonRpcError (-32602) message None.
Definition internal_error (message : string) : JsonRpcError := mkJsonRpcError (-32603) message None.
Definition custom_error (code : Z) (message : string) : JsonRpcError := mkJsonRpcError code message None.

(** [From<VotingError>]. *)
Definition error_of (err : VotingError) : JsonRpcError :=
  match err with
  | InvalidTransaction _ => invalid_params (VotingError_display err)
  | BlockNotFound _ => custom_error (-32001) (VotingError_display err)
  | TransactionNotFound _ => custom_error (-32002) (VotingError_display err)
  | InvalidBlock _ => invalid_params (VotingError_display err)
  | ConsensusError _ => internal_error (VotingError_display err)
  | _ => internal_error (VotingError_display err)
  end.
End messages.

(** ** The rate limiter *)
Definition second : Z := 10 ^ 9.
(** [now.duration_since(timestamp).as_secs()], which saturates at zero. *)
Definition secs_since (now timestamp : Z) : Z := Z.max 0 (now - timestamp) / second.

Record RateLimiter := mkRateLimiter {
  rl_requests : gmap string (Z * Z);
  rl_limit_per_second : Z
}.

Definition RateLimiter_new (limit_per_second : Z) : RateLimiter := mkRateLimiter ∅ limit_per_second.

Definition is_allowed (now : Z) (ip : string) (l : RateLimiter) : bool * RateLimiter :=
  match rl_requests l !! ip with
  | Some (count, timestamp) =>
      if 1 <=? secs_since now timestamp then
        (true, mkRateLimiter (<[ip := (1, now)]> (rl_requests l)) (rl_limit_per_second l))
      else if count <? rl_limit_per_second l then
        (true, mkRateLimiter (<[ip := (count + 1, timestamp)]> (rl_requests l)) (rl_limit_per_second l))
      else (false, l)
  | None => (true, mkRateLimiter (<[ip := (1, now)]> (rl_requests l)) (rl_limit_per_second l))
  end.

Definition limiter_cleanup (now : Z) (l : RateLimiter) : RateLimiter :=
  mkRateLimiter (filter (fun p => secs_since now p.2.2 < 60) (rl_requests l)) (rl_limit_per_second l).

(** ** The service trait: the operations a node offers, on its state [S]. *)
Record RpcService `{JsonCrate} (S : Type) := mkRpcService {
  svc_node_info : VStM S NodeInfo;
  svc_chain_info : VStM S ChainInfo;
  svc_get_block : string -> VStM S RpcBlockResponse;
  svc_get_block_by_height : Z -> VStM S RpcBlockResponse;
  svc_get_transaction : string -> VStM S RpcTransactionResponse;
  svc_get_vote : string -> VStM S VoteResponse;
  svc_get_election : string -> VStM S ElectionResponse;
  svc_get_election_results : string -> VStM S ElectionResultsResponse;
  svc_get_validators : option Z -> VStM S ValidatorSetResponse;
  svc_get_validator : string -> VStM S ValidatorResponse;
  svc_verify_vote : VerifyVoteRequest -> VStM S VerifyVoteResponse;
  svc_submit_transaction : string -> VStM S SubmitResponse;
  svc_get_mempool : VStM S MempoolResponse;
  svc_get_peers : VStM S PeersResponse;
  svc_sync_status : VStM S SyncStatusResponse;
  svc_search_blocks : BlockQuery -> VStM S BlockSearchResponse;
  svc_search_transactions : TransactionQuery -> VStM S TransactionSearchResponse;
  svc_health : VStM S HealthResponse
}.
Arguments mkRpcService {_ S}.
Arguments svc_node_info {_ S}.
Arguments svc_chain_info {_ S}.
Arguments svc_get_block {_ S}.
Arguments svc_get_block_by_height {_ S}.
Arguments svc_get_transaction {_ S}.
Arguments svc_get_vote {_ S}.
Arguments svc_get_election {_ S}.
Arguments svc_get_election_results {_ S}.
Arguments svc_get_validators {_ S}.
Arguments svc_get_validator {_ S}.
Arguments svc_verify_vote {_ S}.
Arguments svc_submit_transaction {_ S}.
Arguments svc_get_mempool {_ S}.
Arguments svc_get_peers {_ S}.
Arguments svc_sync_status {_ S}.
Arguments svc_search_blocks {_ S}.
Arguments svc_search_transactions {_ S}.
Arguments svc_health {_ S}.

(** ** methods/mod.rs *)

(** The conversions of [serde_json] the handlers use. *)
Class JsonRpcTypes `{JsonCrate} := {
  to_NodeInfo :: ToValue NodeInfo;
  to_HealthResponse :: ToValue HealthResponse;
  to_SyncStatusResponse :: ToValue SyncStatusResponse;
  to_ChainInfo :: ToValue ChainInfo;
  to_RpcBlockResponse :: ToValue RpcBlockResponse;
  to_RpcTransactionResponse :: ToValue RpcTransactionResponse;
  to_BlockSearchResponse :: ToValue BlockSearchResponse;
  to_TransactionSearchResponse :: ToValue TransactionSearchResponse;
  to_VoteResponse :: ToValue VoteResponse;
  to_ElectionResponse :: ToValue ElectionResponse;
  to_ElectionResultsResponse :: ToValue ElectionResultsResponse;
  to_SubmitResponse :: ToValue SubmitResponse;
  to_VerifyVoteResponse :: ToValue VerifyVoteResponse;
  to_ValidatorSetResponse :: ToValue ValidatorSetResponse;
  to_ValidatorResponse :: ToValue ValidatorResponse;
  to_PeersResponse :: ToValue PeersResponse;
  to_MempoolResponse :: ToValue MempoolResponse;
  from_BlockQuery :: FromValue BlockQuery;
  from_TransactionQuery :: FromValue TransactionQuery;
  from_VerifyVoteRequest :: FromValue VerifyVoteRequest
}.

Section handler.
Context `{JsonRpcTypes} {S : Type} (service : RpcService S).

Definition extract_string_param (params : Value) (key : string) : Result JsonRpcError string :=
  ok_or (value_get params key ≫= value_as_str) (invalid_params ("Missing or invalid parameter: " ++ key)).
Definition extract_u64_param (params : Value) (key : string) : Result JsonRpcError Z :=
  ok_or (value_get params key ≫= value_as_u64) (invalid_params ("Missing or invalid parameter: " ++ key)).

(** [self.service.op().await?] with [From<VotingError>], and [serde_json::to_value(x).map_err(..)]. *)
Definition call {A : Type} (op : VStM S A) : stM JsonRpcError S A := fun s =>
  match op s with
  | (Ok a, s') => (Ok a, s')
  | (Err e, s') => (Err (error_of e), s')
  | (Panic, s') => (Panic, s')
  end.
Definition encode_result {A : Type} `{!ToValue A} (a : A) : stM JsonRpcError S Value :=
  lift (match to_value a with
        | inl v => Ok v
        | inr e => Err (internal_error ("Serialization error: " ++ e))
        end).
Definition decode_params {A : Type} `{!FromValue A} (what : string) (params : Value) : stM JsonRpcError S A :=
  lift (match from_value params with
        | inl a => Ok a
        | inr e => Err (invalid_params (what ++ e))
        end).

Definition handle_node_info : stM JsonRpcError S Value := info ← call (svc_node_info service); encode_result info.
Definition handle_health : stM JsonRpcError S Value := health ← call (svc_health service); encode_result health.
Definition handle_sync_status : stM JsonRpcError S Value := status ← call (svc_sync_status service); encode_result status.
Definition handle_chain_info : stM JsonRpcError S Value := info ← call (svc_chain_info service); encode_result info.
Definition handle_get_block (params : Value) : stM JsonRpcError S Value :=
  hash ← lift (extract_string_param params "hash");
  block ← call (svc_get_block service hash);
  encode_result block.
Definition handle_get_block_by_height (params : Value) : stM JsonRpcError S Value :=
  height ← lift (extract_u64_param params "height");
  block ← call (svc_get_block_by_height service height);
  encode_result block.
Definition handle_get_transaction (params : Value) : stM JsonRpcError S Value :=
  hash ← lift (extract_string_param params "hash");
  tx ← call (svc_get_transaction service hash);
  encode_result tx.
Definition handle_search_blocks (params : Value) : stM JsonRpcError S Value :=
  query ← decode_params "Invalid query: " params;
  results ← call (svc_search_blocks service query);
  encode_result results.
Definition handle_search_transactions (params : Value) : stM JsonRpcError S Value :=
  query ← decode_params "Invalid query: " params;
  results ← call (svc_search_transactions service query);
  encode_result results.
Definition handle_get_vote (params : Value) : stM JsonRpcError S Value :=
  tx_hash ← lift (extract_string_param params "tx_hash");
  vote ← call (svc_get_vote service tx_hash);
  encode_result vote.
Definition handle_get_election (params : Value) : stM JsonRpcError S Value :=
  election_id ← lift (extract_string_param params "election_id");
  election ← call (svc_get_election service election_id);
  encode_result election.
Definition handle_get_election_results (params : Value) : stM JsonRpcError S Value :=
  election_id ← lift (extract_string_param params "election_id");
  results ← call (svc_get_election_results service election_id);
  encode_result results.
Definition handle_submit_transaction (params : Value) : stM JsonRpcError S Value :=
  tx_hex ← lift (extract_string_param params "tx_hex");
  response ← call (svc_submit_transaction service tx_hex);
  encode_result response.
Definition handle_verify_vote (params : Value) : stM JsonRpcError S Value :=
  request ← decode_params "Invalid request: " params;
  response ← call (svc_verify_vote service request);
  encode_result response.
Definition handle_get_validators (params : Value) : stM JsonRpcError S Value :=
  height ← (if value_is_null params || match value_as_object params with
                                        | Some o => bool_decide (o = [])
                                        | None => true
                                        end
            then mret None
            else lift (Some <$> extract_u64_param params "height"));
  validators ← call (svc_get_validators service height);
  encode_result validators.
Definition handle_get_validator (params : Value) : stM JsonRpcError S Value :=
  address ← lift (extract_string_param params "address");
  validator ← call (svc_get_validator service address);
  encode_result validator.
Definition handle_get_peers : stM JsonRpcError S Value := peers ← call (svc_get_peers service); encode_result peers.
Definition handle_get_mempool : stM JsonRpcError S Value := mempool ← call (svc_get_mempool service); encode_result mempool.

(** The routing table. *)
Definition dispatch (method : string) (params : Value) : stM JsonRpcError S Value :=
  if String.eqb method "node_info" then handle_node_info
  else if String.eqb method "health" then handle_health
  else if String.eqb method "sync_status" then handle_sync_status
  else if String.eqb method "chain_info" then handle_chain_info
  else if String.eqb method "get_block" then handle_get_block params
  else if String.eqb method "get_block_by_height" then handle_get_block_by_height params
  else if String.eqb method "get_transaction" then handle_get_transaction params
  else if String.eqb method "search_blocks" then handle_search_blocks params
  else if String.eqb method "search_transactions" then handle_search_transactions params
  else if String.eqb method "get_vote" then handle_get_vote params
  else if String.eqb method "get_election" then handle_get_election params
  else if String.eqb method "get_election_results" then handle_get_election_results params
  else if String.eqb method "submit_transaction" then handle_submit_transaction params
  else if String.eqb method "verify_vote" then handle_verify_vote params
  else if String.eqb method "get_validators" then handle_get_validators params
  else if String.eqb method "get_validator" then handle_get_validator params
  else if String.eqb method "get_peers" then handle_get_peers
  else if String.eqb method "get_mempool" then handle_get_mempool
  else lift (Err (method_not_found method)).

(** [RpcMethodHandler::handle_request]; it has no error of its own. *)
Definition handle_request (request : JsonRpcRequest) : VStM S JsonRpcResponse := fun s =>
  match dispatch (jrq_method request) (jrq_params request) s with
  | (Ok value, s') => (Ok (mkJsonRpcResponse "2.0" (Some value) None (jrq_id request)), s')
  | (Err error, s') => (Ok (mkJsonRpcResponse "2.0" None (Some error) (jrq_id request)), s')
  | (Panic, s') => (Panic, s')
  end.
End handler.

(** ** Properties of the rate limiter *)

(** What reaches the limiter: a request of an address, or the periodic cleanup, at a time. *)
Inductive LimiterEvent :=
| LRequest (now : Z) (ip : string)
| LCleanup (now : Z).

Definition event_time (e : LimiterEvent) : Z := match e with LRequest t _ | LCleanup t => t end.

Definition limiter_event (e : LimiterEvent) (l : RateLimiter) : option (string * bool) * RateLimiter :=
  match e with
  | LRequest now ip => let '(b, l') := is_allowed now ip l in (Some (ip, b), l')
  | LCleanup now => (None, limiter_cleanup now l)
  end.

(** The decisions of a run, in order, and the limiter after it. *)
Fixpoint limiter_run (es : list LimiterEvent) (l : RateLimiter) : list (string * bool) * RateLimiter :=
  match es with
  | [] => ([], l)
  | e :: es' =>
      let '(d, l1) := limiter_event e l in
      let '(ds, l2) := limiter_run es' l1 in
      (option_list d ++ ds, l2)
  end.

Definition granted (ip : string) (ds : list (string * bool)) : Z := len (filter (fun d => d = (ip, true)) ds).

(** At least one request is let through whatever the limit. *)
Definition burst (limit : Z) : Z := Z.max 1 limit.

(** An entry counts between one and [burst] requests. *)
Definition limiter_ok (l : RateLimiter) : Prop :=
  map_Forall (fun _ e => 1 <= e.1 <= burst (rl_limit_per_second l)) (rl_requests l).

Lemma secs_since_ge now ts n : 1 <= n -> n <= secs_since now ts <-> n * second <= now - ts.
Proof.
  intros Hn. unfold secs_since. change second with 1000000000. Z.to_euclidean_division_equations. lia.
Qed.

Lemma is_allowed_ok now ip l : limiter_ok l -> limiter_ok (is_allowed now ip l).2.
Proof.
  unfold limiter_ok, is_allowed. intros Hl. destruct (rl_requests l !! ip) as [[c ts]|] eqn:E; [|].
  - pose proof (Hl _ _ E) as Hc. cbn in Hc.
    destruct (1 <=? secs_since now ts); [|destruct (Z.ltb_spec c (rl_limit_per_second l)); [|done]]; cbn;
      apply map_Forall_insert_2; cbn; try done; unfold burst in *; lia.
  - cbn. apply map_Forall_insert_2; [cbn; unfold burst; lia|done].
Qed.

Lemma cleanup_ok now l : limiter_ok l -> limiter_ok (limiter_cleanup now l).
Proof. intros Hl ip e [He _]%map_lookup_filter_Some. by eapply Hl. Qed.

Lemma limiter_event_ok e l :
  limiter_ok l -> limiter_ok (limiter_event e l).2 /\ rl_limit_per_second (limiter_event e l).2 = rl_limit_per_second l.
Proof.
  intros Hl. destruct e as [now ip|now]; cbn; [|split; [by apply cleanup_ok|done]].
  pose proof (is_allowed_ok now ip l Hl) as Ho. unfold is_allowed in *. repeat case_match; by split.
Qed.

Lemma limiter_run_ok es l :
  limiter_ok l -> limiter_ok (limiter_run es l).2 /\ rl_limit_per_second (limiter_run es l).2 = rl_limit_per_second l.
Proof.
  revert l. induction es as [|e es IH]; intros l Hl; [done|]. cbn. destruct (limiter_event_ok e l Hl) as [Ho Hlim].
  destruct (limiter_event e l) as [d l1]. cbn in *. destruct (IH l1 Ho) as [Ho2 Hlim2].
  destruct (limiter_run es l1) as [ds l2]. cbn in *. split; [done|congruence].
Qed.

(** How many more requests of an address can pass before [from + second]. *)
Definition allowance (from limit : Z) (e : option (Z * Z)) : Z :=
  match e with
  | None => burst limit
  | Some (count, timestamp) =>
      if from <=? timestamp then burst limit - count else burst limit - count + burst limit
  end.

Lemma granted_one ip ip' b : granted ip [(ip', b)] = if bool_decide (ip' = ip) && b then 1 else 0.
Proof.
  unfold granted. cbn. destruct (decide ((ip', b) = (ip, true))) as [[= -> ->]|Hne].
  - by rewrite bool_decide_true.
  - case_bool_decide; [|done]. subst. by destruct b.
Qed.

Lemma limiter_event_allowance from ip e l :
  limiter_ok l -> from <= event_time e < from + second ->
  allowance from (rl_limit_per_second l) (rl_requests (limiter_event e l).2 !! ip)
    + granted ip (option_list (limiter_event e l).1)
  <= allowance from (rl_limit_per_second l) (rl_requests l !! ip).
Proof.
  intros Hl Ht. destruct e as [now ip'|now]; cbn [event_time limiter_event] in *.
  - unfold is_allowed. destruct (decide (ip' = ip)) as [->|Hne].
    + destruct (rl_requests l !! ip) as [[c ts]|] eqn:E.
      * specialize (Hl _ _ E). cbn in Hl. destruct (Z.leb_spec 1 (secs_since now ts)) as [Hs|Hs];
          [apply secs_since_ge in Hs; [|lia]|destruct (Z.ltb_spec c (rl_limit_per_second l)) as [Hc|Hc]];
          cbn; rewrite ?lookup_insert_eq, ?E, granted_one, bool_decide_true by done; cbn;
          repeat match goal with |- context [?x <=? ?y] => destruct (Z.leb_spec x y) end; lia.
      * cbn. rewrite lookup_insert_eq, granted_one, bool_decide_true by done. cbn.
        destruct (Z.leb_spec from now); lia.
    + destruct (rl_requests l !! ip') as [[c ts]|];
        [destruct (1 <=? secs_since now ts); [|destruct (c <? rl_limit_per_second l)]|];
        cbn [fst snd rl_requests option_list option_rect];
        rewrite granted_one, bool_decide_false, ?lookup_insert_ne by done; cbn [andb]; lia.
  - cbn. change (granted ip []) with 0. rewrite map_lookup_filter.
    destruct (rl_requests l !! ip) as [[c ts]|] eqn:E; cbn; [|lia].
    specialize (Hl _ _ E). cbn in Hl. case_guard as Hs; cbn; [lia|].
    assert (60 * second <= now - ts) by (apply secs_since_ge; lia). unfold second in *. destruct (Z.leb_spec from ts); lia.
Qed.

Lemma granted_app ip ds ds' : granted ip (ds ++ ds') = granted ip ds + granted ip ds'.
Proof. unfold granted, len. rewrite filter_app, length_app. lia. Qed.

Lemma limiter_run_allowance from ip es l :
  limiter_ok l -> Forall (fun e => from <= event_time e < from + second) es ->
  granted ip (limiter_run es l).1 <= allowance from (rl_limit_per_second l) (rl_requests l !! ip).
Proof.
  intros Hl Hes. revert l Hl. induction Hes as [|e es He _ IH]; intros l Hl.
  - cbn. unfold allowance. change (granted ip []) with 0. destruct (rl_requests l !! ip) as [[c ts]|] eqn:E; [|unfold burst; lia].
    specialize (Hl _ _ E). cbn in Hl. case_match; unfold burst in *; lia.
  - pose proof (limiter_event_allowance from ip e l Hl He) as Ha. destruct (limiter_event_ok e l Hl) as [Ho Hlim]. cbn.
    destruct (limiter_event e l) as [d l1]. cbn in *. specialize (IH l1 Ho). rewrite Hlim in IH.
    destruct (limiter_run es l1) as [ds l2]. cbn in *. rewrite granted_app. lia.
Qed.

(** The entry of an address that has been silent for a second decides like no entry. *)
Definition stale (now : Z) (e : option (Z * Z)) : Prop :=
  match e with None => True | Some (_, ts) => second <= now - ts end.

Lemma is_allowed_stale now ip l :
  stale now (rl_requests l !! ip) ->
  is_allowed now ip l = (true, mkRateLimiter (<[ip := (1, now)]> (rl_requests l)) (rl_limit_per_second l)).
Proof.
  unfold is_allowed, stale. destruct (rl_requests l !! ip) as [[c ts]|]; [|done]. intros Hs.
  destruct (Z.leb_spec 1 (secs_since now ts)) as [_|Hc]; [done|]. apply Z.lt_nge in Hc. contradict Hc. apply secs_since_ge; lia.
Qed.

(** The decisions of a burst that started at [start], after [count] requests were let through. *)
Lemma burst_decisions start ip l count times :
  limiter_ok l -> rl_requests l !! ip = Some (count, start) -> Forall (fun t => t < start + second) times ->
  (limiter_run (flip LRequest ip <$> times) l).1 =
  pair ip <$> replicate (Nat.min (length times) (Z.to_nat (burst (rl_limit_per_second l) - count))) true
           ++ replicate (length times - Z.to_nat (burst (rl_limit_per_second l) - count)) false.
Proof.
  intros Hl E Ht. revert l count Hl E. induction Ht as [|t times Ht _ IH]; intros l count Hl E; [by rewrite Nat.sub_0_l|].
  pose proof (is_allowed_ok t ip l Hl) as Ho. pose proof (Hl _ _ E) as Hc. cbn in Hc. cbn [fmap list_fmap limiter_run flip limiter_event].
  unfold is_allowed in *. rewrite E in *.
  destruct (Z.leb_spec 1 (secs_since t start)) as [Hs|_]; [apply secs_since_ge in Hs; lia|].
  destruct (Z.ltb_spec count (rl_limit_per_second l)) as [Hlt|Hge].
  - specialize (IH _ (count + 1) Ho (lookup_insert_eq _ _ _)). cbn [rl_limit_per_second] in IH.
    destruct (limiter_run _ _) as [ds l2] in IH |- *. cbn [fst] in *. rewrite IH. cbn [option_list option_rect app length].
    replace (Z.to_nat (burst (rl_limit_per_second l) - count)) with (S (Z.to_nat (burst (rl_limit_per_second l) - (count + 1))))
      by (unfold burst in *; lia). done.
  - specialize (IH l count Hl E). destruct (limiter_run _ _) as [ds l2] in IH |- *. cbn [fst] in *. rewrite IH.
    replace (Z.to_nat (burst (rl_limit_per_second l) - count)) with 0%nat by (unfold burst in *; lia).
    rewrite !Nat.min_0_r, !Nat.sub_0_r. done.
Qed.

Lemma limiter_new_ok limit : limiter_ok (RateLimiter_new limit).
Proof. apply map_Forall_empty. Qed.

(** C33: Whatever requests and cleanups came before, an address is granted at most
    [2 * max(1, limit) - 1] requests in any one second.  When its last window began at least a
    second ago (or it has none) exactly the first [max(1, limit)] of its requests within the
    next second pass and the others are refused; a limit of zero therefore lets one through. *)
Theorem rate_limiter_bounds (limit : Z) (before es : list LimiterEvent) (from : Z) (ip : string) (times : list Z) :
  Forall (fun e => from <= event_time e < from + second) es ->
  Forall (fun t => t < from + second) times ->
  let l := (limiter_run before (RateLimiter_new limit)).2 in
  granted ip (limiter_run es l).1 <= 2 * burst limit - 1 /\
  (stale from (rl_requests l !! ip) ->
   (limiter_run (flip LRequest ip <$> from :: times) l).1 =
   pair ip <$> replicate (Nat.min (S (length times)) (Z.to_nat (burst limit))) true
            ++ replicate (S (length times) - Z.to_nat (burst limit)) false).
Proof.
  intros Hes Ht l. destruct (limiter_run_ok before _ (limiter_new_ok limit)) as [Hl Hlim]. fold l in Hl, Hlim. cbn in Hlim.
  split.
  - pose proof (limiter_run_allowance from ip es l Hl Hes) as Ha. rewrite Hlim in Ha. unfold allowance in Ha.
    destruct (rl_requests l !! ip) as [[c ts]|] eqn:E; [|unfold burst in *; lia].
    specialize (Hl _ _ E). cbn in Hl. case_match; unfold burst in *; lia.
  - intros Hs. cbn [fmap list_fmap limiter_run flip limiter_event].
    pose proof (is_allowed_ok from ip l Hl) as Ho. rewrite is_allowed_stale in * by done. cbn [snd] in Ho.
    pose proof (burst_decisions from ip _ 1 times Ho (lookup_insert_eq _ _ _) Ht) as Hd. cbn [rl_limit_per_second] in Hd.
    rewrite Hlim in Hd |- *. destruct (limiter_run _ _) as [ds l2] in Hd |- *. cbn [fst] in *. rewrite Hd.
    replace (Z.to_nat (burst limit)) with (S (Z.to_nat (burst limit - 1))) by (unfold burst in *; lia). done.
Qed.

(** Two limiters that agree but for entries that are stale at [now]. *)
Definition limiter_equiv (now : Z) (l l' : RateLimiter) : Prop :=
  rl_limit_per_second l = rl_limit_per_second l' /\
  forall ip, rl_requests l !! ip = rl_requests l' !! ip \/
             stale now (rl_requests l !! ip) /\ stale now (rl_requests l' !! ip).

Lemma stale_later now t e : now <= t -> stale now e -> stale t e.
Proof. destruct e as [[c ts]|]; cbn; lia. Qed.

Lemma is_allowed_equiv now t ip l l' :
  now <= t -> limiter_equiv now l l' ->
  (is_allowed t ip l).1 = (is_allowed t ip l').1 /\ limiter_equiv now (is_allowed t ip l).2 (is_allowed t ip l').2.
Proof.
  intros Ht [Hlim He]. assert (forall x, limiter_equiv now (mkRateLimiter (<[ip := x]> (rl_requests l)) (rl_limit_per_second l))
    (mkRateLimiter (<[ip := x]> (rl_requests l')) (rl_limit_per_second l'))) as Hins.
  { intros x. split; [done|]. intros ip'. cbn. destruct (decide (ip = ip')) as [->|Hne].
    - left. by rewrite !lookup_insert_eq.
    - rewrite !lookup_insert_ne by done. apply He. }
  destruct (He ip) as [Heq|[Hs Hs']].
  - unfold is_allowed. rewrite Heq. destruct (rl_requests l' !! ip) as [[c ts]|]; [|split; [done|apply Hins]].
    destruct (1 <=? secs_since t ts); [split; [done|apply Hins]|].
    replace (c <? rl_limit_per_second l) with (c <? rl_limit_per_second l') by congruence.
    destruct (c <? rl_limit_per_second l'); [split; [done|apply Hins]|]. split; [done|by split].
  - rewrite !is_allowed_stale by eauto using stale_later. split; [done|apply Hins].
Qed.

Lemma cleanup_entry t l ip :
  rl_requests (limiter_cleanup t l) !! ip = e ← rl_requests l !! ip; if decide (secs_since t e.2 < 60) then Some e else None.
Proof.
  cbn. rewrite map_lookup_filter. destruct (rl_requests l !! ip) as [[c ts]|]; cbn; [|done].
  case_guard; by destruct (decide (secs_since t ts < 60)).
Qed.

Lemma cleanup_equiv now t l l' :
  limiter_equiv now l l' -> limiter_equiv now (limiter_cleanup t l) (limiter_cleanup t l').
Proof.
  intros [Hlim He]. split; [done|]. intros ip. rewrite !cleanup_entry. destruct (He ip) as [->|[Hs Hs']]; [by left|right].
  split; [destruct (rl_requests l !! ip) as [[]|]|destruct (rl_requests l' !! ip) as [[]|]]; cbn; repeat case_decide; done.
Qed.

Lemma limiter_run_equiv now es l l' :
  limiter_equiv now l l' -> Forall (fun e => now <= event_time e) es -> (limiter_run es l).1 = (limiter_run es l').1.
Proof.
  intros He Hes. revert l l' He. induction Hes as [|e es Ht _ IH]; intros l l' He; [done|].
  destruct e as [t ip|t]; cbn in *.
  - destruct (is_allowed_equiv now t ip l l' Ht He) as [Hb He'].
    destruct (is_allowed t ip l) as [b l1], (is_allowed t ip l') as [b' l1']. cbn in *. subst b'.
    specialize (IH _ _ He'). destruct (limiter_run es l1), (limiter_run es l1'). cbn in *. by subst.
  - specialize (IH _ _ (cleanup_equiv now t l l' He)).
    destruct (limiter_run es (limiter_cleanup t l)), (limiter_run es (limiter_cleanup t l')). cbn in *. by subst.
Qed.

(** The periodic cleanup cannot be observed: whatever requests and cleanups follow, at
    its time or later, every request is decided as without it. *)
Theorem cleanup_invisible (now : Z) (l : RateLimiter) (es : list LimiterEvent) :
  Forall (fun e => now <= event_time e) es ->
  (limiter_run es (limiter_cleanup now l)).1 = (limiter_run es l).1.
Proof.
  apply limiter_run_equiv. split; [done|]. intros ip. rewrite cleanup_entry.
  destruct (rl_requests l !! ip) as [[c ts]|] eqn:E; cbn; [|by left]. case_decide as Hs; [by left|right]. split; [done|].
  assert (60 * second <= now - ts) by (apply secs_since_ge; lia). unfold second in *. lia.
Qed.

(** ** Properties of the handler *)
Section handler_facts.
Context `{JsonRpcTypes} {S : Type} (service : RpcService S) (I : S -> Prop).

(** An operation that neither panics nor leaves the invariant, on success and on error. *)
Definition op_keeps {E A : Type} (m : stM E S A) : Prop :=
  forall s, I s -> match m s with (Panic, _) => False | (_, s') => I s' end.

(** All operations of a service. *)
Record service_keeps : Prop := {
  keeps_node_info : op_keeps (svc_node_info service);
  keeps_chain_info : op_keeps (svc_chain_info service);
  keeps_get_block : forall h, op_keeps (svc_get_block service h);
  keeps_get_block_by_height : forall h, op_keeps (svc_get_block_by_height service h);
  keeps_get_transaction : forall h, op_keeps (svc_get_transaction service h);
  keeps_get_vote : forall h, op_keeps (svc_get_vote service h);
  keeps_get_election : forall i, op_keeps (svc_get_election service i);
  keeps_get_election_results : forall i, op_keeps (svc_get_election_results service i);
  keeps_get_validators : forall h, op_keeps (svc_get_validators service h);
  keeps_get_validator : forall a, op_keeps (svc_get_validator service a);
  keeps_verify_vote : forall r, op_keeps (svc_verify_vote service r);
  keeps_submit_transaction : forall t, op_keeps (svc_submit_transaction service t);
  keeps_get_mempool : op_keeps (svc_get_mempool service);
  keeps_get_peers : op_keeps (svc_get_peers service);
  keeps_sync_status : op_keeps (svc_sync_status service);
  keeps_search_blocks : forall q, op_keeps (svc_search_blocks service q);
  keeps_search_transactions : forall q, op_keeps (svc_search_transactions service q);
  keeps_health : op_keeps (svc_health service)
}.

Lemma op_keeps_call {A B : Type} (m : VStM S A) (f : A -> stM JsonRpcError S B) :
  op_keeps m -> (forall a, op_keeps (f a)) -> op_keeps (call m ≫= f).
Proof.
  intros Hm Hf s Hs. specialize (Hm s Hs). unfold mbind, stM_bind, call. destruct (m s) as [[a|e|] s']; [|done..].
  by apply Hf.
Qed.

Lemma op_keeps_lift {A B : Type} (r : Result JsonRpcError A) (f : A -> stM JsonRpcError S B) :
  r ≠ Panic -> (forall a, op_keeps (f a)) -> op_keeps (lift r ≫= f).
Proof. intros Hr Hf s Hs. unfold mbind, stM_bind, lift. destruct r as [a|e|]; [|done..]. by apply Hf. Qed.

Lemma op_keeps_encode {A : Type} `{!ToValue A} (a : A) : op_keeps (encode_result a).
Proof. intros s Hs. unfold encode_result, lift. by destruct (to_value a). Qed.

Lemma ok_or_no_panic {E A : Type} (o : option A) (e : E) : ok_or o e <> Panic.
Proof. by destruct o. Qed.

Lemma op_keeps_decode {A B : Type} `{!FromValue A} what params (f : A -> stM JsonRpcError S B) :
  (forall a, op_keeps (f a)) -> op_keeps (decode_params what params ≫= f).
Proof. intros Hf. apply op_keeps_lift; [by destruct (from_value params)|done]. Qed.

Definition rpc_methods : list string :=
  ["node_info"; "health"; "sync_status"; "chain_info"; "get_block"; "get_block_by_height"; "get_transaction";
   "search_blocks"; "search_transactions"; "get_vote"; "get_election"; "get_election_results"; "submit_transaction";
   "verify_vote"; "get_validators"; "get_validator"; "get_peers"; "get_mempool"]%string.

Lemma op_keeps_bind {A B : Type} (m : stM JsonRpcError S A) (f : A -> stM JsonRpcError S B) :
  op_keeps m -> (forall a, op_keeps (f a)) -> op_keeps (m ≫= f).
Proof.
  intros Hm Hf s Hs. specialize (Hm s Hs). unfold mbind, stM_bind. destruct (m s) as [[a|e|] s']; [|done..].
  by apply Hf.
Qed.

Lemma op_keeps_validators params : service_keeps -> op_keeps (handle_get_validators service params).
Proof.
  intros []. apply op_keeps_bind; [|intros h; apply op_keeps_call; auto using op_keeps_encode].
  intros s Hs. destruct (value_is_null params || _); [done|]. unfold lift, extract_u64_param.
  by destruct (value_get params "height" ≫= _).
Qed.

Lemma op_keeps_error {A : Type} (e : JsonRpcError) : op_keeps (lift (Err e) : stM JsonRpcError S A).
Proof. by intros s Hs. Qed.

#[local] Hint Resolve op_keeps_encode op_keeps_error ok_or_no_panic : core.

Lemma dispatch_keeps method params : service_keeps -> op_keeps (dispatch service method params).
Proof.
  intros Hk. pose proof (op_keeps_validators params Hk). destruct Hk. unfold dispatch. repeat case_match; try done;
    first [ apply op_keeps_call; by auto
          | apply op_keeps_lift; [apply ok_or_no_panic|intros ?; apply op_keeps_call; by auto]
          | apply op_keeps_decode; intros ?; apply op_keeps_call; by auto
          | by auto ].
Qed.

Lemma dispatch_unknown method params : method ∉ rpc_methods -> dispatch service method params = lift (Err (method_not_found method)).
Proof.
  intros Hm. unfold dispatch. repeat (case_match eqn:E; [apply String.eqb_eq in E; subst; contradict Hm; by repeat constructor|clear E]).
  done.
Qed.

Lemma handle_request_keeps request s :
  service_keeps -> I s ->
  exists response s', handle_request service request s = (Ok response, s') /\ I s' /\
    jrs_jsonrpc response = "2.0"%string /\ jrs_id response = jrq_id request /\
    (is_Some (jrs_result response) <-> jrs_error response = None).
Proof.
  intros Hk Hs. pose proof (dispatch_keeps (jrq_method request) (jrq_params request) Hk s Hs) as Hd. unfold handle_request.
  destruct (dispatch _ _ _ s) as [[v|e|] s']; [| |done]; eexists _, s'; split_and!; try done; cbn; split; try done;
    by intros [].
Qed.
End handler_facts.

(** Given a service whose operations do not panic and keep an invariant of the node, the
    handler answers every request whatever its method and parameters: the reply is JSON-RPC
    2.0, repeats the request's identifier and has either a result or an error, never both, and
    the node keeps the invariant.  A method outside the routing table is answered with
    "method not found" (-32601) and does not touch the node. *)
Theorem handle_request_replies `{JsonRpcTypes} {S : Type} (service : RpcService S) (I : S -> Prop) (request : JsonRpcRequest) (s : S) :
  service_keeps service I -> I s ->
  exists response s', handle_request service request s = (Ok response, s') /\ I s' /\
    jrs_jsonrpc response = "2.0"%string /\ jrs_id response = jrq_id request /\
    (is_Some (jrs_result response) <-> jrs_error response = None) /\
    (jrq_method request ∉ rpc_methods -> s' = s /\ jre_code <$> jrs_error response = Some (-32601)).
Proof.
  intros Hk Hs. destruct (handle_request_keeps service I request s Hk Hs) as (response & s' & E & ?).
  exists response, s'. split; [done|]. destruct_and!. split_and!; try done. intros Hm.
  unfold handle_request in E. rewrite dispatch_unknown in E by done. injection E as <- <-. done.
Qed.
