(* ===== verification/RpcMethods.v ===== *)
(** * The RPC methods: crates/rpc/src/methods/{blockchain,validation,network,node}.rs and service.rs

    Queries over the chain, the state store and the network, and the service of a validator
    node.  The locks are taken for reading but for [submit_transaction]; the clock and the
    nonce of a message are arguments. *)
From stdpp Require Import prelude gmap strings list pretty.
From Stdlib Require Import Strings.Byte.
From S2P Require Import Prelude Floats64 Types Merkle Transaction Block Genesis Chain ChainProperties Database Jurisdiction StateStore Protocol Peer Gossip BlockSync Discovery Transport Network Rpc.

Local Open Scope Z_scope.

(** ** Pages

    The body shared by the two searches: a match is counted, and kept once the offset is
    passed and while the page is not full. *)
Section pages.
Context {A B : Type} (matches : A -> bool) (convert : A -> VResult B) (limit offset : Z).

Definition page_step (x : A) (acc : list B * Z) : VResult (list B * Z) :=
  let '(matching, total) := acc in
  if matches x then
    let total := u64_add total 1 in
    if (offset <? total) && (len matching <? limit) then r ← convert x; Ok (matching ++ [r], total)
    else Ok (matching, total)
  else Ok (matching, total).

Fixpoint page_loop (l : list A) (acc : list B * Z) : VResult (list B * Z) :=
  match l with
  | [] => Ok acc
  | x :: l' => acc' ← page_step x acc; page_loop l' acc'
  end.
End pages.

(** [for height in first..=last]. *)
Definition heights (first last : Z) : list Z := seqZ first (last - first + 1).

(** [query.limit.unwrap_or(DEFAULT_QUERY_LIMIT).min(MAX_QUERY_LIMIT)]. *)
Definition page_limit (limit : option Z) : Z := Z.min (default DEFAULT_QUERY_LIMIT limit) MAX_QUERY_LIMIT.

(** ** blockchain.rs *)
Section blockchain_methods.
Context `{HashCrate, HexCrate, BincodeTx, JsonCrate, !ToValue Transaction}.

Definition summary (b : Block) (tx : Transaction) : TransactionSummary :=
  mkTransactionSummary (TxId_to_hex (tx_id tx)) (transaction_type_name tx) (block_height b) (tx_timestamp tx).

Definition block_to_response (b : Block) : VResult RpcBlockResponse :=
  Ok (mkRpcBlockResponse (block_height b) (BlockHash_to_hex (block_hash b)) (BlockHash_to_hex (block_previous_hash b))
        (bh_timestamp (block_header b)) (PublicKey_to_hex (bh_validator (block_header b)))
        (BlockHash_to_hex (bh_transactions_root (block_header b))) (bh_transaction_count (block_header b))
        (summary b <$> block_transactions b)
        (match head (block_signatures b) with Some s => Signature_to_hex (vs_signature s) | None => "" end)).

Definition transaction_to_response (tx : Transaction) (b : Block) : VResult RpcTransactionResponse :=
  data ← map_err (fun e => SerializationError ("Failed to serialize transaction: " ++ e)) (to_value tx);
  Ok (mkRpcTransactionResponse (TxId_to_hex (tx_id tx)) (transaction_type_name tx) (block_height b)
        (BlockHash_to_hex (block_hash b)) (tx_timestamp tx) data "").

(** The filters: an absent criterion accepts everything. *)
Definition at_least (min_ts : option Z) (ts : Z) : bool := match min_ts with Some m => negb (ts <? m) | None => true end.
Definition at_most (max_ts : option Z) (ts : Z) : bool := match max_ts with Some m => negb (m <? ts) | None => true end.

Definition block_matches_query (q : BlockQuery) (b : Block) : bool :=
  match bq_validator q with
  | Some v => String.eqb (PublicKey_to_hex (bh_validator (block_header b))) v
  | None => true
  end &&
  at_least (bq_min_timestamp q) (bh_timestamp (block_header b)) &&
  at_most (bq_max_timestamp q) (bh_timestamp (block_header b)).

Definition transaction_matches_query (q : TransactionQuery) (tx : Transaction) : bool :=
  match tq_tx_type q with Some ty => String.eqb (transaction_type_name tx) ty | None => true end &&
  match tq_election_id q with
  | Some id =>
      match tx_type tx with
      | Vote vote_tx => String.eqb (ElectionId_to_hex (vt_election_id vote_tx)) id
      | TxElectionCreation election_tx => String.eqb (ElectionId_to_hex (ec_election_id election_tx)) id
      | _ => false
      end
  | None => true
  end &&
  at_least (tq_min_timestamp q) (tx_timestamp tx) &&
  at_most (tq_max_timestamp q) (tx_timestamp tx).

Fixpoint count_total_transactions (c : Blockchain) (hs : list Z) (count : Z) : VResult Z :=
  match hs with
  | [] => Ok count
  | h :: hs' =>
      ob ← get_block_by_height c h;
      match ob with
      | Some b => count_total_transactions c hs' (u64_add count (len (block_transactions b)))
      | None => count_total_transactions c hs' count
      end
  end.

Fixpoint count_total_votes (c : Blockchain) (hs : list Z) (count : Z) : VResult Z :=
  match hs with
  | [] => Ok count
  | h :: hs' =>
      ob ← get_block_by_height c h;
      match ob with
      | Some b =>
          count_total_votes c hs'
            (foldl (fun n tx => if is_vote tx then u64_add n 1 else n) count (block_transactions b))
      | None => count_total_votes c hs' count
      end
  end.

Definition bm_chain_info (c : Blockchain) : VResult ChainInfo :=
  latest ← latest_block c;
  transactions ← count_total_transactions c (heights 0 (bc_height c)) 0;
  votes ← count_total_votes c (heights 0 (bc_height c)) 0;
  Ok (mkChainInfo (bc_height c) (BlockHash_to_hex (bc_genesis_hash c)) (BlockHash_to_hex (block_hash latest))
        (bh_timestamp (block_header latest)) transactions votes
        (chain_validator_count c) (chain_active_validator_count c) (active_election_count c)).

(** [T::from_hex(&s).map_err(|_| e)]. *)
Definition parse_id {T : Type} (r : Result FromHexError T) (e : VotingError) : VResult T :=
  match r with Ok t => Ok t | Err _ => Err e | Panic => Panic end.

Definition bm_get_block (c : Blockchain) (hash_str : string) : VResult RpcBlockResponse :=
  hash ← parse_id (BlockHash_from_hex hash_str) (InvalidBlock "Invalid block hash");
  ob ← get_block_by_hash c hash;
  b ← ok_or ob (BlockNotFound hash_str);
  block_to_response b.

Definition bm_get_block_by_height (c : Blockchain) (height : Z) : VResult RpcBlockResponse :=
  ob ← get_block_by_height c height;
  b ← ok_or ob (BlockNotFound ("height " ++ pretty height));
  block_to_response b.

Definition bm_get_transaction (c : Blockchain) (hash_str : string) : VResult RpcTransactionResponse :=
  id ← parse_id (TxId_from_hex hash_str) (InvalidTransaction "Invalid transaction hash");
  otx ← Chain.get_transaction c id;
  tx ← ok_or otx (TransactionNotFound hash_str);
  height ← ok_or (get_transaction_block_height c id) (TransactionNotFound hash_str);
  ob ← get_block_by_height c height;
  b ← unwrap ob;
  transaction_to_response tx b.

(** The loops of the searches over the heights of a range. *)
Fixpoint search_blocks_loop (c : Blockchain) (q : BlockQuery) (limit offset : Z) (hs : list Z)
    (acc : list RpcBlockResponse * Z) : VResult (list RpcBlockResponse * Z) :=
  match hs with
  | [] => Ok acc
  | h :: hs' =>
      ob ← get_block_by_height c h;
      match ob with
      | Some b =>
          acc' ← page_step (block_matches_query q) block_to_response limit offset b acc;
          search_blocks_loop c q limit offset hs' acc'
      | None => search_blocks_loop c q limit offset hs' acc
      end
  end.

Definition search_blocks (c : Blockchain) (q : BlockQuery) : VResult BlockSearchResponse :=
  let start_height := default 0 (bq_start_height q) in
  let end_height := default (bc_height c) (bq_end_height q) in
  let limit := page_limit (bq_limit q) in
  let offset := default 0 (bq_offset q) in
  '(matching_blocks, total_matches) ← search_blocks_loop c q limit offset (heights start_height end_height) ([], 0);
  Ok (mkBlockSearchResponse total_matches matching_blocks (u64_add offset limit <? total_matches)).

Fixpoint search_transactions_loop (c : Blockchain) (q : TransactionQuery) (limit offset : Z) (hs : list Z)
    (acc : list RpcTransactionResponse * Z) : VResult (list RpcTransactionResponse * Z) :=
  match hs with
  | [] => Ok acc
  | h :: hs' =>
      ob ← get_block_by_height c h;
      match ob with
      | Some b =>
          acc' ← page_loop (transaction_matches_query q) (fun tx => transaction_to_response tx b) limit offset
                   (block_transactions b) acc;
          search_transactions_loop c q limit offset hs' acc'
      | None => search_transactions_loop c q limit offset hs' acc
      end
  end.

Definition search_transactions (c : Blockchain) (q : TransactionQuery) : VResult TransactionSearchResponse :=
  let start_height := default 0 (tq_start_height q) in
  let end_height := default (bc_height c) (tq_end_height q) in
  let limit := page_limit (tq_limit q) in
  let offset := default 0 (tq_offset q) in
  '(matching_txs, total_matches) ← search_transactions_loop c q limit offset (heights start_height end_height) ([], 0);
  Ok (mkTransactionSearchResponse total_matches matching_txs (u64_add offset limit <? total_matches)).
End blockchain_methods.

(** ** validation.rs *)
Section validation_methods.
Context {S : Type} `{Database S, HexCrate, BincodeElection, HashCrate, BincodeTx}.

Definition vm_get_vote (c : Blockchain) (tx_hash : string) : VResult VoteResponse :=
  id ← parse_id (TxId_from_hex tx_hash) (InvalidTransaction "Invalid transaction hash");
  otx ← Chain.get_transaction c id;
  tx ← ok_or otx (TransactionNotFound tx_hash);
  match tx_type tx with
  | Vote vote_tx =>
      height ← ok_or (get_transaction_block_height c id) (TransactionNotFound (TxId_to_hex id));
      Ok (mkVoteResponse (TxId_to_hex (tx_id tx)) (ElectionId_to_hex (vt_election_id vote_tx))
            (hex_encode (vt_encrypted_vote vote_tx)) (tx_timestamp tx) height
            (hex_encode <$> vt_validity_proof vote_tx) true)
  | _ => Err (InvalidTransaction "Transaction is not a vote")
  end.

Definition vm_verify_vote (c : Blockchain) (request : VerifyVoteRequest) : VResult VerifyVoteResponse :=
  id ← parse_id (TxId_from_hex (vvq_tx_id request)) (InvalidTransaction "Invalid transaction hash");
  otx ← Chain.get_transaction c id;
  tx ← ok_or otx (TransactionNotFound (vvq_tx_id request));
  match tx_type tx with
  | Vote vote_tx =>
      let valid := bool_decide (is_Some (vt_validity_proof vote_tx)) in
      Ok (mkVerifyVoteResponse valid
            (if valid then Some "Vote proof verified successfully"%string else Some "Vote proof verification failed"%string)
            (get_transaction_block_height c id) (Some (ElectionId_to_hex (vt_election_id vote_tx))))
  | _ => Err (InvalidTransaction "Transaction is not a vote")
  end.

(** Reading an election by the identifier of a request. *)
Definition find_election (election_id : string) : VStM (StateStore S) (ElectionId * ElectionState) :=
  id ← lift (parse_id (ElectionId_from_hex election_id) (InvalidTransaction "Invalid election ID"));
  oe ← get_election id;
  e ← lift (ok_or oe (ElectionNotFound election_id));
  mret (id, e).

Definition vm_get_election (election_id : string) : VStM (StateStore S) ElectionResponse :=
  '(_, election) ← find_election election_id;
  let parts := split_slash (path_to_string (es_jurisdiction_path election)) in
  let jurisdiction :=
    Some (mkJurisdictionInfo (default ""%string (head parts)) (default ""%string (parts !! 1%nat)) None) in
  let candidates := (fun c => mkRpcCandidate (ci_id c) (ci_name c) (ci_party c) None) <$> es_candidates election in
  mret (mkElectionResponse (ElectionId_to_hex (es_id election)) (es_name election) (Some (es_description election))
          (es_start_time election) (es_end_time election) 0 (es_is_active election) (es_is_finalized election)
          (es_created_at_height election) (es_closed_at_height election) candidates jurisdiction).

(** [decrypt_vote]: the placeholder of the code. *)
Definition decrypt_vote (encrypted_vote : list byte) : VResult string := Ok "candidate_1"%string.

(** [*vote_counts.entry(candidate_id).or_insert(0) += 1]. *)
Definition add_count (candidate_id : string) (counts : gmap string Z) : gmap string Z :=
  <[candidate_id := u64_add (default 0 (counts !! candidate_id)) 1]> counts.

Fixpoint count_block_votes (id : ElectionId) (txs : list Transaction) (counts : gmap string Z) : VResult (gmap string Z) :=
  match txs with
  | [] => Ok counts
  | tx :: txs' =>
      match tx_type tx with
      | Vote vote_tx =>
          if bool_decide (vt_election_id vote_tx = id) then
            candidate_id ← decrypt_vote (vt_encrypted_vote vote_tx);
            count_block_votes id txs' (add_count candidate_id counts)
          else count_block_votes id txs' counts
      | _ => count_block_votes id txs' counts
      end
  end.

Fixpoint count_votes (c : Blockchain) (id : ElectionId) (hs : list Z) (counts : gmap string Z) : VResult (gmap string Z) :=
  match hs with
  | [] => Ok counts
  | h :: hs' =>
      ob ← get_block_by_height c h;
      match ob with
      | Some b => counts' ← count_block_votes id (block_transactions b) counts; count_votes c id hs' counts'
      | None => count_votes c id hs' counts
      end
  end.

Definition candidate_result (counts : gmap string Z) (total_votes : Z) (c : CandidateInfo) : CandidateResult :=
  let votes := default 0 (counts !! ci_id c) in
  let percentage :=
    if 0 <? total_votes then f64_mul (f64_div (f64_of_Z votes) (f64_of_Z total_votes)) f64_hundred else f64_zero in
  mkCandidateResult (ci_id c) (ci_name c) votes percentage.

Definition vm_get_election_results (c : Blockchain) (election_id : string) : VStM (StateStore S) ElectionResultsResponse :=
  '(id, election) ← find_election election_id;
  _ ← lift (ensure (es_is_finalized election) (InvalidTransaction "Election is not finalized yet"));
  let last := default (bc_height c) (es_closed_at_height election) in
  counts ← lift (count_votes c id (heights (es_created_at_height election) last) ∅);
  let total_votes := map_fold (fun _ n acc => u64_add acc n) 0 counts in
  mret (mkElectionResultsResponse (ElectionId_to_hex id) total_votes
          (candidate_result counts total_votes <$> es_candidates election) (es_is_finalized election) None).

Definition vm_get_validators (c : Blockchain) (height : option Z) : VResult ValidatorSetResponse :=
  Ok (mkValidatorSetResponse (default (bc_height c) height) 0 []).
End validation_methods.

(** ** network.rs *)

(** [Display for SocketAddr] of the standard library. *)
Fixpoint join_with (sep : string) (l : list string) : string :=
  match l with
  | [] => ""
  | [s] => s
  | s :: l' => s ++ sep ++ join_with sep l'
  end.

Definition hex_chars : list string :=
  ["0"; "1"; "2"; "3"; "4"; "5"; "6"; "7"; "8"; "9"; "a"; "b"; "c"; "d"; "e"; "f"]%string.
(** [{:x}] of a 16-bit segment. *)
Definition hex_segment (n : Z) : string :=
  let digit k := default ""%string (hex_chars !! Z.to_nat (Z.land (Z.shiftr n (4 * k)) 15)) in
  if 4096 <=? n then digit 3 ++ digit 2 ++ digit 1 ++ digit 0
  else if 256 <=? n then digit 2 ++ digit 1 ++ digit 0
  else if 16 <=? n then digit 1 ++ digit 0
  else digit 0.

Fixpoint segments (l : list byte) : list Z :=
  match l with
  | a :: b :: l' => (256 * byte_val a + byte_val b) :: segments l'
  | _ => []
  end.

(** The first longest run of zero segments: its start and length. *)
Fixpoint zero_run (i : nat) (segs : list Z) (current longest : nat * nat) : nat * nat :=
  match segs with
  | [] => longest
  | s :: segs' =>
      if s =? 0 then
        let start := if (current.2 =? 0)%nat then i else current.1 in
        let current' := (start, S current.2) in
        zero_run (S i) segs' current' (if (longest.2 <? current'.2)%nat then current' else longest)
      else zero_run (S i) segs' (0, 0)%nat longest
  end.

Definition ipv4_display (octets : list byte) : string := join_with "." (pretty ∘ byte_val <$> octets).
Definition ipv6_display (octets : list byte) : string :=
  let segs := segments octets in
  if bool_decide (take 6 segs = [0; 0; 0; 0; 0; 65535]) then "::ffff:" ++ ipv4_display (drop 12 octets)
  else
    let '(start, n) := zero_run 0 segs (0, 0)%nat (0, 0)%nat in
    if (1 <? n)%nat then
      join_with ":" (hex_segment <$> take start segs) ++ "::" ++ join_with ":" (hex_segment <$> drop (start + n) segs)
    else join_with ":" (hex_segment <$> segs).
Definition SocketAddr_display (a : SocketAddr) : string :=
  match a with
  | SocketV4 octets port => ipv4_display (array_list octets) ++ ":" ++ pretty port
  | SocketV6 octets port _ scope_id =>
      if scope_id =? 0 then "[" ++ ipv6_display (array_list octets) ++ "]:" ++ pretty port
      else "[" ++ ipv6_display (array_list octets) ++ "%" ++ pretty scope_id ++ "]:" ++ pretty port
  end.

Section network_methods.
Context {T : Type} `{Tcp T, HashCrate, HexCrate, BincodeTx, !Bincode Transaction}.

Definition peer_to_response (now : Z) (i : PeerInfo) : VResult RpcPeerInfo :=
  id ← PeerId_display (pi_id i);
  Ok (mkRpcPeerInfo id (SocketAddr_display (pi_addr i))
        (match pi_direction i with Inbound => "inbound" | Outbound => "outbound" end)
        (pi_best_height i) (Peer.uptime now i)).
Definition wm_get_peers (now : Z) (m : PeerManager) : VResult PeersResponse :=
  let peers := pm_get_all_peers m in
  peer_infos ← mapM (peer_to_response now) peers;
  Ok (mkPeersResponse (len peers) peer_infos).

Definition wm_get_mempool : VResult MempoolResponse :=
  let pending_txs : list Transaction := [] in
  Ok (mkMempoolResponse (len pending_txs)
        ((fun tx => mkTransactionSummary (TxId_to_hex (tx_id tx)) (transaction_type_name tx) 0 (tx_timestamp tx)) <$> pending_txs)).

Definition wm_submit_transaction (now nonce : Z) (tx_hex : string) : VStM (NetworkManager (T := T)) SubmitResponse :=
  tx_bytes ← lift (match hex_decode tx_hex with
                   | Ok bs => Ok bs
                   | Err e => Err (InvalidTransaction ("Invalid hex encoding: " ++ hex_error_display e))
                   | Panic => Panic
                   end);
  tx ← lift (map_err SerializationError (bincode_decode (A := Transaction) tx_bytes));
  _ ← lift (Transaction_validate tx);
  message ← lift (Message_new_transaction now nonce tx);
  _ ← broadcast now message;
  mret (mkSubmitResponse (TxId_to_hex (tx_id tx)) true None).
End network_methods.

(** ** node.rs *)
Section node_methods.
Context {T D : Type} `{Tcp T, HashCrate, HexCrate}.

Record NodeMethods := mkNodeMethods {
  ndm_node_type : string;
  ndm_version : string;
  ndm_network_id : string;
  ndm_public_key : option string;
  ndm_chain : Blockchain;
  ndm_network_manager : NetworkManager (T := T);
  ndm_database : D;
  ndm_start_time : Z
}.

Definition NodeMethods_new (instant : Z) (node_type version network_id : string) (public_key : option string)
    (chain : Blockchain) (network_manager : NetworkManager) (database : D) : NodeMethods :=
  mkNodeMethods node_type version network_id public_key chain network_manager database instant.

Definition ndm_node_info (now instant : Z) (n : NodeMethods) : VResult NodeInfo :=
  let status := network_sync_status now (ndm_network_manager n) in
  latest ← latest_block (ndm_chain n);
  Ok (mkNodeInfo (ndm_version n) (ndm_node_type n) (default "none"%string (ndm_public_key n)) (ndm_network_id n)
        (bc_height (ndm_chain n)) (BlockHash_to_hex (block_hash latest)) (network_peer_count (ndm_network_manager n))
        (status_is_syncing status) (secs_since instant (ndm_start_time n))).

Definition ndm_sync_status (now : Z) (n : NodeMethods) : VResult SyncStatusResponse :=
  let status := network_sync_status now (ndm_network_manager n) in
  Ok (mkSyncStatusResponse (status_is_syncing status) (bc_height (ndm_chain n)) (sy_target_height status)
        (progress_percent status) ((fun completion => u64_saturating_sub completion now) <$> sy_estimated_completion status)).

Definition check_database_health (n : NodeMethods) : string := "ok".
Definition check_network_health (n : NodeMethods) : string :=
  let peer_count := network_peer_count (ndm_network_manager n) in
  if peer_count =? 0 then "warning" else if peer_count <? 3 then "degraded" else "ok".
Definition check_consensus_health (now : Z) (n : NodeMethods) : string :=
  let status := network_sync_status now (ndm_network_manager n) in
  let blocks_behind := u64_saturating_sub (sy_target_height status) (bc_height (ndm_chain n)) in
  if 1000 <? blocks_behind then "warning" else if 100 <? blocks_behind then "degraded" else "ok".

Definition ndm_health (now : Z) (n : NodeMethods) : VResult HealthResponse :=
  let database_health := check_database_health n in
  let network_health := check_network_health n in
  let consensus_health := check_consensus_health now n in
  let overall_status :=
    (if String.eqb database_health "ok" && String.eqb network_health "ok" && String.eqb consensus_health "ok" then "ok"
     else if String.eqb database_health "error" || String.eqb network_health "error" then "error"
     else "degraded")%string in
  Ok (mkHealthResponse overall_status database_health network_health consensus_health now).
End node_methods.

(** ** service.rs *)
Section node_service.
Context {T : Type} `{Tcp T, HashCrate, HexCrate, JsonCrate}.

Record NodeRpcService := mkNodeRpcService {
  nrs_blockchain : Blockchain;
  nrs_network : NetworkManager (T := T)
}.

(** A method that only reads the node. *)
Definition reading {A : Type} (f : NodeRpcService -> VResult A) : VStM NodeRpcService A := fun s => (f s, s).
Definition not_implemented {A : Type} (name : string) : VStM NodeRpcService A := lift (Err (NotImplemented name)).

Definition nrs_node_info (s : NodeRpcService) : VResult NodeInfo :=
  latest ← get_best_block (nrs_blockchain s);
  Ok (mkNodeInfo "0.1.0" "validator" "" "testnet" (bc_height (nrs_blockchain s))
        (hex_encode (array_list (block_hash_bytes (bh_hash (block_header latest)))))
        (network_peer_count (nrs_network s)) false 0).

Definition nrs_chain_info (s : NodeRpcService) : VResult ChainInfo :=
  best ← get_best_block (nrs_blockchain s);
  og ← get_block_by_height (nrs_blockchain s) 0;
  genesis ← ok_or og (BlockNotFound "Genesis block not found");
  Ok (mkChainInfo (bc_height (nrs_blockchain s))
        (hex_encode (array_list (block_hash_bytes (bh_hash (block_header genesis)))))
        (hex_encode (array_list (block_hash_bytes (bh_hash (block_header best)))))
        (bh_timestamp (block_header best)) 0 0 3 3 0).

Definition nrs_get_block_by_height (height : Z) (s : NodeRpcService) : VResult RpcBlockResponse :=
  ob ← get_block_by_height (nrs_blockchain s) height;
  b ← ok_or ob (BlockNotFound ("Block at height " ++ pretty height ++ " not found"));
  let h := block_header b in
  Ok (mkRpcBlockResponse (bh_height h) (hex_encode (array_list (block_hash_bytes (bh_hash h))))
        (hex_encode (array_list (block_hash_bytes (bh_previous_hash h)))) (bh_timestamp h)
        (hex_encode (array_list (public_key_bytes (bh_validator h))))
        (hex_encode (array_list (block_hash_bytes (bh_transactions_root h))))
        (wrap 32 (len (block_transactions b))) [] "").

Definition nrs_get_mempool (s : NodeRpcService) : VResult MempoolResponse := Ok (mkMempoolResponse 0 []).
Definition nrs_get_peers (s : NodeRpcService) : VResult PeersResponse :=
  Ok (mkPeersResponse (network_peer_count (nrs_network s)) []).
Definition nrs_sync_status (s : NodeRpcService) : VResult SyncStatusResponse :=
  let height := bc_height (nrs_blockchain s) in
  Ok (mkSyncStatusResponse false height height f64_hundred None).
Definition nrs_health (now : Z) (s : NodeRpcService) : VResult HealthResponse :=
  Ok (mkHealthResponse "healthy" "ok" "ok" "ok" now).

(** [impl RpcService for NodeRpcService]; [now] is the clock. *)
Definition node_rpc_service (now : Z) : RpcService NodeRpcService := {|
  svc_node_info := reading nrs_node_info;
  svc_chain_info := reading nrs_chain_info;
  svc_get_block := fun _ => not_implemented "get_block";
  svc_get_block_by_height := fun height => reading (nrs_get_block_by_height height);
  svc_get_transaction := fun _ => not_implemented "get_transaction";
  svc_get_vote := fun _ => not_implemented "get_vote";
  svc_get_election := fun _ => not_implemented "get_election";
  svc_get_election_results := fun _ => not_implemented "get_election_results";
  svc_get_validators := fun _ => not_implemented "get_validators";
  svc_get_validator := fun _ => not_implemented "get_validator";
  svc_verify_vote := fun _ => not_implemented "verify_vote";
  svc_submit_transaction := fun _ => not_implemented "submit_transaction";
  svc_get_mempool := reading nrs_get_mempool;
  svc_get_peers := reading nrs_get_peers;
  svc_sync_status := reading nrs_sync_status;
  svc_search_blocks := fun _ => not_implemented "search_blocks";
  svc_search_transactions := fun _ => not_implemented "search_transactions";
  svc_health := reading (nrs_health now)
|}.
End node_service.

(** ** Facts on pages *)
Lemma mapM_app_result {E A B : Type} (f : A -> Result E B) l k :
  mapM f (l ++ k) = (x ← mapM f l; y ← mapM f k; Ok (x ++ y)).
Proof.
  induction l as [|a l IH]; cbn; [by destruct (mapM f k)|].
  destruct (f a); cbn; [|done..]. rewrite IH. destruct (mapM f l); cbn; [|done..]. by destruct (mapM f k).
Qed.

Lemma mapM_fmap_result {E A B C : Type} (f : A -> B) (g : B -> Result E C) l : mapM g (f <$> l) = mapM (g ∘ f) l.
Proof. induction l as [|a l IH]; [done|]. cbn. by rewrite IH. Qed.

Section page_facts.
Context {A B : Type} (matches : A -> bool) (convert : A -> VResult B) (limit offset : Z).

Lemma page_loop_spec xs found total :
  0 <= total -> total + len (filter (fun x => matches x = true) xs) < 2 ^ 64 ->
  page_loop matches convert limit offset xs (found, total) =
  (rs ← mapM convert (take (Z.to_nat limit - length found) (drop (Z.to_nat (offset - total)) (filter (fun x => matches x = true) xs)));
   Ok (found ++ rs, total + len (filter (fun x => matches x = true) xs))).
Proof.
  revert found total. induction xs as [|x xs IH]; intros found total H0 Hb.
  { cbn. rewrite drop_nil, take_nil. cbn. by rewrite app_nil_r, Z.add_0_r. }
  cbn [page_loop page_step]. rewrite filter_cons in *. destruct (matches x) eqn:Em;
    [rewrite decide_True in * by done|rewrite decide_False in * by done; cbn; by apply IH].
  unfold len in Hb. cbn [length] in Hb. rewrite u64_add_small by lia.
  assert (total + 1 + len (filter (fun y => matches y = true) xs) < 2 ^ 64) as Hb' by (unfold len; lia).
  destruct (Z.ltb_spec offset (total + 1)) as [Ho|Ho]; cbn.
  - replace (Z.to_nat (offset - total)) with 0%nat by lia. replace (Z.to_nat (offset - (total + 1))) with 0%nat in IH by lia.
    rewrite drop_0. destruct (Z.ltb_spec (len found) limit) as [Hl|Hl]; unfold len in Hl.
    + replace (Z.to_nat limit - length found)%nat with (S (Z.to_nat limit - S (length found))) by lia. cbn.
      destruct (convert x) as [r|e|]; cbn; [|done..]. rewrite IH by lia. 
      rewrite length_app, Nat.add_1_r. replace (Z.to_nat (offset - (total + 1))) with 0%nat by lia. rewrite drop_0.
      destruct (mapM convert _); cbn; [|done..]. by rewrite <- app_assoc, len_cons, Z.add_assoc.
    + replace (Z.to_nat limit - length found)%nat with 0%nat by lia. cbn [mbind result_bind]. rewrite IH by lia.
      replace (Z.to_nat limit - length found)%nat with 0%nat by lia. cbn. by rewrite len_cons, Z.add_assoc.
  - replace (Z.to_nat (offset - total)) with (S (Z.to_nat (offset - (total + 1)))) by lia. cbn. rewrite IH by lia.
    destruct (mapM convert _); cbn; [|done..]. by rewrite len_cons, Z.add_assoc.
Qed.

Lemma page_loop_app xs ys acc :
  page_loop matches convert limit offset (xs ++ ys) acc =
  (acc' ← page_loop matches convert limit offset xs acc; page_loop matches convert limit offset ys acc').
Proof.
  revert acc. induction xs as [|x xs IH]; intros acc; [done|]. cbn. destruct (page_step _ _ _ _ x acc); cbn; [|done..]. apply IH.
Qed.
End page_facts.

Lemma page_loop_fmap {A A' B : Type} (f : A' -> A) (matches : A -> bool) (convert : A -> VResult B) limit offset xs acc :
  page_loop matches convert limit offset (f <$> xs) acc = page_loop (matches ∘ f) (convert ∘ f) limit offset xs acc.
Proof.
  revert acc. induction xs as [|x xs IH]; intros acc; [done|]. cbn.
  destruct acc as [m t]. unfold page_step. cbn. destruct (matches (f x)); cbn; [|apply IH].
  destruct ((offset <? u64_add t 1) && (len m <? limit)); cbn; [|apply IH]. destruct (convert (f x)); cbn; [apply IH|done..].
Qed.

(** Consecutive pages are the list again. *)
Lemma pages_cover {A : Type} (l : list A) (size n : nat) :
  concat ((fun i => take size (drop (i * size) l)) <$> seq 0 n) = take (n * size) l.
Proof.
  induction n as [|n IH]; [done|]. rewrite seq_S, fmap_app, concat_app, IH. cbn. rewrite app_nil_r.
  rewrite take_take_drop. f_equal. lia.
Qed.

(** ** Facts on ranges of heights *)

(** The blocks at the heights from [first] to [last]. *)
Definition blocks_between (c : Blockchain) (first last : Z) : list Block :=
  take (Z.to_nat (last - first + 1)) (drop (Z.to_nat first) (bc_blocks c)).

Lemma omap_heights {A : Type} (l : list A) (first : Z) (n : nat) :
  0 <= first -> omap (fun h => l !! Z.to_nat h) (seqZ first (Z.of_nat n)) = take n (drop (Z.to_nat first) l).
Proof.
  revert first. induction n as [|n IH]; intros first Hf; [done|].
  rewrite Nat2Z.inj_succ, seqZ_cons by lia. cbn. replace (Z.pred (Z.succ (Z.of_nat n))) with (Z.of_nat n) by lia. rewrite IH by lia.
  replace (Z.to_nat (Z.succ first)) with (S (Z.to_nat first)) by lia.
  destruct (l !! Z.to_nat first) as [x|] eqn:E.
  - by rewrite (drop_S l x (Z.to_nat first) E).
  - apply lookup_ge_None in E. by rewrite !drop_ge, !take_nil by lia.
Qed.

Section ranges.
Context `{HashCrate, HexCrate, BincodeTx}.

Lemma heights_blocks c first last :
  0 <= first -> omap (fun h => bc_blocks c !! Z.to_nat h) (heights first last) = blocks_between c first last.
Proof.
  intros Hf. unfold heights, blocks_between. destruct (decide (last - first + 1 < 0)).
  - rewrite seqZ_nil by lia. by replace (Z.to_nat _) with 0%nat by lia.
  - rewrite <- omap_heights by done. do 2 f_equal. lia.
Qed.

Lemma heights_nonneg first last : 0 <= first -> Forall (fun h => 0 <= h) (heights first last).
Proof. intros Hf. apply Forall_forall. intros h Hh%elem_of_seqZ. lia. Qed.

Lemma all_blocks c : chain_wf c -> blocks_between c 0 (bc_height c) = bc_blocks c.
Proof. intros Hwf. unfold blocks_between. rewrite (wf_height c Hwf). cbn. apply take_ge. unfold len. lia. Qed.

(** A loop over heights that skips absent blocks is a loop over the blocks. *)
Lemma loop_over_blocks {X : Type} (step : Block -> X -> VResult X) (loop : list Z -> X -> VResult X) c hs x :
  (forall x, loop [] x = Ok x) ->
  (forall h hs x, loop (h :: hs) x =
     (ob ← get_block_by_height c h; match ob with Some b => x' ← step b x; loop hs x' | None => loop hs x end)) ->
  chain_wf c -> Forall (fun h => 0 <= h) hs ->
  loop hs x = foldl (fun r b => r ≫= step b) (Ok x) (omap (fun h => bc_blocks c !! Z.to_nat h) hs).
Proof.
  intros Hnil Hcons Hwf Hhs. revert x. induction Hhs as [|h hs Hh _ IH]; intros x; [by rewrite Hnil|].
  rewrite Hcons, wf_lookup_height by done. cbn. destruct (bc_blocks c !! Z.to_nat h) as [b|]; cbn; [|done].
  destruct (step b x) as [x'|e|]; cbn; [done|..].
  - clear. induction (omap _ hs); [done|]. by cbn.
  - clear. induction (omap _ hs); [done|]. by cbn.
Qed.
End ranges.

Lemma foldl_bind_stuck {X Y : Type} (step : Y -> X -> VResult X) l (r : VResult X) :
  (forall x, r <> Ok x) -> foldl (fun r b => r ≫= step b) r l = r.
Proof. intros Hr. induction l as [|y l IH]; [done|]. cbn. by destruct r as [x| |]; [destruct (Hr x)|..]. Qed.

Lemma fold_page_loop {A B : Type} (matches : A -> bool) (convert : A -> VResult B) limit offset l acc :
  foldl (fun r x => r ≫= page_step matches convert limit offset x) (Ok acc) l = page_loop matches convert limit offset l acc.
Proof.
  revert acc. induction l as [|x l IH]; intros acc; [done|]. cbn. destruct (page_step _ _ _ _ x acc); cbn; [apply IH|..];
    by apply foldl_bind_stuck.
Qed.

(** ** Searching *)

Definition block_query_ok (q : BlockQuery) : Prop :=
  0 <= default 0 (bq_start_height q) /\ 0 <= default DEFAULT_QUERY_LIMIT (bq_limit q) /\
  0 <= default 0 (bq_offset q) /\ default 0 (bq_offset q) + MAX_QUERY_LIMIT < 2 ^ 64.
Definition transaction_query_ok (q : TransactionQuery) : Prop :=
  0 <= default 0 (tq_start_height q) /\ 0 <= default DEFAULT_QUERY_LIMIT (tq_limit q) /\
  0 <= default 0 (tq_offset q) /\ default 0 (tq_offset q) + MAX_QUERY_LIMIT < 2 ^ 64.

Lemma page_limit_range limit : 0 <= default DEFAULT_QUERY_LIMIT limit -> 0 <= page_limit limit <= MAX_QUERY_LIMIT.
Proof. unfold page_limit, MAX_QUERY_LIMIT. lia. Qed.

Section search_facts.
Context `{HashCrate, HexCrate, BincodeTx, JsonCrate, !ToValue Transaction}.

(** The blocks a query is about, and the transactions with their blocks. *)
Definition query_blocks (c : Blockchain) (q : BlockQuery) : list Block :=
  filter (fun b => block_matches_query q b = true)
    (blocks_between c (default 0 (bq_start_height q)) (default (bc_height c) (bq_end_height q))).
Definition txs_between (c : Blockchain) (first last : Z) : list (Block * Transaction) :=
  blocks_between c first last ≫= fun b => pair b <$> block_transactions b.
Definition query_transactions (c : Blockchain) (q : TransactionQuery) : list (Block * Transaction) :=
  filter (fun p => transaction_matches_query q p.2 = true)
    (txs_between c (default 0 (tq_start_height q)) (default (bc_height c) (tq_end_height q))).

Lemma length_blocks_between c first last : len (blocks_between c first last) <= len (bc_blocks c).
Proof. unfold blocks_between, len. rewrite length_take, length_drop. lia. Qed.

Lemma search_blocks_loop_spec c q limit offset first last acc :
  chain_wf c -> 0 <= first ->
  search_blocks_loop c q limit offset (heights first last) acc =
  page_loop (block_matches_query q) block_to_response limit offset (blocks_between c first last) acc.
Proof.
  intros Hwf Hf. rewrite (loop_over_blocks (page_step (block_matches_query q) block_to_response limit offset)
    (fun hs x => search_blocks_loop c q limit offset hs x) c) by eauto using heights_nonneg.
  rewrite heights_blocks by done. apply fold_page_loop.
Qed.

Lemma search_transactions_loop_spec c q limit offset first last acc :
  chain_wf c -> 0 <= first ->
  search_transactions_loop c q limit offset (heights first last) acc =
  page_loop (fun p => transaction_matches_query q p.2) (fun p => transaction_to_response p.2 p.1) limit offset
    (txs_between c first last) acc.
Proof.
  intros Hwf Hf. rewrite (loop_over_blocks
    (fun b => page_loop (transaction_matches_query q) (fun tx => transaction_to_response tx b) limit offset (block_transactions b))
    (fun hs x => search_transactions_loop c q limit offset hs x) c) by eauto using heights_nonneg.
  rewrite heights_blocks by done. unfold txs_between. revert acc.
  induction (blocks_between c first last) as [|b bs IH]; intros acc; [done|]. cbn [foldl mbind list_bind].
  rewrite page_loop_app, page_loop_fmap. unfold compose. cbn [fst snd mbind result_bind].
  destruct (page_loop _ _ _ _ (block_transactions b) acc); cbn; [apply IH|..]; by apply foldl_bind_stuck.
Qed.

Lemma mapM_block_responses bs : exists rs, mapM block_to_response bs = Ok rs /\ Forall2 (fun b r => block_to_response b = Ok r) bs rs.
Proof.
  induction bs as [|b bs (rs & E & F)]; [by exists []|]. eexists (_ :: rs). cbn. rewrite E. split; [done|]. by constructor.
Qed.

Lemma search_blocks_page c q :
  chain_wf c -> block_query_ok q -> len (bc_blocks c) < 2 ^ 64 ->
  let page := take (Z.to_nat (page_limit (bq_limit q))) (drop (Z.to_nat (default 0 (bq_offset q))) (query_blocks c q)) in
  search_blocks c q =
  (rs ← mapM block_to_response page;
   Ok (mkBlockSearchResponse (len (query_blocks c q)) rs
         (default 0 (bq_offset q) + page_limit (bq_limit q) <? len (query_blocks c q)))).
Proof.
  intros Hwf (Hs & Hl & Ho & Hsum) Hlen page. unfold search_blocks. pose proof (page_limit_range _ Hl).
  rewrite search_blocks_loop_spec by done. rewrite page_loop_spec, Z.sub_0_r; [|done|].
  - unfold page, query_blocks. cbn [length]. rewrite Nat.sub_0_r, u64_add_small by lia.
    destruct (mapM block_to_response _); cbn; done.
  - eapply Z.le_lt_trans; [|exact Hlen]. etrans; [|apply (length_blocks_between c)]. unfold len. rewrite Z.add_0_l.
    apply inj_le, length_filter.
Qed.

Lemma search_transactions_page c q :
  chain_wf c -> transaction_query_ok q -> len (txs_between c (default 0 (tq_start_height q)) (default (bc_height c) (tq_end_height q))) < 2 ^ 64 ->
  let page := take (Z.to_nat (page_limit (tq_limit q))) (drop (Z.to_nat (default 0 (tq_offset q))) (query_transactions c q)) in
  search_transactions c q =
  (rs ← mapM (fun p => transaction_to_response p.2 p.1) page;
   Ok (mkTransactionSearchResponse (len (query_transactions c q)) rs
         (default 0 (tq_offset q) + page_limit (tq_limit q) <? len (query_transactions c q)))).
Proof.
  intros Hwf (Hs & Hl & Ho & Hsum) Hlen page. unfold search_transactions. pose proof (page_limit_range _ Hl).
  rewrite search_transactions_loop_spec by done. rewrite page_loop_spec, Z.sub_0_r; [|done|].
  - unfold page, query_transactions. cbn [length]. rewrite Nat.sub_0_r, u64_add_small by lia.
    destruct (mapM _ _); cbn; done.
  - eapply Z.le_lt_trans; [|exact Hlen]. unfold len. rewrite Z.add_0_l. apply inj_le, length_filter.
Qed.
(** The query for the page that starts at [offset]. *)
Definition at_offset (q : BlockQuery) (offset : Z) : BlockQuery :=
  mkBlockQuery (bq_start_height q) (bq_end_height q) (bq_validator q) (bq_min_timestamp q) (bq_max_timestamp q)
    (bq_limit q) (Some offset).
Definition block_page (c : Blockchain) (q : BlockQuery) (i : nat) : list RpcBlockResponse :=
  match search_blocks c (at_offset q (Z.of_nat i * page_limit (bq_limit q))) with
  | Ok r => bsr_blocks r
  | _ => []
  end.

Lemma Forall2_concat_fmap {I A B : Type} (P : A -> B -> Prop) (f : I -> list A) (g : I -> list B) l :
  Forall (fun i => Forall2 P (f i) (g i)) l -> Forall2 P (concat (f <$> l)) (concat (g <$> l)).
Proof. induction 1; cbn; [done|]. by apply Forall2_app. Qed.

Lemma block_page_spec c q i :
  chain_wf c -> len (bc_blocks c) < 2 ^ 64 -> block_query_ok (at_offset q (Z.of_nat i * page_limit (bq_limit q))) ->
  Forall2 (fun b r => block_to_response b = Ok r)
    (take (Z.to_nat (page_limit (bq_limit q))) (drop (i * Z.to_nat (page_limit (bq_limit q))) (query_blocks c q)))
    (block_page c q i).
Proof.
  intros Hwf Hlen Hq. unfold block_page. rewrite search_blocks_page by done. destruct Hq as (_ & Hl & _). cbn in Hl.
  pose proof (page_limit_range _ Hl). cbn [at_offset bq_limit bq_offset default]. unfold id.
  replace (Z.to_nat (Z.of_nat i * page_limit (bq_limit q))) with (i * Z.to_nat (page_limit (bq_limit q)))%nat by lia.
  destruct (mapM_block_responses (take (Z.to_nat (page_limit (bq_limit q)))
    (drop (i * Z.to_nat (page_limit (bq_limit q))) (query_blocks c q)))) as (rs & E & HF).
  change (query_blocks c (at_offset q _)) with (query_blocks c q). rewrite E. done.
Qed.
End search_facts.

(** C19: On a reachable chain a block search returns the page of the query: the total counts
    the matching blocks of the height range, the blocks are at most 100 and are, in order, the
    matching ones from the offset on, and there is more exactly when matches are left.
    Asking for the pages one after the other gives every matching block exactly once. *)
Theorem search_blocks_pages `{HashCrate, HexCrate, BincodeTx} (c : Blockchain) (q : BlockQuery) (n : nat) :
  reachable c -> len (bc_blocks c) < 2 ^ 64 -> block_query_ok q ->
  len (query_blocks c q) <= Z.of_nat n * page_limit (bq_limit q) < 2 ^ 64 - MAX_QUERY_LIMIT ->
  (exists blocks,
     search_blocks c q = Ok (mkBlockSearchResponse (len (query_blocks c q)) blocks
       (default 0 (bq_offset q) + page_limit (bq_limit q) <? len (query_blocks c q))) /\
     len blocks <= MAX_QUERY_LIMIT /\
     Forall2 (fun b r => block_to_response b = Ok r)
       (take (Z.to_nat (page_limit (bq_limit q))) (drop (Z.to_nat (default 0 (bq_offset q))) (query_blocks c q))) blocks) /\
  Forall2 (fun b r => block_to_response b = Ok r) (query_blocks c q) (concat (block_page c q <$> seq 0 n)).
Proof.
  intros Hwf%reachable_wf Hlen Hq [Hn Hbound]. destruct Hq as (Hs & Hl & Ho & Hsum). pose proof (page_limit_range _ Hl) as Hpl. split.
  - rewrite search_blocks_page by (done || by repeat split).
    destruct (mapM_block_responses (take (Z.to_nat (page_limit (bq_limit q)))
      (drop (Z.to_nat (default 0 (bq_offset q))) (query_blocks c q)))) as (rs & E & HF).
    exists rs. rewrite E. split; [done|]. split; [|done]. apply Forall2_length in HF. unfold len. rewrite <- HF, length_take. lia.
  - replace (query_blocks c q) with (concat ((fun i => take (Z.to_nat (page_limit (bq_limit q)))
      (drop (i * Z.to_nat (page_limit (bq_limit q))) (query_blocks c q))) <$> seq 0 n)) at 1.
    + apply Forall2_concat_fmap, Forall_forall. intros i Hi%elem_of_seq. apply block_page_spec; [done..|]. split_and!; cbn; try done; nia.
    + rewrite pages_cover. apply take_ge. unfold len in Hn. nia.
Qed.

(** The search over transactions is exact in the same way; it fails only when a transaction of
    the page cannot be written as JSON. *)
Theorem search_transactions_exact `{HashCrate, HexCrate, BincodeTx, JsonCrate, !ToValue Transaction} (c : Blockchain) (q : TransactionQuery) :
  reachable c -> transaction_query_ok q ->
  len (txs_between c (default 0 (tq_start_height q)) (default (bc_height c) (tq_end_height q))) < 2 ^ 64 ->
  search_transactions c q =
  (rs ← mapM (fun p => transaction_to_response p.2 p.1)
          (take (Z.to_nat (page_limit (tq_limit q))) (drop (Z.to_nat (default 0 (tq_offset q))) (query_transactions c q)));
   Ok (mkTransactionSearchResponse (len (query_transactions c q)) rs
         (default 0 (tq_offset q) + page_limit (tq_limit q) <? len (query_transactions c q)))).
Proof. intros Hwf%reachable_wf. by apply search_transactions_page. Qed.

(** ** Counting *)
Section counts.
Context `{HashCrate, HexCrate, BincodeTx}.

Lemma foldl_Ok_step {X : Type} (f : Block -> X -> X) bs x :
  foldl (fun r b => r ≫= (fun y => Ok (f b y))) (Ok x : VResult X) bs = Ok (foldl (fun y b => f b y) x bs).
Proof. revert x. induction bs as [|b bs IH]; intros x; [done|]. cbn. apply IH. Qed.

Lemma foldl_count_votes txs n :
  0 <= n -> n + len (filter (fun tx => is_vote tx = true) txs) < 2 ^ 64 ->
  foldl (fun n tx => if is_vote tx then u64_add n 1 else n) n txs = n + len (filter (fun tx => is_vote tx = true) txs).
Proof.
  revert n. induction txs as [|tx txs IH]; intros n Hn Hb; [cbn; by rewrite Z.add_0_r|]. cbn [foldl]. rewrite filter_cons in *.
  destruct (is_vote tx) eqn:E; [rewrite decide_True in * by done|rewrite decide_False in * by done; by apply IH].
  rewrite len_cons in *. pose proof (len_nonneg (filter (fun tx => is_vote tx = true) txs)). rewrite u64_add_small, IH by lia. lia.
Qed.

Lemma foldl_len_bind {A : Type} (g : Block -> list A) (step : Block -> Z -> Z) bs n :
  (forall b m, 0 <= m -> m + len (g b) < 2 ^ 64 -> step b m = m + len (g b)) ->
  0 <= n -> n + len (bs ≫= g) < 2 ^ 64 -> foldl (fun y b => step b y) n bs = n + len (bs ≫= g).
Proof.
  intros Hstep. revert n. induction bs as [|b bs IH]; intros n Hn Hlen; [cbn; by rewrite Z.add_0_r|].
  cbn [foldl mbind list_bind] in *. rewrite len_app in *. pose proof (len_nonneg (bs ≫= g)). pose proof (len_nonneg (g b)).
  rewrite Hstep, IH by lia. lia.
Qed.

Lemma filter_bind {A B : Type} (P : B -> Prop) `{!forall x, Decision (P x)} (f : A -> list B) l :
  filter P (l ≫= f) = l ≫= (fun x => filter P (f x)).
Proof. induction l as [|x l IH]; [done|]. cbn. by rewrite filter_app, IH. Qed.

Lemma chain_counts c :
  chain_wf c -> len (get_all_transactions c) < 2 ^ 64 ->
  count_total_transactions c (heights 0 (bc_height c)) 0 = Ok (len (get_all_transactions c)) /\
  count_total_votes c (heights 0 (bc_height c)) 0 = Ok (len (filter (fun tx => is_vote tx = true) (get_all_transactions c))).
Proof.
  intros Hwf Hlen. split.
  - rewrite (loop_over_blocks (fun b n => Ok (u64_add n (len (block_transactions b))))
      (fun hs n => count_total_transactions c hs n) c) by (done || by apply heights_nonneg).
    rewrite heights_blocks, all_blocks, foldl_Ok_step by done. f_equal.
    apply (foldl_len_bind block_transactions (fun b n => u64_add n (len (block_transactions b)))); [|done|done].
    intros b m Hm Hb. pose proof (len_nonneg (block_transactions b)). apply u64_add_small. lia.
  - rewrite (loop_over_blocks (fun b n => Ok (foldl (fun n tx => if is_vote tx then u64_add n 1 else n) n (block_transactions b)))
      (fun hs n => count_total_votes c hs n) c) by (done || by apply heights_nonneg).
    rewrite heights_blocks, all_blocks, foldl_Ok_step by done. f_equal.
    assert (len (filter (fun tx => is_vote tx = true) (get_all_transactions c)) < 2 ^ 64) as Hv.
    { eapply Z.le_lt_trans; [|exact Hlen]. apply inj_le, length_filter. }
    unfold get_all_transactions in *. rewrite filter_bind in *. rewrite <- (Z.add_0_l (len _)).
    apply (foldl_len_bind (fun b => filter (fun tx => is_vote tx = true) (block_transactions b))
      (fun b n => foldl (fun n tx => if is_vote tx then u64_add n 1 else n) n (block_transactions b))); [|done|done].
    intros b m. apply foldl_count_votes.
Qed.
End counts.

(** On a reachable chain the chain information is that of the chain: its height and the hashes
    of its ends, and the numbers of all its transactions and votes. *)
Theorem chain_info_exact `{HashCrate, HexCrate, BincodeTx} (c : Blockchain) :
  reachable c -> len (get_all_transactions c) < 2 ^ 64 ->
  exists latest, last (bc_blocks c) = Some latest /\
    bm_chain_info c = Ok (mkChainInfo (len (bc_blocks c) - 1) (BlockHash_to_hex (bc_genesis_hash c))
      (BlockHash_to_hex (block_hash latest)) (block_timestamp latest) (len (get_all_transactions c))
      (len (filter (fun tx => is_vote tx = true) (get_all_transactions c))) 0 0 0).
Proof.
  intros Hwf%reachable_wf Hlen. destruct (chain_counts c Hwf Hlen) as [Ht Hv].
  destruct (last (bc_blocks c)) as [b|] eqn:E; [|apply last_None in E; by destruct (wf_nonempty c Hwf)].
  exists b. split; [done|]. unfold bm_chain_info, latest_block. rewrite E, Ht, Hv. cbn. by rewrite (wf_height c Hwf).
Qed.

(** ** Lookups *)
Section lookups.
Context `{HashCrate, HexCrateSpec, BincodeTx, JsonCrate, !ToValue Transaction}.

Lemma parse_tx_id id e : parse_id (TxId_from_hex (TxId_to_hex id)) e = Ok id.
Proof. unfold TxId_from_hex, TxId_to_hex. rewrite array_from_hex_encode. by destruct id. Qed.

(** The transaction of an identifier as the methods find it. *)
Lemma rpc_find_transaction c id :
  chain_wf c ->
  (exists tx b h, get_transaction_block_height c id = Some h /\ Chain.get_transaction c id = Ok (Some tx) /\
     get_block_by_height c h = Ok (Some b) /\ bc_blocks c !! Z.to_nat h = Some b /\ h = block_height b /\
     tx ∈ block_transactions b /\ tx_id tx = id) \/
  (Chain.get_transaction c id = Ok None /\ forall tx, tx ∈ get_all_transactions c -> tx_id tx <> id).
Proof.
  intros Hwf. pose proof (wf_get_transaction c id Hwf) as Hget. unfold get_transaction_block_height.
  destruct (bc_tx_to_block c !! id) as [h|] eqn:E.
  - left. destruct Hget as (b & tx & Hpos & Hb & Htx & Hg). exists tx, b, h.
    pose proof (wf_block_height c _ _ Hwf Hb). apply block_get_transaction_Some in Htx as [Hin Hid].
    rewrite wf_lookup_height, Hb by done. split_and!; try done. lia.
  - right. split; [done|]. intros tx (i & b & Hi & Htx)%elem_of_all_transactions Hid.
    pose proof (wf_tx_complete c Hwf i b tx Hi Htx) as Hc. rewrite Hid, E in Hc. done.
Qed.

Lemma get_transaction_hex c id :
  chain_wf c ->
  (exists tx b, tx ∈ block_transactions b /\ b ∈ bc_blocks c /\ tx_id tx = id /\
     bm_get_transaction c (TxId_to_hex id) = transaction_to_response tx b) \/
  ((forall tx, tx ∈ get_all_transactions c -> tx_id tx <> id) /\
   bm_get_transaction c (TxId_to_hex id) = Err (TransactionNotFound (TxId_to_hex id))).
Proof.
  intros Hwf. unfold bm_get_transaction. rewrite parse_tx_id. cbn.
  destruct (rpc_find_transaction c id Hwf) as [(tx & b & h & Hh & Hg & Hgb & Hb & _ & Hin & Hid)|[Hg Hno]]; rewrite Hg; cbn.
  - left. exists tx, b. rewrite Hh. cbn. rewrite Hgb. cbn. split_and!; try done. by eapply list_elem_of_lookup_2.
  - by right.
Qed.
End lookups.


(** [verify_vote] looks at neither the proof nor the signature of the request: a vote on
    the chain is reported "verified successfully" exactly when its transaction carries any
    bytes as a proof, whatever proof is presented; and it does so for every vote on a reachable
    chain without an error. *)
Theorem verify_vote_ignores_proof `{HashCrate, HexCrateSpec, BincodeTx} (c : Blockchain) (tx : Transaction) (vote : VoteTransaction)
    (proof : string) (signature : option string) :
  reachable c -> tx ∈ get_all_transactions c -> tx_type tx = Vote vote ->
  (forall tx', tx' ∈ get_all_transactions c -> tx_id tx' = tx_id tx -> tx' = tx) ->
  exists response, vm_verify_vote c (mkVerifyVoteRequest (TxId_to_hex (tx_id tx)) proof signature) = Ok response /\
    (vvr_valid response = true <-> is_Some (vt_validity_proof vote)) /\
    vvr_election_id response = Some (ElectionId_to_hex (vt_election_id vote)) /\
    (forall proof' signature',
       vm_verify_vote c (mkVerifyVoteRequest (TxId_to_hex (tx_id tx)) proof' signature') = Ok response).
Proof.
  intros Hwf%reachable_wf Hin Hty Huniq. unfold vm_verify_vote. cbn [vvq_tx_id]. rewrite parse_tx_id. cbn.
  destruct (rpc_find_transaction c (tx_id tx) Hwf) as [(tx' & b & h & Hh & Hg & _ & Hb & _ & Hin' & Hid)|[_ Hno]];
    [|by destruct (Hno tx Hin)].
  assert (tx' = tx) as ->.
  { apply Huniq; [|done]. apply elem_of_all_transactions. eauto. }
  rewrite Hg. cbn. rewrite Hty. eexists. split; [done|]. cbn. split; [|done]. by rewrite bool_decide_eq_true.
Qed.

(** ** Election results *)
Section election_results.
Context `{HashCrate, HexCrate, BincodeTx}.

(** The votes of an election in the blocks from [first] to [last]. *)
Definition is_vote_for (id : ElectionId) (tx : Transaction) : bool :=
  match tx_type tx with Vote vote => bool_decide (vt_election_id vote = id) | _ => false end.
Definition election_votes (c : Blockchain) (id : ElectionId) (first last : Z) : list Transaction :=
  blocks_between c first last ≫= fun b => filter (fun tx => is_vote_for id tx = true) (block_transactions b).

(** What the placeholder counts: all [n] votes under one name. *)
Definition lumped (n : Z) : gmap string Z := if n =? 0 then ∅ else {[ "candidate_1"%string := n ]}.

Lemma add_count_lumped n : 0 <= n < 2 ^ 64 - 1 -> add_count "candidate_1" (lumped n) = lumped (n + 1).
Proof.
  intros Hn. unfold add_count, lumped. destruct (Z.eqb_spec n 0) as [->|Hne].
  - done.
  - rewrite lookup_singleton_eq. cbn. rewrite u64_add_small by lia. destruct (Z.eqb_spec (n + 1) 0); [lia|].
    apply insert_singleton_eq.
Qed.

Lemma count_block_votes_cons id tx txs counts :
  count_block_votes id (tx :: txs) counts =
  if is_vote_for id tx then count_block_votes id txs (add_count "candidate_1" counts) else count_block_votes id txs counts.
Proof. cbn [count_block_votes]. unfold is_vote_for. by destruct (tx_type tx). Qed.

Lemma count_block_lumped id txs n :
  0 <= n -> n + len (filter (fun tx => is_vote_for id tx = true) txs) < 2 ^ 64 ->
  count_block_votes id txs (lumped n) = Ok (lumped (n + len (filter (fun tx => is_vote_for id tx = true) txs))).
Proof.
  revert n. induction txs as [|tx txs IH]; intros n Hn Hb; [cbn; by rewrite Z.add_0_r|]. rewrite filter_cons in *.
  rewrite count_block_votes_cons.
  destruct (is_vote_for id tx); [rewrite decide_True in * by done|rewrite decide_False in * by done; by apply IH].
  rewrite len_cons in *. pose proof (len_nonneg (filter (fun tx => is_vote_for id tx = true) txs)).
  rewrite add_count_lumped, IH by lia. do 2 f_equal. lia.
Qed.

Lemma count_votes_lumped c id first last :
  chain_wf c -> 0 <= first -> len (election_votes c id first last) < 2 ^ 64 ->
  count_votes c id (heights first last) ∅ = Ok (lumped (len (election_votes c id first last))).
Proof.
  intros Hwf Hf Hlen.
  rewrite (loop_over_blocks (fun b m => count_block_votes id (block_transactions b) m) (fun hs m => count_votes c id hs m) c)
    by (done || by apply heights_nonneg).
  rewrite heights_blocks by done. unfold election_votes in *. change (∅ : gmap string Z) with (lumped 0).
  rewrite <- (Z.add_0_l (len _)) in Hlen |- *. revert Hlen. cut (0 <= 0); [|done]. generalize 0 at 2 3 4 5 as n.
  induction (blocks_between c first last) as [|b bs IH]; intros n Hn Hlen; [cbn; by rewrite Z.add_0_r|].
  cbn [foldl mbind list_bind result_bind] in *. rewrite len_app in *.
  pose proof (len_nonneg (bs ≫= fun b => filter (fun tx => is_vote_for id tx = true) (block_transactions b))).
  pose proof (len_nonneg (filter (fun tx => is_vote_for id tx = true) (block_transactions b))).
  rewrite count_block_lumped, IH by lia. do 2 f_equal. lia.
Qed.

Lemma lumped_total n : 0 <= n < 2 ^ 64 -> map_fold (fun _ k acc => u64_add acc k) 0 (lumped n) = n.
Proof.
  intros Hn. unfold lumped. destruct (Z.eqb_spec n 0) as [->|]; [done|].
  rewrite map_fold_singleton. apply u64_add_small. lia.
Qed.

Lemma lumped_lookup n name : default 0 (lumped n !! name) = if String.eqb name "candidate_1" then n else 0.
Proof.
  unfold lumped. destruct (Z.eqb_spec n 0) as [->|]; [rewrite lookup_empty; by destruct (String.eqb _ _)|].
  destruct (String.eqb_spec name "candidate_1") as [->|]; [by rewrite lookup_singleton_eq|by rewrite lookup_singleton_ne].
Qed.
End election_results.

(** C39: The results of a finalized election on a reachable chain: the total is the number of
    its votes in the blocks between its creation and its closing, but every vote is counted
    for the candidate named "candidate_1", whatever was encrypted, and every other candidate
    is reported with none; an election that is not finalized is refused.  The state store only
    changes by the lookup of the election. *)
Theorem results_all_to_one_candidate {S : Type} `{Database S, HexCrate, BincodeElection, HashCrate, BincodeTx}
    (c : Blockchain) (election_id : string) (st st' : StateStore S) (id : ElectionId) (e : ElectionState) :
  reachable c -> find_election election_id st = (Ok (id, e), st') -> 0 <= es_created_at_height e ->
  let votes := election_votes c id (es_created_at_height e) (default (bc_height c) (es_closed_at_height e)) in
  len votes < 2 ^ 64 ->
  if es_is_finalized e
  then exists r, vm_get_election_results c election_id st = (Ok r, st') /\
         err_election_id r = ElectionId_to_hex id /\ err_total_votes r = len votes /\
         (fun x => (crs_candidate_id x, crs_votes x)) <$> err_results r =
         (fun k => (ci_id k, if String.eqb (ci_id k) "candidate_1" then len votes else 0)) <$> es_candidates e
  else vm_get_election_results c election_id st = (Err (InvalidTransaction "Election is not finalized yet"), st').
Proof.
  intros Hwf%reachable_wf Hfind Hc votes Hlen. unfold vm_get_election_results, mbind, stM_bind. rewrite Hfind.
  destruct (es_is_finalized e); cbn [ensure lift]; [|done]. rewrite count_votes_lumped by done. fold votes.
  rewrite lumped_total by (pose proof (len_nonneg votes); lia). eexists. split; [done|]. cbn. split_and!; [done..|].
  rewrite <- list_fmap_compose. apply list_fmap_ext. intros i k _. cbn. by rewrite lumped_lookup.
Qed.

(** ** Submission, health and the node's service *)

(** Looking up a transaction by the digits of its identifier, on a reachable chain: it is
    reported with the block that holds it, and is "not found" exactly when no block holds a
    transaction with that identifier; it never panics. *)
Theorem transaction_by_id `{HashCrate, HexCrateSpec, BincodeTx, JsonCrate, !ToValue Transaction} (c : Blockchain) (id : TxId) :
  reachable c ->
  (exists tx b, tx ∈ block_transactions b /\ b ∈ bc_blocks c /\ tx_id tx = id /\
     bm_get_transaction c (TxId_to_hex id) = transaction_to_response tx b) \/
  ((forall tx, tx ∈ get_all_transactions c -> tx_id tx <> id) /\
   bm_get_transaction c (TxId_to_hex id) = Err (TransactionNotFound (TxId_to_hex id))).
Proof. intros Hwf%reachable_wf. by apply get_transaction_hex. Qed.

(** A transaction submitted over RPC is accepted exactly when its digits decode to a valid
    transaction that can be put in a message; then every connected peer is sent that message,
    once, and nothing else of the network changes.  Otherwise an error is returned and nothing
    is sent. *)
Theorem submit_transaction_spec {T : Type} `{Tcp T, HashCrate, HexCrateSpec, BincodeTx, !Bincode Transaction}
    (now nonce : Z) (data : list byte) (n : NetworkManager (T := T)) :
  match bincode_decode (A := Transaction) data with
  | inl tx =>
      match Transaction_validate tx, Message_new_transaction now nonce tx with
      | Ok _, Ok m =>
          wm_submit_transaction now nonce (hex_encode data) n =
          (Ok (mkSubmitResponse (TxId_to_hex (tx_id tx)) true None),
           set_peers ((fun p => if is_connected p then (peer_send now m p).2 else p) <$> nm_peers n) n)
      | Err e, _ | Ok _, Err e => wm_submit_transaction now nonce (hex_encode data) n = (Err e, n)
      | Panic, _ | Ok _, Panic => wm_submit_transaction now nonce (hex_encode data) n = (Panic, n)
      end
  | inr e => wm_submit_transaction now nonce (hex_encode data) n = (Err (SerializationError e), n)
  end.
Proof.
  unfold wm_submit_transaction, mbind, stM_bind, lift. rewrite hex_decode_encode.
  destruct (bincode_decode data) as [tx|e]; cbn [map_err]; [|done].
  destruct (Transaction_validate tx) as [[]|e|]; [|done..]. destruct (Message_new_transaction now nonce tx) as [m|e|]; [|done..].
  unfold broadcast. by rewrite broadcast_spec.
Qed.

(** The health report is "ok" exactly with at least three peers and at most a hundred blocks
    to catch up, and "degraded" otherwise: no state of the node is reported as an error, not
    even a node without peers. *)
Theorem health_never_error {T D : Type} `{Tcp T, HashCrate, HexCrate} (now : Z) (n : NodeMethods (T := T) (D := D)) :
  exists r, ndm_health now n = Ok r /\
    hrp_status r =
      (if (3 <=? network_peer_count (ndm_network_manager n)) &&
          (u64_saturating_sub (sy_target_height (network_sync_status now (ndm_network_manager n))) (bc_height (ndm_chain n)) <=? 100)
       then "ok"%string else "degraded"%string).
Proof.
  eexists. split; [done|]. cbn [hrp_status]. unfold check_database_health, check_network_health, check_consensus_health.
  pose proof (len_nonneg (nm_peers (ndm_network_manager n))) as Hp. fold (network_peer_count (ndm_network_manager n)) in Hp.
  remember (network_peer_count (ndm_network_manager n)) as peers.
  remember (u64_saturating_sub _ (bc_height (ndm_chain n))) as behind.
  repeat match goal with
  | |- context [?x =? ?y] => destruct (Z.eqb_spec x y)
  | |- context [?x <? ?y] => destruct (Z.ltb_spec x y)
  | |- context [?x <=? ?y] => destruct (Z.leb_spec x y)
  end; try lia; done.
Qed.

Section node_service_facts.
Context {T : Type} `{Tcp T, HashCrate, HexCrate, BincodeTx, JsonCrate}.

Lemma reading_keeps {A : Type} (I : NodeRpcService (T := T) -> Prop) (f : NodeRpcService -> VResult A) :
  (forall s, I s -> f s <> Panic) -> op_keeps I (reading f).
Proof. intros Hf s Hs. unfold reading. specialize (Hf s Hs). by destruct (f s). Qed.

Lemma not_implemented_keeps {A : Type} (I : NodeRpcService (T := T) -> Prop) name : op_keeps I (not_implemented (A := A) name).
Proof. by intros s Hs. Qed.

Lemma best_block_no_panic c : get_best_block c <> Panic.
Proof. unfold get_best_block. by destruct (last _). Qed.

Lemma wf_height_no_panic c h : chain_wf c -> get_block_by_height c h <> Panic.
Proof.
  intros Hwf. unfold get_block_by_height. destruct (Z.leb_spec h (bc_height c)) as [Hh|]; [|done].
  rewrite (wf_height c Hwf) in Hh. pose proof (wf_nonempty c Hwf). unfold len in Hh.
  destruct (lookup_lt_is_Some_2 (bc_blocks c) (Z.to_nat h)) as [b ->]; [|done]. destruct (bc_blocks c); cbn in *; [done|lia].
Qed.

(** The operations of the node's service do not change the node, and on a well-formed chain
    none of them panics. *)
Lemma node_service_keeps now (s0 : NodeRpcService (T := T)) :
  chain_wf (nrs_blockchain s0) -> service_keeps (node_rpc_service now) (eq s0).
Proof.
  intros Hwf. split; intros; try apply not_implemented_keeps; apply reading_keeps; intros s <-; try done.
  - unfold nrs_node_info. pose proof (best_block_no_panic (nrs_blockchain s0)). by destruct (get_best_block _).
  - unfold nrs_chain_info. pose proof (best_block_no_panic (nrs_blockchain s0)). destruct (get_best_block _); [|done..]. cbn.
    pose proof (wf_height_no_panic _ 0 Hwf). by destruct (get_block_by_height _ 0) as [[]| |].
  - unfold nrs_get_block_by_height. pose proof (wf_height_no_panic _ h Hwf). by destruct (get_block_by_height _ h) as [[]| |].
Qed.
End node_service_facts.

(** C21: A validator node with a reachable chain answers every RPC request, well-formed or
    not: the reply is a JSON-RPC 2.0 response to that request with a result or an error, no
    request makes the node panic and none changes the node's chain or network. *)
Theorem node_answers_every_request {T : Type} `{Tcp T, HashCrate, HexCrate, BincodeTx, JsonRpcTypes}
    (now : Z) (s : NodeRpcService (T := T)) (request : JsonRpcRequest) :
  reachable (nrs_blockchain s) ->
  exists response, handle_request (node_rpc_service now) request s = (Ok response, s) /\
    jrs_jsonrpc response = "2.0"%string /\ jrs_id response = jrq_id request /\
    (is_Some (jrs_result response) <-> jrs_error response = None).
Proof.
  intros Hwf%reachable_wf.
  destruct (handle_request_keeps (node_rpc_service now) (eq s) request s (node_service_keeps now s Hwf) eq_refl)
    as (response & s' & E & <- & ?). by exists response.
Qed.
