(* ===== verification/RpcServer.v ===== *)
(** * The RPC server: crates/rpc/src/server.rs

    HTTP requests on TCP connections: rate limit, parsing, authentication, the JSON-RPC
    handler and the response.  A connection is the outcome of its read and of its writes; the
    server is a step relation on events (an accepted connection, a failed accept, a call of
    [shutdown], a tick of the cleanup task), where each spawned connection task runs when it
    is accepted.  [serde_json] on requests and responses is a parameter. *)
From stdpp Require Import prelude gmap strings list pretty.
From Stdlib Require Import Strings.Byte Strings.Ascii.
From S2P Require Import Prelude Floats64 Types Transaction Block Protocol CryptoTools Utils Rpc RpcMethods.

Local Open Scope Z_scope.

(** ** The string functions of the standard library that the server uses *)

(** [Utf8Error]: [valid_up_to] and [error_len], [None] for an input that ends too early. *)
Fixpoint utf8_error (i : Z) (l : list byte) : option (Z * option Z) :=
  match l with
  | [] => None
  | b :: l1 =>
      if in_range 0 127 b then utf8_error (i + 1) l1
      else if in_range 194 223 b then
        match l1 with
        | [] => Some (i, None)
        | b1 :: l2 => if cont b1 then utf8_error (i + 2) l2 else Some (i, Some 1)
        end
      else if in_range 224 239 b then
        match l1 with
        | [] => Some (i, None)
        | b1 :: l2 =>
            if (if in_range 224 224 b then in_range 160 191 b1
                else if in_range 237 237 b then in_range 128 159 b1 else cont b1) then
              match l2 with
              | [] => Some (i, None)
              | b2 :: l3 => if cont b2 then utf8_error (i + 3) l3 else Some (i, Some 2)
              end
            else Some (i, Some 1)
        end
      else if in_range 240 244 b then
        match l1 with
        | [] => Some (i, None)
        | b1 :: l2 =>
            if (if in_range 240 240 b then in_range 144 191 b1
                else if in_range 244 244 b then in_range 128 143 b1 else cont b1) then
              match l2 with
              | [] => Some (i, None)
              | b2 :: l3 =>
                  if cont b2 then
                    match l3 with
                    | [] => Some (i, None)
                    | b3 :: l4 => if cont b3 then utf8_error (i + 4) l4 else Some (i, Some 3)
                    end
                  else Some (i, Some 2)
              end
            else Some (i, Some 1)
        end
      else Some (i, Some 1)
  end.

Definition utf8_error_display (e : Z * option Z) : string :=
  match e.2 with
  | Some n => "invalid utf-8 sequence of " ++ pretty n ++ " bytes from index " ++ pretty e.1
  | None => "incomplete utf-8 byte sequence from index " ++ pretty e.1
  end.

(** [str::chars], a character as its UTF-8 bytes. *)
Fixpoint chars (s : string) : list string :=
  match s with
  | EmptyString => []
  | String c s' =>
      match chars s' with
      | String d t :: rest => if continues d then String c (String d t) :: rest else String c "" :: String d t :: rest
      | rest => String c "" :: rest
      end
  end.

Definition of_codes (l : list nat) : string := String.string_of_list_ascii (ascii_of_nat <$> l).
(** [char::is_whitespace]: the characters of the Unicode property [White_Space]. *)
Definition whitespace : list string := Eval vm_compute in
  of_codes <$> [[9]; [10]; [11]; [12]; [13]; [32]; [194; 133]; [194; 160]; [225; 154; 128];
    [226; 128; 128]; [226; 128; 129]; [226; 128; 130]; [226; 128; 131]; [226; 128; 132]; [226; 128; 133]; [226; 128; 134];
    [226; 128; 135]; [226; 128; 136]; [226; 128; 137]; [226; 128; 138]; [226; 128; 168]; [226; 128; 169]; [226; 128; 175];
    [226; 129; 159]; [227; 128; 128]]%nat.
Definition is_whitespace (c : string) : bool := existsb (String.eqb c) whitespace.

Fixpoint join_chars (l : list string) : string := match l with [] => "" | c :: l' => c ++ join_chars l' end.
Fixpoint drop_while (f : string -> bool) (l : list string) : list string :=
  match l with [] => [] | c :: l' => if f c then drop_while f l' else l end.
Fixpoint take_while (f : string -> bool) (l : list string) : list string :=
  match l with [] => [] | c :: l' => if f c then c :: take_while f l' else [] end.

(** [str::trim]. *)
Definition trim (s : string) : string :=
  join_chars (reverse (drop_while is_whitespace (reverse (drop_while is_whitespace (chars s))))).
(** [s.split_whitespace().next()]. *)
Definition first_word (s : string) : option string :=
  match take_while (negb ∘ is_whitespace) (drop_while is_whitespace (chars s)) with
  | [] => None
  | w => Some (join_chars w)
  end.

(** [line.to_lowercase().starts_with(prefix)] for a prefix of lower-case ASCII characters.
    Only the ASCII letters matter: no other character has a lower case that consists of
    characters of the prefix used here. *)
Definition lower (c : ascii) : ascii :=
  let n := N_of_ascii c in if ((65 <=? n) && (n <=? 90))%N then ascii_of_N (n + 32) else c.
Fixpoint lower_starts_with (prefix s : string) : bool :=
  match prefix, s with
  | EmptyString, _ => true
  | String p prefix', String c s' => Ascii.eqb p (lower c) && lower_starts_with prefix' s'
  | _, EmptyString => false
  end.

(** [line.splitn(2, ':')]. *)
Fixpoint splitn_colon (s : string) : list string :=
  match s with
  | EmptyString => [""%string]
  | String c s' =>
      if Ascii.eqb c ":" then [""%string; s']
      else match splitn_colon s' with
           | p :: ps => String c p :: ps
           | [] => [String c ""]
           end
  end.

Definition crlf : string := String "013" (String "010" "").
Definition blank_line : list byte := [x0d; x0a; x0d; x0a].
(** [request_str.find("\r\n\r\n")]. *)
Fixpoint find_blank_line (l : list byte) : option nat :=
  match l with
  | [] => None
  | _ :: l' => if bool_decide (take 4 l = blank_line) then Some 0%nat else S <$> find_blank_line l'
  end.

(** ** Requests *)
Definition parse_http_request (data : list byte) : VResult (string * list byte) :=
  match utf8_error 0 data with
  | Some e => Err (NetworkError ("Invalid UTF-8: " ++ utf8_error_display e))
  | None =>
      header_end ← ok_or (find_blank_line data) (NetworkError "Invalid HTTP request");
      let headers := String.string_of_list_byte (take header_end data) in
      first_line ← ok_or (head (str_lines headers)) (NetworkError "Empty HTTP request");
      method ← ok_or (first_word first_line) (NetworkError "Invalid HTTP method");
      Ok (method, drop (header_end + 4) data)
  end.

(** One line of the loop of [check_authorization]. *)
Definition authorizes (api_key line : string) : bool :=
  lower_starts_with "authorization:" line &&
  match splitn_colon line with
  | [_; value] =>
      let auth_value := trim value in
      String.eqb auth_value api_key || String.eqb auth_value ("Bearer " ++ api_key)
  | _ => false
  end.

Definition check_authorization (request_data : list byte) (api_key : string) : bool :=
  match utf8_error 0 request_data with
  | None => existsb (authorizes api_key) (str_lines (String.string_of_list_byte request_data))
  | Some _ => false
  end.

(** ** Connections *)

(** What [read] finds on the connection within the timeout, and what each write does: a
    failed one has written some bytes. *)
Inductive Incoming :=
| ReadTimeout
| ReadFailed (e : string)
| Available (data : list byte).

Record HttpStream := mkHttpStream {
  hs_incoming : Incoming;
  hs_write : nat -> option (nat * string);
  hs_writes : nat;
  hs_sent : list byte
}.

Definition stream_write (what : string) (data : list byte) : VStM HttpStream unit := fun s =>
  match hs_write s (hs_writes s) with
  | None => (Ok tt, mkHttpStream (hs_incoming s) (hs_write s) (S (hs_writes s)) (hs_sent s ++ data))
  | Some (n, e) =>
      (Err (NetworkError (what ++ e)), mkHttpStream (hs_incoming s) (hs_write s) (S (hs_writes s)) (hs_sent s ++ take n data))
  end.

Class JsonRpcCodec `{JsonCrate} := {
  request_from_slice : list byte -> JsonRpcRequest + string;
  response_to_vec : JsonRpcResponse -> list byte + string
}.

Definition http_header (content_length : Z) : string :=
  "HTTP/1.1 200 OK" ++ crlf ++ "Content-Type: application/json" ++ crlf ++
  "Content-Length: " ++ pretty content_length ++ crlf ++ "Connection: close" ++ crlf ++ crlf.

Section server.
Context `{JsonRpcTypes, !JsonRpcCodec} {S : Type} (service : RpcService S).

Definition create_error_response (id : RequestId) (error : JsonRpcError) : JsonRpcResponse :=
  mkJsonRpcResponse "2.0" None (Some error) id.

Definition send_response (response : JsonRpcResponse) : VStM HttpStream unit :=
  json ← lift (map_err (fun e => SerializationError ("Failed to serialize: " ++ e)) (response_to_vec response));
  _ ← stream_write "Failed to write headers: " (String.list_byte_of_string (http_header (len json)));
  _ ← stream_write "Failed to write body: " json;
  stream_write "Failed to flush: " [].

(** What a connection task works on: the shared service and rate limiter, and its stream. *)
Record Connection := mkConnection {
  cn_service : S;
  cn_limiter : option RateLimiter;
  cn_stream : HttpStream
}.

Definition on_stream {A : Type} (m : VStM HttpStream A) : VStM Connection A := fun c =>
  let '(r, s) := m (cn_stream c) in (r, mkConnection (cn_service c) (cn_limiter c) s).
Definition on_service {A : Type} (m : VStM S A) : VStM Connection A := fun c =>
  let '(r, s) := m (cn_service c) in (r, mkConnection s (cn_limiter c) (cn_stream c)).

(** The check of the rate limit; without a limiter everything is allowed. *)
Definition check_rate_limit (instant : Z) (peer_ip : string) : VStM Connection bool := fun c =>
  match cn_limiter c with
  | Some limiter =>
      let '(b, limiter') := is_allowed instant peer_ip limiter in
      (Ok b, mkConnection (cn_service c) (Some limiter') (cn_stream c))
  | None => (Ok true, c)
  end.

(** One [read] into a buffer of [max_request_size] bytes. *)
Definition read_request (config : RpcConfig) : VStM Connection (list byte) := fun c =>
  match hs_incoming (cn_stream c) with
  | ReadTimeout => (Err (NetworkError "Request timeout"), c)
  | ReadFailed e => (Err (NetworkError ("Failed to read request: " ++ e)), c)
  | Available data => (Ok (take (Z.to_nat (rpc_max_request_size config)) data), c)
  end.

(** Answer with an error object and end. *)
Definition refuse (id : RequestId) (error : JsonRpcError) : VStM Connection unit :=
  on_stream (send_response (create_error_response id error)).

(** [config.enable_auth] with a key that the request does not present. *)
Definition unauthorized (config : RpcConfig) (request_data : list byte) : bool :=
  rpc_enable_auth config &&
  match rpc_api_key config with
  | Some api_key => negb (check_authorization request_data api_key)
  | None => false
  end.

(** From the parsed HTTP request on. *)
Definition handle_post (config : RpcConfig) (request_data : list byte) (method : string) (body : list byte) : VStM Connection unit :=
  if negb (String.eqb method "POST") then refuse IdNull (invalid_request "Only POST method is supported")
  else if unauthorized config request_data then refuse IdNull (custom_error (-32001) "Unauthorized")
  else match request_from_slice body with
  | inr _ => refuse IdNull (Rpc.parse_error "Invalid JSON-RPC request")
  | inl rpc_request =>
      if negb (String.eqb (jrq_jsonrpc rpc_request) "2.0") then
        refuse (jrq_id rpc_request) (invalid_request "JSON-RPC version must be 2.0")
      else
        response ← on_service (handle_request service rpc_request);
        on_stream (send_response response)
  end.

Definition handle_connection (instant : Z) (peer_ip : string) (config : RpcConfig) : VStM Connection unit :=
  allowed ← check_rate_limit instant peer_ip;
  if negb allowed then refuse IdNull (custom_error (-32000) "Rate limit exceeded")
  else
    request_data ← read_request config;
    if len request_data =? 0 then mret tt
    else match parse_http_request request_data with
    | Ok (method, body) => handle_post config request_data method body
    | Err _ => refuse IdNull (Rpc.parse_error "Invalid HTTP request")
    | Panic => lift Panic
    end.

(** ** The server *)
Record RpcServer := mkRpcServer {
  srv_config : RpcConfig;
  srv_service : S;
  srv_rate_limiter : option RateLimiter;
  srv_shutdown : bool
}.

Definition RpcServer_new (config : RpcConfig) (s : S) : RpcServer :=
  mkRpcServer config s
    (if rpc_enable_rate_limit config then Some (RateLimiter_new (rpc_rate_limit_per_second config)) else None) false.

Definition server_shutdown (s : RpcServer) : RpcServer :=
  mkRpcServer (srv_config s) (srv_service s) (srv_rate_limiter s) true.

(** [peer_addr.ip().to_string()]. *)
Definition ip_display (a : SocketAddr) : string :=
  match a with SocketV4 octets _ => ipv4_display (array_list octets) | SocketV6 octets _ _ _ => ipv6_display (array_list octets) end.

Inductive ServerEvent :=
| Accepted (instant : Z) (peer_addr : SocketAddr) (stream : HttpStream)
| AcceptFailed (e : string)
| ShutdownCall
| CleanupTick (instant : Z).

(** A server whose loop is blocked in [accept], or has returned. *)
Record Running := mkRunning { run_server : RpcServer; run_stopped : bool }.

(** The top of the loop: [if *self.shutdown.read().await { break }]. *)
Definition check_shutdown (s : RpcServer) : Running := mkRunning s (srv_shutdown s).

Definition serve (instant : Z) (peer_addr : SocketAddr) (stream : HttpStream) (s : RpcServer) : VResult unit * HttpStream * RpcServer :=
  let '(r, c) := handle_connection instant (ip_display peer_addr) (srv_config s)
                   (mkConnection (srv_service s) (srv_rate_limiter s) stream) in
  (r, cn_stream c, mkRpcServer (srv_config s) (cn_service c) (cn_limiter c) (srv_shutdown s)).

(** One event; the answer of an accepted connection, if any. *)
Definition server_event (e : ServerEvent) (st : Running) : option (VResult unit * HttpStream) * Running :=
  match e with
  | Accepted instant addr stream =>
      if run_stopped st then (None, st)
      else let '(r, stream', s') := serve instant addr stream (run_server st) in (Some (r, stream'), check_shutdown s')
  | AcceptFailed _ => if run_stopped st then (None, st) else (None, check_shutdown (run_server st))
  | ShutdownCall => (None, mkRunning (server_shutdown (run_server st)) (run_stopped st))
  | CleanupTick instant =>
      let s := run_server st in
      (None, mkRunning (mkRpcServer (srv_config s) (srv_service s) (limiter_cleanup instant <$> srv_rate_limiter s) (srv_shutdown s))
               (run_stopped st))
  end.

Fixpoint server_run (es : list ServerEvent) (st : Running) : list (VResult unit * HttpStream) * Running :=
  match es with
  | [] => ([], st)
  | e :: es' =>
      let '(o, st1) := server_event e st in
      let '(os, st2) := server_run es' st1 in
      (option_list o ++ os, st2)
  end.

(** [start]: the address is parsed and bound ([parse_addr] and [bind] are the standard
    library's and the operating system's part), then the loop begins. *)
Definition server_start (parse_addr : string -> SocketAddr + string) (bind : SocketAddr -> unit + string) (s : RpcServer) :
    VResult Running :=
  let addr := (rpc_listen_addr (srv_config s) ++ ":" ++ pretty (rpc_port (srv_config s)))%string in
  socket_addr ← map_err (fun e => NetworkError ("Invalid address: " ++ e)) (parse_addr addr);
  _ ← map_err (fun e => NetworkError ("Failed to bind: " ++ e)) (bind socket_addr);
  Ok (check_shutdown s).
End server.

(** ** Properties *)

(** The two validations of UTF-8 agree. *)
Lemma utf8_error_valid l i : utf8_error i l = None <-> utf8_valid l = true.
Proof.
  remember (length l) as n eqn:Hn. assert (length l <= n)%nat as Hle by lia. clear Hn. revert l i Hle.
  induction n as [|n IH]; intros l i Hle; [destruct l; [done|cbn in Hle; lia]|].
  destruct l as [|b l1]; [done|]. cbn in Hle. cbn [utf8_error utf8_valid].
  destruct (in_range 0 127 b); [apply IH; lia|].
  destruct l1 as [|b1 l2]; [by repeat case_match|]. cbn in Hle.
  destruct (in_range 194 223 b); [destruct (cont b1); [apply IH; lia|done]|].
  destruct l2 as [|b2 l3]; [by repeat case_match|]. cbn in Hle.
  destruct (in_range 224 239 b).
  { destruct (if in_range 224 224 b then _ else _); [|done]. destruct (cont b2); [apply IH; lia|done]. }
  destruct l3 as [|b3 l4]; [by repeat case_match|]. cbn in Hle.
  destruct (in_range 240 244 b); [|done].
  destruct (if in_range 240 240 b then _ else _); [|done]. destruct (cont b2); [|done]. destruct (cont b3); [apply IH; lia|done].
Qed.

(** The bytes of a response on the wire. *)
Definition http_bytes `{JsonRpcCodec} (response : JsonRpcResponse) : list byte :=
  match response_to_vec response with
  | inl json => String.list_byte_of_string (http_header (len json)) ++ json
  | inr _ => []
  end.

(** Whatever [m] does to the stream, it only sends a beginning of [bytes]. *)
Definition sends {A : Type} (bytes : list byte) (m : VStM HttpStream A) : Prop :=
  forall s, exists sent, hs_sent (m s).2 = hs_sent s ++ sent /\ sent `prefix_of` bytes /\
    (is_ok (m s).1 = true -> sent = bytes).

Lemma stream_write_sends what data : sends data (stream_write what data).
Proof.
  intros s. unfold stream_write. destruct (hs_write s (hs_writes s)) as [[n e]|]; cbn.
  - exists (take n data). split_and!; [done| |done]. apply prefix_take.
  - by exists data.
Qed.

Lemma sends_seq {A B : Type} a b (m : VStM HttpStream A) (k : VStM HttpStream B) :
  sends a m -> sends b k -> sends (a ++ b) (_ ← m; k).
Proof.
  intros Hm Hk s. unfold mbind, stM_bind. destruct (Hm s) as (sa & Ea & Pa & Fa).
  destruct (m s) as [[x|e|] s1]; cbn in *; [|exists sa; split_and!; [done|by apply prefix_app_r|done]..].
  specialize (Fa eq_refl) as ->. destruct (Hk s1) as (sb & Eb & Pb & Fb). exists (a ++ sb).
  rewrite Eb, Ea, app_assoc. split_and!; [done|by apply prefix_app|]. intros Hok. f_equal. auto.
Qed.

Lemma send_response_sends `{JsonRpcCodec} response : sends (http_bytes response) (send_response response).
Proof.
  unfold send_response, http_bytes. destruct (response_to_vec response) as [json|e].
  - pose proof (sends_seq _ _ _ _ (stream_write_sends "Failed to write headers: " (String.list_byte_of_string (http_header (len json))))
      (sends_seq _ _ _ _ (stream_write_sends "Failed to write body: " json) (stream_write_sends "Failed to flush: " []))) as Hs.
    rewrite app_nil_r in Hs. exact Hs.
  - intros s. exists []. cbn. rewrite app_nil_r. split_and!; done.
Qed.

Section connection_facts.
Context `{JsonRpcTypes, !JsonRpcCodec} {S : Type} (service : RpcService S).

(** A connection task that leaves the service alone and sends at most an error reply. *)
Definition only_refuses (m : VStM (Connection (S := S)) unit) : Prop :=
  forall c, cn_service (m c).2 = cn_service c /\
    exists sent id error, hs_sent (cn_stream (m c).2) = hs_sent (cn_stream c) ++ sent /\
      sent `prefix_of` http_bytes (create_error_response id error).

Lemma refuse_only id error : only_refuses (refuse id error).
Proof.
  intros c. unfold refuse, on_stream. destruct (send_response_sends (create_error_response id error) (cn_stream c)) as (sent & E & P & _).
  destruct (send_response _ (cn_stream c)) as [r s']. cbn in *. split; [done|]. by exists sent, id, error.
Qed.

Lemma nothing_only r : only_refuses (lift r).
Proof. intros c. cbn. split; [done|]. exists [], IdNull, (Rpc.parse_error ""). rewrite app_nil_r. split; [done|]. apply prefix_nil. Qed.

Lemma check_rate_limit_keeps instant ip (c : Connection (S := S)) :
  exists b c1, check_rate_limit instant ip c = (Ok b, c1) /\ cn_service c1 = cn_service c /\ cn_stream c1 = cn_stream c /\
    (cn_limiter c1, b) = match cn_limiter c with
                         | Some l => (Some (is_allowed instant ip l).2, (is_allowed instant ip l).1)
                         | None => (None, true)
                         end.
Proof.
  unfold check_rate_limit. destruct (cn_limiter c) as [l|] eqn:E; [|by exists true, c; rewrite E].
  destruct (is_allowed instant ip l) as [b l']. by eexists b, _.
Qed.

(** A connection whose task refuses once its data is read. *)
Lemma handle_connection_refuses instant ip config (c : Connection (S := S)) data :
  hs_incoming (cn_stream c) = Available data ->
  (forall method body, parse_http_request (take (Z.to_nat (rpc_max_request_size config)) data) = Ok (method, body) ->
     only_refuses (handle_post service config (take (Z.to_nat (rpc_max_request_size config)) data) method body)) ->
  cn_service (handle_connection service instant ip config c).2 = cn_service c /\
  exists sent id error, hs_sent (cn_stream (handle_connection service instant ip config c).2) = hs_sent (cn_stream c) ++ sent /\
    sent `prefix_of` http_bytes (create_error_response id error).
Proof.
  intros Hd Hpost. unfold handle_connection, mbind, stM_bind.
  destruct (check_rate_limit_keeps instant ip c) as (b & c1 & -> & <- & Hs & _). rewrite <- Hs in *.
  destruct b; cbn [negb]; [|apply refuse_only]. unfold read_request. rewrite Hd.
  destruct (len _ =? 0); [apply (nothing_only (Ok tt))|].
  destruct (parse_http_request _) as [[method body]|e|]; [by apply Hpost|apply refuse_only|apply nothing_only].
Qed.
End connection_facts.

(** C18: With authentication on and an API key set, a connection whose request has no
    authorization line with the key gets nothing: the node is not touched, and all that is
    sent back is (a beginning of) an error reply. *)
Theorem unauthorized_gets_nothing `{JsonRpcTypes, !JsonRpcCodec} {S : Type} (service : RpcService S) (instant : Z) (ip : string)
    (config : RpcConfig) (key : string) (data : list byte) (c : Connection (S := S)) :
  rpc_enable_auth config = true -> rpc_api_key config = Some key -> hs_incoming (cn_stream c) = Available data ->
  check_authorization (take (Z.to_nat (rpc_max_request_size config)) data) key = false ->
  let c' := (handle_connection service instant ip config c).2 in
  cn_service c' = cn_service c /\
  exists sent id error, hs_sent (cn_stream c') = hs_sent (cn_stream c) ++ sent /\
    sent `prefix_of` http_bytes (create_error_response id error).
Proof.
  intros Ha Hk Hd Hno. apply (handle_connection_refuses service instant ip config c data Hd). intros method body _.
  unfold handle_post. destruct (String.eqb method "POST"); [|apply refuse_only]. cbn [negb].
  unfold unauthorized. rewrite Ha, Hk, Hno. apply refuse_only.
Qed.

(** Authentication without a key is no authentication: with [enable_auth] set and no
    [api_key] the server treats every connection as if authentication were off. *)
Theorem auth_without_key_is_open `{JsonRpcTypes, !JsonRpcCodec} {S : Type} (service : RpcService S) (instant : Z) (ip : string)
    (config open_config : RpcConfig) (c : Connection (S := S)) :
  rpc_enable_auth config = true -> rpc_api_key config = None -> rpc_enable_auth open_config = false ->
  rpc_max_request_size open_config = rpc_max_request_size config ->
  handle_connection service instant ip config c = handle_connection service instant ip open_config c.
Proof.
  intros Ha Hk Ho Hm. unfold handle_connection, handle_post, read_request, unauthorized. by rewrite Ha, Hk, Ho, Hm.
Qed.

(** ** The accept loop *)
Section loop_facts.
Context `{JsonRpcTypes, !JsonRpcCodec} {S : Type} (service : RpcService S).

Definition calls_shutdown (e : ServerEvent) : bool := match e with ShutdownCall => true | _ => false end.

Lemma serve_shutdown instant addr stream s :
  srv_shutdown (serve service instant addr stream s).2 = srv_shutdown s.
Proof. unfold serve. by destruct (handle_connection _ _ _ _ _). Qed.

Lemma server_event_stopped e st : run_stopped st = true -> server_event service e st = (None, (server_event service e st).2) /\
  run_stopped (server_event service e st).2 = true.
Proof. intros Hs. destruct e; cbn; rewrite ?Hs; done. Qed.

Lemma server_run_stopped es st : run_stopped st = true ->
  (server_run service es st).1 = [] /\ run_stopped (server_run service es st).2 = true.
Proof.
  revert st. induction es as [|e es IH]; intros st Hs; [done|]. cbn. destruct (server_event_stopped e st Hs) as [E Hs'].
  rewrite E. specialize (IH _ Hs'). by destruct (server_run service es _).
Qed.

Lemma server_run_open es st :
  run_stopped st = false -> srv_shutdown (run_server st) = false -> Forall (fun e => calls_shutdown e = false) es ->
  run_stopped (server_run service es st).2 = false /\ srv_shutdown (run_server (server_run service es st).2) = false.
Proof.
  intros Hst Hsh Hes. revert st Hst Hsh. induction Hes as [|e es He _ IH]; intros st Hst Hsh; [done|]. cbn.
  assert (run_stopped (server_event service e st).2 = false /\ srv_shutdown (run_server (server_event service e st).2) = false) as [Hst1 Hsh1].
  { destruct e as [i a str|err| |i]; cbn; rewrite ?Hst; [|by cbn|done|done].
    pose proof (serve_shutdown i a str (run_server st)) as Hss. destruct (serve _ _ _ _ _) as [[r s] srv]. cbn in *. by rewrite Hss, Hsh. }
  destruct (server_event service e st) as [o st1]. cbn in *. specialize (IH st1 Hst1 Hsh1). by destruct (server_run service es st1).
Qed.
End loop_facts.

(** Shutting down: a running server goes on as long as [shutdown] is not called.  A call
    does not end the accept it is blocked in, so one more connection is accepted and served in
    full; after it the loop has ended and no later connection is answered. *)
Theorem shutdown_serves_one_more `{JsonRpcTypes, !JsonRpcCodec} {S : Type} (service : RpcService S) (config : RpcConfig) (s : S)
    (before after : list ServerEvent) (instant : Z) (addr : SocketAddr) (stream : HttpStream) :
  Forall (fun e => calls_shutdown e = false) before ->
  let st := (server_run service before (check_shutdown (RpcServer_new config s))).2 in
  let served := serve service instant addr stream (server_shutdown (run_server st)) in
  run_stopped st = false /\
  (server_run service (ShutdownCall :: Accepted instant addr stream :: after) st).1 = [served.1] /\
  run_stopped (server_run service (ShutdownCall :: Accepted instant addr stream :: after) st).2 = true.
Proof.
  intros Hb st served. destruct (server_run_open service before (check_shutdown (RpcServer_new config s)) eq_refl eq_refl Hb) as [Hst Hsh].
  fold st in Hst, Hsh. split; [done|]. cbn. rewrite Hst. cbn. fold served.
  pose proof (serve_shutdown service instant addr stream (server_shutdown (run_server st))) as Hsd. fold served in Hsd. cbn in Hsd.
  destruct served as [[r str] srv]. cbn in *.
  destruct (server_run_stopped service after (check_shutdown srv) Hsd) as [Ho Hs].
  destruct (server_run service after (check_shutdown srv)) as [os st2]. cbn in *. by subst.
Qed.

(** ** Well-formed requests are parsed *)

(** Visible ASCII characters, of which HTTP methods consist. *)
Definition visible (c : ascii) : bool := let n := N_of_ascii c in ((33 <=? n) && (n <=? 126))%N.

Lemma visible_facts c :
  visible c = true -> is_whitespace (String c "") = false /\ continues c = false /\ Ascii.eqb c "010" = false /\ Ascii.eqb c "013" = false.
Proof. destruct c as [[] [] [] [] [] [] [] []]; vm_compute; by intros. Qed.

Lemma find_blank_line_app h body :
  find_blank_line (h ++ take 3 blank_line) = None -> find_blank_line (h ++ blank_line ++ body) = Some (length h).
Proof.
  induction h as [|x h IH]; intros Hn; [done|]. cbn [app find_blank_line] in *.
  case_bool_decide as E; [done|]. rewrite bool_decide_false.
  - rewrite IH; [done|]. by destruct (find_blank_line (h ++ take 3 blank_line)).
  - contradict E. rewrite <- E at 2. change (x :: h ++ blank_line ++ body) with ((x :: h) ++ blank_line ++ body).
    change (x :: h ++ take 3 blank_line) with ((x :: h) ++ take 3 blank_line).
    destruct h as [|y [|z [|w h]]]; done.
Qed.

Lemma split_newline_prefix p s :
  string_forall (fun c => negb (Ascii.eqb c "010")) p = true ->
  exists l ls, split_newline s = l :: ls /\ split_newline (p ++ s) = (p ++ l)%string :: ls.
Proof.
  intros Hp. induction p as [|c p IH].
  - destruct (split_newline s) as [|l ls] eqn:E; [|by eexists _, _].
    destruct s as [|c s]; [done|]. cbn in E. destruct (Ascii.eqb c "010"); [done|]. by destruct (split_newline s).
  - cbn in Hp. apply andb_prop in Hp as [Hc Hp]. destruct (IH Hp) as (l & ls & E & E'). exists l, ls. split; [done|].
    change (String c p ++ s)%string with (String c (p ++ s)). cbn [split_newline]. apply negb_true_iff in Hc. by rewrite Hc, E'.
Qed.

Lemma strip_cr_app p l : string_forall (fun c => negb (Ascii.eqb c "013")) p = true -> strip_cr (p ++ l) = (p ++ strip_cr l)%string.
Proof.
  induction p as [|c p IH]; [done|]. cbn [string_forall]. intros [Hc Hp]%andb_prop. specialize (IH Hp). apply negb_true_iff in Hc.
  change (String c p ++ l)%string with (String c (p ++ l)). change (String c p ++ strip_cr l)%string with (String c (p ++ strip_cr l)).
  rewrite <- IH. destruct (p ++ l)%string; cbn; [by rewrite Hc|done].
Qed.

Lemma string_forall_app (f : ascii -> bool) s t : string_forall f (s ++ t) = string_forall f s && string_forall f t.
Proof.
  induction s as [|c s IH]; [done|]. change (String c s ++ t)%string with (String c (s ++ t)). cbn. by rewrite IH, andb_assoc.
Qed.

Lemma chars_head d t : exists u rest, chars (String d t) = String d u :: rest.
Proof. cbn [chars]. destruct (chars t) as [|[|e u] r]; [by eauto..|]. destruct (continues e); by eauto. Qed.

(** The characters of a visible string in front of a character. *)
Lemma chars_visible m d t :
  string_forall visible m = true -> continues d = false ->
  chars (m ++ String d t) = ((fun c => String c "") <$> String.list_ascii_of_string m) ++ chars (String d t).
Proof.
  intros Hm Hd. destruct (chars_head d t) as (u & rest & E). rewrite E. revert Hm. induction m as [|c m IH]; [by intros _|].
  cbn [string_forall]. intros [Hc Hm]%andb_prop. specialize (IH Hm).
  change (String c m ++ String d t)%string with (String c (m ++ String d t)). cbn [chars]. rewrite IH.
  destruct m as [|c' m]; cbn [String.list_ascii_of_string fmap list_fmap app]; [by rewrite Hd|].
  cbn in Hm. apply andb_prop in Hm as [Hc' _]. destruct (visible_facts c' Hc') as (_ & Hn & _). by rewrite Hn.
Qed.

Lemma chars_space_slash t : exists rest, chars (" /" ++ t) = " "%string :: rest.
Proof.
  change (" /" ++ t)%string with (String " " (String "/" t)). destruct (chars_head "/" t) as (u & rest & E).
  change (chars (String " " (String "/" t))) with (match chars (String "/" t) with
    | String d t :: rest => if continues d then String " " (String d t) :: rest else String " " "" :: String d t :: rest
    | rest => String " " "" :: rest end). rewrite E. by eexists.
Qed.

Lemma append_assoc (s t u : string) : ((s ++ t) ++ u)%string = (s ++ t ++ u)%string.
Proof.
  induction s as [|c s IH]; [done|]. change (String c ((s ++ t) ++ u) = String c (s ++ t ++ u))%string. by rewrite IH.
Qed.

Lemma first_word_visible m t :
  m <> ""%string -> string_forall visible m = true -> first_word (m ++ " /" ++ t) = Some m.
Proof.
  intros Hne Hm. unfold first_word. change (m ++ " /" ++ t)%string with (m ++ String " " (String "/" t))%string.
  rewrite chars_visible by done.
  destruct (chars_space_slash t) as [rest E]. change (" /" ++ t)%string with (String " " (String "/" t)) in E. rewrite E.
  set (cs := (fun c => String c "") <$> String.list_ascii_of_string m).
  assert (Forall (fun c => is_whitespace c = false) cs) as Hcs.
  { unfold cs. clear -Hm. induction m as [|c m IH]; [constructor|]. cbn in Hm. apply andb_prop in Hm as [Hc Hm].
    constructor; [|by apply IH]. apply (visible_facts c Hc). }
  assert (join_chars cs = m) as Hj.
  { unfold cs. clear. induction m as [|c m IH]; [done|]. cbn [String.list_ascii_of_string fmap list_fmap join_chars].
    change (String c (join_chars ((fun c => String c "") <$> String.list_ascii_of_string m)) = String c m). by rewrite IH. }
  assert (cs <> []) as Hcn by (unfold cs; destruct m; done).
  assert (drop_while is_whitespace (cs ++ " "%string :: rest) = cs ++ " "%string :: rest) as ->.
  { destruct cs as [|c cs]; [done|]. inversion Hcs as [|? ? Hc _]. cbn [app drop_while]. by rewrite Hc. }
  assert (take_while (negb ∘ is_whitespace) (cs ++ " "%string :: rest) = cs) as ->.
  { clear -Hcs. induction Hcs as [|c cs Hc _ IH]; [done|]. cbn [app take_while]. unfold compose at 1. rewrite Hc. cbn [negb]. by rewrite IH. }
  destruct cs; [done|]. by rewrite Hj.
Qed.

(** A request line with a method of visible characters and a path, followed by any
    headers, an empty line and any body, all of it UTF-8, is parsed to that method and exactly
    that body; data that is not UTF-8 or has no empty line is refused, and parsing never
    panics. *)
Theorem http_request_parsed (method rest : string) (body data : list byte) :
  let head := String.list_byte_of_string (method ++ " /" ++ rest) in
  method <> ""%string -> string_forall visible method = true ->
  utf8_valid (head ++ blank_line ++ body) = true -> find_blank_line (head ++ take 3 blank_line) = None ->
  parse_http_request (head ++ blank_line ++ body) = Ok (method, body) /\
  (utf8_valid data = false \/ find_blank_line data = None -> exists e, parse_http_request data = Err (NetworkError e)) /\
  parse_http_request data <> Panic.
Proof.
  intros head Hne Hm Hutf Hfind. split_and!.
  - unfold parse_http_request. rewrite (proj2 (utf8_error_valid _ 0) Hutf), find_blank_line_app by done. cbn [ok_or].
    unfold mbind, result_bind. rewrite take_app_length. unfold head at 1. rewrite String.string_of_list_byte_of_string.
    assert (string_forall (fun c => negb (Ascii.eqb c "010")) (method ++ " /") = true) as Hnl.
    { rewrite string_forall_app. apply andb_true_intro. split; [|done]. eapply string_forall_impl; [|exact Hm].
      intros c Hc. by destruct (visible_facts c Hc) as (_ & _ & -> & _). }
    assert (string_forall (fun c => negb (Ascii.eqb c "013")) (method ++ " /") = true) as Hcr.
    { rewrite string_forall_app. apply andb_true_intro. split; [|done]. eapply string_forall_impl; [|exact Hm].
      intros c Hc. by destruct (visible_facts c Hc) as (_ & _ & _ & ->). }
    destruct (split_newline_prefix (method ++ " /") rest Hnl) as (l & ls & _ & El).
    assert (exists l', List.head (str_lines (method ++ " /" ++ rest)) = Some (method ++ " /" ++ l')%string) as [l' ->].
    { unfold str_lines. rewrite <- append_assoc, El. destruct ls as [|l1 ls]; cbn [drop_last_empty].
      - exists l. rewrite append_assoc. destruct (String.eqb_spec (method ++ " /" ++ l) "") as [E|]; [by destruct method|done].
      - exists (strip_cr l). rewrite strip_cr_app, append_assoc by done. done. }
    cbn [ok_or]. rewrite first_word_visible by done. cbn. f_equal. f_equal.
    rewrite drop_app_ge by lia. replace (length head + 4 - length head)%nat with 4%nat by lia. done.
  - intros Hbad. unfold parse_http_request. destruct (utf8_error 0 data) as [e|] eqn:E; [by eexists|].
    apply utf8_error_valid in E. destruct Hbad as [Hbad|Hbad]; [congruence|]. rewrite Hbad. by eexists.
  - unfold parse_http_request. destruct (utf8_error 0 data); [done|]. destruct (find_blank_line data); [|done]. cbn.
    destruct (List.head (str_lines _)); [|done]. cbn. by destruct (first_word _).
Qed.

(** ** What a client sends and what it reads *)

(** The text of HTTP lines: printable ASCII characters. *)
Definition printable (c : ascii) : bool := let n := N_of_ascii c in ((32 <=? n) && (n <=? 126))%N.
Definition http_line (s : string) : Prop := s <> ""%string /\ string_forall printable s = true.

Fixpoint header_lines (headers : list string) : string :=
  match headers with [] => "" | h :: hs => crlf ++ h ++ header_lines hs end.

(** A POST request: the request line, the header lines, an empty line and the body. *)
Definition http_post (headers : list string) (body : list byte) : list byte :=
  String.list_byte_of_string ("POST / HTTP/1.1" ++ header_lines headers) ++ blank_line ++ body.

(** Reading a decimal number, of any size. *)
Fixpoint read_decimal (acc : N) (s : string) : option N :=
  match s with
  | EmptyString => Some acc
  | String c s' => let d := N_of_ascii c in if ((48 <=? d) && (d <=? 57))%N then read_decimal (10 * acc + (d - 48)) s' else None
  end.

Fixpoint lower_string (s : string) : string :=
  match s with EmptyString => "" | String c s' => String (lower c) (lower_string s') end.

(** The value of the first header with the name. *)
Definition header_entry (name line : string) : option string :=
  match splitn_colon line with
  | [n; value] => if String.eqb (lower_string n) name then Some (trim value) else None
  | _ => None
  end.
Fixpoint header_value (name : string) (lines : list string) : option string :=
  match lines with
  | [] => None
  | line :: lines' => match header_entry name line with Some v => Some v | None => header_value name lines' end
  end.

(** What a client takes from the bytes it receives: the status line, the media type and as
    many bytes after the empty line as the header announces; nothing if there are fewer. *)
Record HttpReply := mkHttpReply { reply_status : string; reply_type : option string; reply_body : list byte }.

Definition read_reply (received : list byte) : option HttpReply :=
  header_end ← find_blank_line received;
  match str_lines (String.string_of_list_byte (take header_end received)) with
  | [] => None
  | status :: headers =>
      value ← header_value "content-length" headers;
      n ← read_decimal 0 value;
      let rest := drop (header_end + 4) received in
      if Nat.ltb (length rest) (N.to_nat n) then None
      else Some (mkHttpReply status (header_value "content-type" headers) (take (N.to_nat n) rest))
  end.

(** *** Printable text *)
Lemma printable_facts c :
  printable c = true -> continues c = false /\ Ascii.eqb c "010" = false /\ Ascii.eqb c "013" = false /\
    in_range 0 127 (byte_of_ascii c) = true /\ byte_of_ascii c <> x0d.
Proof. destruct c as [[] [] [] [] [] [] [] []]; vm_compute; by intros. Qed.

Lemma visible_printable s : string_forall visible s = true -> string_forall printable s = true.
Proof.
  apply string_forall_impl. intros c [H1 H2]%andb_prop. apply N.leb_le in H1, H2. unfold printable.
  apply andb_true_iff. rewrite !N.leb_le. lia.
Qed.

Lemma printable_plain s : string_forall printable s = true ->
  string_forall no_newline s = true /\ string_forall no_return s = true.
Proof.
  intros Hs. split; (eapply string_forall_impl; [|exact Hs]); intros c Hc; destruct (printable_facts c Hc) as (_ & H1 & H2 & _);
    [unfold no_newline|unfold no_return]; by rewrite ?H1, ?H2.
Qed.

Lemma bytes_app s t : String.list_byte_of_string (s ++ t) = String.list_byte_of_string s ++ String.list_byte_of_string t.
Proof.
  induction s as [|c s IH]; [done|].
  change (byte_of_ascii c :: String.list_byte_of_string (s ++ t) =
    byte_of_ascii c :: (String.list_byte_of_string s ++ String.list_byte_of_string t)). by rewrite IH.
Qed.

Lemma string_of_app l l' : String.string_of_list_byte (l ++ l') = (String.string_of_list_byte l ++ String.string_of_list_byte l')%string.
Proof.
  induction l as [|b l IH]; [done|].
  change (String (ascii_of_byte b) (String.string_of_list_byte (l ++ l')) =
    String (ascii_of_byte b) (String.string_of_list_byte l ++ String.string_of_list_byte l')). by rewrite IH.
Qed.

Lemma utf8_valid_app l l' : Forall (fun b => in_range 0 127 b = true) l -> utf8_valid (l ++ l') = utf8_valid l'.
Proof. induction 1 as [|b l Hb _ IH]; [done|]. cbn [app utf8_valid]. by rewrite Hb. Qed.

Lemma printable_ascii s : string_forall printable s = true -> Forall (fun b => in_range 0 127 b = true) (String.list_byte_of_string s).
Proof.
  induction s as [|c s IH]; [constructor|]. cbn [string_forall]. intros [Hc Hs]%andb_prop.
  constructor; [apply (printable_facts c Hc)|by apply IH].
Qed.

Lemma header_lines_ascii hs : Forall http_line hs -> Forall (fun b => in_range 0 127 b = true) (String.list_byte_of_string (header_lines hs)).
Proof.
  induction 1 as [|h hs [_ Hh] _ IH]; [constructor|]. cbn [header_lines]. rewrite !bytes_app.
  apply Forall_app; split; [by repeat constructor|]. apply Forall_app; split; [by apply printable_ascii|done].
Qed.

(** *** The lines of a message *)
Lemma append_nil (s : string) : (s ++ "")%string = s.
Proof. induction s as [|c s IH]; [done|]. change (String c (s ++ "") = String c s). by rewrite IH. Qed.

Lemma str_lines_crlf p s : string_forall printable p = true -> str_lines (p ++ crlf ++ s) = p :: str_lines s.
Proof.
  intros Hp. destruct (printable_plain p Hp) as [Hn Hr]. unfold str_lines.
  change (crlf ++ s)%string with (String "013" "" ++ newline ++ s)%string. rewrite <- append_assoc.
  rewrite split_newline_app by (rewrite string_forall_app, Hn; done).
  destruct (split_newline_prefix "" s eq_refl) as (l & ls & E & _). rewrite E.
  change (strip_cr (p ++ String "013" "") :: drop_last_empty (l :: ls) = p :: drop_last_empty (l :: ls)). f_equal.
  rewrite strip_cr_app by done. apply append_nil.
Qed.

Lemma str_lines_last p : http_line p -> str_lines p = [p].
Proof.
  intros [Hne Hp]. destruct (printable_plain p Hp) as [Hn _]. unfold str_lines. rewrite split_newline_no by done.
  cbn. by destruct (String.eqb_spec p "").
Qed.

Lemma message_lines p hs : http_line p -> Forall http_line hs -> str_lines (p ++ header_lines hs) = p :: hs.
Proof.
  intros Hp Hhs. revert p Hp. induction Hhs as [|h hs Hh _ IH]; intros p Hp.
  - cbn [header_lines]. rewrite append_nil. by apply str_lines_last.
  - cbn [header_lines]. rewrite str_lines_crlf by apply Hp. by rewrite IH.
Qed.

Lemma request_lines p hs s : http_line p -> Forall http_line hs ->
  str_lines (p ++ header_lines hs ++ crlf ++ s) = p :: hs ++ str_lines s.
Proof.
  intros Hp Hhs. revert p Hp. induction Hhs as [|h hs Hh _ IH]; intros p Hp; cbn [header_lines].
  - by apply str_lines_crlf, Hp.
  - rewrite !append_assoc. rewrite str_lines_crlf by apply Hp. by rewrite IH.
Qed.

(** *** The empty line *)
Lemma find_blank_line_text s rest :
  string_forall printable s = true -> find_blank_line rest = None -> find_blank_line (String.list_byte_of_string s ++ rest) = None.
Proof.
  intros Hs Hrest. induction s as [|c s IH]; [done|]. cbn in Hs. apply andb_prop in Hs as [Hc Hs].
  change (find_blank_line (byte_of_ascii c :: (String.list_byte_of_string s ++ rest)) = None). cbn [find_blank_line].
  destruct (printable_facts c Hc) as (_ & _ & _ & _ & Hne). rewrite bool_decide_false by (by intros [= ? _]). by rewrite IH.
Qed.

Lemma find_blank_line_header c rest : printable c = true ->
  find_blank_line (byte_of_ascii c :: rest) = None -> find_blank_line (x0d :: x0a :: byte_of_ascii c :: rest) = None.
Proof.
  intros Hc Hn. destruct (printable_facts c Hc) as (_ & _ & _ & _ & Hne).
  cbn [find_blank_line] in *. rewrite bool_decide_false by (intros [= ? ?]; done).
  rewrite bool_decide_false by (intros [= ? ?]; done). by rewrite Hn.
Qed.

Lemma header_end p hs : http_line p -> Forall http_line hs ->
  find_blank_line (String.list_byte_of_string (p ++ header_lines hs) ++ take 3 blank_line) = None.
Proof.
  intros [_ Hp] Hhs. rewrite bytes_app, <- app_assoc. apply find_blank_line_text; [done|].
  induction Hhs as [|h hs [Hne Hh] _ IH]; [done|]. cbn [header_lines]. rewrite !bytes_app, <- !app_assoc.
  pose proof (find_blank_line_text h _ Hh IH) as Hl. destruct h as [|c h]; [done|].
  cbn in Hh. apply andb_prop in Hh as [Hc _]. by apply find_blank_line_header.
Qed.

(** *** Header values *)
Lemma chars_printable s : string_forall printable s = true -> chars s = (fun c => String c "") <$> String.list_ascii_of_string s.
Proof.
  induction s as [|c s IH]; [done|]. cbn [string_forall]. intros [Hc Hs]%andb_prop. cbn [chars]. rewrite IH by done.
  destruct s as [|d s]; [done|]. cbn in Hs. apply andb_prop in Hs as [Hd _].
  destruct (printable_facts d Hd) as (Hn & _). cbn. by rewrite Hn.
Qed.

Lemma join_singles s : join_chars ((fun c => String c "") <$> String.list_ascii_of_string s) = s.
Proof.
  induction s as [|c s IH]; [done|]. cbn [String.list_ascii_of_string fmap list_fmap join_chars].
  change (String c (join_chars ((fun c => String c "") <$> String.list_ascii_of_string s)) = String c s). by rewrite IH.
Qed.

Lemma drop_while_head (f : string -> bool) l : (forall c, head l = Some c -> f c = false) -> drop_while f l = l.
Proof. destruct l as [|c l]; [done|]. intros Hf. cbn. by rewrite Hf. Qed.

(** A value that begins and ends with visible characters loses only the space before it. *)
Lemma trim_value s :
  string_forall printable s = true -> (forall c, head (String.list_ascii_of_string s) = Some c -> visible c = true) ->
  (forall c, last (String.list_ascii_of_string s) = Some c -> visible c = true) -> trim (" " ++ s) = s.
Proof.
  intros Hs Hfirst Hlast. unfold trim. rewrite chars_printable by done. change (String.list_ascii_of_string (" " ++ s)) with (" "%char :: String.list_ascii_of_string s).
  set (f := fun c => String c ""). cbn [fmap list_fmap drop_while].
  change (is_whitespace (f " "%char)) with true. cbn match.
  rewrite (drop_while_head _ (f <$> String.list_ascii_of_string s)).
  2:{ intros c. destruct (String.list_ascii_of_string s) as [|d l]; [done|]. intros [= <-]. apply visible_facts, (Hfirst d eq_refl). }
  rewrite drop_while_head, reverse_involutive; [apply join_singles|].
  intros c. rewrite head_reverse, fmap_last. destruct (last _) as [d|]; [|done]. intros [= <-]. apply visible_facts, (Hlast d eq_refl).
Qed.

Lemma visible_all s c : string_forall visible s = true -> c ∈ String.list_ascii_of_string s -> visible c = true.
Proof.
  induction s as [|d s IH]; cbn; [by intros _ ?%elem_of_nil|]. intros [Hd Hs]%andb_prop. rewrite elem_of_cons. intros [->|Hin]; [done|by apply IH].
Qed.

Lemma trim_visible_value s : string_forall visible s = true -> trim (" " ++ s) = s.
Proof.
  intros Hs. apply trim_value; [by apply visible_printable| |]; intros c Hc; apply (visible_all s c Hs).
  - destruct (String.list_ascii_of_string s); [done|]. injection Hc as ->. by left.
  - apply last_Some in Hc as [l ->]. apply elem_of_app. right. by left.
Qed.

Lemma trim_bearer key : key <> ""%string -> string_forall visible key = true -> trim (" Bearer " ++ key) = ("Bearer " ++ key)%string.
Proof.
  intros Hne Hkey. apply (trim_value ("Bearer " ++ key)).
  - rewrite string_forall_app, (visible_printable key Hkey). reflexivity.
  - by intros c [= <-].
  - change (String.list_ascii_of_string ("Bearer " ++ key)) with (String.list_ascii_of_string "Bearer " ++ String.list_ascii_of_string key).
    rewrite last_app. destruct key as [|d key]; [done|]. intros c. destruct (last _) as [e|] eqn:E; [|apply last_None in E; discriminate E].
    intros [= ->]. apply (visible_all (String d key)); [done|]. apply last_Some in E as [l ->]. apply elem_of_app. right. by left.
Qed.

(** *** Decimal numbers *)
Definition is_digit (c : ascii) : bool := let n := N_of_ascii c in ((48 <=? n) && (n <=? 57))%N.

Lemma digit_char x : (x < 10)%N ->
  is_digit (pretty_N_char x) = true /\ Z.of_N (N_of_ascii (pretty_N_char x)) - 48 = Z.of_N x.
Proof. intros Hx. assert (x = 0 \/ x = 1 \/ x = 2 \/ x = 3 \/ x = 4 \/ x = 5 \/ x = 6 \/ x = 7 \/ x = 8 \/ x = 9)%N as Hc by lia. naive_solver. Qed.

Lemma mod10 (x : N) : (x mod 10 < 10)%N.
Proof. by apply N.mod_lt. Qed.

Lemma pretty_go_digits x s : string_forall is_digit s = true -> string_forall is_digit (pretty_N_go x s) = true.
Proof.
  revert s. induction (N.lt_wf_0 x) as [x _ IH]. intros s Hs. destruct (decide (x = 0)%N) as [->|Hx]; [by rewrite pretty_N_go_0|].
  rewrite pretty_N_go_step by lia. apply IH; [by apply N.div_lt; lia|]. cbn.
  by rewrite Hs, (proj1 (digit_char (x mod 10) (mod10 x))).
Qed.

Lemma pretty_digits n : 0 <= n -> string_forall is_digit (pretty n) = true /\ pretty n <> ""%string.
Proof.
  intros Hn. destruct n as [|p|p]; [done| |lia]. change (pretty (Z.pos p)) with (pretty_N_go (N.pos p) "").
  split; [by apply pretty_go_digits|]. intros E.
  assert (forall x s, (String.length s <= String.length (pretty_N_go x s))%nat) as Hlen.
  { intros x. induction (N.lt_wf_0 x) as [x _ IH]. intros s. destruct (decide (x = 0)%N) as [->|Hx]; [by rewrite pretty_N_go_0|].
    rewrite pretty_N_go_step by lia. etrans; [|apply IH, N.div_lt; lia]. cbn. lia. }
  rewrite pretty_N_go_step in E by lia.
  match type of E with pretty_N_go ?x ?s = _ => specialize (Hlen x s) end. rewrite E in Hlen. cbn in Hlen. lia.
Qed.

Lemma digits_visible s : string_forall is_digit s = true -> string_forall visible s = true.
Proof.
  apply string_forall_impl. intros c [H1 H2]%andb_prop. apply N.leb_le in H1, H2. unfold visible.
  apply andb_true_iff. rewrite !N.leb_le. lia.
Qed.

Lemma read_decimal_go x s : read_decimal 0 (pretty_N_go x s) = read_decimal x s.
Proof.
  revert s. induction (N.lt_wf_0 x) as [x _ IH]. intros s. destruct (decide (x = 0)%N) as [->|Hx]; [by rewrite pretty_N_go_0|].
  rewrite pretty_N_go_step by lia. rewrite IH by (apply N.div_lt; lia). cbn [read_decimal].
  destruct (digit_char (x mod 10) (mod10 x)) as [Hd Hv]. unfold is_digit in Hd. rewrite Hd.
  apply andb_prop in Hd as [H1 _]. apply N.leb_le in H1. f_equal. pose proof (N.div_mod x 10 ltac:(lia)). lia.
Qed.

Lemma read_decimal_pretty n : 0 <= n -> read_decimal 0 (pretty n) = Some (Z.to_N n).
Proof.
  intros Hn. destruct n as [|p|p]; [done| |lia]. change (pretty (Z.pos p)) with (pretty_N_go (N.pos p) ""). by rewrite read_decimal_go.
Qed.

(** *** The client and the server understand each other *)
Lemma http_post_parsed headers body : Forall http_line headers -> utf8_valid body = true ->
  parse_http_request (http_post headers body) = Ok ("POST"%string, body).
Proof.
  intros Hh Hb. unfold http_post.
  change ("POST / HTTP/1.1" ++ header_lines headers)%string with ("POST" ++ " /" ++ (" HTTP/1.1" ++ header_lines headers))%string.
  refine (proj1 (http_request_parsed "POST" (" HTTP/1.1" ++ header_lines headers) body [] _ _ _ _)); [done|done| |].
  - rewrite utf8_valid_app; [by rewrite utf8_valid_app by by repeat constructor|].
    change ("POST" ++ " /" ++ (" HTTP/1.1" ++ header_lines headers))%string with ("POST / HTTP/1.1" ++ header_lines headers)%string.
    rewrite bytes_app. apply Forall_app; split; [by repeat constructor|by apply header_lines_ascii].
  - by apply (header_end "POST / HTTP/1.1").
Qed.

Lemma http_post_authorized headers body key : Forall http_line headers -> utf8_valid body = true ->
  key <> ""%string -> string_forall visible key = true -> ("Authorization: Bearer " ++ key)%string ∈ headers ->
  check_authorization (http_post headers body) key = true.
Proof.
  intros Hh Hb Hne Hkey Hin. unfold check_authorization.
  assert (utf8_valid (http_post headers body) = true) as Hutf.
  { unfold http_post. rewrite bytes_app, <- app_assoc. rewrite !utf8_valid_app; [done|by repeat constructor|by apply header_lines_ascii|by repeat constructor]. }
  rewrite (proj2 (utf8_error_valid _ 0) Hutf). unfold http_post. rewrite string_of_app, string_of_app, String.string_of_list_byte_of_string.
  change (String.string_of_list_byte blank_line) with (crlf ++ crlf)%string. rewrite !append_assoc.
  rewrite request_lines by done. apply existsb_exists. exists ("Authorization: Bearer " ++ key)%string. split.
  - right. apply in_app_iff. left. by apply list_elem_of_In.
  - unfold authorizes. change (splitn_colon ("Authorization: Bearer " ++ key)) with ["Authorization"%string; (" Bearer " ++ key)%string].
    cbn match. rewrite trim_bearer by done. rewrite (String.eqb_refl ("Bearer " ++ key)), orb_true_r. done.
Qed.

(** A reply that the server sends in full is read back: the length it announces is the
    length of its body. *)
Lemma read_reply_sent json :
  read_reply (String.list_byte_of_string (http_header (len json)) ++ json) =
  Some (mkHttpReply "HTTP/1.1 200 OK" (Some "application/json"%string) json).
Proof.
  set (digits := pretty (len json)).
  destruct (pretty_digits (len json) ltac:(unfold len; lia)) as [Hd _]. fold digits in Hd. apply digits_visible in Hd.
  set (hs := ["Content-Type: application/json"; "Content-Length: " ++ digits; "Connection: close"]%string).
  assert (Forall http_line hs) as Hhs.
  { apply Forall_cons; split; [done|]. apply Forall_cons; split; [|by apply Forall_singleton]. split; [done|].
    rewrite string_forall_app, (visible_printable digits Hd). reflexivity. }
  assert (http_header (len json) = ("HTTP/1.1 200 OK" ++ header_lines hs) ++ crlf ++ crlf)%string as ->.
  { unfold http_header, hs. cbn [header_lines]. by rewrite !append_assoc. }
  rewrite bytes_app, <- app_assoc. change (String.list_byte_of_string (crlf ++ crlf)) with blank_line.
  unfold read_reply. rewrite find_blank_line_app by (by apply header_end). cbn [mbind option_bind].
  rewrite take_app_length, String.string_of_list_byte_of_string, message_lines by done.
  rewrite drop_app_ge by lia. replace (length _ + 4 - length _)%nat with 4%nat by lia. change (drop 4 (blank_line ++ json)) with json.
  assert (header_value "content-length" hs = Some digits) as ->.
  { change (match header_entry "content-length" ("Content-Length: " ++ digits) with
            | Some v => Some v | None => header_value "content-length" ["Connection: close"%string] end = Some digits).
    assert (header_entry "content-length" ("Content-Length: " ++ digits) = Some (trim (" " ++ digits))) as -> by reflexivity.
    by rewrite trim_visible_value. }
  cbn [mbind option_bind]. unfold digits at 1. rewrite read_decimal_pretty by (unfold len; lia). cbn [mbind option_bind].
  replace (N.to_nat (Z.to_N (len json))) with (length json) by (unfold len; lia).
  rewrite Nat.ltb_irrefl, firstn_all. done.
Qed.

