(* ===== verification/Cli.v ===== *)
(** * The command line: crates/cli/src/commands and ui.rs

    The JSON-RPC client, the verification commands and the requests of the queries as
    computations over the world the client talks to, the commands that write key and genesis
    files, and the bookkeeping of a started node.  A command returns what it reports; the frames it draws around the report,
    the progress bar and the log are left out.  The HTTP client, the file system and the other
    half of [serde_json] are parameters.  The endpoint is part of each call. *)
From stdpp Require Import prelude gmap strings list pretty.
From Stdlib Require Import Strings.Byte Strings.Ascii.
From S2P Require Import Prelude Floats64 Types Merkle Transaction Block Genesis Chain ChainProperties Crypto CryptoTools Database Jurisdiction StateStore Protocol Peer Gossip BlockSync Discovery Transport Network Rpc RpcMethods RpcServer.

Local Open Scope Z_scope.

(** ** External crates *)

(** The accessors and the constructors of [serde_json] used by the client side. *)
Class JsonValues `{JsonCrate} := {
  value_null : Value;
  value_as_array : Value -> option (list Value);
  value_as_bool : Value -> option bool;
  value_as_f64 : Value -> option f64;
  json_string : string -> Value;
  json_number : Z -> Value;
  json_object : list (string * Value) -> Value
}.

(** Documented: indexing with a name gives the field, and [null] is nothing else. *)
Class JsonValuesSpec `{JsonValues} := {
  get_object : forall fields k v, NoDup fields.*1 -> (k, v) ∈ fields -> value_get (json_object fields) k = Some v;
  get_object_none : forall fields k, k ∉ fields.*1 -> value_get (json_object fields) k = None;
  as_str_string : forall s, value_as_str (json_string s) = Some s;
  as_u64_number : forall n, is_u64 n -> value_as_u64 (json_number n) = Some n;
  as_str_null : value_as_str value_null = None;
  as_u64_null : value_as_u64 value_null = None;
  as_bool_null : value_as_bool value_null = None;
  as_array_null : value_as_array value_null = None
}.

(** [reqwest]: sending a JSON body to an address, and reading the JSON body of what came back. *)
Class HttpClient `{JsonCrate} (W : Type) := {
  http_response : Type;
  http_post : string -> Value -> W -> (http_response + string) * W;
  http_json : http_response -> Value + string
}.

(** [value["k"]]. *)
Definition index `{JsonValues} (v : Value) (k : string) : Value := default value_null (value_get v k).
Definition str_or `{JsonValues} (d : string) (v : Value) : string := default d (value_as_str v).
Definition u64_or_0 `{JsonValues} (v : Value) : Z := default 0 (value_as_u64 v).
Definition bool_or_false `{JsonValues} (v : Value) : bool := default false (value_as_bool v).

(** ** Helpers *)

(** [&s[..max_len]] panics when the cut is not at the start of a character. *)
Definition is_continuation (c : ascii) : bool := let n := N_of_ascii c in ((128 <=? n) && (n <? 192))%N.
Definition cli_truncate (s : string) (max_len : nat) : VResult string :=
  if (String.length s <=? max_len)%nat then Ok s
  else match String.get max_len s with
       | Some c => if is_continuation c then Panic else Ok (String.substring 0 max_len s)
       | None => Panic
       end.

Definition format_duration (secs millis : Z) : string :=
  if 60 <? secs then pretty (secs / 60) ++ "m " ++ pretty (secs mod 60) ++ "s"
  else if 0 <? secs then pretty secs ++ "." ++ pretty (millis / 100) ++ "s"
  else pretty millis ++ "ms".

Definition format_eta (seconds : Z) : string :=
  let hours := seconds / 3600 in
  let minutes := seconds mod 3600 / 60 in
  let secs := seconds mod 60 in
  if 0 <? hours then pretty hours ++ "h " ++ pretty minutes ++ "m"
  else if 0 <? minutes then pretty minutes ++ "m " ++ pretty secs ++ "s"
  else pretty secs ++ "s".

Definition format_uptime (seconds : Z) : string :=
  let days := seconds / 86400 in
  let hours := seconds mod 86400 / 3600 in
  let minutes := seconds mod 3600 / 60 in
  let secs := seconds mod 60 in
  if 0 <? days then pretty days ++ "d " ++ pretty hours ++ "h " ++ pretty minutes ++ "m " ++ pretty secs ++ "s"
  else if 0 <? hours then pretty hours ++ "h " ++ pretty minutes ++ "m " ++ pretty secs ++ "s"
  else if 0 <? minutes then pretty minutes ++ "m " ++ pretty secs ++ "s"
  else pretty secs ++ "s".

(** [Iterator::sum] over [u64]. *)
Definition sum_u64 (l : list Z) : Z := foldl u64_add 0 l.
Definition sum_f64 (l : list f64) : f64 := foldl f64_add f64_zero l.

Section commands.
Context `{JsonValues} {W : Type} `{!HttpClient W}.

(** ** commands/mod.rs *)
Record RpcClient := mkRpcClient { rc_endpoint : string }.
Definition RpcClient_new (endpoint : string) : RpcClient := mkRpcClient endpoint.

Definition request_json (method : string) (params : Value) : Value :=
  json_object [("jsonrpc"%string, json_string "2.0"); ("method"%string, json_string method);
               ("params"%string, params); ("id"%string, json_number 1)].

Definition rpc_call (client : RpcClient) (method : string) (params : Value) : VStM W Value := fun w =>
  match http_post (rc_endpoint client) (request_json method params) w with
  | (inr e, w') => (Err (NetworkError ("RPC request failed: " ++ e)), w')
  | (inl response, w') =>
      match http_json response with
      | inr e => (Err (NetworkError ("Failed to parse response: " ++ e)), w')
      | inl body =>
          match value_get body "error" with
          | Some error => (Err (NetworkError ("RPC error: " ++ str_or "Unknown error" (index error "message"))), w')
          | None => (ok_or (value_get body "result") (NetworkError "No result in response"), w')
          end
      end
  end.
Definition call_no_params (client : RpcClient) (method : string) : VStM W Value := rpc_call client method (json_object []).

(** ** commands/verify.rs *)

(** What [receipt] shows of the transaction it found. *)
Record ReceiptReport := mkReceiptReport {
  rcp_receipt : string;
  rcp_transaction : string;
  rcp_block_height : Value;
  rcp_timestamp : Z;
  rcp_election : option string
}.

(** The loop over the transactions: the first one whose identifier contains the receipt or is
    contained in it. *)
Definition receipt_matches (receipt_id tx_id : string) : bool := str_contains tx_id receipt_id || str_contains receipt_id tx_id.
Fixpoint find_receipt (receipt_id : string) (txs : list Value) : option (string * Value) :=
  match txs with
  | [] => None
  | tx :: txs' =>
      match value_as_str (index tx "id") with
      | Some tx_id => if receipt_matches receipt_id tx_id then Some (tx_id, tx) else find_receipt receipt_id txs'
      | None => find_receipt receipt_id txs'
      end
  end.

Definition receipt_report (receipt_id tx_id : string) (tx : Value) : VResult ReceiptReport :=
  r ← cli_truncate receipt_id 39;
  t ← cli_truncate tx_id 39;
  e ← match value_as_str (index (index tx "data") "election_id") with
      | Some election_id => s ← cli_truncate election_id 39; Ok (Some s)
      | None => Ok None
      end;
  Ok (mkReceiptReport r t (index tx "block_height") (u64_or_0 (index tx "timestamp")) e).

Definition verify_receipt (receipt_id endpoint : string) : VStM W ReceiptReport :=
  let client := RpcClient_new endpoint in
  response ← rpc_call client "search_transactions"
    (json_object [("tx_type"%string, json_string "Vote"); ("limit"%string, json_number 1000)]);
  transactions ← lift (ok_or (value_as_array (index response "transactions")) (TransactionNotFound "No transactions found"));
  lift (match find_receipt receipt_id transactions with
        | Some (tx_id, tx) => receipt_report receipt_id tx_id tx
        | None => _ ← cli_truncate receipt_id 39; Err (TransactionNotFound receipt_id)
        end).

(** [ui::display_vote_verification] as a table: the verdict, the details, the height and the
    election. *)
Definition display_vote_verification (verification : Value) : VResult (bool * string * option Z * option string) :=
  e ← match value_as_str (index verification "election_id") with
      | Some election_id => s ← cli_truncate election_id 60; Ok (Some s)
      | None => Ok None
      end;
  Ok (bool_or_false (index verification "valid"), str_or "N/A" (index verification "details"),
      value_as_u64 (index verification "block_height"), e).

Definition verify_vote (tx_hash proof_hex endpoint : string) : VStM W bool :=
  let client := RpcClient_new endpoint in
  _ ← rpc_call client "get_transaction" (json_object [("hash"%string, json_string tx_hash)]);
  verification ← rpc_call client "verify_vote"
    (json_object [("tx_id"%string, json_string tx_hash); ("zk_proof"%string, json_string proof_hex)]);
  _ ← lift (display_vote_verification verification);
  mret (bool_or_false (index verification "valid")).

(** One block of [chain]: whether it passed, and the hash the next one is compared with.  A
    block whose link is broken leaves the hash of the last block that linked. *)
Definition check_link (block : Value) (previous_hash : option string) : bool :=
  match previous_hash with
  | Some prev => bool_decide (value_as_str (index block "previous_hash") = Some prev)
  | None => true
  end.
Definition block_counts_match (block : Value) : bool :=
  u64_or_0 (index block "transaction_count") =? default 0 (len <$> value_as_array (index block "transactions")).
Definition check_block (block : Value) (previous_hash : option string) : bool * option string :=
  if check_link block previous_hash
  then (block_counts_match block, Some (str_or "" (index block "hash")))
  else (false, previous_hash).

(** The counters of the loop are [i32]. *)
Fixpoint verify_chain_loop (client : RpcClient) (hs : list Z) (previous_hash : option string) (verified failed : Z) :
    VStM W (Z * Z) :=
  match hs with
  | [] => mret (verified, failed)
  | height :: hs' =>
      block ← rpc_call client "get_block_by_height" (json_object [("height"%string, json_number height)]);
      let '(passed, previous_hash) := check_block block previous_hash in
      if passed then verify_chain_loop client hs' previous_hash (i32_wrap (verified + 1)) failed
      else verify_chain_loop client hs' previous_hash verified (i32_wrap (failed + 1))
  end.

Record ChainReport := mkChainReport {
  chr_start : Z;
  chr_end : Z;
  chr_total : Z;
  chr_verified : Z;
  chr_failed : Z
}.
(** The verdict: "integrity verified" when nothing failed. *)
Definition chain_intact (r : ChainReport) : bool := chr_failed r =? 0.

Definition verify_chain (start_height : Z) (end_height : option Z) (endpoint : string) : VStM W ChainReport :=
  let client := RpcClient_new endpoint in
  chain_info ← call_no_params client "chain_info";
  let latest_height := u64_or_0 (index chain_info "height") in
  let last := default latest_height end_height in
  _ ← lift (ensure (start_height <=? last) (InvalidBlock "Start height must be less than or equal to end height"));
  let total_blocks := u64_add (last - start_height) 1 in
  '(verified, failed) ← verify_chain_loop client (heights start_height last) None 0 0;
  mret (mkChainReport start_height last total_blocks verified failed).

(** [ui::display_election_results] as a table: the candidates with the most votes first. *)
Definition result_votes (c : Value) : Z := u64_or_0 (index c "votes").
Definition result_row (c : Value) : VResult (string * Z * f64) :=
  name ← cli_truncate (str_or "Unknown" (index c "candidate_name")) 23;
  Ok (name, result_votes c, default f64_zero (value_as_f64 (index c "percentage"))).
Definition display_election_results (results : Value) : VResult (list (string * Z * f64)) :=
  _ ← cli_truncate (str_or "N/A" (index results "election_id")) 60;
  match value_as_array (index results "results") with
  | Some candidate_results => mapM result_row (sort_by (fun a b => result_votes b <=? result_votes a) candidate_results)
  | None => Ok []
  end.

(** The outcome of [election]: the four checks, or that there is nothing to check yet. *)
Inductive ElectionVerdict :=
| NotFinalized
| ElectionChecked (vote_count candidates vote_sum percentages : bool).
Definition all_checks_passed (v : ElectionVerdict) : bool :=
  match v with NotFinalized => false | ElectionChecked a b c d => a && b && c && d end.

Definition array_or_empty (v : Value) : list Value := default [] (value_as_array v).
Definition percentages_add_up (percentage_sum : f64) : bool := f64_lt (f64_abs (f64_sub percentage_sum f64_hundred)) (f64_dec 1 1).

Definition election_checks (election results : Value) : ElectionVerdict :=
  let total_votes := u64_or_0 (index results "total_votes") in
  let rows := array_or_empty (index results "results") in
  let vote_sum := sum_u64 (omap (fun c => value_as_u64 (index c "votes")) rows) in
  let percentage_sum := sum_f64 (omap (fun c => value_as_f64 (index c "percentage")) rows) in
  ElectionChecked (total_votes =? u64_or_0 (index election "vote_count"))
    (len (array_or_empty (index election "candidates")) =? len rows) (vote_sum =? total_votes) (percentages_add_up percentage_sum).

Definition verify_election (election_id endpoint : string) : VStM W ElectionVerdict :=
  let client := RpcClient_new endpoint in
  let params := json_object [("election_id"%string, json_string election_id)] in
  election ← rpc_call client "get_election" params;
  if negb (bool_or_false (index election "is_finalized"))
  then (_ ← lift (cli_truncate election_id 39); mret NotFinalized)
  else
    results ← rpc_call client "get_election_results" params;
    _ ← lift (display_election_results results);
    mret (election_checks election results).

(** [election_proofs]: the votes that have an encrypted vote, and those that have none; [None]
    when there is no vote. *)
Definition has_encrypted_vote (vote : Value) : bool :=
  bool_decide (is_Some (value_as_str (index (index vote "data") "encrypted_vote"))).
Fixpoint count_proofs (votes : list Value) (verified failed : Z) : Z * Z :=
  match votes with
  | [] => (verified, failed)
  | vote :: votes' =>
      if has_encrypted_vote vote then count_proofs votes' (i32_wrap (verified + 1)) failed
      else count_proofs votes' verified (i32_wrap (failed + 1))
  end.
Definition election_proofs (election_id endpoint : string) : VStM W (option (Z * Z)) :=
  let client := RpcClient_new endpoint in
  response ← rpc_call client "search_transactions"
    (json_object [("election_id"%string, json_string election_id); ("tx_type"%string, json_string "Vote");
                  ("limit"%string, json_number 10000)]);
  votes ← lift (ok_or (value_as_array (index response "transactions")) (TransactionNotFound "No votes found for election"));
  mret (if bool_decide (votes = []) then None else Some (count_proofs votes 0 0)).

(** ** commands/query.rs *)

(** [block]: a number is a height, anything else a hash. *)
Definition fetch_block (identifier endpoint : string) : VStM W Value :=
  let client := RpcClient_new endpoint in
  match parse_u64 identifier with
  | Some height => rpc_call client "get_block_by_height" (json_object [("height"%string, json_number height)])
  | None => rpc_call client "get_block" (json_object [("hash"%string, json_string identifier)])
  end.

(** The fields of a query, in the order of the code; an absent one is left out. *)
Definition opt_field {A : Type} (k : string) (f : A -> Value) (o : option A) : list (string * Value) :=
  match o with Some a => [(k, f a)] | None => [] end.
Definition query_validators (height : option Z) (endpoint : string) : VStM W Value :=
  rpc_call (RpcClient_new endpoint) "get_validators" (json_object (opt_field "height" json_number height)).
Definition query_search_blocks (start_height end_height : option Z) (validator : option string) (limit : option Z)
    (endpoint : string) : VStM W (list Value) :=
  results ← rpc_call (RpcClient_new endpoint) "search_blocks"
    (json_object (opt_field "start_height" json_number start_height ++ opt_field "end_height" json_number end_height ++
                  opt_field "validator" json_string validator ++ opt_field "limit" json_number limit));
  lift (ok_or (value_as_array (index results "blocks")) (BlockNotFound "No blocks found")).
Definition query_search_transactions (tx_type election_id : option string) (start_height limit : option Z)
    (endpoint : string) : VStM W (list Value) :=
  results ← rpc_call (RpcClient_new endpoint) "search_transactions"
    (json_object (opt_field "tx_type" json_string tx_type ++ opt_field "election_id" json_string election_id ++
                  opt_field "start_height" json_number start_height ++ opt_field "limit" json_number limit));
  lift (ok_or (value_as_array (index results "transactions")) (TransactionNotFound "No transactions found")).
End commands.

(** ** Files *)

(** [std::fs]: whole files by path.  [file_denoted] is the file a path denotes, so that two paths
    may denote the same one. *)
Class WholeFiles (F : Type) := {
  file_denoted : string -> string;
  file_read : string -> F -> list byte + string;
  file_write : string -> list byte -> F -> option string * F;
  file_exists : string -> F -> bool;
  file_remove : string -> F -> option string * F
}.

(** Documented: a file that was written is read back, and writing one leaves the others. *)
Class WholeFilesSpec (F : Type) `{WholeFiles F} := {
  file_read_written : forall p d f f', file_write p d f = (None, f') -> file_read p f' = inl d;
  file_exists_written : forall p d f f', file_write p d f = (None, f') -> file_exists p f' = true;
  file_read_other : forall p q d r f f', file_write p d f = (r, f') -> file_denoted q <> file_denoted p -> file_read q f' = file_read q f;
  file_exists_removed : forall p f f', file_remove p f = (None, f') -> file_exists p f' = false
}.

(** [s.split(',')]. *)
Fixpoint split_comma (s : string) : list string :=
  match s with
  | EmptyString => [""%string]
  | String c s' =>
      if Ascii.eqb c "," then ""%string :: split_comma s'
      else match split_comma s' with p :: ps => String c p :: ps | [] => [String c ""] end
  end.

Section files.
Context {F : Type} `{!WholeFiles F} `{HashCrate, HexCrate, BincodeTx, Ed25519Crate, AeadCrate, Argon2Crate}.

(** A write whose error becomes one of the program, and the reads of a state. *)
Definition write_or (err : string -> VotingError) (path : string) (data : list byte) : VStM F unit := fun f =>
  match file_write path data f with (Some e, f') => (Err (err e), f') | (None, f') => (Ok tt, f') end.
Definition read_text (err_utf8 : string) (f : F) (path : string) : string + string :=
  match file_read path f with
  | inr e => inr e
  | inl bytes => match from_utf8 bytes with Some s => inl s | None => inr err_utf8 end
  end.

(** [keypair.save_to_file(path, password)] with the file system as state; see
    [save_keypair_result] for the definition with [std::fs::write] as an argument. *)
Definition save_keypair (salt path password : string) (kp : KeyPair) : VStM F unit :=
  encrypted ← lift (encrypt_with_password salt password (kp_private kp));
  write_or IoError path encrypted.
Definition load_keypair (path password : string) : VStM F KeyPair := fun f =>
  (KeyPair_load_from_file (fun p => file_read p f) path password, f).

(** commands/keygen.rs; [random] is the generated key and [salt] the generated salt. *)
Definition generate_keys (random : array 32) (salt output : string) : VStM F unit :=
  let keypair := KeyPair_generate random in
  save_keypair salt output "" keypair.
Definition show_public_key (keypair_path : string) : VStM F PublicKey :=
  keypair ← load_keypair keypair_path "";
  mret (kp_public keypair).

(** commands/genesis.rs *)
Fixpoint load_validators (paths : list string) : VStM F (list PublicKey) :=
  match paths with
  | [] => mret []
  | path :: paths' =>
      let path := trim path in
      keypair ← (fun f => match load_keypair path "" f with
                          | (Err e, f') => (Err (ConfigError ("Failed to load key from " ++ path ++ ": " ++ VotingError_display e)), f')
                          | r => r
                          end);
      public_keys ← load_validators paths';
      mret (mkPublicKey (public_key_bytes (kp_public keypair)) :: public_keys)
  end.

Definition cli_genesis (now : Z) (public_keys : list PublicKey) (chain_id : string) : GenesisBlock :=
  builder_build now
    (builder_timestamp
       (builder_network_name (builder_chain_id (builder_add_validators GenesisBuilder_new public_keys) chain_id)
          (chain_id ++ " Network"))
       now).

(** [genesis.to_file(..)] with the file system as state, and the hash shown at the end. *)
Definition save_genesis (to_string_pretty : GenesisBlock -> string + string) (g : GenesisBlock) (path : string) : VStM F unit :=
  _ ← lift (GenesisBlock_validate g);
  json ← lift (map_err (fun e => GenesisError ("Failed to serialize: " ++ e)) (to_string_pretty g));
  write_or (fun e => GenesisError ("Failed to write file: " ++ e)) path (String.list_byte_of_string json).

Definition generate_genesis (to_string_pretty : GenesisBlock -> string + string) (now : Z)
    (validator_keys chain_id output : string) : VStM F BlockHash :=
  let key_paths := split_comma validator_keys in
  _ ← lift (ensure (negb (bool_decide (key_paths = []))) (ConfigError "At least one validator key required"));
  public_keys ← load_validators key_paths;
  let genesis := cli_genesis now public_keys chain_id in
  _ ← save_genesis to_string_pretty genesis output;
  lift (genesis_calculate_hash now genesis).
End files.

(** ** commands/node.rs: starting and stopping a node *)
Definition binary_name (node_type_lower : string) : VResult string :=
  if String.eqb node_type_lower "validator" then Ok "validator-node"%string
  else if String.eqb node_type_lower "full" then Ok "full-node"%string
  else if String.eqb node_type_lower "light" then Ok "light-client"%string
  else Panic.

(** [to_lowercase]: only the ASCII letters matter, no other character has a lower case made of
    the characters compared with here. *)
Fixpoint lowercase (s : string) : string :=
  match s with EmptyString => EmptyString | String c s' => String (lower c) (lowercase s') end.

Record StartOptions := mkStartOptions {
  so_node_type : string;
  so_genesis : option string;
  so_validator_key : option string;
  so_data_dir : option string;
  so_enable_rpc : bool;
  so_rpc_addr : string;
  so_enable_metrics : bool;
  so_metrics_addr : string
}.

Definition opt_arg (flag : string) (o : option string) : list string := match o with Some v => [flag; v] | None => [] end.
Definition start_args (o : StartOptions) : list string :=
  opt_arg "--genesis" (so_genesis o) ++ opt_arg "--validator-key" (so_validator_key o) ++ opt_arg "--data-dir" (so_data_dir o) ++
  (if so_enable_rpc o then ["--enable-rpc"; "--rpc-addr"; so_rpc_addr o]%string else []) ++
  (if so_enable_metrics o then ["--enable-metrics"; "--metrics-addr"; so_metrics_addr o]%string else []).

Definition node_types : list string := ["validator"; "full"; "light"]%string.

(** The checks and the command line before the process is started. *)
Definition start_command (o : StartOptions) : VResult (string * list string) :=
  let node_type_lower := lowercase (so_node_type o) in
  _ ← ensure (bool_decide (node_type_lower ∈ node_types))
        (ConfigError ("Invalid node type: " ++ so_node_type o ++ ". Must be 'validator', 'full', or 'light'"));
  _ ← ensure (negb (String.eqb node_type_lower "validator" && bool_decide (so_validator_key o = None)))
        (ConfigError "Validator nodes require --validator-key");
  name ← binary_name node_type_lower;
  Ok (name, start_args o).

(** [str::parse::<u32>] after [trim]. *)
Definition parse_u32 (s : string) : option Z := n ← parse_u64 s; if n <? 2 ^ 32 then Some n else None.

Section processes.
Context {F : Type} `{!WholeFiles F}.
(** [which::which], [spawn] (the process identifier) and [kill] of the operating system; the
    path of the file in the temporary directory, the text of a failed parse and of bad UTF-8. *)
Context (which : string -> bool) (spawn : string -> list string -> Z + string) (kill : Z -> option string)
  (pid_file err_parse err_utf8 : string).

Definition find_binary (name : string) (f : F) : VResult string :=
  if file_exists ("target/release/" ++ name) f then Ok ("target/release/" ++ name)%string
  else if file_exists ("target/debug/" ++ name) f then Ok ("target/debug/" ++ name)%string
  else if which name then Ok name
  else Err (ConfigError ("Binary '" ++ name ++ "' not found. Please build the project first.")).

Definition save_pid (pid : Z) : VStM F unit :=
  write_or (fun e => ConfigError ("Failed to save PID: " ++ e)) pid_file (String.list_byte_of_string (pretty pid)).

Definition load_pid (f : F) : VResult Z :=
  _ ← ensure (file_exists pid_file f) (ConfigError "No running node found (PID file not found)");
  pid_str ← map_err (fun e => ConfigError ("Failed to read PID: " ++ e)) (read_text err_utf8 f pid_file);
  ok_or (parse_u32 (trim pid_str)) (ConfigError ("Invalid PID: " ++ err_parse)).

Definition remove_pid : VStM F unit := fun f =>
  if file_exists pid_file f
  then match file_remove pid_file f with
       | (Some e, f') => (Err (ConfigError ("Failed to remove PID file: " ++ e)), f')
       | (None, f') => (Ok tt, f')
       end
  else (Ok tt, f).

Definition node_start (o : StartOptions) : VStM F Z :=
  '(name, args) ← lift (start_command o);
  binary_path ← (fun f => (find_binary name f, f));
  pid ← lift (map_err (fun e => ConfigError ("Failed to start node: " ++ e)) (spawn binary_path args));
  _ ← save_pid pid;
  mret pid.

(** [stop] on Unix: the process that was signalled. *)
Definition node_stop : VStM F Z :=
  pid ← (fun f => (load_pid f, f));
  let pid := as_i32 pid in
  _ ← lift (match kill pid with Some e => Err (ConfigError ("Failed to stop node: " ++ e)) | None => Ok tt end);
  _ ← remove_pid;
  mret pid.
End processes.

(** ** The chain check *)

(** The loop of [verify_chain] over the blocks it was answered. *)
Fixpoint check_blocks `{JsonValues} (blocks : list Value) (previous_hash : option string) (verified failed : Z) : Z * Z :=
  match blocks with
  | [] => (verified, failed)
  | block :: blocks' =>
      let '(passed, previous_hash) := check_block block previous_hash in
      if passed then check_blocks blocks' previous_hash (i32_wrap (verified + 1)) failed
      else check_blocks blocks' previous_hash verified (i32_wrap (failed + 1))
  end.

(** What the client reads of a block: the text of its [hash] (empty when there is none), the
    text of its [previous_hash], its [transaction_count] (0 when there is none) and the number
    of [transactions] it lists. *)
Definition json_hash `{JsonValues} (block : Value) : string := default ""%string (value_as_str (index block "hash")).
Definition json_previous_hash `{JsonValues} (block : Value) : option string := value_as_str (index block "previous_hash").
Definition json_count `{JsonValues} (block : Value) : Z := default 0 (value_as_u64 (index block "transaction_count")).
Definition json_listed `{JsonValues} (block : Value) : Z :=
  match value_as_array (index block "transactions") with Some txs => len txs | None => 0 end.

(** An intact stretch of JSON blocks: each block after the first names the hash of the one
    before it, and every block lists as many transactions as it counts. *)
Definition json_chain_intact `{JsonValues} (blocks : list Value) : Prop :=
  (forall i a b, blocks !! i = Some a -> blocks !! S i = Some b -> json_previous_hash b = Some (json_hash a)) /\
  (forall i b, blocks !! i = Some b -> json_count b = json_listed b).

(** The same by recursion on the blocks, from the hash the first one is compared with. *)
Fixpoint linked `{JsonValues} (previous_hash : option string) (blocks : list Value) : Prop :=
  match blocks with
  | [] => True
  | block :: blocks' =>
      (forall prev, previous_hash = Some prev -> json_previous_hash block = Some prev) /\
      linked (Some (json_hash block)) blocks'
  end.

Section chain_facts.
Context `{JsonValues} {W : Type} `{!HttpClient W}.

Definition asks_block (client : RpcClient) (w : W) (height : Z) (block : Value) : Prop :=
  rpc_call client "get_block_by_height" (json_object [("height"%string, json_number height)]) w = (Ok block, w).

Lemma verify_chain_loop_answers client w hs blocks previous_hash verified failed :
  Forall2 (asks_block client w) hs blocks ->
  verify_chain_loop client hs previous_hash verified failed w = (Ok (check_blocks blocks previous_hash verified failed), w).
Proof.
  intros Hb. revert previous_hash verified failed. induction Hb as [|h b hs bs Hh _ IH]; intros p v f; [done|].
  cbn [verify_chain_loop check_blocks]. unfold mbind, stM_bind. rewrite Hh.
  destruct (check_block b p) as [[|] p']; apply IH.
Qed.

Lemma check_blocks_total blocks previous_hash verified failed :
  0 <= verified -> 0 <= failed -> verified + failed + len blocks < 2 ^ 31 ->
  let '(v, f) := check_blocks blocks previous_hash verified failed in
  v + f = verified + failed + len blocks /\ verified <= v /\ failed <= f.
Proof.
  revert previous_hash verified failed. induction blocks as [|b bs IH]; intros p v f Hv Hf Hl.
  { cbn. unfold len. cbn. lia. }
  rewrite len_cons in *. pose proof (len_nonneg bs). cbn [check_blocks]. destruct (check_block b p) as [[|] p'].
  - rewrite i32_wrap_small by (unfold is_i32; lia). specialize (IH p' (v + 1) f ltac:(lia) ltac:(lia) ltac:(lia)).
    destruct (check_blocks _ _ _ _). lia.
  - rewrite i32_wrap_small by (unfold is_i32; lia). specialize (IH p' v (f + 1) ltac:(lia) ltac:(lia) ltac:(lia)).
    destruct (check_blocks _ _ _ _). lia.
Qed.

Lemma check_link_true block previous_hash :
  check_link block previous_hash = true <->
  forall prev, previous_hash = Some prev -> json_previous_hash block = Some prev.
Proof. unfold check_link, json_previous_hash. destruct previous_hash; [rewrite bool_decide_eq_true|]; naive_solver. Qed.

Lemma block_counts_match_true block : block_counts_match block = true <-> json_count block = json_listed block.
Proof. unfold block_counts_match, json_count, json_listed. rewrite Z.eqb_eq. by destruct (value_as_array _). Qed.

Lemma check_blocks_intact blocks previous_hash verified :
  0 <= verified -> verified + len blocks < 2 ^ 31 ->
  (check_blocks blocks previous_hash verified 0).2 = 0 <->
  linked previous_hash blocks /\ Forall (fun b => json_count b = json_listed b) blocks.
Proof.
  revert previous_hash verified. induction blocks as [|b bs IH]; intros p v Hv Hl; [by cbn|].
  rewrite len_cons in Hl. pose proof (len_nonneg bs). rewrite Forall_cons. cbn [check_blocks linked]. unfold check_block.
  rewrite <- check_link_true, <- block_counts_match_true. change (str_or "" (index b "hash")) with (json_hash b).
  destruct (check_link b p), (block_counts_match b); cbn [fst snd];
    rewrite i32_wrap_small by (unfold is_i32; lia); try (rewrite IH by lia; naive_solver);
    match goal with |- context[check_blocks bs ?q v (0 + 1)] =>
      pose proof (check_blocks_total bs q v (0 + 1) ltac:(lia) ltac:(lia) ltac:(lia)); destruct (check_blocks bs q v (0 + 1)) end;
    cbn; (split; [lia|naive_solver]).
Qed.

Lemma linked_from previous_hash blocks :
  linked previous_hash blocks <->
  (forall b prev, head blocks = Some b -> previous_hash = Some prev -> json_previous_hash b = Some prev) /\
  (forall i a b, blocks !! i = Some a -> blocks !! S i = Some b -> json_previous_hash b = Some (json_hash a)).
Proof.
  revert previous_hash. induction blocks as [|b bs IH]; intros p; cbn [linked head]; [naive_solver|]. rewrite IH. split.
  - intros (Hp & Hh & Hs). split; [naive_solver|]. intros [|i] a c Ha Hc; [|by eapply Hs]. injection Ha as <-.
    apply Hh; [by rewrite head_lookup|done].
  - intros (Hp & Hs). split; [naive_solver|split].
    + intros c prev Hc [= <-]. rewrite head_lookup in Hc. by apply (Hs 0%nat b c).
    + intros i. apply (Hs (S i)).
Qed.

Lemma json_chain_intact_linked blocks :
  json_chain_intact blocks <-> linked None blocks /\ Forall (fun b => json_count b = json_listed b) blocks.
Proof. rewrite linked_from, Forall_lookup. unfold json_chain_intact. naive_solver. Qed.
End chain_facts.

(** C34: [verify chain] checks what it says: when the node answers [chain_info] and a block for
    every height of the range, the report counts each of them once, as verified or as failed,
    and integrity is confirmed exactly when every block names the hash of the block before it
    and lists as many transactions as it counts.  A range that ends before it starts is
    refused. *)
Theorem verify_chain_verdict `{JsonValues} {W : Type} `{!HttpClient W} (start_height : Z) (end_height : option Z)
    (endpoint : string) (w : W) (info : Value) (blocks : list Value) :
  let client := RpcClient_new endpoint in
  let last := default (u64_or_0 (index info "height")) end_height in
  call_no_params client "chain_info" w = (Ok info, w) ->
  Forall2 (asks_block client w) (heights start_height last) blocks ->
  len blocks < 2 ^ 31 ->
  if start_height <=? last
  then exists r, verify_chain start_height end_height endpoint w = (Ok r, w) /\
    chr_total r = len blocks /\ chr_verified r + chr_failed r = len blocks /\ 0 <= chr_verified r /\
    (chain_intact r = true <-> json_chain_intact blocks)
  else verify_chain start_height end_height endpoint w =
         (Err (InvalidBlock "Start height must be less than or equal to end height"), w).
Proof.
  intros client last Hinfo Hblocks Hlen. apply Forall2_length in Hblocks as Hl.
  unfold verify_chain, mbind, stM_bind. fold client. rewrite Hinfo. fold last.
  destruct (Z.leb_spec start_height last) as [Hle|]; cbn [ensure lift]; [|done].
  rewrite (verify_chain_loop_answers _ _ _ _ _ _ _ Hblocks).
  pose proof (check_blocks_total blocks None 0 0 ltac:(lia) ltac:(lia) ltac:(lia)) as Htot.
  pose proof (check_blocks_intact blocks None 0 ltac:(lia) ltac:(lia)) as Hintact.
  destruct (check_blocks blocks None 0 0) as [v f]. cbn in Hintact. eexists. split; [done|].
  unfold heights in Hl. rewrite length_seqZ in Hl. cbn. split; [|split; [lia|split; [lia|]]].
  - rewrite u64_add_small by (unfold len in *; lia). unfold len. lia.
  - unfold chain_intact. cbn. by rewrite Z.eqb_eq, json_chain_intact_linked.
Qed.

(** ** The client against a service

    The wire between the two: [serde] decodes a request object and encodes a response.  Fields
    that are [None] in a response are left out of it ([skip_serializing_if]). *)
Class RpcWire `{JsonCrate} := {
  request_of_value : Value -> JsonRpcRequest + string;
  value_of_response : JsonRpcResponse -> Value
}.
Class RpcWireSpec `{JsonValues, !RpcWire} := {
  request_of_json : forall method params,
    request_of_value (request_json method params) = inl (mkJsonRpcRequest "2.0" method params (IdNumber 1));
  response_result : forall r, value_get (value_of_response r) "result" = jrs_result r;
  response_no_error : forall r, jrs_error r = None -> value_get (value_of_response r) "error" = None;
  response_error : forall r e, jrs_error r = Some e ->
    exists v, value_get (value_of_response r) "error" = Some v /\ value_as_str (index v "message") = Some (jre_message e)
}.

(** What [serde] derives for the replies the chain check reads. *)
Class ChainReplies `{JsonRpcTypes, !JsonValues} := {
  chain_info_value : forall i, exists v, to_value i = inl v /\ value_get v "height" = Some (json_number (chi_height i));
  block_value : forall b, exists v txs, to_value b = inl v /\
    value_get v "hash" = Some (json_string (rbr_hash b)) /\
    value_get v "previous_hash" = Some (json_string (rbr_previous_hash b)) /\
    value_get v "transaction_count" = Some (json_number (rbr_transaction_count b)) /\
    value_as_array (index v "transactions") = Some txs /\ len txs = len (rbr_transactions b)
}.

(** A client whose requests reach the handler of a service that neither limits nor
    authenticates; the connection is closed when the handler panics. *)
Definition direct_http `{JsonRpcTypes, !RpcWire} {S : Type} (service : RpcService S) : HttpClient S := {|
  http_response := JsonRpcResponse;
  http_post := fun _ body s =>
    match request_of_value body with
    | inr _ => (inl (create_error_response IdNull (Rpc.parse_error "Invalid JSON-RPC request")), s)
    | inl request =>
        if negb (String.eqb (jrq_jsonrpc request) "2.0")
        then (inl (create_error_response (jrq_id request) (invalid_request "JSON-RPC version must be 2.0")), s)
        else match handle_request service request s with
             | (Ok response, s') => (inl response, s')
             | (_, s') => (inr "connection closed"%string, s')
             end
    end;
  http_json := fun response => inl (value_of_response response)
|}.

Section against_service.
Context `{JsonRpcTypes, !JsonValues, !RpcWire, !RpcWireSpec} {S : Type} (service : RpcService S).

(** A call returns what the handler computes; an error of the node arrives as a network error
    with its message. *)
Lemma rpc_call_direct client method params s :
  rpc_call (HttpClient0 := direct_http service) client method params s =
  match dispatch service method params s with
  | (Ok v, s') => (Ok v, s')
  | (Err e, s') => (Err (NetworkError ("RPC error: " ++ jre_message e)), s')
  | (Panic, s') => (Err (NetworkError ("RPC request failed: " ++ "connection closed")), s')
  end.
Proof.
  unfold rpc_call. cbn [http_post direct_http]. rewrite request_of_json. cbn [jrq_jsonrpc].
  change (String.eqb "2.0" "2.0") with true. cbn [negb]. unfold handle_request. cbn [jrq_method jrq_params jrq_id].
  destruct (dispatch service method params s) as [[v|e|] s']; cbn [http_json direct_http].
  - rewrite response_no_error by done. by rewrite response_result.
  - edestruct response_error as (x & -> & Hx); [done|]. unfold str_or. by rewrite Hx.
  - done.
Qed.
End against_service.

Definition node_http {T : Type} `{Tcp T, HashCrate, HexCrate, JsonRpcTypes, !RpcWire} (now : Z) : HttpClient (NodeRpcService (T := T)) :=
  direct_http (node_rpc_service now).

Section against_node.
Context {T : Type} `{Tcp T, HashCrate, HexCrate, BincodeTx, JsonRpcTypes, !JsonValues, !JsonValuesSpec, !RpcWire, !RpcWireSpec, !ChainReplies}.
Context (now : Z) (s : NodeRpcService (T := T)).
Lemma reading_reply {A : Type} `{!ToValue A} (f : NodeRpcService (T := T) -> VResult A) (a : A) v :
  f s = Ok a -> to_value a = inl v -> (x ← Rpc.call (reading f); encode_result x) s = (Ok v, s).
Proof. intros Hf Hv. unfold mbind, stM_bind, Rpc.call, reading, encode_result. by rewrite Hf, Hv. Qed.

Lemma reading_error {A : Type} `{!ToValue A} (f : NodeRpcService (T := T) -> VResult A) e :
  f s = Err e -> (x ← Rpc.call (reading f); encode_result x) s = (Err (error_of e), s).
Proof. intros Hf. unfold mbind, stM_bind, Rpc.call, reading. by rewrite Hf. Qed.

Lemma nrs_chain_info_height :
  chain_wf (nrs_blockchain s) -> exists i, nrs_chain_info s = Ok i /\ chi_height i = bc_height (nrs_blockchain s).
Proof.
  intros Hwf. unfold nrs_chain_info, get_best_block. pose proof (wf_nonempty _ Hwf) as Hne.
  destruct (last (bc_blocks (nrs_blockchain s))) as [best|] eqn:El; [|by apply last_None in El]. cbn.
  rewrite wf_lookup_height by done. destruct (bc_blocks (nrs_blockchain s)) as [|g l] eqn:Eb; [done|]. cbn. by eexists.
Qed.

(** The block reported at a height of the chain: the links of the chain, no transactions, and
    their number. *)
Lemma nrs_block_at n b :
  chain_wf (nrs_blockchain s) -> bc_blocks (nrs_blockchain s) !! n = Some b ->
  exists r, nrs_get_block_by_height (Z.of_nat n) s = Ok r /\ rbr_hash r = BlockHash_to_hex (block_hash b) /\
    rbr_previous_hash r = BlockHash_to_hex (block_previous_hash b) /\
    rbr_transaction_count r = wrap 32 (len (block_transactions b)) /\ rbr_transactions r = [].
Proof.
  intros Hwf Hb. unfold nrs_get_block_by_height. rewrite wf_lookup_height by (done || lia). rewrite Nat2Z.id, Hb. by eexists.
Qed.

Lemma node_chain_info client :
  chain_wf (nrs_blockchain s) ->
  exists info, call_no_params (HttpClient0 := node_http now) client "chain_info" s = (Ok info, s) /\
    u64_or_0 (index info "height") = bc_height (nrs_blockchain s).
Proof.
  intros Hwf. unfold call_no_params, node_http. rewrite rpc_call_direct.
  change (dispatch (node_rpc_service (T := T) now) "chain_info" (json_object []))
    with (x ← Rpc.call (reading (T := T) nrs_chain_info); encode_result x).
  destruct (nrs_chain_info_height Hwf) as (i & Hi & Hh). destruct (chain_info_value i) as (v & Hv & Hf).
  rewrite (reading_reply _ _ _ Hi Hv). exists v. split; [done|]. unfold u64_or_0, index. rewrite Hf. cbn.
  pose proof (wf_height _ Hwf). pose proof (wf_length _ Hwf). pose proof (wf_nonempty _ Hwf).
  rewrite Hh, as_u64_number; [done|]. unfold is_u64, len in *. destruct (bc_blocks _); cbn in *; [done|]. lia.
Qed.

Lemma node_block client h :
  chain_wf (nrs_blockchain s) -> is_u64 h ->
  rpc_call (HttpClient0 := node_http now) client "get_block_by_height" (json_object [("height"%string, json_number h)]) s =
  match (x ← Rpc.call (reading (T := T) (nrs_get_block_by_height h)); encode_result x) s with
  | (Ok v, s') => (Ok v, s')
  | (Err e, s') => (Err (NetworkError ("RPC error: " ++ jre_message e)), s')
  | (Panic, s') => (Err (NetworkError ("RPC request failed: " ++ "connection closed")), s')
  end.
Proof.
  intros Hwf Hh. unfold node_http. rewrite rpc_call_direct.
  change (dispatch (node_rpc_service (T := T) now) "get_block_by_height")
    with (handle_get_block_by_height (node_rpc_service (T := T) now)).
  unfold handle_get_block_by_height, extract_u64_param.
  rewrite (get_object _ "height" (json_number h)) by (repeat constructor; set_solver). cbn [mbind option_bind].
  by rewrite as_u64_number.
Qed.

(** A block has no transactions, as far as a 32-bit count tells. *)
Definition counts_none (b : Block) : bool := wrap 32 (len (block_transactions b)) =? 0.

Definition reported (b : Block) (v : Value) : Prop :=
  value_as_str (index v "hash") = Some (BlockHash_to_hex (block_hash b)) /\
  value_as_str (index v "previous_hash") = Some (BlockHash_to_hex (block_previous_hash b)) /\
  block_counts_match v = counts_none b.

Lemma node_reports client n b :
  chain_wf (nrs_blockchain s) -> bc_blocks (nrs_blockchain s) !! n = Some b ->
  exists v, asks_block (HttpClient0 := node_http now) client s (Z.of_nat n) v /\ reported b v.
Proof.
  intros Hwf Hb. destruct (nrs_block_at n b Hwf Hb) as (r & Hr & Hhash & Hprev & Hcount & Htx).
  destruct (block_value r) as (v & txs & Hv & H1' & H2' & H3' & H4' & H5').
  pose proof (wf_length _ Hwf). apply lookup_lt_Some in Hb as Hlt. exists v. split.
  - unfold asks_block. rewrite node_block by (done || (unfold is_u64, len in *; lia)). by rewrite (reading_reply _ _ _ Hr Hv).
  - unfold reported, block_counts_match, counts_none. rewrite H4'. change (default 0 (len <$> Some txs)) with (len txs). rewrite H5', Htx.
    unfold u64_or_0, index. rewrite H1', H2', H3'. cbn.
    rewrite !as_str_string, Hhash, Hprev, Hcount, as_u64_number; [done|].
    pose proof (Z.mod_pos_bound (len (block_transactions b)) (2 ^ 32) ltac:(lia)). unfold is_u64, wrap. lia.
Qed.

(** The blocks of a stretch of the chain, each linked to the one before. *)
Definition chained (l : list Block) : Prop :=
  forall i a b, l !! i = Some a -> l !! S i = Some b -> block_previous_hash b = block_hash a.

Lemma verify_blocks_chained l : verify_blocks l = Ok tt -> chained l.
Proof.
  induction l as [|b l IH] using rev_ind; [done|]. intros Hv i a b' Ha Hb'.
  destruct (decide (l = [])) as [->|Hne]; [by destruct i|].
  apply verify_blocks_snoc in Hv as (Hv & _ & p & Hp & Hl); [|done]. apply validate_chain_link_Ok in Hl as (_ & Hl & _).
  apply lookup_app_Some in Hb' as [Hb'|[Hi Hb']].
  - rewrite lookup_app_l in Ha by (apply lookup_lt_Some in Hb'; lia). by eapply IH.
  - apply list_lookup_singleton_Some in Hb' as [Hi' <-]. rewrite lookup_app_l in Ha by lia.
    rewrite last_lookup in Hp. replace (pred (length l)) with i in Hp by lia. by simplify_eq.
Qed.

Lemma check_blocks_chained bs vs previous_hash verified failed :
  chained bs -> Forall2 reported bs vs -> 0 <= verified -> 0 <= failed -> verified + failed + len bs < 2 ^ 31 ->
  match previous_hash, bs with Some h, b :: _ => h = BlockHash_to_hex (block_previous_hash b) | _, _ => True end ->
  check_blocks vs previous_hash verified failed =
  (verified + len (filter (fun b => counts_none b = true) bs), failed + len (filter (fun b => counts_none b = false) bs)).
Proof.
  intros Hc Hr. revert previous_hash verified failed Hc. induction Hr as [|b v bs vs (Hh & Hp & Hm) Hr IH];
    intros p n f Hc Hn Hf Hl Hlink; [cbn; by rewrite !Z.add_0_r|].
  rewrite len_cons in Hl. pose proof (len_nonneg bs). cbn [check_blocks]. unfold check_block.
  assert (check_link v p = true) as ->. { unfold check_link. destruct p; [|done]. subst. by apply bool_decide_eq_true. }
  assert (chained bs) as Hc' by (intros i; apply (Hc (S i))).
  assert (match bs with b' :: _ => BlockHash_to_hex (block_hash b) = BlockHash_to_hex (block_previous_hash b') | [] => True end) as Hn'.
  { destruct bs as [|b' bs']; [done|]. by rewrite (Hc 0%nat b b'). }
  rewrite Hm, !filter_cons. unfold str_or. rewrite Hh. cbn [default]. destruct (counts_none b);
    rewrite i32_wrap_small by (unfold is_i32; lia); rewrite IH by (done || lia || by destruct bs);
    do 2 (case_decide; try done); rewrite len_cons; f_equal; lia.
Qed.

Lemma node_blocks client first last :
  chain_wf (nrs_blockchain s) -> 0 <= first -> last <= bc_height (nrs_blockchain s) ->
  exists vs, Forall2 (asks_block (HttpClient0 := node_http now) client s) (heights first last) vs /\
    Forall2 reported (blocks_between (nrs_blockchain s) first last) vs.
Proof.
  intros Hwf Hf Hl. rewrite <- heights_blocks by done.
  assert (Forall (fun h => 0 <= h <= bc_height (nrs_blockchain s)) (heights first last)) as Hhs.
  { apply Forall_forall. intros h Hh%elem_of_seqZ. lia. }
  induction Hhs as [|h hs Hh _ (vs & Hvs & Hrs)]; [by exists []|].
  destruct (lookup_lt_is_Some_2 (bc_blocks (nrs_blockchain s)) (Z.to_nat h)) as [b Hb].
  { rewrite (wf_height _ Hwf) in Hh. unfold len in Hh. lia. }
  destruct (node_reports client _ b Hwf Hb) as (v & Hv & Hr). rewrite Z2Nat.id in Hv by lia.
  exists (v :: vs). split; [by constructor|]. cbn. rewrite Hb. by constructor.
Qed.

Lemma chained_between c first last : chain_wf c -> chained (blocks_between c first last).
Proof.
  intros Hwf i a b Ha Hb. apply lookup_take_Some in Ha as [Ha _], Hb as [Hb _]. rewrite lookup_drop in Ha, Hb.
  rewrite Nat.add_succ_r in Hb. by apply (verify_blocks_chained _ (wf_verified _ Hwf) _ _ _ Ha Hb).
Qed.

Lemma length_between c first last :
  chain_wf c -> 0 <= first -> first <= last <= bc_height c -> len (blocks_between c first last) = last - first + 1.
Proof.
  intros Hwf Hf Hl. unfold blocks_between, len. rewrite length_take, length_drop.
  rewrite (wf_height c Hwf) in Hl. unfold len in Hl. lia.
Qed.

Lemma node_loop_beyond client hs previous_hash verified failed :
  chain_wf (nrs_blockchain s) -> Forall is_u64 hs -> Exists (fun h => bc_height (nrs_blockchain s) < h) hs ->
  exists e, verify_chain_loop (HttpClient0 := node_http now) client hs previous_hash verified failed s = (Err (NetworkError e), s).
Proof.
  intros Hwf Hu Hex. revert previous_hash verified failed. induction Hu as [|h hs Hh Hu IH]; [by apply Exists_nil in Hex|].
  intros p v f. cbn [verify_chain_loop]. unfold mbind, stM_bind. destruct (decide (h <= bc_height (nrs_blockchain s))) as [Hle|Hgt].
  - rewrite (wf_height _ Hwf) in Hle. destruct (lookup_lt_is_Some_2 (bc_blocks (nrs_blockchain s)) (Z.to_nat h)) as [b Hb].
    { unfold is_u64, len in *. lia. }
    destruct (node_reports client _ b Hwf Hb) as (x & Hx & _). rewrite Z2Nat.id in Hx by (unfold is_u64 in Hh; lia).
    rewrite Hx. apply Exists_cons in Hex as [Hex|Hex]; [rewrite (wf_height _ Hwf) in Hex; lia|].
    destruct (check_block x p) as [[|] p']; by apply IH.
  - rewrite node_block by done. rewrite (reading_error _ (BlockNotFound ("Block at height " ++ pretty h ++ " not found"))); [by eexists|].
    unfold nrs_get_block_by_height. rewrite wf_lookup_height by (done || (unfold is_u64 in Hh; lia)).
    rewrite lookup_ge_None_2; [done|]. rewrite (wf_height _ Hwf) in Hgt. unfold is_u64, len in *. lia.
Qed.
End against_node.

Lemma len_filter_false {A : Type} (f : A -> bool) l :
  len (filter (fun x => f x = false) l) = 0 <-> Forall (fun x => f x = true) l.
Proof.
  induction l as [|x l IH]; [done|]. rewrite Forall_cons, filter_cons. destruct (f x) eqn:E.
  - rewrite decide_False by done. naive_solver.
  - rewrite decide_True by done. rewrite len_cons. pose proof (len_nonneg (filter (fun x => f x = false) l)). split; [lia|by intros []].
Qed.

(** C40: [verify chain] against a validator node with a reachable chain.  Every link is found
    intact, but the node reports the number of the transactions of a block and an empty list
    of them, so exactly the blocks that contain transactions are counted as failed: the
    command confirms the integrity of no stretch of the chain that holds a vote.  Heights
    beyond the chain end the command with an error. *)
Theorem verify_chain_on_node {T : Type} `{Tcp T, HashCrate, HexCrate, BincodeTx, JsonRpcTypes, !JsonValues, !JsonValuesSpec, !RpcWire, !RpcWireSpec, !ChainReplies}
    (now start_height : Z) (end_height : option Z) (endpoint : string) (s : NodeRpcService (T := T)) :
  let c := nrs_blockchain s in
  let last := default (bc_height c) end_height in
  let blocks := blocks_between c start_height last in
  reachable c -> 0 <= start_height <= last -> last < 2 ^ 64 -> len blocks < 2 ^ 31 ->
  if last <=? bc_height c
  then let r := mkChainReport start_height last (last - start_height + 1)
                  (len (filter (fun b => counts_none b = true) blocks)) (len (filter (fun b => counts_none b = false) blocks)) in
    verify_chain (HttpClient0 := node_http now) start_height end_height endpoint s = (Ok r, s) /\
    (chain_intact r = true <-> Forall (fun b => counts_none b = true) blocks)
  else exists e, verify_chain (HttpClient0 := node_http now) start_height end_height endpoint s = (Err (NetworkError e), s).
Proof.
  intros c last blocks Hwf%reachable_wf Hstart Hlast Hlen. set (client := RpcClient_new endpoint).
  destruct (node_chain_info now s client Hwf) as (info & Hinfo & Hh). fold c in Hh.
  unfold verify_chain, mbind, stM_bind. fold client. rewrite Hinfo, Hh. fold last. rewrite (proj2 (Z.leb_le start_height last)) by lia.
  cbn [ensure lift]. destruct (Z.leb_spec last (bc_height c)) as [Hin|Hout].
  - destruct (node_blocks now s client start_height last Hwf ltac:(lia) Hin) as (vs & Hvs & Hrs).
    rewrite (verify_chain_loop_answers _ _ _ _ _ _ _ Hvs).
    rewrite (check_blocks_chained _ _ None 0 0 (chained_between _ _ _ Hwf) Hrs) by (done || (fold c blocks; lia)).
    pose proof (length_between c start_height last Hwf ltac:(lia) ltac:(lia)) as Hn. fold blocks in Hn.
    fold c blocks. rewrite u64_add_small by lia. split; [done|]. unfold chain_intact. cbn [chr_failed].
    rewrite Z.eqb_eq. apply len_filter_false.
  - destruct (node_loop_beyond now s client (heights start_height last) None 0 0 Hwf) as [e ->].
    + apply Forall_forall. intros h Hin%elem_of_seqZ. unfold is_u64. lia.
    + apply Exists_exists. exists last. split; [apply elem_of_seqZ; lia|done].
    + by exists e.
Qed.

(** ** Receipts and votes *)

(** [pattern] occurs in [s]. *)
Definition occurs (pattern s : string) : Prop := exists a b, s = (a ++ pattern ++ b)%string.

Lemma prefix_spec p s : String.prefix p s = true <-> exists b, s = (p ++ b)%string.
Proof.
  revert s. induction p as [|c p IH]; intros s; [split; [by exists s|by destruct s]|].
  destruct s as [|d s]; [split; [done|by intros []]|].
  change (String.prefix (String c p) (String d s)) with (if Ascii.ascii_dec c d then String.prefix p s else false).
  destruct (Ascii.ascii_dec c d) as [->|Hne].
  - rewrite IH. split; intros [b Hb]; exists b; [by rewrite Hb|by injection Hb].
  - split; [done|]. intros [b Hb]. by injection Hb as <-.
Qed.

Lemma str_contains_spec s p : str_contains s p = true <-> occurs p s.
Proof.
  induction s as [|c s IH]; cbn [str_contains]; rewrite orb_true_iff, prefix_spec.
  - split; [intros [[b Hb]|]; [by exists ""%string, b|done]|]. intros (a & b & Hab). left. by destruct a; [exists b|].
  - rewrite IH. split.
    + intros [[b Hb]|(a & b & ->)]; [by exists ""%string, b|by exists (String c a), b].
    + intros (a & b & Hab). destruct a as [|d a]; [left; by exists b|]. right. injection Hab as -> ->. by exists a, b.
Qed.

Definition ascii_only (s : string) : bool := string_forall (fun c => (N_of_ascii c <? 128)%N) s.

Lemma get_ascii s n c : ascii_only s = true -> String.get n s = Some c -> is_continuation c = false.
Proof.
  unfold ascii_only. revert n. induction s as [|d s IH]; intros n; [by destruct n|]. cbn. intros [Hd Hs]%andb_true_iff.
  destruct n as [|n]; [|by apply IH]. intros [= <-]. unfold is_continuation. apply N.ltb_lt in Hd.
  apply andb_false_iff. left. by apply N.leb_gt.
Qed.

Lemma get_inside s n : (n < String.length s)%nat -> is_Some (String.get n s).
Proof. revert n. induction s as [|c s IH]; cbn; intros n Hn; [lia|]. destruct n; [by eexists|]. apply IH. lia. Qed.

Lemma truncate_ascii s n : ascii_only s = true -> is_Ok (cli_truncate s n).
Proof.
  intros Hs. unfold cli_truncate. destruct (Nat.leb_spec (String.length s) n) as [|Hn]; [by eexists|].
  destruct (get_inside s n Hn) as [c Hc]. rewrite Hc, (get_ascii s n c Hs Hc). by eexists.
Qed.

Section receipt_facts.
Context `{JsonValues}.

(** The identifiers of transactions that match a receipt. *)
Definition receipt_listed (receipt_id : string) (txs : list Value) : Prop :=
  exists tx id, tx ∈ txs /\ value_as_str (index tx "id") = Some id /\ (occurs receipt_id id \/ occurs id receipt_id).

Lemma receipt_matches_spec receipt_id id : receipt_matches receipt_id id = true <-> occurs receipt_id id \/ occurs id receipt_id.
Proof. unfold receipt_matches. by rewrite orb_true_iff, !str_contains_spec. Qed.

Lemma find_receipt_spec receipt_id txs :
  match find_receipt receipt_id txs with
  | Some (id, tx) => tx ∈ txs /\ value_as_str (index tx "id") = Some id /\ (occurs receipt_id id \/ occurs id receipt_id)
  | None => ~ receipt_listed receipt_id txs
  end.
Proof.
  unfold receipt_listed. induction txs as [|tx txs IH]; cbn [find_receipt]; [intros (tx & id & Ht & _); set_solver|].
  destruct (value_as_str (index tx "id")) as [id|] eqn:Eid.
  - destruct (receipt_matches receipt_id id) eqn:Em; [rewrite receipt_matches_spec in Em; set_solver|].
    assert (~ (occurs receipt_id id \/ occurs id receipt_id)) as Hno by (rewrite <- receipt_matches_spec; congruence).
    destruct (find_receipt receipt_id txs) as [[id' tx']|]; [set_solver|].
    intros (tx' & id' & Ht & Hid & Ho). apply elem_of_cons in Ht as [->|Ht]; [|naive_solver]. by simplify_eq.
  - destruct (find_receipt receipt_id txs) as [[id' tx']|]; [set_solver|].
    intros (tx' & id' & Ht & Hid & Ho). apply elem_of_cons in Ht as [->|Ht]; naive_solver.
Qed.

(** The texts a receipt is reported with have only ASCII characters. *)
Definition ascii_tx (tx : Value) : Prop :=
  (forall id, value_as_str (index tx "id") = Some id -> ascii_only id = true) /\
  (forall e, value_as_str (index (index tx "data") "election_id") = Some e -> ascii_only e = true).

Lemma receipt_report_ok receipt_id id tx :
  ascii_only receipt_id = true -> ascii_tx tx -> value_as_str (index tx "id") = Some id -> is_Ok (receipt_report receipt_id id tx).
Proof.
  intros Hr [Hid He] Eid. unfold receipt_report. destruct (truncate_ascii receipt_id 39 Hr) as [r ->]. cbn.
  destruct (truncate_ascii id 39 (Hid _ Eid)) as [t ->]. cbn.
  destruct (value_as_str (index (index tx "data") "election_id")) as [e|] eqn:Ee; cbn; [|by eexists].
  destruct (truncate_ascii e 39 (He _ eq_refl)) as [x ->]. by eexists.
Qed.
End receipt_facts.

(** [verify receipt] finds a receipt exactly when, among the transactions the node listed, the
    identifier of one contains the receipt or is contained in it, and reports it as missing
    otherwise.  So a receipt is not matched as a whole: the empty receipt, and any piece of an
    identifier, is reported as recorded as soon as the list has such a transaction. *)
Theorem receipt_verdict `{JsonValues} {W : Type} `{!HttpClient W} (receipt_id endpoint : string) (w w' : W) (response : Value)
    (txs : list Value) :
  rpc_call (RpcClient_new endpoint) "search_transactions"
    (json_object [("tx_type"%string, json_string "Vote"); ("limit"%string, json_number 1000)]) w = (Ok response, w') ->
  value_as_array (index response "transactions") = Some txs -> ascii_only receipt_id = true -> Forall ascii_tx txs ->
  ((exists r, verify_receipt receipt_id endpoint w = (Ok r, w')) <-> receipt_listed receipt_id txs) /\
  (~ receipt_listed receipt_id txs -> verify_receipt receipt_id endpoint w = (Err (TransactionNotFound receipt_id), w')) /\
  ((exists tx id, tx ∈ txs /\ value_as_str (index tx "id") = Some id) -> receipt_listed "" txs).
Proof.
  intros Hcall Htxs Hascii Hall. unfold verify_receipt, mbind, stM_bind. rewrite Hcall, Htxs. cbn [ok_or lift].
  pose proof (find_receipt_spec receipt_id txs) as Hfind. destruct (find_receipt receipt_id txs) as [[id tx]|].
  - destruct Hfind as (Ht & Hid & Ho). rewrite Forall_forall in Hall.
    destruct (receipt_report_ok receipt_id id tx Hascii (Hall tx Ht) Hid) as [r ->].
    assert (receipt_listed receipt_id txs) by (by exists tx, id). split_and!; [split; [done|by eexists]|done|].
    intros (tx' & id' & ? & ?). exists tx', id'. split_and!; [done..|]. left. by exists ""%string, id'.
  - destruct (truncate_ascii receipt_id 39 Hascii) as [t ->]. split_and!; [split; [by intros []|done]|done|].
    intros (tx' & id' & ? & ?). exists tx', id'. split_and!; [done..|]. left. by exists ""%string, id'.
Qed.

(** Against a validator node the other verification commands have no answer: whatever the
    chain holds, a receipt, a vote, an election or the proofs of one cannot be verified, and
    every such command ends with a network error. *)
Theorem node_refuses_verification {T : Type} `{Tcp T, HashCrate, HexCrate, JsonRpcTypes, !JsonValues, !JsonValuesSpec, !RpcWire, !RpcWireSpec}
    (now : Z) (s : NodeRpcService (T := T)) (x y endpoint : string) :
  let http := node_http now in
  (exists e, verify_receipt (HttpClient0 := http) x endpoint s = (Err (NetworkError e), s)) /\
  (exists e, verify_vote (HttpClient0 := http) x y endpoint s = (Err (NetworkError e), s)) /\
  (exists e, verify_election (HttpClient0 := http) x endpoint s = (Err (NetworkError e), s)) /\
  (exists e, election_proofs (HttpClient0 := http) x endpoint s = (Err (NetworkError e), s)).
Proof.
  intros http. unfold http, node_http.
  assert (forall m p, (m = "search_transactions" \/ m = "get_transaction" \/ m = "get_election")%string ->
            exists e, rpc_call (HttpClient0 := direct_http (node_rpc_service now)) (RpcClient_new endpoint) m p s =
                      (Err (NetworkError e), s)) as Hcall.
  { intros m p Hm. rewrite rpc_call_direct. destruct Hm as [->|[->| ->]].
    - change (dispatch (node_rpc_service (T := T) now) "search_transactions") with (handle_search_transactions (node_rpc_service (T := T) now)).
      unfold handle_search_transactions, decode_params, mbind, stM_bind, lift. destruct (from_value p); by eexists.
    - change (dispatch (node_rpc_service (T := T) now) "get_transaction") with (handle_get_transaction (node_rpc_service (T := T) now)).
      unfold handle_get_transaction, mbind, stM_bind, lift. destruct (extract_string_param p "hash") as [| |] eqn:E; [by eexists..|].
      by apply ok_or_no_panic in E.
    - change (dispatch (node_rpc_service (T := T) now) "get_election") with (handle_get_election (node_rpc_service (T := T) now)).
      unfold handle_get_election, mbind, stM_bind, lift. destruct (extract_string_param p "election_id") as [| |] eqn:E; [by eexists..|].
      by apply ok_or_no_panic in E. }
  unfold verify_receipt, verify_vote, verify_election, election_proofs, mbind, stM_bind.
  split_and!; match goal with |- context[rpc_call _ ?m ?p s] => destruct (Hcall m p ltac:(auto)) as [e ->]; by eexists end.
Qed.

(** ** Key files and the genesis file *)

(** Visible ASCII characters: not trimmed, and each a character of its own. *)
Lemma chars_of_visible m :
  string_forall visible m = true -> chars m = (fun c => String c "") <$> String.list_ascii_of_string m.
Proof.
  induction m as [|c m IH]; [done|]. cbn [string_forall]. intros [Hc Hm]%andb_prop. cbn [chars]. rewrite IH by done.
  destruct m as [|d m]; [done|]. cbn in Hm. apply andb_prop in Hm as [Hd _].
  destruct (visible_facts d Hd) as (_ & Hn & _). cbn. by rewrite Hn.
Qed.

Lemma drop_while_none (f : string -> bool) l : Forall (fun c => f c = false) l -> drop_while f l = l.
Proof. destruct 1 as [|c l Hc _]; [done|]. cbn. by rewrite Hc. Qed.

Lemma trim_visible m : string_forall visible m = true -> trim m = m.
Proof.
  intros Hm. unfold trim. rewrite chars_of_visible by done.
  assert (Forall (fun c => is_whitespace c = false) ((fun c => String c "") <$> String.list_ascii_of_string m)) as Hw.
  { induction m as [|c m IH]; [constructor|]. cbn in Hm. apply andb_prop in Hm as [Hc Hm].
    constructor; [apply (visible_facts c Hc)|by apply IH]. }
  rewrite (drop_while_none _ _ Hw), drop_while_none, reverse_involutive by by apply Forall_reverse. clear.
  induction m as [|c m IH]; [done|]. cbn [String.list_ascii_of_string fmap list_fmap join_chars].
  change (String c (join_chars ((fun c => String c "") <$> String.list_ascii_of_string m)) = String c m). by rewrite IH.
Qed.

(** A path that a list separated by commas can hold. *)
Definition plain_path (p : string) : bool := string_forall (fun c => visible c && negb (Ascii.eqb c ",")) p.

Lemma plain_path_trim p : plain_path p = true -> trim p = p.
Proof. intros Hp. apply trim_visible. eapply string_forall_impl; [|exact Hp]. by intros c [Hc _]%andb_prop. Qed.

Lemma split_comma_plain p : plain_path p = true -> split_comma p = [p].
Proof.
  induction p as [|c p IH]; [done|]. unfold plain_path. cbn [string_forall split_comma]. intros [[_ Hc]%andb_prop Hp]%andb_prop.
  apply negb_true_iff in Hc. by rewrite Hc, IH.
Qed.

Lemma split_comma_app p s : plain_path p = true -> split_comma (p ++ String "," s) = p :: split_comma s.
Proof.
  induction p as [|c p IH]; [done|]. unfold plain_path. cbn [string_forall]. intros [[_ Hc]%andb_prop Hp]%andb_prop.
  apply negb_true_iff in Hc. change (String c p ++ String "," s)%string with (String c (p ++ String "," s)). cbn [split_comma].
  by rewrite Hc, IH.
Qed.

Lemma split_comma_join ps : ps <> [] -> Forall (fun p => plain_path p = true) ps -> split_comma (join_with "," ps) = ps.
Proof.
  intros Hne Hps. induction Hps as [|p ps Hp Hps IH]; [done|]. destruct ps as [|q ps]; [by apply split_comma_plain|].
  change (join_with "," (p :: q :: ps)) with (p ++ String "," (join_with "," (q :: ps)))%string.
  by rewrite split_comma_app, IH.
Qed.

Section key_files.
Context {F : Type} `{!WholeFiles F} `{HashCrate, HexCrate, BincodeTx, Ed25519Crate, AeadCrate, Argon2Crate}.

(** The definition with [std::fs::write] as an argument returns the same. *)
Lemma save_keypair_result salt path password kp (f : F) :
  (save_keypair salt path password kp f).1 = KeyPair_save_to_file (fun p d => (file_write p d f).1) salt path password kp.
Proof.
  unfold save_keypair, KeyPair_save_to_file, PrivateKey_save_to_file, mbind, stM_bind, lift, write_or.
  destruct (encrypt_with_password _ _ _) as [d| |]; [|done..]. cbn. by destruct (file_write path d f) as [[]].
Qed.

(** A generated key: the random bytes, the salt and the file. *)
Record KeyFile := mkKeyFile { kf_random : array 32; kf_salt : string; kf_path : string }.
Definition generate_key_file (k : KeyFile) : VStM F unit := generate_keys (kf_random k) (kf_salt k) (kf_path k).
Definition key_file_ok (k : KeyFile) : Prop :=
  salt_ok (kf_salt k) = true /\ argon2_salt (kf_salt k) = None /\ plain_path (kf_path k) = true.
Definition holds_key (f : F) (k : KeyFile) : Prop :=
  KeyPair_load_from_file (fun p => file_read p f) (kf_path k) "" = Ok (KeyPair_from_private_key (kf_random k)).

Context `{!WholeFilesSpec F, !AeadSpec}.

Lemma generate_key_file_holds k f f' :
  key_file_ok k -> generate_key_file k f = (Ok tt, f') ->
  holds_key f' k /\ forall k', file_denoted (kf_path k') <> file_denoted (kf_path k) -> holds_key f k' -> holds_key f' k'.
Proof.
  intros (Hs & Ha & _) Hg. unfold generate_key_file, generate_keys, save_keypair, write_or, mbind, stM_bind, lift in Hg.
  cbn [kp_private KeyPair_generate KeyPair_from_private_key] in Hg.
  destruct (encrypt_with_password (kf_salt k) "" (kf_random k)) as [d| |] eqn:Ee; [|done..].
  destruct (file_write (kf_path k) d f) as [[e|] f1] eqn:Ew; [done|]. injection Hg as ->. split.
  - unfold holds_key, KeyPair_load_from_file, PrivateKey_load_from_file. rewrite (file_read_written _ _ _ _ Ew).
    by rewrite (password_round_trip _ _ _ _ Hs Ha Ee).
  - intros k' Hne. unfold holds_key, KeyPair_load_from_file, PrivateKey_load_from_file.
    by rewrite (file_read_other _ _ _ _ _ _ Ew Hne).
Qed.

Lemma generate_key_files_hold ks f f' :
  Forall key_file_ok ks -> NoDup (file_denoted ∘ kf_path <$> ks) ->
  st_for_each generate_key_file ks f = (Ok tt, f') -> Forall (holds_key f') ks.
Proof.
  assert (forall ks f f' k, Forall key_file_ok ks -> file_denoted (kf_path k) ∉ (file_denoted ∘ kf_path <$> ks) -> holds_key f k ->
            st_for_each generate_key_file ks f = (Ok tt, f') -> holds_key f' k) as Hkeep.
  { clear f f' ks. intros ks f f' k Hks. revert f. induction Hks as [|k' ks Hk' Hks IH]; intros f Hn Hk Hrun; cbn in Hrun.
    { by injection Hrun as ->. }
    destruct (generate_key_file k' f) as [[[]| |] f1] eqn:E; [|done..]. cbn in Hn. apply not_elem_of_cons in Hn as [Hne Hn].
    apply (IH f1); [done| |done]. by apply (generate_key_file_holds k' f f1). }
  intros Hks. revert f. induction Hks as [|k ks Hk Hks IH]; intros f Hnd Hrun; [constructor|]. cbn in Hrun, Hnd.
  destruct (generate_key_file k f) as [[[]| |] f1] eqn:E; [|done..]. apply NoDup_cons in Hnd as [Hn Hnd].
  constructor; [|by eapply IH]. destruct (generate_key_file_holds k f f1 Hk E) as [Hh _]. by apply (Hkeep ks f1 f' k).
Qed.

Lemma load_validators_holds ks f :
  Forall key_file_ok ks -> Forall (holds_key f) ks ->
  load_validators (kf_path <$> ks) f = (Ok ((fun k => kp_public (KeyPair_from_private_key (kf_random k))) <$> ks), f).
Proof.
  intros Hks Hf. induction Hks as [|k ks (_ & _ & Hp) Hks IH]; [done|]. apply Forall_cons in Hf as [Hk Hf].
  cbn [fmap list_fmap load_validators]. unfold mbind, stM_bind, load_keypair. rewrite plain_path_trim, Hk, IH by done. done.
Qed.
End key_files.

(** What the genesis file relies on of [serde_json]: text it writes is UTF-8 and reads back as
    the value written.  It is asked only of configurations with the default parameters, whose
    one float is [0.67]: the codec writes NaN and infinities as [null], and without its
    [float_roundtrip] feature, which is not enabled, need not return every other float, but
    [0.67] is [67 / 10^2], which its parser computes exactly. *)
Definition genesis_json_spec (to_string_pretty : GenesisBlock -> string + string) (from_str : string -> GenesisBlock + string) : Prop :=
  forall g json, gb_config g = GenesisConfig_default -> to_string_pretty g = inl json ->
    from_str json = inl g /\ utf8_valid (String.list_byte_of_string json) = true.


(** ** The process file *)
Lemma parse_pretty_go x s : (x < 2 ^ 64)%N -> parse_digits 0 (pretty_N_go x s) = parse_digits (Z.of_N x) s.
Proof.
  revert s. induction (N.lt_wf_0 x) as [x _ IH]. intros s Hb. destruct (decide (x = 0)%N) as [->|Hx]; [by rewrite pretty_N_go_0|].
  pose proof (N.div_lt x 10 ltac:(lia) ltac:(lia)). rewrite pretty_N_go_step by lia. rewrite IH by lia. cbn [parse_digits].
  rewrite (proj2 (digit_char (x mod 10) (mod10 x))). pose proof (N.div_mod x 10 ltac:(lia)) as Hdm.
  pose proof (N.mod_lt x 10 ltac:(lia)).
  remember (x mod 10)%N as d. remember (x / 10)%N as q. clear IH Heqd Heqq.
  rewrite (proj2 (Z.leb_le 0 (Z.of_N d))), (proj2 (Z.leb_le (Z.of_N d) 9)), (proj2 (Z.ltb_lt _ _)) by lia. cbn. f_equal. lia.
Qed.

Lemma parse_u64_digits s : string_forall is_digit s = true -> s <> ""%string -> parse_u64 s = parse_digits 0 s.
Proof.
  destruct s as [|c s]; [done|]. cbn [string_forall]. intros [Hc _]%andb_prop _. unfold parse_u64.
  destruct (Ascii.eqb_spec c "+") as [->|Hne]; [done|]. destruct c as [[] [] [] [] [] [] [] []]; done.
Qed.

Lemma parse_u32_pretty n : is_u32 n -> parse_u32 (trim (pretty n)) = Some n.
Proof.
  intros Hn. unfold is_u32 in Hn. destruct (pretty_digits n ltac:(lia)) as [Hd Hne].
  rewrite trim_visible. 2:{ eapply string_forall_impl; [|exact Hd]. intros c [H1 H2]%andb_prop. apply N.leb_le in H1, H2.
    unfold visible. apply andb_true_iff. rewrite !N.leb_le. lia. }
  unfold parse_u32. rewrite parse_u64_digits by done.
  assert (parse_digits 0 (pretty n) = Some n) as ->.
  { destruct n as [|p|p]; [done| |lia]. change (pretty (Z.pos p)) with (pretty_N_go (N.pos p) "").
    rewrite parse_pretty_go by lia. done. }
  cbn. by rewrite (proj2 (Z.ltb_lt _ _)) by lia.
Qed.

Lemma digits_utf8 s : string_forall is_digit s = true -> utf8_valid (String.list_byte_of_string s) = true.
Proof.
  intros Hs. apply ascii_utf8. induction s as [|c s IH]; [done|]. cbn [string_forall] in Hs. apply andb_prop in Hs as [Hc Hs].
  change (String.list_byte_of_string (String c s)) with (byte_of_ascii c :: String.list_byte_of_string s). cbn [forallb].
  rewrite IH by done. rewrite andb_true_r. clear -Hc.
  by destruct c as [[] [] [] [] [] [] [] []].
Qed.

(** [node start] records the process it started, over whatever was recorded before, and [node
    stop] signals exactly that process; once it has removed the record, a second stop finds
    none.  A node started earlier and not stopped is forgotten. *)
Theorem start_then_stop {F : Type} `{!WholeFiles F, !WholeFilesSpec F} (which : string -> bool)
    (spawn : string -> list string -> Z + string) (kill : Z -> option string) (pid_file err_parse err_utf8 : string)
    (o : StartOptions) (pid : Z) (f f1 : F) :
  is_u32 pid -> node_start which spawn pid_file o f = (Ok pid, f1) ->
  load_pid pid_file err_parse err_utf8 f1 = Ok pid /\
  match kill (as_i32 pid) with
  | Some e => node_stop kill pid_file err_parse err_utf8 f1 = (Err (ConfigError ("Failed to stop node: " ++ e)), f1)
  | None => forall r f2, node_stop kill pid_file err_parse err_utf8 f1 = (r, f2) ->
      (r = Ok (as_i32 pid) /\ (node_stop kill pid_file err_parse err_utf8 f2).1 = Err (ConfigError "No running node found (PID file not found)")) \/
      (exists e, r = Err (ConfigError ("Failed to remove PID file: " ++ e)))
  end.
Proof.
  intros Hpid Hs. unfold node_start, save_pid, write_or, mbind, stM_bind, lift in Hs.
  destruct (start_command o) as [[name args]| |]; [|done..]. destruct (find_binary which name f) as [b| |]; [|done..].
  destruct (spawn b args) as [p|]; [|done]. cbn [map_err] in Hs.
  destruct (file_write pid_file _ f) as [[e|] f'] eqn:Ew; [done|]. injection Hs as -> ->.
  assert (load_pid pid_file err_parse err_utf8 f1 = Ok pid) as Hload.
  { unfold load_pid, read_text. rewrite (file_exists_written _ _ _ _ Ew), (file_read_written _ _ _ _ Ew). cbn.
    unfold from_utf8. unfold is_u32 in Hpid. rewrite digits_utf8 by (apply pretty_digits; lia).
    rewrite String.string_of_list_byte_of_string. cbn. by rewrite parse_u32_pretty. }
  split; [done|]. unfold node_stop, mbind, stM_bind, lift, remove_pid. rewrite Hload.
  destruct (kill (as_i32 pid)) as [e|]; [done|]. intros r f2. rewrite (file_exists_written _ _ _ _ Ew).
  destruct (file_remove pid_file f1) as [[e|] f3] eqn:Er; intros [= <- <-]; [right; by eexists|]. left. split; [done|].
  unfold load_pid. by rewrite (file_exists_removed _ _ _ Er).
Qed.

(** ** Elections *)

(** What [serde] derives for the replies on an election: the fields the check reads first. *)
Class ElectionReplies `{JsonRpcTypes, !JsonValues} := {
  election_value : forall r : ElectionResponse, exists v, to_value r = inl v /\
    value_as_bool (index v "is_finalized") = Some (erp_is_finalized r) /\
    (is_u64 (erp_vote_count r) -> value_as_u64 (index v "vote_count") = Some (erp_vote_count r));
  results_value : forall r : ElectionResultsResponse, exists v, to_value r = inl v /\
    (is_u64 (err_total_votes r) -> value_as_u64 (index v "total_votes") = Some (err_total_votes r))
}.

Lemma truncate_no_error s n e : cli_truncate s n <> Err e.
Proof. unfold cli_truncate. destruct (_ <=? _)%nat; [done|]. destruct (String.get n s) as [c|]; [|done]. by destruct (is_continuation c). Qed.

Lemma display_no_error `{JsonValues} results e : display_election_results results <> Err e.
Proof.
  unfold display_election_results. destruct (cli_truncate _ 60) as [t|e'|] eqn:E; [|by apply truncate_no_error in E|done]. cbn.
  destruct (value_as_array _) as [rows|]; [|done]. clear. induction (sort_by _ rows) as [|x l IH]; [done|]. cbn.
  destruct (result_row x) as [t|e'|] eqn:E; cbn; [| |done].
  2:{ unfold result_row in E. destruct (cli_truncate _ _) eqn:Et; [done| |done]. by apply truncate_no_error in Et. }
  destruct (mapM result_row l) as [|e'|]; [done| |done]. cbn. naive_solver.
Qed.

Section election_check.
Context {D : Type} `{Database D, HexCrate, BincodeElection, HashCrate, BincodeTx}.
Context `{JsonRpcTypes, !JsonValues, !JsonValuesSpec, !RpcWire, !RpcWireSpec, !ElectionReplies}.
Context (service : RpcService (StateStore D)) (client : RpcClient) (election_id : string).

Let params : Value := json_object [("election_id"%string, json_string election_id)].

Lemma election_param : extract_string_param params "election_id" = Ok election_id.
Proof.
  unfold extract_string_param, params. rewrite (get_object _ "election_id" (json_string election_id)) by (repeat constructor; set_solver).
  cbn [mbind option_bind]. by rewrite as_str_string.
Qed.

Lemma call_get_election st st' r :
  svc_get_election service election_id st = (Ok r, st') ->
  exists v, rpc_call (HttpClient0 := direct_http service) client "get_election" params st = (Ok v, st') /\ to_value r = inl v /\
    value_as_bool (index v "is_finalized") = Some (erp_is_finalized r) /\
    (is_u64 (erp_vote_count r) -> value_as_u64 (index v "vote_count") = Some (erp_vote_count r)).
Proof.
  intros Hr. destruct (election_value r) as (v & Hv & Hf). exists v. split; [|done]. rewrite rpc_call_direct.
  change (dispatch service "get_election") with (handle_get_election service).
  unfold handle_get_election, mbind, stM_bind, lift, Rpc.call. rewrite election_param, Hr. unfold encode_result, lift. by rewrite Hv.
Qed.

Lemma call_get_results st st' r :
  svc_get_election_results service election_id st = (Ok r, st') ->
  exists v, rpc_call (HttpClient0 := direct_http service) client "get_election_results" params st = (Ok v, st') /\
    (is_u64 (err_total_votes r) -> value_as_u64 (index v "total_votes") = Some (err_total_votes r)).
Proof.
  intros Hr. destruct (results_value r) as (v & Hv & Hf). exists v. split; [|done]. rewrite rpc_call_direct.
  change (dispatch service "get_election_results") with (handle_get_election_results service).
  unfold handle_get_election_results, mbind, stM_bind, lift, Rpc.call. rewrite election_param, Hr. unfold encode_result, lift. by rewrite Hv.
Qed.
End election_check.

(** [verify election] against the queries on the chain and the state store: for a finalized
    election with votes on the chain it never confirms the result, because the query for the
    election reports no votes while the query for the results counts them. *)
Theorem election_with_votes_flagged {D : Type} `{Database D, HexCrate, BincodeElection, HashCrate, BincodeTx}
    `{JsonRpcTypes, !JsonValues, !JsonValuesSpec, !RpcWire, !RpcWireSpec, !ElectionReplies}
    (service : RpcService (StateStore D)) (c : Blockchain) (election_id endpoint : string) (id : ElectionId) (e : ElectionState)
    (st st1 st2 : StateStore D) :
  (forall i, svc_get_election service i = vm_get_election i) ->
  (forall i, svc_get_election_results service i = vm_get_election_results c i) ->
  reachable c -> find_election election_id st = (Ok (id, e), st1) -> find_election election_id st1 = (Ok (id, e), st2) ->
  0 <= es_created_at_height e -> es_is_finalized e = true ->
  let votes := election_votes c id (es_created_at_height e) (default (bc_height c) (es_closed_at_height e)) in
  0 < len votes < 2 ^ 64 ->
  match verify_election (HttpClient0 := direct_http service) election_id endpoint st with
  | (Ok verdict, st') => st' = st2 /\ verdict <> NotFinalized /\ all_checks_passed verdict = false
  | (Err _, _) => False
  | (Panic, _) => True
  end.
Proof.
  intros Hse Hsr Hwf%reachable_wf Hf1 Hf2 Hc Hfin votes Hv. set (client := RpcClient_new endpoint).
  assert (exists r, vm_get_election election_id st = (Ok r, st1) /\ erp_vote_count r = 0 /\ erp_is_finalized r = true) as (r & Hr & Hr0 & Hrf).
  { unfold vm_get_election, mbind, stM_bind. rewrite Hf1. by eexists. }
  assert (exists q, vm_get_election_results c election_id st1 = (Ok q, st2) /\ err_total_votes q = len votes) as (q & Hq & Hqt).
  { unfold vm_get_election_results, mbind, stM_bind. rewrite Hf2, Hfin. cbn [ensure lift]. rewrite count_votes_lumped by (done || (fold votes; lia)).
    fold votes. rewrite lumped_total by lia. by eexists. }
  rewrite <- Hse in Hr. rewrite <- Hsr in Hq.
  destruct (call_get_election service client election_id _ _ _ Hr) as (v & Hcv & _ & Hvf & Hvc).
  destruct (call_get_results service client election_id _ _ _ Hq) as (w & Hcw & Hwt).
  unfold verify_election, mbind, stM_bind. fold client. rewrite Hcv. unfold bool_or_false at 1. rewrite Hvf, Hrf. cbn [default negb Datatypes.id].
  rewrite Hcw. unfold lift. destruct (display_election_results w) as [rows|err|] eqn:Ed; [| |done].
  - split; [done|]. split; [done|]. unfold election_checks, u64_or_0. rewrite Hvc, Hwt by (rewrite ?Hr0, ?Hqt; unfold is_u64; lia).
    cbn [default Datatypes.id all_checks_passed]. rewrite Hr0, Hqt, (proj2 (Z.eqb_neq _ _)) by lia. done.
  - by apply display_no_error in Ed.
Qed.
