(* ===== verification/CliQuery.v ===== *)
(** * The command line: queries, displays and dispatch: crates/cli/src

    The query commands of commands/query.rs, the status commands of commands/node.rs, the
    displays of ui.rs and the dispatch of main.rs.  As in Cli.v a command returns what it
    reports: the labelled values in the order they are printed, without the frames around them;
    numbers that are printed straight from the reply stay JSON values, and times stay
    seconds. *)
From stdpp Require Import prelude gmap strings list pretty.
From Stdlib Require Import Strings.Byte Strings.Ascii.
From S2P Require Import Prelude Floats64 Types Merkle Transaction Block Genesis Chain ChainProperties Crypto CryptoTools Database Jurisdiction StateStore Protocol Peer Gossip BlockSync Discovery Transport Network Rpc RpcMethods RpcServer Cli.

Local Open Scope Z_scope.

(** [Value::as_object().is_some()]. *)
Definition value_is_object `{JsonCrate} (v : Value) : bool := match value_as_object v with Some _ => true | None => false end.

(** ** ui.rs *)
Inductive DisplayFormat := FTable | FJson | FCompact.

(** What is printed in each format. *)
Inductive Shown (V A B : Type) :=
| ShownJson (v : V)
| ShownTable (a : A)
| ShownCompact (b : B).
Arguments ShownJson {V A B} v.
Arguments ShownTable {V A B} a.
Arguments ShownCompact {V A B} b.

Section displays.
Context `{JsonValues}.

Definition opt_str (n : nat) (o : option string) : VResult (option string) :=
  match o with Some x => y ← cli_truncate x n; Ok (Some y) | None => Ok None end.

Record NodeReport := mkNodeReport {
  nrp_version : string;
  nrp_node_type : string;
  nrp_network_id : string;
  nrp_height : Value;
  nrp_peers : Value;
  nrp_syncing : bool;
  nrp_uptime : string
}.
Definition display_node_info (info : Value) (format : DisplayFormat) :
    VResult (Shown Value NodeReport (string * Value * Value * Value)) :=
  match format with
  | FJson => Ok (ShownJson info)
  | FTable => Ok (ShownTable (mkNodeReport (str_or "N/A" (index info "version")) (str_or "N/A" (index info "node_type"))
      (str_or "N/A" (index info "network_id")) (index info "height") (index info "peer_count")
      (bool_or_false (index info "syncing")) (format_uptime (u64_or_0 (index info "uptime")))))
  | FCompact => Ok (ShownCompact (str_or "N/A" (index info "node_type"), index info "height", index info "peer_count", index info "syncing"))
  end.

Record BlockReport := mkBlockReport {
  brp_height : Value;
  brp_hash : string;
  brp_previous : string;
  brp_timestamp : Z;
  brp_validator : string;
  brp_transactions : Value
}.
Definition display_block (block : Value) (format : DisplayFormat) : VResult (Shown Value BlockReport (Value * Value * string)) :=
  match format with
  | FJson => Ok (ShownJson block)
  | FTable =>
      hash ← cli_truncate (str_or "N/A" (index block "hash")) 60;
      previous ← cli_truncate (str_or "N/A" (index block "previous_hash")) 60;
      validator ← cli_truncate (str_or "N/A" (index block "validator")) 60;
      Ok (ShownTable (mkBlockReport (index block "height") hash previous (u64_or_0 (index block "timestamp")) validator
            (index block "transaction_count")))
  | FCompact =>
      validator ← cli_truncate (str_or "N/A" (index block "validator")) 16;
      Ok (ShownCompact (index block "height", index block "transaction_count", validator))
  end.

(** [display_election_results] in every format, and with a heading. *)
Definition compact_result (c : Value) : string * Value * f64 :=
  (str_or "Unknown" (index c "candidate_name"), index c "votes", default f64_zero (value_as_f64 (index c "percentage"))).
Definition show_election_results (results : Value) (format : DisplayFormat) :
    VResult (Shown Value (list (string * Z * f64)) (list (string * Value * f64))) :=
  match format with
  | FJson => Ok (ShownJson results)
  | FTable => rows ← display_election_results results; Ok (ShownTable rows)
  | FCompact => Ok (ShownCompact (compact_result <$> array_or_empty (index results "results")))
  end.
Definition display_jurisdiction_results (jurisdiction : string) (results : Value) (format : DisplayFormat) :
    VResult (option string * Shown Value (list (string * Z * f64)) (list (string * Value * f64))) :=
  match format with
  | FJson => Ok (None, ShownJson results)
  | FTable => title ← cli_truncate jurisdiction 26; shown ← show_election_results results FTable; Ok (Some title, shown)
  | FCompact => shown ← show_election_results results FCompact; Ok (Some jurisdiction, shown)
  end.

Definition show_vote_verification (verification : Value) (format : DisplayFormat) :
    VResult (Shown Value (bool * string * option Z * option string) (bool * string)) :=
  match format with
  | FJson => Ok (ShownJson verification)
  | FTable => rows ← display_vote_verification verification; Ok (ShownTable rows)
  | FCompact => Ok (ShownCompact (bool_or_false (index verification "valid"), str_or "N/A" (index verification "details")))
  end.

Definition validator_row (v : Value) : VResult (string * Z * Z * bool) :=
  address ← cli_truncate (str_or "N/A" (index v "address")) 24;
  Ok (address, u64_or_0 (index v "stake"), u64_or_0 (index v "blocks_produced"), bool_or_false (index v "is_active")).
Definition validator_line (v : Value) : VResult (string * Value * Value) :=
  address ← cli_truncate (str_or "N/A" (index v "address")) 20;
  Ok (address, index v "stake", index v "blocks_produced").
Definition display_validators (validators : Value) (format : DisplayFormat) :
    VResult (Shown Value (Z * Z * list (string * Z * Z * bool)) (list (string * Value * Value))) :=
  match format with
  | FJson => Ok (ShownJson validators)
  | FTable =>
      rows ← mapM validator_row (array_or_empty (index validators "validators"));
      Ok (ShownTable (u64_or_0 (index validators "height"), u64_or_0 (index validators "total_validators"), rows))
  | FCompact => lines ← mapM validator_line (array_or_empty (index validators "validators")); Ok (ShownCompact lines)
  end.

Record UiAnomaly := mkUiAnomaly {
  uia_type : string;
  uia_location : string;
  uia_severity : string;
  uia_score : f64;
  uia_description : string
}.
Definition anomaly_row (a : UiAnomaly) : VResult (string * string * string * string) :=
  t ← cli_truncate (uia_type a) 11;
  l ← cli_truncate (uia_location a) 19;
  Ok (t, l, uia_severity a, f64_fixed 2 (uia_score a)).
Definition display_anomalies (anomalies : list UiAnomaly) (format : DisplayFormat) :
    VResult (Shown (list UiAnomaly) (list (string * string * string * string) * Z) (list (string * string * string * string))) :=
  match format with
  | FJson => Ok (ShownJson anomalies)
  | FTable => rows ← mapM anomaly_row anomalies; Ok (ShownTable (rows, len anomalies))
  | FCompact => Ok (ShownCompact ((fun a => (uia_type a, uia_location a, uia_severity a, f64_fixed 2 (uia_score a))) <$> anomalies))
  end.

(** [display_vote_stats]; the table by jurisdiction comes in the order of the map. *)
Record VoteStatistics := mkVoteStatistics {
  vst_total_votes : Z;
  vst_votes_per_second : f64;
  vst_active_elections : Z;
  vst_votes_by_jurisdiction : gmap string Z;
  vst_last_update : Z
}.
Definition stats_percentage (total count : Z) : f64 :=
  if 0 <? total then f64_mul (f64_div (f64_of_Z count) (f64_of_Z total)) f64_hundred else f64_zero.
Definition display_vote_stats (stats : VoteStatistics) : VResult (Z * string * Z * Z * list (string * Z * string)) :=
  rows ← mapM (fun '(jurisdiction, count) => j ← cli_truncate jurisdiction 30;
                Ok (j, count, f64_fixed 2 (stats_percentage (vst_total_votes stats) count)))
              (map_to_list (vst_votes_by_jurisdiction stats));
  Ok (vst_total_votes stats, f64_fixed 2 (vst_votes_per_second stats), vst_active_elections stats, vst_last_update stats, rows).

(** The progress bar: percentage, rate, remaining seconds and the filled part of 50 cells.  A
    filled part beyond the width underflows and asks for more memory than there is. *)
Definition display_verification_progress (current total : Z) (elapsed : f64) : VResult (string * string * Z * Z) :=
  let percentage := stats_percentage total current in
  let rate := if f64_gt elapsed f64_zero then f64_div (f64_of_Z current) elapsed else f64_zero in
  let eta := if f64_gt rate f64_zero then f64_to_usize (f64_div (f64_of_Z (wrap 64 (total - current))) rate) else 0 in
  let filled := f64_to_usize (f64_mul (f64_div percentage f64_hundred) (f64_of_Z 50)) in
  if 50 <? filled then Panic else Ok (f64_fixed 1 percentage, f64_fixed 1 rate, eta, filled).

Definition display_message (message : string) : VResult string := cli_truncate message 58.
End displays.

(** ** commands/query.rs *)
Section queries.
Context `{JsonValues} {W : Type} `{!HttpClient W}.

Definition tx_row (tx : Value) : VResult (string * string) :=
  tx_type ← cli_truncate (str_or "Unknown" (index tx "tx_type")) 15;
  tx_id ← cli_truncate (str_or "N/A" (index tx "id")) 33;
  Ok (tx_type, tx_id).
(** [block]: the block and its transactions, numbered from one in this order. *)
Definition query_block (identifier endpoint : string) :
    VStM W (Shown Value BlockReport (Value * Value * string) * list (string * string)) :=
  block ← fetch_block identifier endpoint;
  shown ← lift (display_block block FTable);
  rows ← lift (mapM tx_row (array_or_empty (index block "transactions")));
  mret (shown, rows).

(** The part of [transaction] that depends on its type. *)
Inductive TxData :=
| DataVote (election_id encrypted_vote : option string)
| DataElection (details : option (option string * option Z * option Z))
| DataValidator (details : option (option string * option Value))
| DataOther.
Definition text_field (n : nat) (v : Value) (k : string) : VResult (option string) :=
  opt_str n (str_or "N/A" <$> value_get v k).
Definition tx_data (tx_type : string) (data : Value) : VResult TxData :=
  if String.eqb tx_type "Vote" then
    election_id ← text_field 39 data "election_id";
    encrypted ← text_field 39 data "encrypted_vote";
    Ok (DataVote election_id encrypted)
  else if String.eqb tx_type "CreateElection" then
    match value_get data "election" with
    | Some election =>
        name ← text_field 39 election "name";
        Ok (DataElection (Some (name, u64_or_0 <$> value_get election "start_time", u64_or_0 <$> value_get election "end_time")))
    | None => Ok (DataElection None)
    end
  else if String.eqb tx_type "RegisterValidator" then
    match value_get data "validator" with
    | Some validator =>
        address ← text_field 39 validator "address";
        Ok (DataValidator (Some (address, value_get validator "stake")))
    | None => Ok (DataValidator None)
    end
  else Ok DataOther.

Record TransactionReport := mkTransactionReport {
  trp_id : string;
  trp_type : string;
  trp_block_height : Value;
  trp_block_hash : string;
  trp_timestamp : Z;
  trp_data : option TxData
}.
Definition transaction_report (tx : Value) : VResult TransactionReport :=
  id ← cli_truncate (str_or "N/A" (index tx "id")) 39;
  block_hash ← cli_truncate (str_or "N/A" (index tx "block_hash")) 39;
  data ← (if value_is_object (index tx "data")
          then d ← tx_data (str_or "" (index tx "tx_type")) (index tx "data"); Ok (Some d) else Ok None);
  Ok (mkTransactionReport id (str_or "N/A" (index tx "tx_type")) (index tx "block_height") block_hash
        (u64_or_0 (index tx "timestamp")) data).
Definition query_transaction (hash endpoint : string) : VStM W TransactionReport :=
  tx ← rpc_call (RpcClient_new endpoint) "get_transaction" (json_object [("hash"%string, json_string hash)]);
  lift (transaction_report tx).

(** [map["k"]] on a [serde_json::Map] panics without the key. *)
Definition map_index (v : Value) (k : string) : VResult Value := unwrap (value_get v k).

Record ElectionReport := mkElectionReport {
  erp_id : string;
  erp_name : string;
  erp_description : option string;
  erp_start : Z;
  erp_end : Z;
  erp_vote_count : Value;
  erp_active : bool;
  erp_finalized : bool;
  erp_created : Value;
  erp_closed : option Z;
  erp_jurisdiction : option (string * string);
  erp_candidates : list string
}.
Definition jurisdiction_report (j : Value) : VResult (option (string * string)) :=
  if value_is_object j then
    level ← map_index j "level";
    name ← map_index j "name";
    name ← cli_truncate (str_or "N/A" name) 39;
    Ok (Some (str_or "N/A" level, name))
  else Ok None.
Definition candidate_row (c : Value) : VResult string :=
  let party := default ""%string ((fun p => " (" ++ p ++ ")")%string <$> value_as_str (index c "party")) in
  cli_truncate (str_or "Unknown" (index c "name") ++ party) 54.
Definition election_report (election : Value) : VResult ElectionReport :=
  id ← cli_truncate (str_or "N/A" (index election "id")) 39;
  name ← cli_truncate (str_or "N/A" (index election "name")) 39;
  description ← opt_str 39 (value_as_str (index election "description"));
  jurisdiction ← jurisdiction_report (index election "jurisdiction");
  candidates ← mapM candidate_row (array_or_empty (index election "candidates"));
  Ok (mkElectionReport id name description (u64_or_0 (index election "start_time")) (u64_or_0 (index election "end_time"))
        (index election "vote_count") (bool_or_false (index election "is_active")) (bool_or_false (index election "is_finalized"))
        (index election "created_at_height") (value_as_u64 (index election "closed_at_height")) jurisdiction candidates).
Definition query_election (election_id endpoint : string) : VStM W ElectionReport :=
  election ← rpc_call (RpcClient_new endpoint) "get_election" (json_object [("election_id"%string, json_string election_id)]);
  lift (election_report election).

Definition query_results (election_id endpoint : string) : VStM W (Shown Value (list (string * Z * f64)) (list (string * Value * f64))) :=
  results ← rpc_call (RpcClient_new endpoint) "get_election_results" (json_object [("election_id"%string, json_string election_id)]);
  lift (show_election_results results FTable).

Record ValidatorReport := mkValidatorReport {
  vrp_address : string;
  vrp_public_key : string;
  vrp_stake : Value;
  vrp_active : bool;
  vrp_registered : Value;
  vrp_blocks : Value;
  vrp_last_block : option Z
}.
Definition validator_report (v : Value) : VResult ValidatorReport :=
  address ← cli_truncate (str_or "N/A" (index v "address")) 39;
  public_key ← cli_truncate (str_or "N/A" (index v "public_key")) 39;
  Ok (mkValidatorReport address public_key (index v "stake") (bool_or_false (index v "is_active"))
        (index v "registered_at_height") (index v "blocks_produced") (value_as_u64 (index v "last_block_height"))).
Definition query_validator (address endpoint : string) : VStM W ValidatorReport :=
  validator ← rpc_call (RpcClient_new endpoint) "get_validator" (json_object [("address"%string, json_string address)]);
  lift (validator_report validator).

Definition show_validators (height : option Z) (endpoint : string) :
    VStM W (Shown Value (Z * Z * list (string * Z * Z * bool)) (list (string * Value * Value))) :=
  validators ← query_validators height endpoint;
  lift (display_validators validators FTable).

Record ChainInfoReport := mkChainInfoReport {
  crp_height : Value;
  crp_genesis_hash : string;
  crp_latest_hash : string;
  crp_latest_time : Z;
  crp_totals : Value * Value * Value * Value * Value
}.
Definition chain_info_report (i : Value) : VResult ChainInfoReport :=
  genesis ← cli_truncate (str_or "N/A" (index i "genesis_hash")) 39;
  latest ← cli_truncate (str_or "N/A" (index i "latest_block_hash")) 39;
  Ok (mkChainInfoReport (index i "height") genesis latest (u64_or_0 (index i "latest_block_time"))
        (index i "total_transactions", index i "total_votes", index i "total_validators", index i "active_validators",
         index i "active_elections")).
Definition query_chain (endpoint : string) : VStM W ChainInfoReport :=
  chain_info ← call_no_params (RpcClient_new endpoint) "chain_info";
  lift (chain_info_report chain_info).

(** The rows of the two searches. *)
Definition block_row (b : Value) : VResult (Value * string * Value * Z) :=
  hash ← cli_truncate (str_or "N/A" (index b "hash")) 21;
  Ok (index b "height", hash, index b "transaction_count", u64_or_0 (index b "timestamp")).
Definition show_search_blocks (start_height end_height : option Z) (validator : option string) (limit : option Z)
    (endpoint : string) : VStM W (list (Value * string * Value * Z)) :=
  blocks ← query_search_blocks start_height end_height validator limit endpoint;
  lift (mapM block_row blocks).
Definition found_tx_row (tx : Value) : VResult (string * string * Value) :=
  tx_type ← cli_truncate (str_or "N/A" (index tx "tx_type")) 10;
  tx_id ← cli_truncate (str_or "N/A" (index tx "id")) 27;
  Ok (tx_type, tx_id, index tx "block_height").
Definition show_search_transactions (tx_type election_id : option string) (start_height limit : option Z)
    (endpoint : string) : VStM W (list (string * string * Value)) :=
  transactions ← query_search_transactions tx_type election_id start_height limit endpoint;
  lift (mapM found_tx_row transactions).

(** ** commands/node.rs: [status] and [info] *)
Record SyncReport := mkSyncReport {
  syr_syncing : bool;
  syr_current : Z;
  syr_target : Z;
  syr_progress : f64;
  syr_eta : option string
}.
Definition sync_report (s : Value) : SyncReport :=
  mkSyncReport (bool_or_false (index s "syncing")) (u64_or_0 (index s "current_height")) (u64_or_0 (index s "target_height"))
    (default f64_zero (value_as_f64 (index s "progress"))) (format_eta <$> value_as_u64 (index s "estimated_time_remaining")).

(** A reply to [sync_status] that does not come is left out; an error of [node_info] is shown
    before it is returned. *)
Definition node_status (endpoint : string) : VStM W (Shown Value NodeReport (string * Value * Value * Value) * option SyncReport) := fun w =>
  let client := RpcClient_new endpoint in
  match call_no_params client "node_info" w with
  | (Ok info, w1) =>
      match display_node_info info FTable with
      | Ok shown =>
          match call_no_params client "sync_status" w1 with
          | (Ok s, w2) => (Ok (shown, Some (sync_report s)), w2)
          | (Err _, w2) => (Ok (shown, None), w2)
          | (Panic, w2) => (Panic, w2)
          end
      | Err e => (Err e, w1)
      | Panic => (Panic, w1)
      end
  | (Err e, w1) => match display_message (VotingError_display e) with Panic => (Panic, w1) | _ => (Err e, w1) end
  | (Panic, w1) => (Panic, w1)
  end.

Definition node_chain_rows (i : Value) : Value * Value * Value * Value * Value :=
  (index i "height", index i "total_transactions", index i "total_votes", index i "active_elections", index i "active_validators").
Definition health_rows (h : Value) : string * string * string * string :=
  (str_or "unknown" (index h "status"), str_or "unknown" (index h "database"), str_or "unknown" (index h "network"),
   str_or "unknown" (index h "consensus")).
Definition node_info_command (endpoint : string) : VStM W
    (Shown Value NodeReport (string * Value * Value * Value) * (Value * Value * Value * Value * Value) * (string * string * string * string)) :=
  let client := RpcClient_new endpoint in
  node_info ← call_no_params client "node_info";
  chain_info ← call_no_params client "chain_info";
  health ← call_no_params client "health";
  shown ← lift (display_node_info node_info FTable);
  mret (shown, node_chain_rows chain_info, health_rows health).
End queries.

(** ** main.rs

    The parsed arguments; how clap fills them from the words of the command line is clap's. *)
Inductive NodeCommands :=
| NodeStart (node_type : string) (genesis validator_key : option string) (rpc : bool) (rpc_addr : string) (metrics : bool) (metrics_addr : string)
| NodeStop
| NodeStatusOf (rpc : string)
| NodeInfoOf (rpc : string).
Inductive QueryCommands :=
| QueryBlock (identifier rpc : string)
| QueryTransaction (hash rpc : string)
| QueryElection (id rpc : string)
| QueryResults (id rpc : string)
| QueryValidator (address rpc : string)
| QueryValidators (height : option Z) (rpc : string)
| QueryChain (rpc : string).
Inductive VerifyCommands :=
| VerifyReceipt (receipt rpc : string)
| VerifyVote (tx_hash proof rpc : string)
| VerifyChain (start : Z) (last : option Z) (rpc : string)
| VerifyElection (id rpc : string).
Inductive Commands :=
| GenerateKeys (output : string)
| GenerateGenesis (validators chain_id output : string)
| CNode (cmd : NodeCommands)
| CQuery (cmd : QueryCommands)
| CVerify (cmd : VerifyCommands).
Record Cli := mkCli { cl_verbose : bool; cl_config : option string; cl_data_dir : option string; cl_command : Commands }.

Inductive ExitStatus := ExitOk | ExitFailure (e : VotingError) | Aborted.

Section main.
Context `{JsonValues} {W F : Type} `{!HttpClient W, !WholeFiles F} `{HashCrate, HexCrate, BincodeTx, Ed25519Crate, AeadCrate, Argon2Crate}.
(** What the commands take from outside: random bytes, the clock, the JSON encoder and the
    operating system. *)
Context (random : array 32) (salt : string) (now : Z) (to_string_pretty : GenesisBlock -> string + string)
  (which : string -> bool) (spawn : string -> list string -> Z + string) (kill : Z -> option string) (pid_file err_parse err_utf8 : string).

(** A command on the files, or on the node behind the endpoint; what it returns is printed. *)
Definition on_files {A : Type} (m : VStM F A) : VStM (F * W) unit := fun '(f, w) =>
  let '(r, f') := m f in ((_ ← r; Ok tt), (f', w)).
Definition on_net {A : Type} (m : VStM W A) : VStM (F * W) unit := fun '(f, w) =>
  let '(r, w') := m w in ((_ ← r; Ok tt), (f, w')).

Definition run_node_command (data_dir : option string) (cmd : NodeCommands) : VStM (F * W) unit :=
  match cmd with
  | NodeStart node_type genesis validator_key rpc rpc_addr metrics metrics_addr =>
      on_files (node_start which spawn pid_file
        (mkStartOptions node_type genesis validator_key data_dir rpc rpc_addr metrics metrics_addr))
  | NodeStop => on_files (node_stop kill pid_file err_parse err_utf8)
  | NodeStatusOf rpc => on_net (node_status rpc)
  | NodeInfoOf rpc => on_net (node_info_command rpc)
  end.
Definition run_query_command (cmd : QueryCommands) : VStM (F * W) unit :=
  match cmd with
  | QueryBlock identifier rpc => on_net (query_block identifier rpc)
  | QueryTransaction hash rpc => on_net (query_transaction hash rpc)
  | QueryElection id rpc => on_net (query_election id rpc)
  | QueryResults id rpc => on_net (query_results id rpc)
  | QueryValidator address rpc => on_net (query_validator address rpc)
  | QueryValidators height rpc => on_net (show_validators height rpc)
  | QueryChain rpc => on_net (query_chain rpc)
  end.
Definition run_verify_command (cmd : VerifyCommands) : VStM (F * W) unit :=
  match cmd with
  | VerifyReceipt receipt rpc => on_net (verify_receipt receipt rpc)
  | VerifyVote tx_hash proof rpc => on_net (verify_vote tx_hash proof rpc)
  | VerifyChain start last rpc => on_net (verify_chain start last rpc)
  | VerifyElection id rpc => on_net (verify_election id rpc)
  end.
Definition run_command (cli : Cli) : VStM (F * W) unit :=
  match cl_command cli with
  | GenerateKeys output => on_files (generate_keys random salt output)
  | GenerateGenesis validators chain_id output => on_files (generate_genesis to_string_pretty now validators chain_id output)
  | CNode cmd => run_node_command (cl_data_dir cli) cmd
  | CQuery cmd => run_query_command cmd
  | CVerify cmd => run_verify_command cmd
  end.
Definition cli_main (cli : Cli) (s : F * W) : ExitStatus * (F * W) :=
  match run_command cli s with
  | (Ok _, s') => (ExitOk, s')
  | (Err e, s') => (ExitFailure e, s')
  | (Panic, s') => (Aborted, s')
  end.
End main.

(** ** The queries against a node *)

(** Documented: [hex::encode] writes digits and lower-case letters. *)
Class HexAscii `{HexCrate} := { hex_encode_ascii : forall bs, ascii_only (hex_encode bs) = true }.

(** What [serde] derives for the replies the queries read. *)
Class QueryReplies `{JsonRpcTypes, !JsonValues} := {
  chain_info_fields : forall i, exists v, to_value i = inl v /\
    value_get v "height" = Some (json_number (chi_height i)) /\
    value_get v "genesis_hash" = Some (json_string (chi_genesis_hash i)) /\
    value_get v "latest_block_hash" = Some (json_string (chi_latest_block_hash i));
  block_fields : forall b, exists v, to_value b = inl v /\
    value_get v "height" = Some (json_number (rbr_height b)) /\
    value_get v "hash" = Some (json_string (rbr_hash b)) /\
    value_get v "previous_hash" = Some (json_string (rbr_previous_hash b)) /\
    value_get v "validator" = Some (json_string (rbr_validator b)) /\
    value_get v "transaction_count" = Some (json_number (rbr_transaction_count b)) /\
    (rbr_transactions b = [] -> value_as_array (index v "transactions") = Some [])
}.

Section queries_against_node.
Context {T : Type} `{Tcp T, HashCrate, HexCrate, !HexAscii, BincodeTx, JsonRpcTypes, !JsonValues, !JsonValuesSpec, !RpcWire, !RpcWireSpec, !QueryReplies}.
Context (now : Z) (s : NodeRpcService (T := T)) (endpoint : string).

(** The calls the node answers with an error, whatever it holds. *)
Definition refused_methods : list string :=
  ["get_block"; "get_transaction"; "get_election"; "get_election_results"; "get_validator"; "get_validators";
   "search_blocks"; "search_transactions"]%string.

Lemma refused_call {A B : Type} `{!ToValue B} (r : Result JsonRpcError A) (name : A -> string) :
  r <> Panic ->
  exists e, (x ← lift r; y ← Rpc.call (not_implemented (T := T) (A := B) (name x)); encode_result y) s = (Err e, s).
Proof. intros Hr. unfold mbind, stM_bind, lift. destruct r; [by eexists..|done]. Qed.

Lemma node_refuses client method params :
  method ∈ refused_methods ->
  exists e, rpc_call (HttpClient0 := node_http now) client method params s = (Err (NetworkError e), s).
Proof.
  intros Hm. unfold node_http. rewrite rpc_call_direct.
  assert (exists e, dispatch (node_rpc_service (T := T) now) method params s = (Err e, s)) as [e ->]; [|by eexists].
  assert (forall k, extract_string_param params k <> Panic) as Hstr by (intros k; apply ok_or_no_panic).
  assert (forall {A} `{!FromValue A}, (match from_value params with inl a => Ok a | inr e => Err (invalid_params ("Invalid query: " ++ e)) end : Result JsonRpcError A) <> Panic) as Hdec
    by (intros A HA; by destruct (from_value params)).
  unfold refused_methods in Hm. rewrite !elem_of_cons, elem_of_nil in Hm. destruct_or! Hm; subst; try done.
  - exact (refused_call (B := RpcBlockResponse) _ (fun _ => "get_block"%string) (Hstr "hash"%string)).
  - exact (refused_call (B := RpcTransactionResponse) _ (fun _ => "get_transaction"%string) (Hstr "hash"%string)).
  - exact (refused_call (B := ElectionResponse) _ (fun _ => "get_election"%string) (Hstr "election_id"%string)).
  - exact (refused_call (B := ElectionResultsResponse) _ (fun _ => "get_election_results"%string) (Hstr "election_id"%string)).
  - exact (refused_call (B := ValidatorResponse) _ (fun _ => "get_validator"%string) (Hstr "address"%string)).
  - change (dispatch (node_rpc_service (T := T) now) "get_validators" params) with (handle_get_validators (node_rpc_service (T := T) now) params).
    unfold handle_get_validators. destruct (_ || _); [by eexists|].
    apply (refused_call (B := ValidatorSetResponse) _ (fun _ => "get_validators"%string)).
    pose proof (ok_or_no_panic (value_get params "height" ≫= value_as_u64) (invalid_params ("Missing or invalid parameter: " ++ "height"))) as Hp.
    unfold extract_u64_param. by destruct (ok_or _ _).
  - exact (refused_call (B := BlockSearchResponse) _ (fun _ => "search_blocks"%string) (Hdec BlockQuery _)).
  - exact (refused_call (B := TransactionSearchResponse) _ (fun _ => "search_transactions"%string) (Hdec TransactionQuery _)).
Qed.

End queries_against_node.

(** A displayed text is the whole or a beginning of it. *)
Lemma substring_prefix n x : exists y, x = (String.substring 0 n x ++ y)%string.
Proof.
  revert n. induction x as [|c x IH]; intros n; [by exists ""%string; destruct n|]. destruct n as [|n]; [by exists (String c x)|].
  destruct (IH n) as [y Hy]. exists y. exact (f_equal (String c) Hy).
Qed.
Lemma truncate_ascii_prefix x n :
  ascii_only x = true -> exists y, cli_truncate x n = Ok y /\ String.prefix y x = true /\ (String.length x <= n -> y = x)%nat.
Proof.
  intros Hx. destruct (truncate_ascii x n Hx) as [y Hy]. exists y. split; [done|]. rewrite prefix_spec. unfold cli_truncate in Hy.
  destruct (Nat.leb_spec (String.length x) n).
  - injection Hy as <-. split; [|done]. exists ""%string. clear. induction x as [|c x IH]; [done|]. exact (f_equal (String c) IH).
  - destruct (String.get n x) as [c|]; [|done]. destruct (is_continuation c); [done|]. injection Hy as <-. split; [apply substring_prefix|lia].
Qed.

Lemma parse_u64_pretty n : is_u64 n -> parse_u64 (pretty n) = Some n.
Proof.
  intros Hn. unfold is_u64 in Hn. destruct (pretty_digits n ltac:(lia)) as [Hd Hne]. rewrite parse_u64_digits by done.
  destruct n as [|p|p]; [done| |lia]. change (pretty (Z.pos p)) with (pretty_N_go (N.pos p) ""). by rewrite parse_pretty_go by lia.
Qed.

Section node_queries.
Context {T : Type} `{Tcp T, HashCrate, HexCrate, !HexAscii, BincodeTx, JsonRpcTypes, !JsonValues, !JsonValuesSpec, !RpcWire, !RpcWireSpec, !ChainReplies, !QueryReplies}.
Context (now : Z) (s : NodeRpcService (T := T)) (endpoint : string).

Lemma nrs_chain_info_hashes :
  chain_wf (nrs_blockchain s) ->
  exists i g b, nrs_chain_info s = Ok i /\ chi_height i = bc_height (nrs_blockchain s) /\
    head (bc_blocks (nrs_blockchain s)) = Some g /\ chi_genesis_hash i = BlockHash_to_hex (block_hash g) /\
    last (bc_blocks (nrs_blockchain s)) = Some b /\ chi_latest_block_hash i = BlockHash_to_hex (block_hash b).
Proof.
  intros Hwf. unfold nrs_chain_info, get_best_block. pose proof (wf_nonempty _ Hwf) as Hne.
  destruct (last (bc_blocks (nrs_blockchain s))) as [best|] eqn:El; [|by apply last_None in El]. cbn.
  rewrite wf_lookup_height by done. destruct (bc_blocks (nrs_blockchain s)) as [|g l] eqn:Eb; [done|]. cbn.
  eexists _, g, best. by split_and!.
Qed.

(** A text of which the beginning is shown. *)
Definition shows (shown full : string) : Prop := String.prefix shown full = true.

(** The chain as the node reports it. *)
Lemma query_chain_answered :
  chain_wf (nrs_blockchain s) ->
  exists r g b, query_chain (HttpClient0 := node_http now) endpoint s = (Ok r, s) /\
    crp_height r = json_number (bc_height (nrs_blockchain s)) /\
    head (bc_blocks (nrs_blockchain s)) = Some g /\ shows (crp_genesis_hash r) (BlockHash_to_hex (block_hash g)) /\
    last (bc_blocks (nrs_blockchain s)) = Some b /\ shows (crp_latest_hash r) (BlockHash_to_hex (block_hash b)).
Proof.
  intros Hwf. unfold query_chain, mbind, stM_bind, call_no_params, node_http. rewrite rpc_call_direct.
  change (dispatch (node_rpc_service (T := T) now) "chain_info" (json_object []))
    with (x ← Rpc.call (reading (T := T) nrs_chain_info); encode_result x).
  destruct (nrs_chain_info_hashes Hwf) as (i & g & b & Hi & Hh & Hg & Eg & Hl & El).
  destruct (chain_info_fields i) as (v & Hv & F1 & F2 & F3). rewrite (reading_reply s _ _ _ Hi Hv).
  unfold lift, chain_info_report, str_or, index. rewrite F1, F2, F3, Eg, El, Hh. cbn [default from_option id]. rewrite !as_str_string.
  destruct (truncate_ascii_prefix (BlockHash_to_hex (block_hash g)) 39 (hex_encode_ascii _)) as (y1 & E1 & P1 & _).
  destruct (truncate_ascii_prefix (BlockHash_to_hex (block_hash b)) 39 (hex_encode_ascii _)) as (y2 & E2 & P2 & _).
  cbn [default from_option id]. rewrite E1, E2. cbn. eexists _, g, b. by split_and!.
Qed.

Lemma nrs_block_fields n b :
  chain_wf (nrs_blockchain s) -> bc_blocks (nrs_blockchain s) !! n = Some b ->
  exists r, nrs_get_block_by_height (Z.of_nat n) s = Ok r /\ rbr_height r = Z.of_nat n /\
    rbr_hash r = BlockHash_to_hex (block_hash b) /\ rbr_previous_hash r = BlockHash_to_hex (block_previous_hash b) /\
    rbr_validator r = PublicKey_to_hex (bh_validator (block_header b)) /\
    rbr_transaction_count r = wrap 32 (len (block_transactions b)) /\ rbr_transactions r = [].
Proof.
  intros Hwf Hb. unfold nrs_get_block_by_height. rewrite wf_lookup_height by (done || lia). rewrite Nat2Z.id, Hb. eexists.
  split; [done|]. by rewrite <- (wf_block_height _ _ _ Hwf Hb).
Qed.

Lemma query_block_answered n b :
  chain_wf (nrs_blockchain s) -> bc_blocks (nrs_blockchain s) !! n = Some b ->
  exists r, query_block (HttpClient0 := node_http now) (pretty (Z.of_nat n)) endpoint s = (Ok (ShownTable r, []), s) /\
    brp_height r = json_number (Z.of_nat n) /\ shows (brp_hash r) (BlockHash_to_hex (block_hash b)) /\
    shows (brp_previous r) (BlockHash_to_hex (block_previous_hash b)) /\
    shows (brp_validator r) (PublicKey_to_hex (bh_validator (block_header b))) /\
    brp_transactions r = json_number (wrap 32 (len (block_transactions b))).
Proof.
  intros Hwf Hb. assert (is_u64 (Z.of_nat n)) as Hn.
  { pose proof (wf_length _ Hwf). apply lookup_lt_Some in Hb. unfold is_u64, len in *. lia. }
  unfold query_block, fetch_block, mbind, stM_bind. rewrite parse_u64_pretty by done. rewrite node_block by done.
  destruct (nrs_block_fields n b Hwf Hb) as (r & Hr & E1 & E2 & E3 & E4 & E5 & E6).
  destruct (block_fields r) as (v & Hv & F1 & F2 & F3 & F4 & F5 & F6). rewrite (reading_reply s _ _ _ Hr Hv).
  specialize (F6 E6). unfold lift, display_block, str_or, array_or_empty. rewrite F6. cbn [default from_option id mapM].
  unfold index. rewrite F1, F2, F3, F4, F5, E1, E2, E3, E4, E5. cbn [default from_option id]. rewrite !as_str_string. cbn [default from_option id].
  destruct (truncate_ascii_prefix (BlockHash_to_hex (block_hash b)) 60 (hex_encode_ascii _)) as (y1 & T1 & P1 & _).
  destruct (truncate_ascii_prefix (BlockHash_to_hex (block_previous_hash b)) 60 (hex_encode_ascii _)) as (y2 & T2 & P2 & _).
  destruct (truncate_ascii_prefix (PublicKey_to_hex (bh_validator (block_header b))) 60 (hex_encode_ascii _)) as (y3 & T3 & P3 & _).
  rewrite T1, T2, T3. cbn. eexists. split; [done|]. by split_and!.
Qed.

Lemma query_block_beyond h :
  chain_wf (nrs_blockchain s) -> is_u64 h -> bc_height (nrs_blockchain s) < h ->
  exists e, query_block (HttpClient0 := node_http now) (pretty h) endpoint s = (Err (NetworkError e), s).
Proof.
  intros Hwf Hh Hgt. unfold query_block, fetch_block, mbind, stM_bind. rewrite parse_u64_pretty by done. rewrite node_block by done.
  rewrite (reading_error s _ (BlockNotFound ("Block at height " ++ pretty h ++ " not found"))); [by eexists|].
  unfold nrs_get_block_by_height. rewrite wf_lookup_height by (done || (unfold is_u64 in Hh; lia)).
  rewrite lookup_ge_None_2; [done|]. rewrite (wf_height _ Hwf) in Hgt. unfold is_u64, len in *. lia.
Qed.
End node_queries.

Ltac refused_by Hno Hin := unfold mbind, stM_bind;
  match goal with |- context[rpc_call _ ?m ?p ?s] => destruct (Hno m p (Hin m eq_refl)) as [? ->]; by eexists end.

(** C35: What [voting-cli query] can learn from a validator node with a reachable chain.
    [chain] shows the height and the hashes of the first and the latest block, and [block] with
    a height shows that block of the chain, its hash, link and validator (their beginnings),
    but none of its transactions, or fails beyond the chain.  Every other query fails, whatever
    the chain holds: a block by its hash, a transaction, an election, its results, a validator,
    the validators and both searches. *)
Theorem queries_on_node {T : Type} `{Tcp T, HashCrate, HexCrate, !HexAscii, BincodeTx, JsonRpcTypes, !JsonValues, !JsonValuesSpec,
    !RpcWire, !RpcWireSpec, !ChainReplies, !QueryReplies} (now : Z) (s : NodeRpcService (T := T)) (endpoint : string) :
  let http := node_http now in
  let c := nrs_blockchain s in
  let refused {A : Type} (m : VStM (NodeRpcService (T := T)) A) := exists e, m s = (Err (NetworkError e), s) in
  reachable c ->
  (exists r g b, query_chain (HttpClient0 := http) endpoint s = (Ok r, s) /\ crp_height r = json_number (bc_height c) /\
     head (bc_blocks c) = Some g /\ shows (crp_genesis_hash r) (BlockHash_to_hex (block_hash g)) /\
     last (bc_blocks c) = Some b /\ shows (crp_latest_hash r) (BlockHash_to_hex (block_hash b))) /\
  (forall n b, bc_blocks c !! n = Some b ->
     exists r, query_block (HttpClient0 := http) (pretty (Z.of_nat n)) endpoint s = (Ok (ShownTable r, []), s) /\
       brp_height r = json_number (Z.of_nat n) /\ shows (brp_hash r) (BlockHash_to_hex (block_hash b)) /\
       shows (brp_previous r) (BlockHash_to_hex (block_previous_hash b)) /\
       shows (brp_validator r) (PublicKey_to_hex (bh_validator (block_header b))) /\
       brp_transactions r = json_number (wrap 32 (len (block_transactions b)))) /\
  (forall h, is_u64 h -> bc_height c < h -> refused (query_block (HttpClient0 := http) (pretty h) endpoint)) /\
  (forall x, parse_u64 x = None -> refused (query_block (HttpClient0 := http) x endpoint)) /\
  (forall x, refused (query_transaction (HttpClient0 := http) x endpoint) /\ refused (query_election (HttpClient0 := http) x endpoint) /\
     refused (query_results (HttpClient0 := http) x endpoint) /\ refused (query_validator (HttpClient0 := http) x endpoint)) /\
  (forall h, refused (show_validators (HttpClient0 := http) h endpoint)) /\
  (forall a b v l, refused (show_search_blocks (HttpClient0 := http) a b v l endpoint)) /\
  (forall t e a l, refused (show_search_transactions (HttpClient0 := http) t e a l endpoint)).
Proof.
  intros http c refused Hwf%reachable_wf.
  assert (forall m p, m ∈ refused_methods -> exists e, rpc_call (HttpClient0 := http) (RpcClient_new endpoint) m p s = (Err (NetworkError e), s)) as Hno
    by (intros m p; apply node_refuses).
  assert (forall m, bool_decide (m ∈ refused_methods) = true -> m ∈ refused_methods) as Hin by (intros m; by rewrite bool_decide_eq_true).
  unfold refused, query_transaction, query_election, query_results, query_validator, show_validators, query_validators,
    show_search_blocks, query_search_blocks, show_search_transactions, query_search_transactions.
  split_and!.
  - by apply query_chain_answered.
  - intros n b Hb. by apply query_block_answered.
  - intros h Hh Hgt. by apply query_block_beyond.
  - intros x Hx. unfold query_block, fetch_block. rewrite Hx. refused_by Hno Hin.
  - intros x. split_and!; refused_by Hno Hin.
  - intros h. refused_by Hno Hin.
  - intros a b v l. refused_by Hno Hin.
  - intros t e a l. refused_by Hno Hin.
Qed.

Lemma truncate_cases x n : (exists y, cli_truncate x n = Ok y) \/ cli_truncate x n = Panic.
Proof. destruct (cli_truncate x n) eqn:E; [by left; eexists|by apply truncate_no_error in E|by right]. Qed.

Lemma election_report_panics `{JsonValues} (election : Value) :
  value_is_object (index election "jurisdiction") = true -> value_get (index election "jurisdiction") "level" = None ->
  election_report election = Panic.
Proof.
  intros Hobj Hlevel. unfold election_report, jurisdiction_report, map_index. rewrite Hobj, Hlevel.
  destruct (truncate_cases (str_or "N/A" (index election "id")) 39) as [[id ->]| ->]; [|done].
  destruct (truncate_cases (str_or "N/A" (index election "name")) 39) as [[name ->]| ->]; [|done].
  destruct (value_as_str (index election "description")) as [d|]; [|done]. cbn. by destruct (truncate_cases d 39) as [[y ->]| ->].
Qed.

(** ** Exit status *)
Section exit_status.
Context `{JsonValues} {W F : Type} `{!HttpClient W, !WholeFiles F} `{HashCrate, HexCrate, BincodeTx, Ed25519Crate, AeadCrate, Argon2Crate}.
Context (random : array 32) (salt : string) (now : Z) (to_string_pretty : GenesisBlock -> string + string)
  (which : string -> bool) (spawn : string -> list string -> Z + string) (kill : Z -> option string) (pid_file err_parse err_utf8 : string).
Abbreviation main := (cli_main random salt now to_string_pretty which spawn kill pid_file err_parse err_utf8).

(** The verification commands end with the status of success also when what they verified is
    not in order: a chain with failed blocks, an invalid vote, an election whose checks fail
    or that is not finalized. *)
Theorem failed_verification_exits_ok (v : bool) (config data_dir : option string) (f : F) (w w' : W) (endpoint : string) :
  (forall start last r, verify_chain start last endpoint w = (Ok r, w') -> chain_intact r = false ->
     main (mkCli v config data_dir (CVerify (VerifyChain start last endpoint))) (f, w) = (ExitOk, (f, w'))) /\
  (forall tx proof, verify_vote tx proof endpoint w = (Ok false, w') ->
     main (mkCli v config data_dir (CVerify (VerifyVote tx proof endpoint))) (f, w) = (ExitOk, (f, w'))) /\
  (forall id r, verify_election id endpoint w = (Ok r, w') -> all_checks_passed r = false ->
     main (mkCli v config data_dir (CVerify (VerifyElection id endpoint))) (f, w) = (ExitOk, (f, w'))).
Proof.
  unfold cli_main, run_command, run_verify_command, on_net. cbn [cl_command].
  split_and!; [intros start last r Hr _|intros tx proof Hr|intros id r Hr _]; by rewrite Hr.
Qed.

(** The configuration file of the command line is never read, and the data directory matters
    only when a node is started. *)
Theorem config_argument_ignored (v v' : bool) (config config' data_dir data_dir' : option string) (cmd : Commands) (s : F * W) :
  (forall n g k r a m b, cmd <> CNode (NodeStart n g k r a m b)) ->
  main (mkCli v config data_dir cmd) s = main (mkCli v' config' data_dir' cmd) s.
Proof. intros Hcmd. destruct cmd as [| |[]| |]; try done. by edestruct Hcmd. Qed.

(** A reply whose jurisdiction lacks its level aborts [query election]. *)
Theorem query_election_aborts (v : bool) (config data_dir : option string) (f : F) (w w' : W) (id endpoint : string) (election : Value) :
  rpc_call (RpcClient_new endpoint) "get_election" (json_object [("election_id"%string, json_string id)]) w = (Ok election, w') ->
  value_is_object (index election "jurisdiction") = true -> value_get (index election "jurisdiction") "level" = None ->
  main (mkCli v config data_dir (CQuery (QueryElection id endpoint))) (f, w) = (Aborted, (f, w')).
Proof.
  intros Hcall Hobj Hlevel. unfold cli_main, run_command, run_query_command, on_net, query_election. cbn [cl_command].
  unfold mbind, stM_bind. rewrite Hcall. unfold lift. by rewrite election_report_panics.
Qed.
End exit_status.
