(* ===== verification/Binaries.v ===== *)
(** * The node binaries: binaries/{validator,full,light}-node/src/main.rs

    From the arguments of a binary to the configuration its node is created with.  [clap] fills
    the records of arguments; creating directories, reading an address and starting the logger
    are arguments of the definitions.  The nodes themselves are in Node.v. *)
From stdpp Require Import prelude gmap strings list pretty.
From Stdlib Require Import Strings.Byte Strings.Ascii.
From S2P Require Import Prelude Floats64 Types Protocol Transport NodeConfig Rpc RpcServer Cli.

Local Open Scope Z_scope.

(** ** Arguments *)

(** The arguments the three binaries share. *)
Record NodeArgs := mkNodeArgs {
  na_config : option string;
  na_genesis : option string;
  na_data_dir : string;
  na_listen_addr : string;
  na_bootstrap_peers : option string;
  na_enable_rpc : bool;
  na_rpc_addr : string;
  na_enable_metrics : bool;
  na_metrics_addr : string;
  na_log_level : string;
  na_log_to_file : bool;
  na_log_file : option string;
  na_network_id : string
}.
Record ValidatorArgs := mkValidatorArgs { va_common : NodeArgs; va_validator_key : string }.
Record FullArgs := mkFullArgs {
  fa_common : NodeArgs;
  fa_enable_pruning : bool;
  fa_pruning_retention_days : Z;
  fa_max_peers : Z
}.
Record LightArgs := mkLightArgs {
  la_common : NodeArgs;
  la_max_peers : Z;
  la_cache_size_mb : Z;
  la_checkpoint_height : option Z;
  la_checkpoint_hash : option string
}.

(** The default values of [clap]; the key of a validator has none. *)
Definition default_args (data_dir listen_addr : string) (enable_rpc : bool) (rpc_addr metrics_addr : string) : NodeArgs :=
  mkNodeArgs None None data_dir listen_addr None enable_rpc rpc_addr false metrics_addr "info" false None "mainnet".
Definition ValidatorArgs_default (validator_key : string) : ValidatorArgs :=
  mkValidatorArgs (default_args "./data/validator" "0.0.0.0:9000" false "127.0.0.1:8545" "127.0.0.1:9090") validator_key.
Definition FullArgs_default : FullArgs :=
  mkFullArgs (default_args "./data/full-node" "0.0.0.0:9001" true "127.0.0.1:8546" "127.0.0.1:9091") false 30 50.
Definition LightArgs_default : LightArgs :=
  mkLightArgs (default_args "./data/light-node" "0.0.0.0:9002" true "127.0.0.1:8547" "127.0.0.1:9092") 20 64 None None.

(** The names of the binaries in their manifests. *)
Definition binaries : list string := ["validator-node"; "full-node"; "light-node"]%string.

(** ** Configuration *)
Definition parse_log_level (level : string) : VResult LogLevel :=
  let l := lowercase level in
  if String.eqb l "trace" then Ok LTrace
  else if String.eqb l "debug" then Ok LDebug
  else if String.eqb l "info" then Ok LInfo
  else if String.eqb l "warn" then Ok LWarn
  else if String.eqb l "error" then Ok LError
  else Err (ConfigurationError ("Invalid log level: " ++ level ++ ". Must be one of: trace, debug, info, warn, error")).

(** [Path::join] with a relative name. *)
Fixpoint ends_with_slash (s : string) : bool :=
  match s with EmptyString => false | String c EmptyString => Ascii.eqb c "/" | String _ s' => ends_with_slash s' end.
Definition path_join (dir name : string) : string :=
  if String.eqb dir "" then name else if ends_with_slash dir then dir ++ name else dir ++ "/" ++ name.

Section startup.
(** [create_dir_all], [SocketAddr::from_str] and [init_logger]; errors by their text. *)
Context (create_dir_all : string -> option string) (parse_addr : string -> SocketAddr + string)
  (init_logger : LoggingConfig -> option string).

Definition make_dir (what path : string) : VResult unit :=
  match create_dir_all path with
  | Some e => Err (ConfigurationError ("Failed to create " ++ what ++ " directory: " ++ e))
  | None => Ok tt
  end.
Definition prepare_dirs (a : NodeArgs) : VResult unit :=
  _ ← make_dir "data" (na_data_dir a);
  if na_log_to_file a then make_dir "log" (path_join (na_data_dir a) "logs") else Ok tt.

(** The addresses among the comma-separated ones. *)
Definition parse_peers (peers : string) : list SocketAddr :=
  omap (fun s => match parse_addr (trim s) with inl a => Some a | inr _ => None end) (split_comma peers).

Definition network_config (a : NodeArgs) (bootstrap_peers : list SocketAddr) (max_peers : Z) : VResult CommonNetworkConfig :=
  listen_addr ← map_err (fun e => ConfigurationError ("Invalid listen address: " ++ e)) (parse_addr (na_listen_addr a));
  Ok (mkCommonNetworkConfig listen_addr bootstrap_peers max_peers 30 true (na_network_id a)).
Definition storage_config (a : NodeArgs) (blocks : string) (cache_size_mb : Z) (enable_pruning : bool) (pruning_days : Z) :
    CommonStorageConfig :=
  mkCommonStorageConfig (na_data_dir a) (path_join (na_data_dir a) blocks) (path_join (na_data_dir a) "state") true cache_size_mb
    enable_pruning pruning_days.
Definition consensus_config (validator_key : option string) : ConsensusConfig :=
  mkConsensusConfig AlgProofOfAuthority 10 3 f64_0_67 (negb (is_none validator_key)) validator_key.
(** It is built and not used: only its error matters. *)
Definition rpc_config (a : NodeArgs) : VResult CommonRpcConfig :=
  listen_addr ← map_err (fun e => ConfigurationError ("Invalid RPC address: " ++ e)) (parse_addr (na_rpc_addr a));
  Ok (mkCommonRpcConfig (na_enable_rpc a) listen_addr true ["*"%string] 30 (10 * 1024 * 1024) 100).
Definition args_config (t : NodeType) (a : NodeArgs) (network : CommonNetworkConfig) (storage : CommonStorageConfig)
    (validator_key : option string) : NodeConfig :=
  mkNodeConfig t network storage (consensus_config validator_key) (na_genesis a) validator_key (na_data_dir a)
    (na_enable_metrics a) (if na_enable_metrics a then Some (na_metrics_addr a) else None)
    (na_enable_rpc a) (if na_enable_rpc a then Some (na_rpc_addr a) else None) (na_log_level a) (na_log_to_file a) (na_log_file a).

Definition validator_build_config (args : ValidatorArgs) : VResult NodeConfig :=
  let a := va_common args in
  _ ← prepare_dirs a;
  let bootstrap_peers := match na_bootstrap_peers a with Some peers => parse_peers peers | None => [] end in
  network ← network_config a bootstrap_peers 50;
  let storage := storage_config a "blockchain" 512 false 0 in
  _ ← rpc_config a;
  Ok (args_config NValidator a network storage (Some (va_validator_key args))).

Definition full_build_config (args : FullArgs) : VResult NodeConfig :=
  let a := fa_common args in
  _ ← prepare_dirs a;
  let bootstrap_peers := match na_bootstrap_peers a with Some peers => parse_peers peers | None => [] end in
  network ← network_config a bootstrap_peers (fa_max_peers args);
  let storage := storage_config a "blockchain" 512 (fa_enable_pruning args) (fa_pruning_retention_days args) in
  _ ← rpc_config a;
  Ok (args_config NFull a network storage None).

Definition light_build_config (args : LightArgs) : VResult NodeConfig :=
  let a := la_common args in
  _ ← prepare_dirs a;
  bootstrap_peers ← match na_bootstrap_peers a with
    | Some peers_str =>
        let peers := parse_peers peers_str in
        if bool_decide (peers = []) then Err (ConfigurationError "Light nodes require at least one bootstrap peer") else Ok peers
    | None => Err (ConfigurationError "Light nodes require bootstrap peers. Use --bootstrap-peers")
    end;
  network ← network_config a bootstrap_peers (la_max_peers args);
  let storage := storage_config a "headers" (la_cache_size_mb args) true 7 in
  _ ← rpc_config a;
  Ok (args_config NLight a network storage None).

(** [main] up to the creation of the node; [log_name] is the default log file.  An invalid
    metrics address is an [expect]. *)
Definition logging_config (log_name : string) (a : NodeArgs) : VResult LoggingConfig :=
  level ← parse_log_level (na_log_level a);
  metrics_addr ← (if na_enable_metrics a
                  then match parse_addr (na_metrics_addr a) with inl addr => Ok (Some addr) | inr _ => Panic end
                  else Ok None);
  Ok (mkLoggingConfig level FPretty (na_log_to_file a)
        (default (path_join (path_join (na_data_dir a) "logs") log_name) (na_log_file a)) true (na_enable_metrics a) metrics_addr).

Definition node_startup (log_name : string) (a : NodeArgs) (build_config : VResult NodeConfig) : VResult (LoggingConfig * NodeConfig) :=
  logging ← logging_config log_name a;
  _ ← match init_logger logging with
      | Some e => Err (ConfigurationError ("Failed to initialize logger: " ++ e))
      | None => Ok tt
      end;
  config ← (if is_none (na_config a) then build_config
            else Err (ConfigurationError "Config file loading not yet implemented. Use command-line args."));
  _ ← match NodeConfig_validate config with Some e => Err (ConfigurationError e) | None => Ok tt end;
  Ok (logging, config).

Definition validator_startup (args : ValidatorArgs) : VResult (LoggingConfig * NodeConfig) :=
  node_startup "full-node.log" (va_common args) (validator_build_config args).
Definition full_startup (args : FullArgs) : VResult (LoggingConfig * NodeConfig) :=
  node_startup "full-node.log" (fa_common args) (full_build_config args).
Definition light_startup (args : LightArgs) : VResult (LoggingConfig * NodeConfig) :=
  node_startup "light-node.log" (la_common args) (light_build_config args).
End startup.

(** ** What a started node has been given *)

(** The three binaries with their arguments. *)
Inductive Binary :=
| RunValidator (args : ValidatorArgs)
| RunFull (args : FullArgs)
| RunLight (args : LightArgs).
Definition binary_args (b : Binary) : NodeArgs :=
  match b with RunValidator args => va_common args | RunFull args => fa_common args | RunLight args => la_common args end.
Definition binary_type (b : Binary) : NodeType :=
  match b with RunValidator _ => NValidator | RunFull _ => NFull | RunLight _ => NLight end.

Lemma lowercase_levels l : l ∈ log_levels -> is_Ok (parse_log_level l).
Proof. intros Hl. repeat (apply elem_of_cons in Hl as [->|Hl]; [by eexists|]). by apply elem_of_nil in Hl. Qed.

Lemma map_err_Ok {A : Type} (err : string -> VotingError) (r : A + string) a : map_err err r = Ok a <-> r = inl a.
Proof. destruct r; cbn; naive_solver. Qed.

Section startup_facts.
Context (create_dir_all : string -> option string) (parse_addr : string -> SocketAddr + string)
  (init_logger : LoggingConfig -> option string).

Definition binary_startup (b : Binary) : VResult (LoggingConfig * NodeConfig) :=
  match b with
  | RunValidator args => validator_startup create_dir_all parse_addr init_logger args
  | RunFull args => full_startup create_dir_all parse_addr init_logger args
  | RunLight args => light_startup create_dir_all parse_addr init_logger args
  end.

Definition parses (addr : string) : Prop := exists a, parse_addr addr = inl a.
Definition peers_of (a : NodeArgs) : list SocketAddr :=
  match na_bootstrap_peers a with Some peers => parse_peers parse_addr peers | None => [] end.

(** What the environment must provide, and what the arguments must be. *)
Record environment_ok (a : NodeArgs) : Prop := {
  env_data : create_dir_all (na_data_dir a) = None;
  env_logs : na_log_to_file a = true -> create_dir_all (path_join (na_data_dir a) "logs") = None;
  env_logger : forall lc, lc_log_to_file lc = na_log_to_file a -> init_logger lc = None
}.
Record arguments_ok (b : Binary) (a : NodeArgs) : Prop := {
  arg_config : na_config a = None;
  arg_genesis : is_Some (na_genesis a);
  arg_level : na_log_level a ∈ log_levels;
  arg_listen : parses (na_listen_addr a);
  arg_rpc : parses (na_rpc_addr a);
  arg_peers : binary_type b = NLight -> peers_of a <> []
}.

Lemma make_dir_Ok what path u : make_dir create_dir_all what path = Ok u <-> create_dir_all path = None.
Proof. unfold make_dir. destruct u, (create_dir_all path); naive_solver. Qed.

Lemma prepare_dirs_Ok a :
  prepare_dirs create_dir_all a = Ok tt <->
  create_dir_all (na_data_dir a) = None /\ (na_log_to_file a = true -> create_dir_all (path_join (na_data_dir a) "logs") = None).
Proof.
  unfold prepare_dirs. rewrite bind_Ok. setoid_rewrite make_dir_Ok.
  destruct (na_log_to_file a); [setoid_rewrite make_dir_Ok|]; naive_solver.
Qed.

(** The configuration of a binary, and when there is one. *)
Definition binary_build (b : Binary) : VResult NodeConfig :=
  match b with
  | RunValidator args => validator_build_config create_dir_all parse_addr args
  | RunFull args => full_build_config create_dir_all parse_addr args
  | RunLight args => light_build_config create_dir_all parse_addr args
  end.

(** The parts of the configuration that come from the arguments. *)
Record config_of_args (b : Binary) (c : NodeConfig) : Prop := {
  coa_type : ndc_node_type c = binary_type b;
  coa_genesis : ndc_genesis_path c = na_genesis (binary_args b);
  coa_level : ndc_log_level c = na_log_level (binary_args b);
  coa_key : ndc_validator_key_path c = match b with RunValidator args => Some (va_validator_key args) | _ => None end;
  coa_listen : parse_addr (na_listen_addr (binary_args b)) = inl (cnc_listen_addr (ndc_network c));
  coa_peers : cnc_bootstrap_peers (ndc_network c) = peers_of (binary_args b);
  coa_state : csc_state_db_path (ndc_storage c) = path_join (na_data_dir (binary_args b)) "state";
  coa_rpc : ndc_rpc_addr c = (if na_enable_rpc (binary_args b) then Some (na_rpc_addr (binary_args b)) else None)
}.

Lemma network_config_Ok a peers max_peers n :
  network_config parse_addr a peers max_peers = Ok n <->
  exists addr, parse_addr (na_listen_addr a) = inl addr /\ n = mkCommonNetworkConfig addr peers max_peers 30 true (na_network_id a).
Proof. unfold network_config. rewrite bind_Ok. setoid_rewrite map_err_Ok. naive_solver. Qed.

Lemma rpc_config_Ok a : is_Ok (rpc_config parse_addr a) <-> parses (na_rpc_addr a).
Proof. unfold rpc_config, is_Ok, parses. setoid_rewrite bind_Ok. setoid_rewrite map_err_Ok. naive_solver. Qed.

Lemma binary_build_sound b c :
  binary_build b = Ok c ->
  config_of_args b c /\ prepare_dirs create_dir_all (binary_args b) = Ok tt /\ parses (na_listen_addr (binary_args b)) /\
  parses (na_rpc_addr (binary_args b)) /\ (binary_type b = NLight -> peers_of (binary_args b) <> []).
Proof.
  destruct b as [args|args|args]; cbn [binary_build binary_args];
    unfold validator_build_config, full_build_config, light_build_config; intros ([] & Hd & Hc)%bind_Ok;
    [| |apply bind_Ok in Hc as (peers & Hp & Hc)];
    apply bind_Ok in Hc as (n & (addr & Ha & ->)%network_config_Ok & Hc); apply bind_Ok in Hc as (r & Hr & [= <-]);
    (assert (parses (na_rpc_addr _)) as Hrpc by (apply rpc_config_Ok; by eexists)).
  1,2: split; [by split|]; split_and!; [done|by eexists|done|done].
  assert (peers = peers_of (la_common args) /\ peers <> []) as [-> Hne].
  { unfold peers_of. destruct (na_bootstrap_peers (la_common args)); [|done]. case_bool_decide; [done|]. by injection Hp as <-. }
  split; [by split|]. split_and!; [done|by eexists|done|done].
Qed.

Lemma binary_build_complete b :
  prepare_dirs create_dir_all (binary_args b) = Ok tt -> parses (na_listen_addr (binary_args b)) ->
  parses (na_rpc_addr (binary_args b)) -> (binary_type b = NLight -> peers_of (binary_args b) <> []) -> is_Ok (binary_build b).
Proof.
  intros Hd [addr Ha] [r Hr]%rpc_config_Ok Hp. destruct b as [args|args|args]; cbn [binary_build binary_args binary_type] in *;
    unfold validator_build_config, full_build_config, light_build_config, network_config; rewrite Hd; cbn [mbind result_bind].
  1,2: rewrite Ha; cbn; rewrite Hr; by eexists.
  specialize (Hp eq_refl). unfold peers_of in Hp. destruct (na_bootstrap_peers (la_common args)) as [peers|]; [|done].
  rewrite bool_decide_false by done. cbn. rewrite Ha. cbn. rewrite Hr. by eexists.
Qed.
End startup_facts.

(** [main] of each binary is the same code around its own configuration. *)
Lemma binary_startup_eq create_dir_all parse_addr init_logger b :
  exists log_name, binary_startup create_dir_all parse_addr init_logger b =
    node_startup parse_addr init_logger log_name (binary_args b) (binary_build create_dir_all parse_addr b).
Proof. destruct b; by eexists. Qed.

(** From the configuration on. *)
Lemma startup_tail create_dir_all parse_addr init_logger b (logging : LoggingConfig) :
  environment_ok create_dir_all init_logger (binary_args b) ->
  let tail :=
    (config ← (if is_none (na_config (binary_args b)) then binary_build create_dir_all parse_addr b
               else Err (ConfigurationError "Config file loading not yet implemented. Use command-line args."));
     _ ← match NodeConfig_validate config with Some e => Err (ConfigurationError e) | None => Ok tt end;
     Ok (logging, config)) in
  ((exists r, tail = Ok r) <-> arguments_ok parse_addr b (binary_args b)) /\
  forall lc c, tail = Ok (lc, c) -> node_config_ok (binary_type b) c /\ config_of_args parse_addr b c.
Proof.
  intros [Hdata Hlogs _] tail.
  assert (forall lc c, tail = Ok (lc, c) -> na_config (binary_args b) = None /\ binary_build create_dir_all parse_addr b = Ok c /\
            NodeConfig_validate c = None) as Htail.
  { intros lc c. unfold tail. destruct (na_config (binary_args b)); [done|]. cbn [is_none]. intros (c' & Hc' & Hr)%bind_Ok.
    destruct (NodeConfig_validate c') eqn:Ev; [done|]. by injection Hr as _ <-. }
  assert (prepare_dirs create_dir_all (binary_args b) = Ok tt) as Hdirs by by apply prepare_dirs_Ok.
  split; [split|].
  - intros [[lc c] (Hcfg & (Hargs & _ & Hl & Hr & Hp)%binary_build_sound & (_ & Hg & Hlv)%validate_None)%Htail].
    destruct Hargs as [_ Eg Elv _ _ _ _ _]. split; [done|by rewrite <- Eg|by rewrite <- Elv|done..].
  - intros [Hcfg Hg Hlv Hl Hr Hp]. destruct (binary_build_complete _ _ b Hdirs Hl Hr Hp) as [c Hc]. exists (logging, c).
    unfold tail. rewrite Hcfg. cbn [is_none]. rewrite Hc. cbn [mbind result_bind].
    apply binary_build_sound in Hc as ([Et Eg Elv Ek _ _ _ _] & _).
    assert (NodeConfig_validate c = None) as ->; [|done]. apply validate_None. rewrite Et, Eg, Elv, Ek. split; [|done].
    by destruct b.
  - intros lc c (_ & (Hargs & _)%binary_build_sound & (Hk & Hg & Hlv)%validate_None)%Htail. split; [|done].
    split; [apply Hargs|done| |done]. intros Ht. apply Hk. by rewrite (coa_type _ _ _ Hargs).
Qed.

(** A node binary gets from its arguments to a configuration exactly when the arguments
    are usable, in an environment where directories and the logger are available: no
    configuration file is given, a genesis file is, the log level is one of the five names in
    lower case (although the level is read without regard to case), the listen and the RPC
    address are addresses (the latter even when RPC is off), and a light node has a bootstrap
    peer.  The configuration is then one a node of that type can start with, and has the
    addresses, the peers that are addresses, and the paths of the arguments; an unusable
    metrics address panics. *)
Theorem startup_iff_usable (create_dir_all : string -> option string) (parse_addr : string -> SocketAddr + string)
    (init_logger : LoggingConfig -> option string) (b : Binary) :
  environment_ok create_dir_all init_logger (binary_args b) ->
  if na_enable_metrics (binary_args b) && is_ok (parse_log_level (na_log_level (binary_args b))) &&
     negb (match parse_addr (na_metrics_addr (binary_args b)) with inl _ => true | inr _ => false end)
  then binary_startup create_dir_all parse_addr init_logger b = Panic
  else ((exists r, binary_startup create_dir_all parse_addr init_logger b = Ok r) <-> arguments_ok parse_addr b (binary_args b)) /\
    forall lc c, binary_startup create_dir_all parse_addr init_logger b = Ok (lc, c) ->
      node_config_ok (binary_type b) c /\ config_of_args parse_addr b c.
Proof.
  intros [Hdata Hlogs Hlogger]. destruct (binary_startup_eq create_dir_all parse_addr init_logger b) as [log_name ->].
  unfold node_startup, logging_config. destruct (parse_log_level (na_log_level (binary_args b))) as [level|e|] eqn:El;
    cbn [is_ok andb negb mbind result_bind]; rewrite ?andb_true_r, ?andb_false_r.
  2,3: split; [|done]; split; [by intros []|]; intros [_ _ Hl _ _ _]; apply lowercase_levels in Hl as [? ?]; congruence.
  destruct (na_enable_metrics (binary_args b)); [destruct (parse_addr (na_metrics_addr (binary_args b))) as [m|]; [|done]|];
    cbn [andb negb mbind result_bind]; rewrite Hlogger by done; by apply (startup_tail _ _ init_logger).
Qed.

(** [node start] of the command line asks for the binary of the node type by name: it is one
    of the binaries for a validator and for a full node, and none of them for a light node,
    which is built as [light-node]. *)
Theorem light_node_not_started (o : StartOptions) (name : string) (args : list string) :
  start_command o = Ok (name, args) ->
  (name ∈ binaries <-> lowercase (so_node_type o) <> "light"%string) /\ args = start_args o.
Proof.
  unfold start_command. intros ([] & Ht & H1)%bind_Ok. apply bind_Ok in H1 as ([] & _ & H1).
  apply bind_Ok in H1 as (n & Hn & [= -> <-]). split; [|done].
  apply ensure_Ok, bool_decide_eq_true in Ht. unfold node_types, binaries in *. rewrite !elem_of_cons, elem_of_nil in *.
  destruct Ht as [E|[E|[E|[]]]]; rewrite E in *; vm_compute in Hn; injection Hn as <-; naive_solver.
Qed.
