(* ===== verification/Tasks.v ===== *)
(** * Concurrent tasks and read-write locks

    The asynchronous methods of the nodes as tasks over a shared state: a task acquires and
    releases the locks of [tokio::sync::RwLock] and acts on the state in between, and may be
    interrupted wherever it waits.  A panic ends the process; the model lets the other tasks go
    on, which only adds runs.  The first part is the semantics (a task alone, and any
    interleaving of many); the second part is what follows from the way locks are used: mutual
    exclusion, no deadlock when locks are taken in order, and invariants of the state. *)
From stdpp Require Import prelude list.
From S2P Require Import Prelude Types.

(** ** Tasks *)
Section tasks.
Context {S L R : Type} `{EqDecision L}.

(** [Acq l true] waits for the write lock, [Acq l false] for a read lock; [Act f k] changes the
    state by [f] and goes on with what it saw of it; [Loop n body again k] is an endless loop at
    its pass [n]: it runs [body n], starts the next pass while [again] says so of the result, and
    goes on with [k] once it does not. *)
Inductive Prog :=
| Ret (r : VResult R)
| Acq (l : L) (w : bool) (k : Prog)
| Rel (l : L) (w : bool) (k : Prog)
| Act (f : S -> S) (k : S -> Prog)
| Loop (n : nat) (body : nat -> Prog) (again : VResult R -> bool) (k : VResult R -> Prog).

(** Reading the state, and the end of a method that holds guards: they are dropped in the
    reverse order. *)
Definition look (k : S -> Prog) : Prog := Act (fun s => s) k.
Fixpoint finish (held : list (L * bool)) (r : VResult R) : Prog :=
  match held with [] => Ret r | (l, w) :: held' => Rel l w (finish held' r) end.

(** [e?]: go on with the value, or leave with the error (or the panic). *)
Definition try_ {A : Type} (held : list (L * bool)) (r : VResult A) (k : A -> Prog) : Prog :=
  match r with Ok a => k a | Err e => finish held (Err e) | Panic => finish held Panic end.

(** A call that changes the state, and goes on with its result. *)
Definition call_ {A : Type} (held : list (L * bool)) (m : VStM S A) (k : A -> Prog) : Prog :=
  Act (fun s => (m s).2) (fun s => try_ held (m s).1 k).

(** One method after another. *)
Fixpoint prog_bind (p : Prog) (k : VResult R -> Prog) : Prog :=
  match p with
  | Ret r => k r
  | Acq l w p' => Acq l w (prog_bind p' k)
  | Rel l w p' => Rel l w (prog_bind p' k)
  | Act f p' => Act f (fun s => prog_bind (p' s) k)
  | Loop n body again p' => Loop n body again (fun r => prog_bind (p' r) k)
  end.

(** One pass of a loop and what comes after it. *)
Definition pass (n : nat) (body : nat -> Prog) (again : VResult R -> bool) (k : VResult R -> Prog) : Prog :=
  prog_bind (body n) (fun r => if again r then Loop (Datatypes.S n) body again k else k r).

(** A task that does not loop, alone: locks are free.  (Of a loop this is one pass.) *)
Fixpoint run_alone (p : Prog) (s : S) : VResult R * S :=
  match p with
  | Ret r => (r, s)
  | Acq _ _ k => run_alone k s
  | Rel _ _ k => run_alone k s
  | Act f k => run_alone (k s) (f s)
  | Loop n body _ k => let '(r, s') := run_alone (body n) s in run_alone (k r) s'
  end.
Fixpoint loop_free (p : Prog) : Prop :=
  match p with
  | Ret _ => True
  | Acq _ _ k => loop_free k
  | Rel _ _ k => loop_free k
  | Act _ k => forall s, loop_free (k s)
  | Loop _ _ _ _ => False
  end.

(** ** Interleaving *)
Record Task := mkTask { t_held : list (L * bool); t_prog : Prog }.
Record World := mkWorld { w_state : S; w_tasks : list Task }.

Definition remove_held (x : L * bool) (held : list (L * bool)) : list (L * bool) :=
  match list_find (fun y => y = x) held with Some (i, _) => delete i held | None => held end.

Definition finished (t : Task) : bool := match t_prog t with Ret _ => true | _ => false end.
Definition waits_for (t : Task) : option (L * bool) := match t_prog t with Acq l w _ => Some (l, w) | _ => None end.

(** A write lock excludes every other holder, a read lock every writer. *)
Definition conflict (w w' : bool) : bool := w || w'.
Definition compatible (l : L) (w : bool) (ts : list Task) : Prop :=
  Forall (fun t => Forall (fun h => h.1 = l -> conflict w h.2 = false) (t_held t)) ts.

(** One step of task [i]. *)
Inductive task_step (s : S) (ts : list Task) : Task -> S -> Task -> Prop :=
| step_acq held l w k : compatible l w ts -> task_step s ts (mkTask held (Acq l w k)) s (mkTask ((l, w) :: held) k)
| step_rel held l w k : task_step s ts (mkTask held (Rel l w k)) s (mkTask (remove_held (l, w) held) k)
| step_act held f k : task_step s ts (mkTask held (Act f k)) (f s) (mkTask held (k s))
| step_loop held n body again k : task_step s ts (mkTask held (Loop n body again k)) s (mkTask held (pass n body again k)).

Inductive world_step : World -> World -> Prop :=
| world_task i s ts t s' t' : ts !! i = Some t -> task_step s ts t s' t' ->
    world_step (mkWorld s ts) (mkWorld s' (<[i := t']> ts)).

Definition initial (s : S) (ps : list Prog) : World := mkWorld s (mkTask [] <$> ps).
Definition all_finished (w : World) : Prop := Forall (fun t => finished t = true) (w_tasks w).
Definition stuck (w : World) : Prop := forall w', ~ world_step w w'.
Definition deadlocked (w : World) : Prop := stuck w /\ ~ all_finished w.
End tasks.
Arguments Prog : clear implicits.
Arguments Task : clear implicits.
Arguments World : clear implicits.

(** ** A task alone *)
Section alone.
Context {S L R : Type} `{EqDecision L}.

Lemma run_alone_finish held (r : VResult R) (s : S) : run_alone (finish (L := L) held r) s = (r, s).
Proof. induction held as [|[l w] held IH]; [done|]. exact IH. Qed.

Lemma run_alone_try {A : Type} held (r : VResult A) (k : A -> Prog S L R) s :
  run_alone (try_ held r k) s = match r with Ok a => run_alone (k a) s | Err e => (Err e, s) | Panic => (Panic, s) end.
Proof. destruct r; [done|apply run_alone_finish..]. Qed.

Lemma run_alone_call {A : Type} held (m : VStM S A) (k : A -> Prog S L R) s :
  run_alone (call_ held m k) s =
    match m s with (Ok a, s') => run_alone (k a) s' | (Err e, s') => (Err e, s') | (Panic, s') => (Panic, s') end.
Proof. cbn. rewrite run_alone_try. by destruct (m s) as [[]]. Qed.

Lemma run_alone_bind (p : Prog S L R) k s :
  run_alone (prog_bind p k) s = let '(r, s') := run_alone p s in run_alone (k r) s'.
Proof.
  revert s. induction p as [r|l w p IH|l w p IH|f p IH|n body _ again p IH]; intros s; cbn; auto.
  destruct (run_alone (body n) s) as [r s']. auto.
Qed.

Lemma finish_loop_free held (r : VResult R) : loop_free (finish (S := S) (L := L) held r).
Proof. induction held as [|[l w] held IH]; [done|]. exact IH. Qed.
Lemma try_loop_free {A : Type} held (r : VResult A) (k : A -> Prog S L R) :
  (forall a, loop_free (k a)) -> loop_free (try_ held r k).
Proof. intros Hk. destruct r; [apply Hk|apply finish_loop_free..]. Qed.
Lemma call_loop_free {A : Type} held (m : VStM S A) (k : A -> Prog S L R) :
  (forall a, loop_free (k a)) -> loop_free (call_ held m k).
Proof. intros Hk s. by apply try_loop_free. Qed.
End alone.

(** ** Lock discipline

    Some locks are only ever read; every other lock that is requested is above all those the
    task holds, but for the ones that are only read. *)
Section discipline.
Context {S L R : Type} `{EqDecision L} (read_only : L -> bool) (rank : L -> nat).

Definition may_acquire (l : L) (w : bool) (held : list (L * bool)) : Prop :=
  if read_only l then w = false
  else Forall (fun h => read_only h.1 = false -> (rank h.1 < rank l)%nat) held.

Fixpoint disciplined (held : list (L * bool)) (p : Prog S L R) : Prop :=
  match p with
  | Ret _ => held = []
  | Acq l w k => may_acquire l w held /\ disciplined ((l, w) :: held) k
  | Rel l w k => (l, w) ∈ held /\ disciplined (remove_held (l, w) held) k
  | Act f k => forall s, disciplined held (k s)
  | Loop _ body _ k => held = [] /\ (forall n, disciplined [] (body n)) /\ forall r, disciplined [] (k r)
  end.

(** A lock that is held is consistent with the other holders. *)
Definition exclusive (ts : list (Task S L R)) : Prop :=
  forall i j t u l w w', ts !! i = Some t -> ts !! j = Some u -> i <> j ->
    (l, w) ∈ t_held t -> (l, w') ∈ t_held u -> conflict w w' = false.
Record tasks_ok (ts : list (Task S L R)) : Prop := {
  ok_exclusive : exclusive ts;
  ok_disciplined : Forall (fun t => disciplined (t_held t) (t_prog t)) ts;
  ok_readers : Forall (fun t => Forall (fun h => read_only h.1 = true -> h.2 = false) (t_held t)) ts
}.

Lemma elem_of_remove_held x y (held : list (L * bool)) : y ∈ remove_held x held -> y ∈ held.
Proof.
  unfold remove_held. destruct (list_find _ held) as [[i z]|]; [|done]. intros Hy.
  rewrite delete_take_drop in Hy. pose proof (subseteq_take i held). pose proof (subseteq_drop (Datatypes.S i) held). set_solver.
Qed.

Lemma finish_disciplined held (r : VResult R) : disciplined held (finish (S := S) held r).
Proof.
  induction held as [|[l w] held IH]; [done|]. cbn. split; [set_solver|].
  unfold remove_held. cbn. by rewrite decide_True.
Qed.

Lemma remove_held_head x (held : list (L * bool)) : remove_held x (x :: held) = held.
Proof. unfold remove_held. cbn. by rewrite decide_True. Qed.

Lemma disciplined_drop l w held (k : Prog S L R) : disciplined held k -> disciplined ((l, w) :: held) (Rel l w k).
Proof. intros Hk. cbn. split; [set_solver|]. by rewrite remove_held_head. Qed.

Lemma try_disciplined {A : Type} held (r : VResult A) (k : A -> Prog S L R) :
  (forall a, r = Ok a -> disciplined held (k a)) -> disciplined held (try_ held r k).
Proof. intros Hk. destruct r; [by apply Hk|apply finish_disciplined..]. Qed.

Lemma call_disciplined {A : Type} held (m : VStM S A) (k : A -> Prog S L R) :
  (forall a, disciplined held (k a)) -> disciplined held (call_ held m k).
Proof. intros Hk s. apply try_disciplined. auto. Qed.

Lemma bind_disciplined held (p : Prog S L R) k :
  disciplined held p -> (forall r, disciplined [] (k r)) -> disciplined held (prog_bind p k).
Proof.
  intros Hp Hk. revert held Hp. induction p as [r|l w p IH|l w p IH|f p IH|n body _ again p IH]; cbn; intros held Hp; [by subst| | | |]; naive_solver.
Qed.

Lemma pass_disciplined n (body : nat -> Prog S L R) again k :
  disciplined [] (Loop n body again k) -> disciplined [] (pass n body again k).
Proof. intros (_ & Hb & Hk). apply bind_disciplined; [done|]. intros r. destruct (again r); [done|apply Hk]. Qed.

Lemma initial_ok s ps : Forall (disciplined []) ps -> tasks_ok (w_tasks (initial s ps)).
Proof.
  intros Hps. split; cbn.
  - intros i j t u l w w' Ht _ _ Hl _. rewrite list_lookup_fmap in Ht. destruct (ps !! i); [|done]. injection Ht as <-.
    by apply elem_of_nil in Hl.
  - by apply Forall_fmap.
  - apply Forall_fmap, Forall_true. intros p. constructor.
Qed.

Lemma task_step_ok s ts i t s' t' :
  tasks_ok ts -> ts !! i = Some t -> task_step s ts t s' t' -> tasks_ok (<[i := t']> ts).
Proof.
  intros [Hex Hd Hr] Hi Hstep. pose proof (Forall_lookup_1 _ _ _ _ Hd Hi) as Hdt. pose proof (Forall_lookup_1 _ _ _ _ Hr Hi) as Hrt.
  assert (forall l w, (l, w) ∈ t_held t' -> (l, w) ∈ t_held t \/ compatible l w ts) as Hnew.
  { destruct Hstep as [held l w k Hc|held l w k|held f k|held n body again k]; cbn; intros l' w'; [|intros ?%elem_of_remove_held| |]; auto.
    intros [[= -> ->]|]%elem_of_cons; auto. }
  split.
  - intros j k u v l w w' Hj Hk Hne Hl Hl'.
    assert (forall j u w w', j <> i -> ts !! j = Some u -> (l, w) ∈ t_held t' -> (l, w') ∈ t_held u -> conflict w w' = false) as Hone.
    { intros j' u' w1 w2 Hji Hu H1 H2. destruct (Hnew l w1 H1) as [H1'|Hc]; [by eapply (Hex i j')|].
      unfold compatible in Hc. rewrite Forall_lookup in Hc. specialize (Hc _ _ Hu). rewrite Forall_forall in Hc. by apply (Hc _ H2). }
    destruct (decide (j = i)) as [->|Hji], (decide (k = i)) as [->|Hki]; [done|..].
    + rewrite list_lookup_insert_ne in Hk by done. rewrite list_lookup_insert_eq in Hj by by eapply lookup_lt_Some.
      injection Hj as <-. by eapply Hone.
    + rewrite list_lookup_insert_ne in Hj by done. rewrite list_lookup_insert_eq in Hk by by eapply lookup_lt_Some.
      injection Hk as <-. unfold conflict. rewrite orb_comm. by eapply Hone.
    + rewrite list_lookup_insert_ne in Hj, Hk by done. by eapply (Hex j k).
  - apply Forall_insert; [done|]. destruct Hstep as [| | |held n body again k]; cbn [t_held t_prog] in *; [by apply Hdt..|].
    pose proof Hdt as (Hheld & _). cbn in Hheld. subst held. by apply pass_disciplined.
  - apply Forall_insert; [done|]. destruct Hstep as [held l w k Hc|held l w k|held f k|]; cbn in *; [| |done|done].
    + constructor; [|done]. cbn. intros Hro. destruct Hdt as [Ha _]. unfold may_acquire in Ha. by rewrite Hro in Ha.
    + apply Forall_forall. intros h Hh%elem_of_remove_held. rewrite Forall_forall in Hrt. by apply Hrt.
Qed.

Lemma world_steps_ok w w' : rtc world_step w w' -> tasks_ok (w_tasks w) -> tasks_ok (w_tasks w').
Proof.
  induction 1 as [w|w w1 w' Hs _ IH]; [done|]. intros Hok. apply IH. destruct Hs as [i s ts t s' t' Hi Ht]. by eapply task_step_ok.
Qed.

(** ** Progress

    A scheduler serves, of the tasks waiting for a lock, the one it put first; whichever that
    is, some task can go on until all have ended. *)
Definition first_waiter (ts : list (Task S L R)) (q : L -> option nat) : Prop :=
  forall i t l w, ts !! i = Some t -> waits_for t = Some (l, w) ->
    exists j u w', q l = Some j /\ ts !! j = Some u /\ waits_for u = Some (l, w').
Definition served (q : L -> option nat) (i : nat) (t : Task S L R) : Prop :=
  match waits_for t with Some (l, _) => q l = Some i | None => True end.

Lemma not_waiting_steps s ts (t : Task S L R) :
  finished t = false -> waits_for t = None -> exists s' t', task_step s ts t s' t'.
Proof. destruct t as [held [r|l w k|l w k|f k|n body again k]]; cbn; try done; intros _ _; eexists _, _; constructor. Qed.

Lemma compatible_waiter_steps s ts (t : Task S L R) l w :
  waits_for t = Some (l, w) -> compatible l w ts -> exists s' t', task_step s ts t s' t'.
Proof. destruct t as [held [r|l' w' k|l' w' k|f k|? ? ? ?]]; cbn; try done. intros [= -> ->] Hc. eexists _, _. by constructor. Qed.

(** Of the locks that tasks wait for, one that is only read can be given at once. *)
Lemma read_only_compatible ts l : tasks_ok ts -> read_only l = true -> compatible l false ts.
Proof.
  intros [_ _ Hr] Hro. unfold compatible. rewrite Forall_lookup in Hr |- *. intros i t Ht. specialize (Hr i t Ht).
  rewrite Forall_forall in Hr |- *. intros h Hh E. apply Hr; [done|]. by rewrite E.
Qed.

Definition can_go (s : S) (ts : list (Task S L R)) (q : L -> option nat) : Prop :=
  exists i t s' t', ts !! i = Some t /\ served q i t /\ task_step s ts t s' t'.

Lemma waiter_disciplined ts i t l w :
  tasks_ok ts -> ts !! i = Some t -> waits_for t = Some (l, w) -> may_acquire l w (t_held t).
Proof.
  intros [_ Hd _] Hi Hw. pose proof (Forall_lookup_1 _ _ _ _ Hd Hi) as Ht. destruct t as [held [r|l' w' k|l' w' k|f k|? ? ? ?]]; try done.
  injection Hw as -> ->. apply Ht.
Qed.

Lemma first_waiter_goes s ts q i t l w :
  first_waiter ts q -> ts !! i = Some t -> waits_for t = Some (l, w) ->
  (forall u j w', ts !! j = Some u -> waits_for u = Some (l, w') -> compatible l w' ts) -> can_go s ts q.
Proof.
  intros Hq Hi Hw Hc. destruct (Hq i t l w Hi Hw) as (j & u & w' & Hj & Hu & Hwu).
  destruct (compatible_waiter_steps s ts u l w' Hwu (Hc _ _ _ Hu Hwu)) as (s' & t' & Hstep).
  exists j, u, s', t'. unfold served. by rewrite Hwu.
Qed.

Lemma read_only_goes s ts q i t l w :
  tasks_ok ts -> first_waiter ts q -> ts !! i = Some t -> waits_for t = Some (l, w) -> read_only l = true -> can_go s ts q.
Proof.
  intros Hok Hq Hi Hw Hro. eapply first_waiter_goes; [done..|]. intros u j w' Hu Hwu.
  pose proof (waiter_disciplined ts j u l w' Hok Hu Hwu) as Ha. unfold may_acquire in Ha. rewrite Hro in Ha. subst.
  by apply read_only_compatible.
Qed.

(** Who keeps a lock from a waiter waits for a lock of a higher rank, or is not waiting. *)
Lemma blocked_above ts l w :
  tasks_ok ts -> read_only l = false -> ~ compatible l w ts ->
  exists k v, ts !! k = Some v /\ finished v = false /\
    (forall l2 w2, waits_for v = Some (l2, w2) -> read_only l2 = false -> (rank l < rank l2)%nat).
Proof.
  intros Hok Hro Hnc. unfold compatible in Hnc. apply not_Forall_Exists, Exists_exists in Hnc as (v & Hv & Hnh); [|apply _].
  apply not_Forall_Exists, Exists_exists in Hnh as ([l' w'] & Hh & Hbad); [|apply _]. cbn in Hbad.
  assert (l' = l) as -> by (destruct (decide (l' = l)); [done|naive_solver]).
  apply list_elem_of_lookup in Hv as [k Hk]. exists k, v. split; [done|]. split.
  - pose proof (Forall_lookup_1 _ _ _ _ (ok_disciplined _ Hok) Hk) as Hd. destruct v as [held [r|? ? ?|? ? ?|? ?|? ? ? ?]]; try done.
    cbn in Hd, Hh. subst held. by apply elem_of_nil in Hh.
  - intros l2 w2 Hw Hro2. pose proof (waiter_disciplined ts k v l2 w2 Hok Hk Hw) as Ha. unfold may_acquire in Ha.
    rewrite Hro2, Forall_forall in Ha. by apply (Ha (l, w')).
Qed.

Definition waited_rank (t : Task S L R) : nat := match waits_for t with Some (l, _) => rank l | None => 0 end.

Lemma waited_rank_bound ts i t l w :
  ts !! i = Some t -> waits_for t = Some (l, w) -> (rank l <= max_list (waited_rank <$> ts))%nat.
Proof.
  intros Hi Hw. apply max_list_elem_of_le. apply list_elem_of_fmap. exists t. unfold waited_rank. rewrite Hw.
  split; [done|]. by eapply list_elem_of_lookup_2.
Qed.

Lemma ordered_progress s ts q :
  tasks_ok ts -> first_waiter ts q -> ~ Forall (fun t => finished t = true) ts -> can_go s ts q.
Proof.
  intros Hok Hq Hnf.
  assert (forall i t, ts !! i = Some t -> finished t = false -> waits_for t = None -> can_go s ts q) as Hfree.
  { intros i t Hi Hf Hw. destruct (not_waiting_steps s ts t Hf Hw) as (s' & t' & Hst). exists i, t, s', t'.
    unfold served. by rewrite Hw. }
  assert (forall n i t l w, ts !! i = Some t -> waits_for t = Some (l, w) ->
            (max_list (waited_rank <$> ts) - rank l <= n)%nat -> can_go s ts q) as Hwait.
  { induction n as [n IH] using lt_wf_ind. intros i t l w Hi Hw Hn.
    destruct (read_only l) eqn:Hro; [by eapply read_only_goes|].
    destruct (Hq i t l w Hi Hw) as (j & u & w' & Hj & Hu & Hwu).
    destruct (decide (compatible l w' ts)) as [Hc|Hnc].
    - destruct (compatible_waiter_steps s ts u l w' Hwu Hc) as (s' & t' & Hst). exists j, u, s', t'. unfold served. by rewrite Hwu.
    - destruct (blocked_above ts l w' Hok Hro Hnc) as (k & v & Hk & Hf & Habove).
      destruct (waits_for v) as [[l2 w2]|] eqn:Hw2; [|by eapply Hfree].
      destruct (read_only l2) eqn:Hro2; [by eapply read_only_goes|]. specialize (Habove _ _ eq_refl Hro2).
      pose proof (waited_rank_bound ts k v l2 w2 Hk Hw2). pose proof (waited_rank_bound ts i t l w Hi Hw).
      apply (IH (max_list (waited_rank <$> ts) - rank l2)%nat ltac:(lia) k v l2 w2); [done..|lia]. }
  apply not_Forall_Exists, Exists_exists in Hnf as (t & Ht & Hf); [|apply _]. apply not_true_is_false in Hf.
  apply list_elem_of_lookup in Ht as [i Hi]. destruct (waits_for t) as [[l w]|] eqn:Hw; [by eapply Hwait|by eapply Hfree].
Qed.

(** Some queue order there always is. *)
Lemma some_first_waiter (ts : list (Task S L R)) : exists q, first_waiter ts q.
Proof.
  exists (fun l => fst <$> list_find (fun t => fst <$> waits_for t = Some l) ts). intros i t l w Hi Hw.
  destruct (list_find (fun t => fst <$> waits_for t = Some l) ts) as [[j u]|] eqn:Hf.
  - exists j, u. apply list_find_Some in Hf as (Hj & Hu & _). destruct (waits_for u) as [[l' w']|] eqn:E; [|done].
    injection Hu as ->. by exists w'.
  - apply list_find_None in Hf. pose proof (Forall_lookup_1 _ _ _ _ Hf Hi) as Hn. cbn in Hn. by rewrite Hw in Hn.
Qed.

Lemma ordered_steps w : tasks_ok (w_tasks w) -> ~ all_finished w -> exists w', world_step w w'.
Proof.
  destruct w as [s ts]. cbn. intros Hok Hnf. destruct (some_first_waiter ts) as [q Hq].
  destruct (ordered_progress s ts q Hok Hq Hnf) as (i & t & s' & t' & Hi & _ & Hst). eexists. by econstructor.
Qed.
End discipline.

(** ** Runs that end

    A loop ends once [P] holds of the state, when every pass that starts then gives a result for
    which the loop is not run again. *)
Section termination.
Context {S L R : Type} `{EqDecision L} (P : S -> Prop).

(** Every result of a program that runs while [P] holds satisfies [Q]. *)
Fixpoint yields (Q : VResult R -> Prop) (p : Prog S L R) : Prop :=
  match p with
  | Ret r => Q r
  | Acq _ _ k => yields Q k
  | Rel _ _ k => yields Q k
  | Act _ k => forall s, P s -> yields Q (k s)
  | Loop _ _ _ k => forall r, yields Q (k r)
  end.

Fixpoint returns (p : Prog S L R) : Prop :=
  match p with
  | Ret _ => True
  | Acq _ _ k => returns k
  | Rel _ _ k => returns k
  | Act _ k => forall s, returns (k s)
  | Loop _ body again k =>
      (forall n, returns (body n) /\ yields (fun r => again r = false) (body n)) /\ forall r, returns (k r)
  end.

Lemma loop_free_returns p : loop_free p -> returns p.
Proof. induction p; cbn; naive_solver. Qed.

Lemma bind_returns p k : returns p -> (forall r, returns (k r)) -> returns (prog_bind p k).
Proof. intros Hp Hk. induction p as [r|l w p IH|l w p IH|f p IH|n body _ again p IH]; cbn in *; naive_solver. Qed.

Lemma pass_returns n body again k : returns (Loop n body again k) -> returns (pass n body again k).
Proof. intros [Hb Hk]. apply bind_returns; [apply Hb|]. intros r. destruct (again r); [done|apply Hk]. Qed.

(** What a task goes on with after a step from a state with [P]. *)
Inductive next_prog : Prog S L R -> Prog S L R -> Prop :=
| next_acq l w k : next_prog k (Acq l w k)
| next_rel l w k : next_prog k (Rel l w k)
| next_act f k s : P s -> next_prog (k s) (Act f k)
| next_loop n body again k : next_prog (pass n body again k) (Loop n body again k).

Lemma bind_acc p Q k :
  returns p -> yields Q p -> (forall r, Q r -> Acc next_prog (k r)) -> Acc next_prog (prog_bind p k).
Proof.
  revert Q k. induction p as [r|l w p IH|l w p IH|f p IH|n body IHb again p IH]; intros Q k Hp Hy Hk; cbn in *; [by apply Hk|..];
    constructor; intros p' Hn; inversion Hn as [| |? ? s Hs|]; subst; [by apply (IH Q)..|by apply (IH s Q); auto|].
  destruct Hp as [Hb Hp]. destruct (Hb n) as [Hb1 Hb2]. apply (IHb n _ _ Hb1 Hb2). intros r Hr. cbn in Hr. rewrite Hr.
  apply (IH r Q k); [apply Hp|apply Hy|done].
Qed.

Lemma returns_acc p : returns p -> Acc next_prog p.
Proof.
  induction p as [r|l w p IH|l w p IH|f p IH|n body _ again p IH]; intros Hp; constructor; intros p' Hn; inversion Hn; subst; cbn in Hp;
    try naive_solver.
  destruct Hp as [Hb Hp]. destruct (Hb n) as [Hb1 Hb2]. apply (bind_acc _ _ _ Hb1 Hb2). intros r Hr. cbn in Hr. rewrite Hr. by apply IH.
Qed.

(** One task of a list is replaced by what it goes on with. *)
Definition next_list (l' l : list (Task S L R)) : Prop :=
  exists i t t', l !! i = Some t /\ next_prog (t_prog t') (t_prog t) /\ l' = <[i := t']> l.

Lemma next_list_cons p l :
  Acc next_prog p -> Acc next_list l -> forall t, t_prog t = p -> Acc next_list (t :: l).
Proof.
  intros Hp. revert l. induction Hp as [p _ IHp]. intros l Hl. induction Hl as [l Hl IHl]. intros t <-.
  constructor. intros l' (i & u & u' & Hi & Hu & ->). destruct i as [|i]; cbn in *.
  - injection Hi as ->. by apply (IHp (t_prog u') Hu l (Acc_intro l Hl)).
  - apply (IHl (<[i := u']> l)); [|done]. by exists i, u, u'.
Qed.

Lemma next_list_acc l : Forall (fun t => returns (t_prog t)) l -> Acc next_list l.
Proof.
  induction 1 as [|t l Ht _ IH].
  - constructor. intros l' (i & t & t' & Hi & _). done.
  - eapply next_list_cons; [by apply returns_acc|done|done].
Qed.

Lemma world_step_next s ts s' ts' : P s -> world_step (mkWorld s ts) (mkWorld s' ts') -> next_list ts' ts.
Proof.
  intros HP. inversion 1 as [i s0 ts0 t s1 t' Hi Ht]; subst. exists i, t, t'. split; [done|]. split; [|done]. destruct Ht; by constructor.
Qed.

Lemma world_step_returns w w' :
  world_step w w' -> Forall (fun t => returns (t_prog t)) (w_tasks w) -> Forall (fun t => returns (t_prog t)) (w_tasks w').
Proof.
  intros [i s ts t s' t' Hi Ht] Hts. pose proof (Forall_lookup_1 _ _ _ _ Hts Hi) as Hr. cbn in *. apply Forall_insert; [done|].
  destruct Ht; cbn [t_prog] in *; [by apply Hr..|by apply pass_returns].
Qed.

Lemma world_steps_return w w' :
  rtc world_step w w' -> Forall (fun t => returns (t_prog t)) (w_tasks w) -> Forall (fun t => returns (t_prog t)) (w_tasks w').
Proof. induction 1; [done|]. eauto using world_step_returns. Qed.

(** A run that keeps [P] can go on only finitely often. *)
Lemma world_acc (J : World S L R -> Prop) w :
  (forall w w', J w -> world_step w w' -> J w') -> (forall w, J w -> P (w_state w)) ->
  Forall (fun t => returns (t_prog t)) (w_tasks w) -> J w -> Acc (fun w' w => world_step w w') w.
Proof.
  intros HJ HP. destruct w as [s ts]. cbn [w_tasks]. intros Hts. pose proof (next_list_acc ts Hts) as Hacc.
  revert s Hts. induction Hacc as [ts _ IH]. intros s Hts Hw. constructor.
  intros [s' ts'] Hs. assert (next_list ts' ts) as Hn by (eapply world_step_next; [by apply (HP _ Hw)|done]).
  apply IH; [done| |by eapply HJ]. by apply (world_step_returns _ _ Hs).
Qed.

(** A run that can go on until all tasks have ended does so. *)
Lemma runs_end (J : World S L R -> Prop) w :
  (forall w w', J w -> world_step w w' -> J w') -> (forall w, J w -> P (w_state w)) ->
  (forall w, J w -> ~ all_finished w -> exists w', world_step w w') ->
  Forall (fun t => returns (t_prog t)) (w_tasks w) -> J w -> exists w', rtc world_step w w' /\ all_finished w' /\ J w'.
Proof.
  intros Hkeep HP Hgo Hts HJ. pose proof (world_acc J w Hkeep HP Hts HJ) as Hacc. clear Hts.
  induction Hacc as [w _ IH]. destruct (decide (Forall (fun t => finished t = true) (w_tasks w))) as [Hf|Hnf]; [by exists w|].
  destruct (Hgo _ HJ Hnf) as [w1 Hs]. destruct (IH w1 Hs (Hkeep _ _ HJ Hs)) as (w' & Hr & Hf & HJ'). exists w'. split; [by eapply rtc_l|done].
Qed.
End termination.

(** Two tasks of which each holds, not only to read, what the other waits for. *)
Lemma inverted_locks_block {S L R : Type} `{EqDecision L} (a b : L) (s : S) (k k' : Prog S L R) :
  deadlocked (mkWorld s [mkTask [(a, true)] (Acq b true k); mkTask [(b, false)] (Acq a false k')]).
Proof.
  split.
  - intros w' Hs. inversion Hs as [j s0 ts0 t s1 t' Hj Ht]; subst.
    destruct j as [|[|j]]; [..|by destruct j]; injection Hj as <-; inversion Ht as [? ? ? ? Hc| | |]; subst.
    + inversion_clear Hc as [|? ? _ Hc']. inversion_clear Hc' as [|? ? Hh _]. inversion_clear Hh as [|? ? Hb _]. by specialize (Hb eq_refl).
    + inversion_clear Hc as [|? ? Hh _]. inversion_clear Hh as [|? ? Hb _]. by specialize (Hb eq_refl).
  - intros Hf. inversion_clear Hf as [|? ? Hfin _]. done.
Qed.

(** ** A task with no others around it runs as if there were no locks *)
Section alone_in_world.
Context {S L R : Type} `{EqDecision L} (read_only : L -> bool) (rank : L -> nat).

Definition alone_with (r : VResult R * S) (w : World S L R) : Prop :=
  tasks_ok read_only rank (w_tasks w) /\
  exists t, w_tasks w = [t] /\ loop_free (t_prog t) /\ run_alone (t_prog t) (w_state w) = r.

Lemma alone_with_step r w w' : alone_with r w -> world_step w w' -> alone_with r w'.
Proof.
  intros [Hok (t & Ht & Hf & Hr)] Hs. inversion Hs as [i s ts t0 s' t' Hi Hst]; subst. cbn in *. subst ts.
  split; [by eapply task_step_ok|]. exists t'. destruct i as [|i]; [|by destruct i]. injection Hi as ->. split; [done|].
  revert Hf. destruct Hst; cbn; intros Hf; done || by split.
Qed.

Lemma alone_runs s (p : Prog S L R) r s' :
  disciplined read_only rank [] p -> loop_free p -> run_alone p s = (r, s') ->
  rtc world_step (initial s [p]) (mkWorld s' [mkTask [] (Ret r)]).
Proof.
  intros Hd Hlf Hr. destruct (runs_end (fun _ => True) (alone_with (r, s')) (initial s [p])) as ([s1 ts] & Hrun & Hf & Hok & t & Ht & _ & Ha).
  - intros w w'. apply alone_with_step.
  - done.
  - intros w [Hok _]. by eapply ordered_steps.
  - repeat constructor. by apply loop_free_returns.
  - split; [apply initial_ok; by repeat constructor|]. by exists (mkTask [] p).
  - cbn in Ht, Ha. subst ts. pose proof (Forall_inv (ok_disciplined _ _ _ Hok)) as Hdt. pose proof (Forall_inv Hf) as Hft.
    destruct t as [held [r'|? ? ?|? ? ?|? ?|? ? ? ?]]; try done. cbn in *. subst held. by injection Ha as -> ->.
Qed.
End alone_in_world.

(** ** Invariants of the state *)
Section state_invariants.
Context {S L R : Type} `{EqDecision L} (I : S -> Prop).

Fixpoint keeps (p : Prog S L R) : Prop :=
  match p with
  | Ret _ => True
  | Acq _ _ k => keeps k
  | Rel _ _ k => keeps k
  | Act f k => forall s, I s -> I (f s) /\ keeps (k s)
  | Loop _ body _ k => (forall n, keeps (body n)) /\ forall r, keeps (k r)
  end.

Lemma finish_keeps held (r : VResult R) : keeps (finish held r).
Proof. induction held as [|[l w] held IH]; [done|]. exact IH. Qed.

Lemma try_keeps {A : Type} held (r : VResult A) (k : A -> Prog S L R) :
  (forall a, r = Ok a -> keeps (k a)) -> keeps (try_ held r k).
Proof. intros Hk. destruct r; [by apply Hk|apply finish_keeps..]. Qed.

Lemma call_keeps {A : Type} held (m : VStM S A) (k : A -> Prog S L R) :
  (forall s, I s -> I (m s).2) -> (forall a, keeps (k a)) -> keeps (call_ held m k).
Proof. intros Hm Hk s Hs. split; [by apply Hm|]. apply try_keeps. auto. Qed.

Lemma look_keeps (k : S -> Prog S L R) : (forall s, I s -> keeps (k s)) -> keeps (look k).
Proof. intros Hk s Hs. auto. Qed.

Lemma bind_keeps (p : Prog S L R) k : keeps p -> (forall r, keeps (k r)) -> keeps (prog_bind p k).
Proof. intros Hp Hk. induction p as [r|l w p IH|l w p IH|f p IH|n body _ again p IH]; cbn in *; naive_solver. Qed.

Lemma pass_keeps n (body : nat -> Prog S L R) again k : keeps (Loop n body again k) -> keeps (pass n body again k).
Proof. intros [Hb Hk]. apply bind_keeps; [apply Hb|]. intros r. destruct (again r); [done|apply Hk]. Qed.

Definition world_keeps (w : World S L R) : Prop := I (w_state w) /\ Forall (fun t => keeps (t_prog t)) (w_tasks w).

Lemma world_step_keeps w w' : world_step w w' -> world_keeps w -> world_keeps w'.
Proof.
  intros [i s ts t s' t' Hi Ht] [Hs Hts]. pose proof (Forall_lookup_1 _ _ _ _ Hts Hi) as Hk. cbn in *.
  assert (I s' /\ keeps (t_prog t')) as [Hs' Ht'].
  { destruct Ht; [cbn in *; naive_solver..|]. split; [done|]. by apply pass_keeps. }
  split; [done|]. cbn. by apply Forall_insert.
Qed.

Lemma world_steps_keep w w' : rtc world_step w w' -> world_keeps w -> world_keeps w'.
Proof. induction 1; [done|]. eauto using world_step_keeps. Qed.

Lemma initial_keeps s (ps : list (Prog S L R)) : I s -> Forall keeps ps -> world_keeps (initial s ps).
Proof. intros Hs Hps. split; [done|]. cbn. by apply Forall_fmap. Qed.

Lemma world_steps_tasks_keep w w' :
  rtc world_step w w' -> Forall (fun t => keeps (t_prog t)) (w_tasks w) -> I (w_state w) -> world_keeps w'.
Proof. intros Hr Hts Hs. by eapply world_steps_keep. Qed.
End state_invariants.

(** Whatever the state, the programs keep the property of those that keep an invariant. *)
Section any_state.
Context {S L R : Type} `{EqDecision L} (I : S -> Prop).

(** As [keeps], but also from states without the invariant. *)
Fixpoint maintains (p : Prog S L R) : Prop :=
  match p with
  | Ret _ => True
  | Acq _ _ k => maintains k
  | Rel _ _ k => maintains k
  | Act f k => forall s, (I s -> I (f s)) /\ maintains (k s)
  | Loop _ body _ k => (forall n, maintains (body n)) /\ forall r, maintains (k r)
  end.

Lemma maintains_keeps p : maintains p -> keeps I p.
Proof. induction p; cbn; naive_solver. Qed.

Lemma finish_maintains held (r : VResult R) : maintains (finish held r).
Proof. induction held as [|[l w] held IH]; [done|]. exact IH. Qed.

Lemma try_maintains {A : Type} held (r : VResult A) (k : A -> Prog S L R) :
  (forall a, maintains (k a)) -> maintains (try_ held r k).
Proof. intros Hk. destruct r; [by apply Hk|apply finish_maintains..]. Qed.

Lemma call_maintains {A : Type} held (m : VStM S A) (k : A -> Prog S L R) :
  (forall s, I s -> I (m s).2) -> (forall a, maintains (k a)) -> maintains (call_ held m k).
Proof. intros Hm Hk s. split; [by apply Hm|]. by apply try_maintains. Qed.

Lemma look_maintains (k : S -> Prog S L R) : (forall s, maintains (k s)) -> maintains (look k).
Proof. intros Hk s. auto. Qed.

Lemma bind_maintains (p : Prog S L R) k : maintains p -> (forall r, maintains (k r)) -> maintains (prog_bind p k).
Proof. intros Hp Hk. induction p as [r|l w p IH|l w p IH|f p IH|n body _ again p IH]; cbn in *; naive_solver. Qed.

Lemma world_step_maintains w w' :
  world_step w w' -> Forall (fun t => maintains (t_prog t)) (w_tasks w) -> Forall (fun t => maintains (t_prog t)) (w_tasks w').
Proof.
  intros [i s ts t s' t' Hi Ht] Hts. pose proof (Forall_lookup_1 _ _ _ _ Hts Hi) as Hm. cbn in *. apply Forall_insert; [done|].
  destruct Ht as [| | |held n body again k]; cbn [t_prog] in *; [by apply Hm..|]. destruct Hm as [Hb Hk].
  apply bind_maintains; [apply Hb|]. intros r. destruct (again r); [done|apply Hk].
Qed.

Lemma world_steps_maintain w w' :
  rtc world_step w w' -> Forall (fun t => maintains (t_prog t)) (w_tasks w) -> Forall (fun t => maintains (t_prog t)) (w_tasks w').
Proof. induction 1; [done|]. eauto using world_step_maintains. Qed.
End any_state.

(** Tasks that take their locks in order never deadlock; and once the state satisfies a property
    that they keep and that makes their loops end, it stays so, every run is finite and one that
    cannot go on has all of them returned. *)
Lemma ordered_methods {S L R : Type} `{EqDecision L} (read_only : L -> bool) (rank : L -> nat) (P : S -> Prop) (s : S)
    (ps : list (Prog S L R)) w :
  Forall (fun p => disciplined read_only rank [] p /\ maintains P p /\ returns P p) ps -> rtc world_step (initial s ps) w ->
  ~ deadlocked w /\
  (forall q, first_waiter (w_tasks w) q -> ~ all_finished w -> can_go (w_state w) (w_tasks w) q) /\
  (P (w_state w) -> Acc (fun w' w => world_step w w') w /\
     forall w', rtc world_step w w' -> P (w_state w') /\ (stuck w' -> all_finished w')).
Proof.
  intros Hps Hr. apply Forall_and in Hps as [Hd [Hm Hret]%Forall_and].
  assert (forall w', rtc world_step (initial s ps) w' -> tasks_ok read_only rank (w_tasks w')) as Hok
    by (intros w' Hr'; by eapply world_steps_ok, initial_ok).
  assert (forall w', rtc world_step (initial s ps) w' -> ~ deadlocked w') as Hno.
  { intros w' Hr' [Hst Hnf]. destruct (ordered_steps _ _ w' (Hok w' Hr') Hnf) as [w'' Hs]. by apply (Hst w''). }
  assert (Forall (fun t => maintains P (t_prog t)) (w_tasks w)) as Hmw.
  { eapply world_steps_maintain; [done|]. cbn. by apply Forall_fmap. }
  split_and!; [by apply Hno|intros q Hq Hnf; eapply ordered_progress; eauto|]. intros HP. split.
  - apply (world_acc P (world_keeps P)).
    + intros w1 w2 Hk Hs. by eapply world_step_keeps.
    + by intros w1 [? _].
    + eapply world_steps_return; [done|]. cbn. by apply Forall_fmap.
    + split; [done|]. eapply Forall_impl; [done|]. intros t. apply maintains_keeps.
  - intros w' Hw'. split.
    + assert (world_keeps P w') as [? _]; [|done]. eapply world_steps_keep; [done|]. split; [done|].
      eapply Forall_impl; [done|]. intros t. apply maintains_keeps.
    + intros Hst. destruct (decide (Forall (fun t => finished t = true) (w_tasks w'))) as [Hf|Hnf]; [done|].
      destruct (Hno w'); [by etrans|done].
Qed.

(** ** Balances

    A task may owe the state something while it runs (a block was appended and is not counted
    yet); a task that has ended owes nothing.  The balance of the state and of what the tasks
    owe together does not change, modulo [m]. *)
Section balance.
Context {S L R : Type} `{EqDecision L} (mu : S -> Z) (m : Z).

Fixpoint owes (n : Z) (p : Prog S L R) : Prop :=
  match p with
  | Ret _ => (n mod m = 0)%Z
  | Acq _ _ k => owes n k
  | Rel _ _ k => owes n k
  | Act f k => forall s, owes (n + mu s - mu (f s))%Z (k s)
  | Loop _ body _ k => (n mod m = 0)%Z /\ (forall i, owes 0 (body i)) /\ forall r, owes 0 (k r)
  end.

Lemma owes_mod n n' (p : Prog S L R) : (n mod m = n' mod m)%Z -> owes n p -> owes n' p.
Proof.
  revert n n'. induction p as [r|l w k IH|l w k IH|f k IH|i body _ again k _]; cbn; intros n n' E;
    [congruence|by apply IH|by apply IH| |intros (Hn & Hb & Hk); split; [congruence|done]].
  intros Hk s. eapply (IH s); [|apply Hk]. unfold Z.sub. by rewrite <- !Z.add_assoc, Zplus_mod, E, <- Zplus_mod.
Qed.

Lemma finish_owes held (r : VResult R) : owes 0 (finish held r).
Proof. induction held as [|[l w] held IH]; [by destruct m|]. exact IH. Qed.

Lemma try_owes {A : Type} n held (r : VResult A) (k : A -> Prog S L R) :
  (forall a, r = Ok a -> owes n (k a)) -> (is_ok r = false -> n mod m = 0)%Z -> owes n (try_ held r k).
Proof.
  intros Hk Hn. destruct r; [by apply Hk|..]; (eapply owes_mod; [|apply finish_owes]); rewrite Hn by done; by destruct m.
Qed.

(** A call that leaves the balance as it is. *)
Lemma call_owes {A : Type} held (c : VStM S A) (k : A -> Prog S L R) :
  (forall s, mu (c s).2 = mu s) -> (forall a, owes 0 (k a)) -> owes 0 (call_ held c k).
Proof. intros Hc Hk s. rewrite Hc. replace (0 + mu s - mu s)%Z with 0%Z by lia. apply try_owes; [auto|]. by destruct m. Qed.

Lemma look_owes n (k : S -> Prog S L R) : (forall s, owes n (k s)) -> owes n (look k).
Proof. intros Hk s. replace (n + mu s - mu s)%Z with n by lia. done. Qed.

Lemma bind_owes n (p : Prog S L R) k : owes n p -> (forall r, owes 0 (k r)) -> owes n (prog_bind p k).
Proof.
  intros Hp Hk. revert n Hp. induction p as [r|l w p IH|l w p IH|f p IH|i body _ again p IH]; cbn; intros n Hp; auto.
  - eapply owes_mod; [|apply Hk]. rewrite Hp. by destruct m.
  - destruct Hp as (Hn & Hb & Hp). auto.
Qed.

Lemma pass_owes n i (body : nat -> Prog S L R) again k : owes n (Loop i body again k) -> owes n (pass i body again k).
Proof.
  intros (Hn & Hb & Hk). eapply owes_mod; [|apply (bind_owes 0 _ _ (Hb i))]; [rewrite Hn; by destruct m|].
  intros r. destruct (again r); [|apply Hk]. split; [by destruct m|done].
Qed.

Definition balanced (K : Z) (w : World S L R) : Prop :=
  exists ns, Forall2 (fun n t => owes n (t_prog t)) ns (w_tasks w) /\ (mu (w_state w) + foldr Z.add 0 ns = K)%Z.

Lemma sum_insert ns i n n' : ns !! i = Some n -> foldr Z.add 0%Z (<[i := n']> ns) = (foldr Z.add 0 ns + n' - n)%Z.
Proof.
  revert i. induction ns as [|x ns IH]; intros i Hi; [done|]. destruct i as [|i]; cbn in Hi; [injection Hi as ->; cbn; lia|].
  etrans; [apply (f_equal (Z.add x) (IH i Hi))|]. cbn. lia.
Qed.

Lemma world_step_balanced K w w' : world_step w w' -> balanced K w -> balanced K w'.
Proof.
  intros [i s ts t s' t' Hi Ht] (ns & Hns & HK). cbn in *.
  destruct (Forall2_lookup_r _ _ _ _ _ Hns Hi) as (n & Hn & Ho).
  assert (owes (n + mu s - mu s') (t_prog t')) as Ho'.
  { destruct Ht as [| | |held i' body again k]; [..|replace (n + mu s - mu s)%Z with n by lia; by apply pass_owes];
      cbn in *; [by replace (n + mu s - mu s)%Z with n by lia..|apply Ho]. }
  exists (<[i := (n + mu s - mu s')%Z]> ns). cbn. split; [by apply Forall2_insert|]. rewrite (sum_insert _ _ n) by done. lia.
Qed.

Lemma world_steps_balanced K w w' : rtc world_step w w' -> balanced K w -> balanced K w'.
Proof. induction 1; [done|]. eauto using world_step_balanced. Qed.

Lemma balance_settled s (ps : list (Prog S L R)) w :
  Forall (owes 0) ps -> rtc world_step (initial s ps) w -> all_finished w -> (mu (w_state w) mod m = mu s mod m)%Z.
Proof.
  intros Hps Hr Hf. destruct (world_steps_balanced (mu s) _ w Hr) as (ns & Hns & HK).
  - exists ((fun _ => 0%Z) <$> ps). cbn. split.
    + clear Hr. induction Hps; constructor; auto.
    + clear Hr Hps. induction ps as [|p ps IH]; cbn in *; lia.
  - assert (foldr Z.add 0 ns mod m = 0)%Z as H0.
    { clear HK. unfold all_finished in Hf. induction Hns as [|n t ns ts Hn _ IH]; [by destruct m|]. inversion_clear Hf as [|? ? Ht Hts].
      cbn. rewrite Zplus_mod, IH by done. destruct t as [held [r|? ? ?|? ? ?|? ?|? ? ? ?]]; try done. cbn in Hn. rewrite Hn. by destruct m. }
    rewrite <- HK, Zplus_mod, H0, Z.add_0_r. by rewrite Zmod_mod.
Qed.
End balance.
