(* ===== verification/NodeTasks.v ===== *)
(** * The validator node's methods as concurrent tasks: crates/node/src/validator.rs

    Node.v models each method as it runs without interruption.  Here the same methods are tasks
    with the locks they take, in the order they take them and for as long as their guards live,
    so that they can be interleaved.  The locks inside the network manager are not tasks'
    locks: a call on it is one action.  The file system is part of the shared state because
    [start] opens the storage. *)
From stdpp Require Import prelude gmap strings list.
From Stdlib Require Import Strings.Byte.
From S2P Require Import Prelude Types Merkle Transaction Block Genesis Chain ChainProperties ValidatorSet ProofOfAuthority Crypto CryptoTools Cache Database BlockchainStore Jurisdiction StateStore Snapshot StorageManager Protocol Peer Gossip BlockSync Discovery Transport Network NodeConfig Node Rpc RpcMethods Tasks.

Local Open Scope Z_scope.

(** The locks: the fields of [ValidatorNode] and the chain inside the components. *)
Inductive NodeLock := LRunning | LComponents | LConsensus | LChain | LStartedAt | LStats.
Global Instance NodeLock_eq_dec : EqDecision NodeLock.
Proof. solve_decision. Defined.

(** What the methods return; [RTick] is the end of a pass of a loop that goes on. *)
Inductive Reply :=
| RUnit
| RStatus (s : NodeStatus)
| RStats (s : NodeStats)
| RBool (b : bool)
| RHeight (h : Z)
| RHash (h : BlockHash)
| RChainInfo (i : ChainInfo)
| RBlock (b : RpcBlockResponse)
| RFoundTransaction (tx : option Transaction)
| RFoundBlock (b : option Block)
| RCount (n : Z)
| RTick.
Definition reply {A : Type} (f : A -> Reply) (r : VResult A) : VResult Reply :=
  match r with Ok a => Ok (f a) | Err e => Err e | Panic => Panic end.

Section node_tasks.
Context {T D : Type} `{Tcp T, FileSystem D, RocksCrate, SledCrate, LruCrate, HashCrate, HexCrate, BincodeTx, BincodeStore,
  BincodeElection, ShuffleCrate, ChooseCrate, !Bincode HandshakeInfo, !Bincode PeerList, !Bincode BlockRequest,
  !Bincode BlockResponse, !Bincode Block, !Bincode TransactionRequest, !Bincode TransactionResponse, !Bincode Transaction,
  !Bincode StatusInfo, !Bincode DisconnectReason, !Bincode Gossip.BlockAnnouncement, !Bincode Gossip.TransactionAnnouncement,
  !Bincode Message, Ed25519Crate, AeadCrate, Base64Crate, Argon2Crate}.

Definition NodeWorld : Type := (D * ValidatorNode (T := T))%type.
Definition NodeTask : Type := Prog NodeWorld NodeLock Reply.

(** [self.components.read().await] with [NodeNotInitialized], and the same for [consensus]. *)
Definition read_components (held : list (NodeLock * bool)) (none : NodeTask) (k : NodeTask) : NodeTask :=
  Acq LComponents false (look (fun s => match vn_components s.2 with None => none | Some _ => k end)).
Definition read_consensus (held : list (NodeLock * bool)) (k : ProofOfAuthority -> NodeTask) : NodeTask :=
  Acq LConsensus false (look (fun s =>
    match vn_consensus s.2 with None => finish ((LConsensus, false) :: held) (Err NodeNotInitialized) | Some p => k p end)).

(** The chain behind its own lock; the components are there as long as their guard lives. *)
Definition with_chain (held : list (NodeLock * bool)) (s : NodeWorld) (k : Blockchain -> NodeTask) : NodeTask :=
  match vn_chain s.2 with Some c => k c | None => finish held Panic end.
Definition node_call {A : Type} (held : list (NodeLock * bool)) (m : VStM (ValidatorNode (T := T)) A) (k : A -> NodeTask) : NodeTask :=
  call_ held (on_node m) k.

Definition produce_block_task (now t nonce : Z) : NodeTask :=
  let held1 := [(LComponents, false)] in
  read_components held1 (finish held1 (Err NodeNotInitialized)) (
  read_consensus held1 (fun consensus => look (fun s =>
  let held := (LConsensus, false) :: held1 in
  let our_pubkey := validator_public_key s.2 in
  let key := vn_validator_key s.2 in
  try_ held (ensure (poa_is_validator consensus our_pubkey) (InvalidValidator "Unauthorized validator")) (fun _ =>
  Acq LChain false (look (fun s => with_chain ((LChain, false) :: held) s (fun blockchain =>
  let next_height := u64_add (bc_height blockchain) 1 in
  try_ ((LChain, false) :: held) (get_best_block blockchain) (fun best =>
  Rel LChain false (
  try_ held (get_block_producer consensus next_height) (fun expected_producer =>
  if negb (bool_decide (expected_producer = our_pubkey)) then finish held (Ok RUnit)
  else
  try_ held (make_block now next_height (bh_hash (block_header best)) key) (fun block =>
  try_ held (validate_block consensus block) (fun _ =>
  Acq LChain true (
  node_call ((LChain, true) :: held) (vn_on_components (on_chain (add_block block))) (fun _ =>
  Rel LChain true (
  try_ held (Message_new_block t nonce block) (fun message =>
  node_call held (vn_on_components (on_network (broadcast t message))) (fun _ =>
  Acq LStats true (
  node_call ((LStats, true) :: held) (modify (fun v => vn_set_stats (count_produced (vn_stats v)) v)) (fun _ =>
  finish ((LStats, true) :: held) (Ok RUnit)))))))))))))))))))).

Definition handle_new_block_task (block : Block) : NodeTask :=
  let held1 := [(LComponents, false)] in
  read_components held1 (finish held1 (Err NodeNotInitialized)) (
  read_consensus held1 (fun consensus =>
  let held := (LConsensus, false) :: held1 in
  try_ held (ensure (poa_is_validator consensus (bh_validator (block_header block))) (InvalidValidator "Unauthorized validator")) (fun _ =>
  try_ held (validate_block consensus block) (fun _ =>
  let heldc := (LChain, true) :: held in
  Acq LChain true (
  node_call heldc (vn_on_components (on_chain (add_block block))) (fun _ =>
  Acq LStats true (
  node_call ((LStats, true) :: heldc) (modify (fun v => vn_set_stats (count_validated (vn_stats v)) v)) (fun _ =>
  finish ((LStats, true) :: heldc) (Ok RUnit))))))))).

(** [block_production_loop]: after each tick of its interval the loop looks at [running] and
    either breaks or produces a block; errors are logged, a panic is the end.  The ticks (the
    times and the nonce of each pass) are endless. *)
Definition goes_on (r : VResult Reply) : bool := match r with Ok RTick => true | _ => false end.
Definition production_pass (tick : Z * Z * Z) : NodeTask :=
  let '(now, t, nonce) := tick in
  Acq LRunning false (look (fun s => Rel LRunning false (
    if vn_running s.2 then
      prog_bind (produce_block_task now t nonce) (fun r => Ret (match r with Panic => Panic | _ => Ok RTick end))
    else Ret (Ok RUnit)))).
Definition production_loop_task (ticks : nat -> Z * Z * Z) : NodeTask :=
  Loop 0 (fun n => production_pass (ticks n)) goes_on Ret.

Definition stop_task : NodeTask :=
  let held := [(LRunning, true)] in
  Acq LRunning true (look (fun s =>
  try_ held (ensure (vn_running s.2) NodeNotRunning) (fun _ =>
  node_call held (modify (fun v => vn_set_running false (vn_started_at v) v)) (fun _ =>
  let held := (LComponents, false) :: held in
  read_components held (finish held (Ok RUnit)) (
  node_call held (vn_on_components (on_network network_stop)) (fun _ => finish held (Ok RUnit))))))).

(** [status]: the guard of [components] lives to the end of the method, and the one of
    [running] a little longer. *)
Definition status_task (now now' : Z) : NodeTask :=
  let rest (current : Z * BlockHash * Z * bool) : NodeTask :=
    let '(height, hash, peers, syncing) := current in
    Acq LStartedAt false (look (fun s => Rel LStartedAt false (
    let started_at := vn_started_at s.2 in
    Acq LRunning false (look (fun s =>
    Rel LComponents false (Rel LRunning false (
    Ret (Ok (RStatus (mkNodeStatus NValidator (vn_running s.2) syncing height hash peers (uptime now' started_at) started_at)))))))))) in
  Acq LComponents false (look (fun s =>
  match vn_components s.2 with
  | None => rest (0, BlockHash_zero, 0, false)
  | Some _ =>
      Acq LChain false (look (fun s => with_chain [(LChain, false); (LComponents, false)] s (fun blockchain =>
      Rel LChain false (look (fun s =>
      match vn_components s.2 with
      | Some c => rest (bc_height blockchain, best_hash_of blockchain, network_peer_count (cmp_network c),
                        status_is_syncing (network_sync_status now (cmp_network c)))
      | None => finish [(LComponents, false)] Panic
      end)))))
  end)).

Definition stats_task : NodeTask := Acq LStats false (look (fun s => finish [(LStats, false)] (Ok (RStats (vn_stats s.2))))).
Definition is_running_task : NodeTask := Acq LRunning false (look (fun s => finish [(LRunning, false)] (Ok (RBool (vn_running s.2))))).
Definition is_validator_task : NodeTask :=
  Acq LConsensus false (look (fun s => finish [(LConsensus, false)] (Ok (RBool (validator_is_validator s.2))))).

(** A value read from the chain through the components. *)
Definition chain_value_task (none : Reply) (f : Blockchain -> Reply) : NodeTask :=
  let held := [(LComponents, false)] in
  read_components held (finish held (Ok none)) (
  Acq LChain false (look (fun s => with_chain ((LChain, false) :: held) s (fun c => finish ((LChain, false) :: held) (Ok (f c)))))).
Definition current_height_task : NodeTask := chain_value_task (RHeight 0) (fun c => RHeight (bc_height c)).
Definition best_hash_task : NodeTask := chain_value_task (RHash BlockHash_zero) (fun c => RHash (best_hash_of c)).

(** The queries of the RPC service hold the lock of the chain only.  The service is spawned by
    [start] with the chain and the network of the components, so it exists only with them. *)
Definition rpc_task {A : Type} (wrap : A -> Reply) (f : NodeRpcService (T := T) -> VResult A) : NodeTask :=
  Acq LChain false (look (fun s =>
  match vn_components s.2 with
  | Some c => finish [(LChain, false)] (reply wrap (f (mkNodeRpcService (cmp_blockchain c) (cmp_network c))))
  | None => finish [(LChain, false)] Panic
  end)).
Definition rpc_chain_info_task : NodeTask := rpc_task RChainInfo nrs_chain_info.
Definition rpc_block_task (height : Z) : NodeTask := rpc_task RBlock (nrs_get_block_by_height height).

(** [start]: [initialize] takes the write locks of the components and of the consensus while
    [running] is held for writing. *)
Definition open_node (i : NodeInputs) : VStM NodeWorld (NodeComponents (T := T) * ProofOfAuthority) := fun '(d, v) =>
  match open_components i (vn_config v) d with
  | (Ok (genesis, c), d') =>
      let consensus := ProofOfAuthority_new (ValidatorSet_new (ni_clock i 3) (gb_validators genesis)) in
      match check_validator consensus (validator_public_key v) with
      | Ok _ => (Ok (c, consensus), (d', v))
      | Err e => (Err e, (d', v))
      | Panic => (Panic, (d', v))
      end
  | (Err e, d') => (Err e, (d', v))
  | (Panic, d') => (Panic, (d', v))
  end.
Definition rpc_address (i : NodeInputs) (config : NodeConfig) : VResult unit :=
  if ndc_enable_rpc config then
    rpc_addr ← ok_or (ndc_rpc_addr config) (ConfigError "RPC address required");
    match ni_parse_addr i rpc_addr with
    | inl _ => Ok tt
    | inr e => Err (ConfigError ("Invalid RPC address: " ++ e))
    end
  else Ok tt.
Definition start_task (i : NodeInputs) : NodeTask :=
  let held := [(LRunning, true)] in
  Acq LRunning true (look (fun s =>
  try_ held (ensure (negb (vn_running s.2)) NodeAlreadyRunning) (fun _ =>
  call_ held (open_node i) (fun '(c, consensus) =>
  Acq LComponents true (
  node_call ((LComponents, true) :: held) (modify (vn_set_components c)) (fun _ =>
  Rel LComponents true (
  Acq LConsensus true (
  node_call ((LConsensus, true) :: held) (modify (vn_set_consensus consensus)) (fun _ =>
  Rel LConsensus true (
  let held := (LComponents, false) :: held in
  read_components held (finish held (Err NodeNotInitialized)) (
  node_call held (vn_on_components (on_network (network_start (ni_clock i 4) (ni_random i)))) (fun _ => look (fun s =>
  try_ held (rpc_address i (vn_config s.2)) (fun _ =>
  node_call held (modify (fun v => vn_set_running true (vn_started_at v) v)) (fun _ =>
  Acq LStartedAt true (
  node_call ((LStartedAt, true) :: held) (modify (fun v => vn_set_running (vn_running v) (Some (ni_clock i 5)) v)) (fun _ =>
  Rel LStartedAt true (
  Rel LRunning true (
  finish [(LComponents, false)] (Ok RUnit)))))))))))))))))))).

(** ** A task alone is the method *)

(** What a method of the node does, with its reply, next to the file system. *)
Definition as_task {A : Type} (f : A -> Reply) (m : VStM (ValidatorNode (T := T)) A) (s : NodeWorld) : VResult Reply * NodeWorld :=
  let '(r, v) := m s.2 in (reply f r, (s.1, v)).

Lemma node_call_alone {A : Type} held (m : VStM (ValidatorNode (T := T)) A) (k : A -> NodeTask) d v :
  run_alone (node_call held m k) (d, v) =
    match m v with (Ok a, v') => run_alone (k a) (d, v') | (Err e, v') => (Err e, (d, v')) | (Panic, v') => (Panic, (d, v')) end.
Proof. unfold node_call. rewrite run_alone_call. cbn. by destruct (m v) as [[]]. Qed.

Lemma read_components_alone held none k (s : NodeWorld) :
  run_alone (read_components held none k) s = match vn_components s.2 with None => run_alone none s | Some _ => run_alone k s end.
Proof. cbn. by destruct (vn_components s.2). Qed.

Lemma read_consensus_alone held k (s : NodeWorld) :
  run_alone (read_consensus held k) s =
    match vn_consensus s.2 with None => (Err NodeNotInitialized, s) | Some p => run_alone (k p) s end.
Proof. cbn. destruct (vn_consensus s.2); [done|]. cbn. by rewrite run_alone_finish. Qed.

Lemma look_alone (k : NodeWorld -> NodeTask) s : run_alone (look k) s = run_alone (k s) s.
Proof. done. Qed.
Lemma acq_alone l w (k : NodeTask) s : run_alone (Acq l w k) s = run_alone k s.
Proof. done. Qed.
Lemma rel_alone l w (k : NodeTask) s : run_alone (Rel l w k) s = run_alone k s.
Proof. done. Qed.

Ltac alone := repeat (rewrite ?look_alone, ?acq_alone, ?rel_alone, ?read_components_alone, ?read_consensus_alone,
  ?node_call_alone, ?run_alone_call, ?run_alone_try, ?run_alone_finish; cbn [fst snd]).

#[local] Arguments make_block : simpl never.
#[local] Arguments Message_new_block : simpl never.
#[local] Arguments poa_validate_block : simpl never.
#[local] Arguments vn_on_components : simpl never.
#[local] Arguments get_best_block : simpl never.
#[local] Arguments get_block_producer : simpl never.
#[local] Arguments u64_add : simpl never.

Ltac alone_case e := destruct e as [?| |]; cbn [fst snd reply ensure]; alone; [|done..].

Lemma produce_block_alone now t nonce s :
  run_alone (produce_block_task now t nonce) s = as_task (fun _ => RUnit) (produce_block now t nonce) s.
Proof.
  destruct s as [d v]. unfold produce_block_task, as_task, produce_block. unfold mbind, stM_bind, mret, stM_ret, get, modify, lift. alone.
  unfold vn_initialized. destruct (vn_components v) as [c|] eqn:Ec; [|done]. cbn. alone.
  destruct (vn_consensus v) as [p|]; [|done]. cbn. alone.
  destruct (poa_is_validator p _); [|done]. cbn. alone. unfold with_chain, vn_chain. cbn. rewrite Ec. cbn. alone.
  destruct (get_best_block _) as [best| |]; [|done..]. alone.
  destruct (get_block_producer p _) as [w| |]; [|done..].
  case_bool_decide; cbn [negb]; alone; [|done].
  destruct (make_block _ _ _ _) as [b| |]; [|done..]. alone. unfold validate_block.
  destruct (poa_validate_block p b) as [?| |]; [|done..]. alone.
  destruct (vn_on_components _ v) as [[?| |] v1]; [|done..]. alone.
  destruct (Message_new_block t nonce b) as [m| |]; [|done..]. alone.
  destruct (vn_on_components _ v1) as [[?| |] v2]; [|done..]. by alone.
Qed.

Lemma handle_new_block_alone b s :
  run_alone (handle_new_block_task b) s = as_task (fun _ => RUnit) (validator_handle_new_block b) s.
Proof.
  destruct s as [d v]. unfold handle_new_block_task, as_task, validator_handle_new_block.
  unfold mbind, stM_bind, mret, stM_ret, get, modify, lift. alone.
  unfold vn_initialized. destruct (vn_components v) as [c|]; [|done]. cbn. alone.
  destruct (vn_consensus v) as [p|]; [|done]. cbn. alone. destruct (poa_is_validator p _); [|done]. cbn. alone.
  unfold validate_block. destruct (poa_validate_block p b) as [?| |]; [|done..]. alone.
  destruct (vn_on_components _ v) as [[?| |] v1]; [|done..]. by alone.
Qed.

Lemma stop_alone s : run_alone stop_task s = as_task (fun _ => RUnit) validator_stop s.
Proof.
  destruct s as [d v]. unfold stop_task, as_task, validator_stop. unfold mbind, stM_bind, mret, stM_ret, get, modify, lift. alone.
  destruct (vn_running v); [|done]. cbn [ensure]. alone. cbn [vn_set_running vn_components].
  destruct (vn_components v); alone; [|done]. by destruct (vn_on_components _ _) as [[?| |] v1]; alone.
Qed.

Lemma status_alone now now' s : run_alone (status_task now now') s = (Ok (RStatus (validator_status now now' s.2)), s).
Proof.
  destruct s as [d v]. unfold status_task, validator_status, components_status. alone.
  destruct (vn_components v) as [c|] eqn:Ec; [|by alone]. alone. unfold with_chain, vn_chain. cbn [snd]. rewrite Ec. cbn [fmap option_fmap option_map].
  alone. cbn [snd]. rewrite Ec. by alone.
Qed.

Lemma chain_value_alone none f s :
  run_alone (chain_value_task none f) s = (Ok (match vn_components s.2 with Some c => f (cmp_blockchain c) | None => none end), s).
Proof.
  unfold chain_value_task. alone. destruct (vn_components s.2) as [c|] eqn:Ec; alone; [|done].
  unfold with_chain, vn_chain. rewrite Ec. cbn. by alone.
Qed.

(** A pass of the loop is a [production_step], and the loop goes on exactly when the node was
    running and did not panic. *)
Lemma production_pass_alone tick d v :
  exists v', (run_alone (production_pass tick) (d, v)).2 = (d, v') /\ production_step v v' /\
    (goes_on (run_alone (production_pass tick) (d, v)).1 = true <->
     vn_running v = true /\ (produce_block tick.1.1 tick.1.2 tick.2 v).1 <> Panic).
Proof.
  destruct tick as [[now t] nonce]. unfold production_pass, production_step. alone. cbn [fst snd].
  destruct (vn_running v) eqn:Hr; [|exists v; split_and!; [done..|by split; [|intros []]]]. rewrite run_alone_bind, produce_block_alone.
  unfold as_task. cbn [fst snd]. destruct (produce_block now t nonce v) as [r v1] eqn:E.
  exists v1. split; [by destruct r|]. split; [by exists now, t, nonce, r|]. cbn. destruct r; cbn; naive_solver.
Qed.

Lemma start_alone i s : run_alone (start_task i) s = let '(r, s') := validator_start i s in (reply (fun _ => RUnit) r, s').
Proof.
  destruct s as [d v]. unfold start_task, validator_start, validator_initialize. unfold mbind, stM_bind, mret, stM_ret, get, modify, lift. alone.
  destruct (vn_running v) eqn:Hr; [done|]. cbn [negb ensure]. alone. unfold open_node.
  destruct (open_components i (vn_config v) d) as [[[g c]|e|] d']; [|done..].
  destruct (check_validator _ _) as [?| |]; [|done..]. alone.
  cbn [vn_set_consensus vn_set_components vn_components]. alone. unfold on_node at 1.
  destruct (vn_on_components _ _) as [[?| |] v1] eqn:E1; [|done..]. alone.
  assert (vn_config v1 = vn_config v) as Hcfg.
  { unfold vn_on_components in E1. cbn in E1. destruct (on_network _ _). by injection E1 as _ <-. }
  unfold rpc_address. rewrite Hcfg. destruct (ndc_enable_rpc _); [|by alone].
  destruct (ndc_rpc_addr _) as [addr|]; [|done]. cbn. destruct (ni_parse_addr i addr); by alone.
Qed.

(** ** The methods of a node that was started

    Everything that runs on the node between [start] and the next [start], in any number and
    with any arguments. *)
Inductive node_method : NodeTask -> Prop :=
| m_loop (ticks : nat -> Z * Z * Z) : node_method (production_loop_task ticks)
| m_produce now t nonce : node_method (produce_block_task now t nonce)
| m_handle b : node_method (handle_new_block_task b)
| m_stop : node_method stop_task
| m_status now now' : node_method (status_task now now')
| m_stats : node_method stats_task
| m_running : node_method is_running_task
| m_validator : node_method is_validator_task
| m_height : node_method current_height_task
| m_hash : node_method best_hash_task
| m_rpc_info : node_method rpc_chain_info_task
| m_rpc_block h : node_method (rpc_block_task h).

(** They only read [components] and [consensus], and take the lock of the chain before the one
    of the counters. *)
Definition only_read (l : NodeLock) : bool := match l with LComponents | LConsensus => true | _ => false end.
Definition lock_rank (l : NodeLock) : nat := match l with LStats => 1 | _ => 0 end.
Abbreviation in_order := (disciplined only_read lock_rank).

Lemma acq_in_order l w held (k : NodeTask) :
  may_acquire only_read lock_rank l w held -> in_order ((l, w) :: held) k -> in_order held (Acq l w k).
Proof. done. Qed.
Lemma look_in_order held (k : NodeWorld -> NodeTask) : (forall s, in_order held (k s)) -> in_order held (look k).
Proof. done. Qed.
Lemma rel_in_order l w held held' (k : NodeTask) :
  (l, w) ∈ held -> remove_held (l, w) held = held' -> in_order held' k -> in_order held (Rel l w k).
Proof. intros ? <- ?. done. Qed.

Ltac ordered := repeat lazymatch goal with
  | |- in_order _ (finish _ _) => apply finish_disciplined
  | |- in_order ((?l, ?w) :: _) (Rel ?l ?w _) => apply disciplined_drop
  | |- in_order _ (Rel _ _ _) => eapply rel_in_order; [set_solver|vm_compute; reflexivity|]
  | |- in_order _ (Acq _ _ _) => apply acq_in_order; [unfold may_acquire; cbn; repeat constructor; cbn; intros; lia || done|]
  | |- in_order _ (try_ _ _ _) => apply try_disciplined; intros ? _
  | |- in_order _ (call_ _ _ _) => apply call_disciplined; intros ?
  | |- in_order _ (look _) => apply look_in_order; intros ?
  | |- in_order _ (match ?x with _ => _ end) => destruct x
  | |- in_order _ (Ret _) => done
  | |- _ => progress unfold read_components, read_consensus, with_chain, node_call
  end.

Lemma produce_block_in_order now t nonce : in_order [] (produce_block_task now t nonce).
Proof. unfold produce_block_task. ordered. Qed.
Lemma production_loop_in_order ticks : in_order [] (production_loop_task ticks).
Proof.
  split; [done|]. split; [|done]. intros n. unfold production_pass. destruct (ticks n) as [[now t] nonce]. ordered.
  apply bind_disciplined; [apply produce_block_in_order|]. intros []; done.
Qed.
Lemma node_method_in_order p : node_method p -> in_order [] p.
Proof.
  destruct 1; [apply production_loop_in_order|apply produce_block_in_order|..].
  - unfold handle_new_block_task. ordered.
  - unfold stop_task. ordered.
  - unfold status_task. ordered.
  - unfold stats_task. ordered.
  - unfold is_running_task. ordered.
  - unfold is_validator_task. ordered.
  - unfold current_height_task, chain_value_task. ordered.
  - unfold best_hash_task, chain_value_task. ordered.
  - unfold rpc_chain_info_task, rpc_task. ordered.
  - unfold rpc_block_task, rpc_task. ordered.
Qed.

(** ** What the methods change besides the chain *)
Lemma on_network_keeps {A : Type} (m : VStM NetworkManager A) (v : ValidatorNode (T := T)) :
  let v' := (vn_on_components (on_network m) v).2 in
  vn_chain v' = vn_chain v /\ vn_consensus v' = vn_consensus v /\ vn_running v' = vn_running v.
Proof.
  unfold vn_on_components. destruct (vn_components v) as [c|] eqn:Ec; [|done]. unfold on_network.
  destruct (m (cmp_network c)) as [r n]. cbn. unfold vn_chain. by rewrite Ec.
Qed.

Lemma on_chain_running {A : Type} (m : VStM Blockchain A) (v : ValidatorNode (T := T)) :
  vn_running (vn_on_components (on_chain m) v).2 = vn_running v.
Proof.
  unfold vn_on_components. destruct (vn_components v) as [c|]; [|done]. unfold on_chain. by destruct (m (cmp_blockchain c)).
Qed.

(** ** A stopped node

    No method but [start] sets the running flag, and a pass of the production loop that finds it
    cleared is the last. *)
Definition stopped (s : NodeWorld) : Prop := vn_running s.2 = false.
Abbreviation stays := (maintains stopped).

Lemma node_call_stays {A : Type} held (m : VStM (ValidatorNode (T := T)) A) (k : A -> NodeTask) :
  (forall v, vn_running v = false -> vn_running (m v).2 = false) -> (forall a, stays (k a)) -> stays (node_call held m k).
Proof. intros Hm Hk. apply call_maintains; [|done]. intros [d v] Hs. specialize (Hm v Hs). cbn. by destruct (m v). Qed.

Ltac stay := repeat lazymatch goal with
  | |- stays (finish _ _) => apply finish_maintains
  | |- stays (Rel _ _ _) => cbn [maintains]
  | |- stays (Acq _ _ _) => cbn [maintains]
  | |- stays (try_ _ _ _) => apply try_maintains; intros ?
  | |- stays (node_call _ _ _) => apply node_call_stays;
      [intros ? ?; first [by rewrite (proj2 (proj2 (on_network_keeps _ _))) | by rewrite on_chain_running | done]|intros ?]
  | |- stays (look _) => apply look_maintains; intros ?
  | |- stays (match ?x with _ => _ end) => destruct x
  | |- stays (Ret _) => done
  | |- True => done
  | |- _ => progress unfold read_components, read_consensus, with_chain
  end.
Ltac straight := repeat lazymatch goal with
  | |- loop_free (finish _ _) => apply finish_loop_free
  | |- loop_free (Rel _ _ _) => cbn [loop_free]
  | |- loop_free (Acq _ _ _) => cbn [loop_free]
  | |- loop_free (try_ _ _ _) => apply try_loop_free; intros ?
  | |- loop_free (call_ _ _ _) => apply call_loop_free; intros ?
  | |- loop_free (look _) => cbn [loop_free look]; intros ?
  | |- loop_free (match ?x with _ => _ end) => destruct x
  | |- loop_free (Ret _) => done
  | |- True => done
  | |- _ -> True => done
  | |- _ => progress unfold read_components, read_consensus, with_chain, node_call
  end.

Lemma produce_block_straight now t nonce : loop_free (produce_block_task now t nonce).
Proof. unfold produce_block_task. straight. Qed.
Lemma produce_block_stays now t nonce : stays (produce_block_task now t nonce).
Proof. unfold produce_block_task. stay. Qed.

Lemma production_loop_stays ticks : stays (production_loop_task ticks).
Proof.
  split; [|done]. intros n. unfold production_pass. destruct (ticks n) as [[now t] nonce]. stay.
  apply bind_maintains; [apply produce_block_stays|]. by intros [].
Qed.
Lemma production_loop_returns ticks : returns stopped (production_loop_task ticks).
Proof.
  split; [|done]. intros n. unfold production_pass. destruct (ticks n) as [[now t] nonce]. split.
  - cbn [returns look]. intros s. destruct (vn_running s.2); [|done]. apply bind_returns; [apply loop_free_returns, produce_block_straight|]. by intros [].
  - cbn [yields look]. intros s Hs. unfold stopped in Hs. by rewrite Hs.
Qed.

Lemma node_method_stops p : node_method p -> stays p /\ returns stopped p.
Proof.
  destruct 1; [split; [apply production_loop_stays|apply production_loop_returns]|..]; (split; [|apply loop_free_returns]).
  1,2: apply produce_block_stays || apply produce_block_straight.
  1,2: unfold handle_new_block_task; stay; straight.
  1,2: unfold stop_task; stay; straight.
  1,2: unfold status_task; stay; straight.
  1,2: unfold stats_task; stay; straight.
  1,2: unfold is_running_task; stay; straight.
  1,2: unfold is_validator_task; stay; straight.
  1,2: unfold current_height_task, chain_value_task; stay; straight.
  1,2: unfold best_hash_task, chain_value_task; stay; straight.
  1,2: unfold rpc_chain_info_task, rpc_task; stay; straight.
  1,2: unfold rpc_block_task, rpc_task; stay; straight.
Qed.

(** ** The chain under interleaving *)

(** The chain grows by one block that it accepts. *)
Definition appends (c c' : Blockchain) : Prop := exists b, block_acceptable c b /\ c' = append_block b c.

(** The chain grows by one block that the consensus [p] accepts, from the validator whose turn
    it is at its height. *)
Definition scheduled_append (p : ProofOfAuthority) (c c' : Blockchain) : Prop :=
  exists b, poa_validate_block p b = Ok tt /\ get_block_producer p (block_height b) = Ok (bh_validator (block_header b)) /\
    block_acceptable c b /\ c' = append_block b c.
Definition grown_from (p : ProofOfAuthority) (c : Blockchain) (s : NodeWorld) : Prop :=
  vn_consensus s.2 = Some p /\ exists c', vn_chain s.2 = Some c' /\ rtc (scheduled_append p) c c'.

Lemma validated_on_turn p b :
  poa_validate_block p b = Ok tt -> get_block_producer p (block_height b) = Ok (bh_validator (block_header b)).
Proof.
  unfold poa_validate_block, is_validator_turn_by_height. intros (? & _ & Hb)%bind_Ok. apply bind_Ok in Hb as (turn & Ht & Hb).
  apply bind_Ok in Ht as (e & He & [= <-]). apply bind_Ok in Hb as (? & Hif & _). rewrite He in *. cbn in Hif.
  case_bool_decide; [by subst|done].
Qed.

Lemma add_block_grown p c b d v :
  poa_validate_block p b = Ok tt -> grown_from p c (d, v) -> grown_from p c (d, (vn_on_components (on_chain (add_block b)) v).2).
Proof.
  intros Hb [Hp (c' & Hc & Hr)]. cbn in *. unfold vn_chain in Hc. destruct (vn_components v) as [comps|] eqn:Ec; [|done]. injection Hc as Hc.
  unfold vn_on_components, on_chain. rewrite Ec, Hc. destruct (add_block b c') as [r c1] eqn:Ea. split; [done|]. exists c1. split; [done|].
  destruct (decide (is_ok r = true)) as [([] & ->)%is_ok_true|Hno].
  - apply add_block_Ok in Ea as [Hacc ->]. eapply rtc_r; [done|]. exists b. auto using validated_on_turn.
  - apply add_block_not_Ok in Ea as ->; [done|]. by intros ->.
Qed.

Lemma appended_prefix c c' : rtc appends c c' -> bc_blocks c `prefix_of` bc_blocks c'.
Proof. induction 1 as [|c c1 c' (b & _ & ->) _ IH]; [done|]. etrans; [|done]. by eexists. Qed.

Lemma appended_reachable c c' : rtc appends c c' -> reachable c -> len (bc_blocks c') < 2 ^ 64 -> reachable c'.
Proof.
  induction 1 as [|c c1 c' (b & Hb & ->) Hr IH]; [done|]. intros Hc Hlen. apply IH; [|done].
  eapply reachable_add; [done| |by apply add_block_Ok]. apply reachable_wf in Hc as Hwf. rewrite (wf_height _ Hwf).
  apply appended_prefix, prefix_length in Hr. cbn in Hr. rewrite length_app in Hr. unfold len in *. cbn in Hr. lia.
Qed.

Lemma scheduled_appends p c c' : rtc (scheduled_append p) c c' -> rtc appends c c'.
Proof. apply rtc_subrel. intros c1 c2 (b & _ & _ & Hb & ->). by exists b. Qed.

Section growth.
Context (p : ProofOfAuthority) (c : Blockchain).
Abbreviation grows := (keeps (grown_from p c)).

Lemma node_call_grows {A : Type} held (m : VStM (ValidatorNode (T := T)) A) (k : A -> NodeTask) :
  (forall d v, grown_from p c (d, v) -> grown_from p c (d, (m v).2)) -> (forall a, grows (k a)) -> grows (node_call held m k).
Proof. intros Hm Hk. apply call_keeps; [|done]. intros [d v] Hs. specialize (Hm d v Hs). cbn. by destruct (m v). Qed.

Lemma unchanged_grows {A : Type} (m : VStM (ValidatorNode (T := T)) A) d v :
  vn_chain (m v).2 = vn_chain v -> vn_consensus (m v).2 = vn_consensus v ->
  grown_from p c (d, v) -> grown_from p c (d, (m v).2).
Proof. intros E1 E2. unfold grown_from. cbn. by rewrite E1, E2. Qed.

Lemma read_consensus_validates p' b (u : unit) (s : NodeWorld) :
  vn_consensus s.2 = Some p' -> grown_from p c s -> validate_block p' b = Ok u -> poa_validate_block p b = Ok tt.
Proof. intros Hp' [Hp _]. rewrite Hp in Hp'. injection Hp' as ->. by destruct u. Qed.

Ltac grow := repeat lazymatch goal with
  | |- grows (finish _ _) => apply finish_keeps
  | |- grows (Rel _ _ _) => cbn [keeps]
  | |- grows (Acq _ _ _) => cbn [keeps]
  | |- grows (try_ _ _ _) => apply try_keeps; intros ? ?
  | |- grows (node_call _ _ _) => apply node_call_grows;
      [intros ? ?; first [apply add_block_grown; eapply read_consensus_validates; eassumption | apply unchanged_grows; first [apply on_network_keeps | done]]|intros ?]
  | |- grows (look _) => apply look_keeps; intros ? ?
  | |- grows (match ?x with _ => _ end) => destruct x eqn:?
  | |- True => done
  | |- grows (Ret _) => done
  | |- _ => progress unfold read_components, read_consensus, with_chain
  end.

Lemma produce_block_grows now t nonce : grows (produce_block_task now t nonce).
Proof. unfold produce_block_task. grow. Qed.
Lemma production_loop_grows ticks : grows (production_loop_task ticks).
Proof.
  split; [|done]. intros n. unfold production_pass. destruct (ticks n) as [[now t] nonce]. grow.
  apply bind_keeps; [apply produce_block_grows|]. intros []; done.
Qed.
Lemma node_method_grows q : node_method q -> grows q.
Proof.
  destruct 1; [apply production_loop_grows|apply produce_block_grows|..].
  - unfold handle_new_block_task. grow.
  - unfold stop_task. grow.
  - unfold status_task. grow.
  - unfold stats_task. grow.
  - unfold is_running_task. grow.
  - unfold is_validator_task. grow.
  - unfold current_height_task, chain_value_task. grow.
  - unfold best_hash_task, chain_value_task. grow.
  - unfold rpc_chain_info_task, rpc_task. grow.
  - unfold rpc_block_task, rpc_task. grow.
Qed.
End growth.

(** ** A lock inversion

    [status] keeps [components] while it asks for [running]; [start] keeps [running] while it
    asks for [components]. *)
#[local] Arguments open_node : simpl never.
Ltac take i := eapply rtc_l; [eapply (world_task i); [reflexivity|constructor; try (repeat constructor; cbn; intros; done)]|cbn].

(** Up to where [status] waits for [running], and [start] for [components]. *)
Lemma status_waits now now' d v (q : NodeTask) :
  exists k, rtc world_step (initial (d, v) [q; status_task now now'])
                           (mkWorld (d, v) [mkTask [] q; mkTask [(LComponents, false)] (Acq LRunning false k)]).
Proof.
  unfold status_task, initial. cbn [fmap list_fmap]. destruct (vn_components v) as [c|] eqn:Ec.
  - eexists. take 1%nat. take 1%nat. rewrite Ec. take 1%nat. take 1%nat. unfold with_chain, vn_chain. cbn. rewrite Ec. cbn.
    take 1%nat. take 1%nat. rewrite Ec. take 1%nat. take 1%nat. take 1%nat. apply rtc_refl.
  - eexists. take 1%nat. take 1%nat. rewrite Ec. take 1%nat. take 1%nat. take 1%nat. apply rtc_refl.
Qed.

Lemma start_waits i d v u s' t :
  vn_running v = false -> open_node i (d, v) = (Ok u, s') -> t_held t = [(LComponents, false)] ->
  exists k, rtc world_step (mkWorld (d, v) [mkTask [] (start_task i); t])
                           (mkWorld s' [mkTask [(LRunning, true)] (Acq LComponents true k); t]).
Proof.
  intros Hr Ho Ht. destruct t as [held q]. cbn in Ht. subst held. destruct u as [c p]. eexists. unfold start_task.
  take 0%nat. take 0%nat. rewrite Hr. cbn. unfold call_. eapply rtc_l; [eapply (world_task 0); [reflexivity|constructor]|].
  cbn. rewrite Ho. cbn. rewrite ?Ho. cbn. apply rtc_refl.
Qed.
End node_tasks.

Section node_task_properties.
Context {T D : Type} `{Tcp T, FileSystem D, RocksCrate, SledCrate, LruCrate, HashCrate, HexCrate, BincodeTx, BincodeStore,
  BincodeElection, ShuffleCrate, ChooseCrate, !Bincode HandshakeInfo, !Bincode PeerList, !Bincode BlockRequest,
  !Bincode BlockResponse, !Bincode Block, !Bincode TransactionRequest, !Bincode TransactionResponse, !Bincode Transaction,
  !Bincode StatusInfo, !Bincode DisconnectReason, !Bincode Gossip.BlockAnnouncement, !Bincode Gossip.TransactionAnnouncement,
  !Bincode Message, Ed25519Crate, AeadCrate, Base64Crate, Argon2Crate}.

(** C12: On a started validator node any number of block production loops, received blocks,
    stops, status and RPC queries run together without a deadlock: wherever their interleaving
    has led, and in whatever order each lock serves those who wait for it, some task can go on
    unless all have returned.  The production loops are endless while the node runs; once it has
    been stopped it stays stopped, no run is endless any more, and a run that cannot go on has
    every method, loops included, returned. *)
Theorem node_methods_never_deadlock (s : NodeWorld (T := T) (D := D)) (ps : list NodeTask) w :
  Forall node_method ps -> rtc world_step (initial s ps) w ->
  ~ deadlocked w /\
  (forall q, first_waiter (w_tasks w) q -> ~ all_finished w -> can_go (w_state w) (w_tasks w) q) /\
  (vn_running (w_state w).2 = false ->
     Acc (fun w' w => world_step w w') w /\
     forall w', rtc world_step w w' -> vn_running (w_state w').2 = false /\ (stuck w' -> all_finished w')).
Proof.
  intros Hps Hr. apply (ordered_methods only_read lock_rank stopped s ps w); [|done]. eapply Forall_impl; [exact Hps|]. intros p Hp.
  split; [by apply node_method_in_order|by apply node_method_stops].
Qed.

(** C13: Whatever the interleaving of these methods, the chain of the node only grows, by whole
    blocks: each was accepted by the consensus of the node, comes from the validator whose turn
    it was at its height and was acceptable to the chain it was appended to, so a block
    prepared on a tip that another task has meanwhile extended is refused; and a chain that was
    reachable stays so up to the largest height. *)
Theorem interleaved_chain_grows (d : D) (v : ValidatorNode (T := T)) (c : Blockchain) (p : ProofOfAuthority) (ps : list NodeTask) w :
  Forall node_method ps -> vn_chain v = Some c -> vn_consensus v = Some p -> rtc world_step (initial (d, v) ps) w ->
  exists c', vn_chain (w_state w).2 = Some c' /\ rtc (scheduled_append p) c c' /\
    bc_blocks c `prefix_of` bc_blocks c' /\
    (reachable c -> len (bc_blocks c') < 2 ^ 64 -> reachable c').
Proof.
  intros Hps Hc Hp Hr.
  assert (world_keeps (grown_from p c) w) as [[_ (c' & Hc' & Hg)] _].
  { eapply world_steps_keep; [done|]. apply initial_keeps; [split; [done|by exists c]|].
    eapply Forall_impl; [done|]. intros. by apply node_method_grows. }
  exists c'. split_and!; [done..| |].
  - by eapply appended_prefix, scheduled_appends.
  - by eapply appended_reachable, scheduled_appends.
Qed.

(** C38: [start] and [status] take the same two locks in opposite orders.  On any stopped
    validator node whose components can be opened, a [status] that has read [components] and a
    [start] that has taken [running] wait for each other: neither returns, so the node never
    gets to run. *)
Theorem start_and_status_deadlock (i : NodeInputs) (now now' : Z) (d : D) (v : ValidatorNode (T := T)) u s' :
  vn_running v = false -> open_node i (d, v) = (Ok u, s') ->
  exists w, rtc world_step (initial (d, v) [start_task i; status_task now now']) w /\ deadlocked w /\
    w_state w = s' /\ Forall (fun t => finished t = false) (w_tasks w).
Proof.
  intros Hr Ho. destruct (status_waits now now' d v (start_task i)) as [k Hk].
  destruct (start_waits i d v u s' (mkTask [(LComponents, false)] (Acq LRunning false k)) Hr Ho eq_refl) as [k' Hk'].
  eexists. split; [by etrans|]. split_and!; [by apply inverted_locks_block|done|by repeat constructor].
Qed.
End node_task_properties.
