(* ===== verification/FullNodeTasks.v ===== *)
(** * The full node's methods as concurrent tasks: crates/node/src/full_node.rs

    As in NodeTasks for the validator: each method of the full node with the locks it takes, in
    the order it takes them and for as long as their guards live.  The replies are those of
    NodeTasks. *)
From stdpp Require Import prelude gmap strings list.
From Stdlib Require Import Strings.Byte.
From S2P Require Import Prelude Types Merkle Transaction Block Genesis Chain ChainProperties ValidatorSet ProofOfAuthority Crypto CryptoTools Cache Database BlockchainStore Jurisdiction StateStore Snapshot StorageManager Protocol Peer Gossip BlockSync Discovery Transport Network NodeConfig Node Rpc RpcMethods Tasks NodeTasks.

Local Open Scope Z_scope.

(** The locks: the fields of [FullNode] and the chain inside the components. *)
Inductive FullLock := FLRunning | FLComponents | FLChain | FLPending | FLStartedAt | FLStats.
Global Instance FullLock_eq_dec : EqDecision FullLock.
Proof. solve_decision. Defined.

Section full_node_tasks.
Context {T D : Type} `{Tcp T, FileSystem D, RocksCrate, SledCrate, LruCrate, HashCrate, HexCrate, BincodeTx, BincodeStore,
  BincodeElection, ShuffleCrate, ChooseCrate, !Bincode HandshakeInfo, !Bincode PeerList, !Bincode BlockRequest,
  !Bincode BlockResponse, !Bincode Block, !Bincode TransactionRequest, !Bincode TransactionResponse, !Bincode Transaction,
  !Bincode StatusInfo, !Bincode DisconnectReason, !Bincode Gossip.BlockAnnouncement, !Bincode Gossip.TransactionAnnouncement,
  !Bincode Message, Ed25519Crate, AeadCrate, Base64Crate, Argon2Crate}.

Definition FullWorld : Type := (D * FullNode (T := T))%type.
Definition FullTask : Type := Prog FullWorld FullLock Reply.
Definition fn_chain (f : FullNode (T := T)) : option Blockchain := cmp_blockchain <$> fn_components f.

Definition full_call {A : Type} (held : list (FullLock * bool)) (m : VStM (FullNode (T := T)) A) (k : A -> FullTask) : FullTask :=
  call_ held (on_node m) k.
Definition full_read_components (none : FullTask) (k : NodeComponents (T := T) -> FullTask) : FullTask :=
  Acq FLComponents false (look (fun s => match fn_components s.2 with None => none | Some c => k c end)).
Definition full_with_chain (held : list (FullLock * bool)) (s : FullWorld) (k : Blockchain -> FullTask) : FullTask :=
  match fn_chain s.2 with Some c => k c | None => finish held Panic end.

Definition fn_set_stats (stats : NodeStats) (f : FullNode (T := T)) : FullNode :=
  mkFullNode (fn_config f) (fn_components f) (fn_running f) (fn_started_at f) stats (fn_pending_transactions f).
Definition fn_set_pending (pending : gset TxId) (f : FullNode (T := T)) : FullNode :=
  mkFullNode (fn_config f) (fn_components f) (fn_running f) (fn_started_at f) (fn_stats f) pending.

Definition process_block_task (b : Block) : FullTask :=
  let held := [(FLComponents, false)] in
  full_read_components (finish held (Err NodeNotInitialized)) (fun _ =>
  Acq FLChain true (
  full_call ((FLChain, true) :: held) (fn_on_components (on_chain (add_block b))) (fun _ =>
  Rel FLChain true (
  Acq FLPending true (
  full_call ((FLPending, true) :: held) (modify (fun f => fn_set_pending
    (foldl (fun pending tx => pending ∖ {[ tx_id tx ]}) (fn_pending_transactions f) (block_transactions b)) f)) (fun _ =>
  Rel FLPending true (
  Acq FLStats true (
  full_call ((FLStats, true) :: held)
    (modify (fun f => fn_set_stats (count_processed (len (block_transactions b)) (fn_stats f)) f)) (fun _ =>
  finish ((FLStats, true) :: held) (Ok RUnit)))))))))).

Definition submit_transaction_task (now nonce : Z) (tx : Transaction) : FullTask :=
  let held := [(FLComponents, false)] in
  full_read_components (finish held (Err NodeNotInitialized)) (fun _ =>
  try_ held (Transaction_validate tx) (fun _ =>
  Acq FLPending true (
  full_call ((FLPending, true) :: held) (modify (fun f => fn_set_pending (fn_pending_transactions f ∪ {[ tx_id tx ]}) f)) (fun _ =>
  Rel FLPending true (
  try_ held (Message_new_transaction now nonce tx) (fun message =>
  full_call held (fn_on_components (on_network (broadcast now message))) (fun _ =>
  finish held (Ok RUnit)))))))).

(** A value read from the chain through the components. *)
Definition full_chain_task (none : Reply) (g : Blockchain -> Reply) : FullTask :=
  let held := [(FLComponents, false)] in
  full_read_components (finish held (Ok none)) (fun _ =>
  Acq FLChain false (look (fun s => full_with_chain ((FLChain, false) :: held) s (fun c =>
  finish ((FLChain, false) :: held) (Ok (g c)))))).
Definition get_transaction_task (id : TxId) : FullTask :=
  full_chain_task (RFoundTransaction None) (fun c => RFoundTransaction (head (omap (block_tx_at c id) (seqZ 0 (bc_height c + 1))))).
Definition get_block_task (height : Z) : FullTask :=
  full_chain_task (RFoundBlock None) (fun c => RFoundBlock (match get_block_at_height c height with Ok b => Some b | _ => None end)).
Definition full_current_height_task : FullTask := full_chain_task (RHeight 0) (fun c => RHeight (bc_height c)).
Definition full_best_hash_task : FullTask := full_chain_task (RHash BlockHash_zero) (fun c => RHash (best_hash_of c)).

Definition pending_count_task : FullTask :=
  Acq FLPending false (look (fun s => finish [(FLPending, false)] (Ok (RCount (pending_transaction_count s.2))))).
Definition full_stats_task : FullTask := Acq FLStats false (look (fun s => finish [(FLStats, false)] (Ok (RStats (fn_stats s.2))))).
Definition full_is_running_task : FullTask :=
  Acq FLRunning false (look (fun s => finish [(FLRunning, false)] (Ok (RBool (fn_running s.2))))).

(** [sync_with_network], and the endless loop around it with the time of each tick. *)
Definition sync_with_network_task (now : Z) : FullTask :=
  let held := [(FLComponents, false)] in
  full_read_components (finish held (Ok RUnit)) (fun c =>
  if status_is_syncing (network_sync_status now (cmp_network c)) then finish held (Ok RUnit)
  else Acq FLChain false (finish ((FLChain, false) :: held) (Ok RUnit))).
Definition sync_pass (now : Z) : FullTask :=
  Acq FLRunning false (look (fun s => Rel FLRunning false (
    if fn_running s.2 then
      prog_bind (sync_with_network_task now) (fun r => Ret (match r with Panic => Panic | _ => Ok RTick end))
    else Ret (Ok RUnit)))).
Definition sync_loop_task (ticks : nat -> Z) : FullTask := Loop 0 (fun n => sync_pass (ticks n)) goes_on Ret.

Definition full_stop_task : FullTask :=
  let held := [(FLRunning, true)] in
  Acq FLRunning true (look (fun s =>
  try_ held (ensure (fn_running s.2) NodeNotRunning) (fun _ =>
  full_call held (modify (fun f => fn_set_running false (fn_started_at f) f)) (fun _ =>
  let held := (FLComponents, false) :: held in
  full_read_components (finish held (Ok RUnit)) (fun _ =>
  full_call held (fn_on_components (on_network network_stop)) (fun _ => finish held (Ok RUnit))))))).

Definition full_status_task (now now' : Z) : FullTask :=
  let rest (current : Z * BlockHash * Z * bool) : FullTask :=
    let '(height, hash, peers, syncing) := current in
    Acq FLStartedAt false (look (fun s => Rel FLStartedAt false (
    let started_at := fn_started_at s.2 in
    Acq FLRunning false (look (fun s =>
    Rel FLComponents false (Rel FLRunning false (
    Ret (Ok (RStatus (mkNodeStatus NFull (fn_running s.2) syncing height hash peers (uptime now' started_at) started_at)))))))))) in
  full_read_components (rest (0, BlockHash_zero, 0, false)) (fun _ =>
  Acq FLChain false (look (fun s => full_with_chain [(FLChain, false); (FLComponents, false)] s (fun blockchain =>
  Rel FLChain false (look (fun s =>
  match fn_components s.2 with
  | Some c => rest (bc_height blockchain, best_hash_of blockchain, network_peer_count (cmp_network c),
                    status_is_syncing (network_sync_status now (cmp_network c)))
  | None => finish [(FLComponents, false)] Panic
  end)))))).

(** [start]: [initialize] takes the write lock of the components while [running] is held for
    writing. *)
Definition full_open (i : NodeInputs) : VStM FullWorld (NodeComponents (T := T)) := fun '(d, f) =>
  match open_components i (fn_config f) d with
  | (Ok (_, c), d') => (Ok c, (d', f))
  | (Err e, d') => (Err e, (d', f))
  | (Panic, d') => (Panic, (d', f))
  end.
Definition full_start_task (i : NodeInputs) : FullTask :=
  let held := [(FLRunning, true)] in
  Acq FLRunning true (look (fun s =>
  try_ held (ensure (negb (fn_running s.2)) NodeAlreadyRunning) (fun _ =>
  call_ held (full_open i) (fun c =>
  Acq FLComponents true (
  full_call ((FLComponents, true) :: held) (modify (fn_set_components c)) (fun _ =>
  Rel FLComponents true (
  let held := (FLComponents, false) :: held in
  full_read_components (finish held (Err NodeNotInitialized)) (fun _ =>
  full_call held (fn_on_components (on_network (network_start (ni_clock i 3) (ni_random i)))) (fun _ =>
  full_call held (modify (fun f => fn_set_running true (fn_started_at f) f)) (fun _ =>
  Acq FLStartedAt true (
  full_call ((FLStartedAt, true) :: held) (modify (fun f => fn_set_running (fn_running f) (Some (ni_clock i 4)) f)) (fun _ =>
  Rel FLStartedAt true (
  Rel FLRunning true (
  finish [(FLComponents, false)] (Ok RUnit))))))))))))))).

(** ** A task alone is the method *)
Definition as_full_task {A : Type} (g : A -> Reply) (m : VStM (FullNode (T := T)) A) (s : FullWorld) : VResult Reply * FullWorld :=
  let '(r, f) := m s.2 in (reply g r, (s.1, f)).

Lemma full_call_alone {A : Type} held (m : VStM (FullNode (T := T)) A) (k : A -> FullTask) d f :
  run_alone (full_call held m k) (d, f) =
    match m f with (Ok a, f') => run_alone (k a) (d, f') | (Err e, f') => (Err e, (d, f')) | (Panic, f') => (Panic, (d, f')) end.
Proof. unfold full_call. rewrite run_alone_call. cbn. by destruct (m f) as [[]]. Qed.
Lemma full_components_alone none k (s : FullWorld) :
  run_alone (full_read_components none k) s = match fn_components s.2 with None => run_alone none s | Some c => run_alone (k c) s end.
Proof. cbn. by destruct (fn_components s.2). Qed.
Lemma full_look_alone (k : FullWorld -> FullTask) s : run_alone (look k) s = run_alone (k s) s.
Proof. done. Qed.
Lemma full_acq_alone l w (k : FullTask) s : run_alone (Acq l w k) s = run_alone k s.
Proof. done. Qed.
Lemma full_rel_alone l w (k : FullTask) s : run_alone (Rel l w k) s = run_alone k s.
Proof. done. Qed.

Ltac alone := repeat (rewrite ?full_look_alone, ?full_acq_alone, ?full_rel_alone, ?full_components_alone,
  ?full_call_alone, ?run_alone_call, ?run_alone_try, ?run_alone_finish; cbn [fst snd]).

#[local] Arguments fn_on_components : simpl never.

Lemma process_block_alone b s : run_alone (process_block_task b) s = as_full_task (fun _ => RUnit) (process_block b) s.
Proof.
  destruct s as [d f]. unfold process_block_task, as_full_task, process_block. unfold mbind, stM_bind, mret, stM_ret, modify. alone.
  destruct (fn_components f) as [c|] eqn:Ec; alone; [|by unfold fn_on_components; rewrite Ec].
  destruct (fn_on_components _ f) as [[?| |] f1]; [|done..]. by alone.
Qed.

Lemma submit_transaction_alone now nonce tx s :
  run_alone (submit_transaction_task now nonce tx) s = as_full_task (fun _ => RUnit) (full_submit_transaction now nonce tx) s.
Proof.
  destruct s as [d f]. unfold submit_transaction_task, as_full_task, full_submit_transaction.
  unfold mbind, stM_bind, mret, stM_ret, modify, lift. alone.
  destruct (fn_components f) as [c|] eqn:Ec; alone; [|by unfold fn_on_components; rewrite Ec].
  assert (fn_on_components (fun c => (Transaction_validate tx, c)) f = (Transaction_validate tx, f)) as ->.
  { unfold fn_on_components. rewrite Ec. destruct f. cbn in Ec. by subst. }
  destruct (Transaction_validate tx) as [?| |]; alone; [|done..].
  destruct (Message_new_transaction now nonce tx) as [m| |]; [|done..]. alone. unfold fn_set_pending.
  destruct (fn_on_components _ _) as [[?| |] f1]; [|done..]. by alone.
Qed.

Lemma full_chain_alone none g s :
  run_alone (full_chain_task none g) s = (Ok (match fn_components s.2 with Some c => g (cmp_blockchain c) | None => none end), s).
Proof.
  unfold full_chain_task. alone. destruct (fn_components s.2) as [c|] eqn:Ec; alone; [|done].
  unfold full_with_chain, fn_chain. rewrite Ec. cbn. by alone.
Qed.

Lemma full_stop_alone s : run_alone full_stop_task s = as_full_task (fun _ => RUnit) full_stop s.
Proof.
  destruct s as [d f]. unfold full_stop_task, as_full_task, full_stop. unfold mbind, stM_bind, mret, stM_ret, get, modify, lift. alone.
  destruct (fn_running f); [|done]. cbn [ensure]. alone. cbn [fn_set_running fn_components].
  destruct (fn_components f); alone; [|done]. by destruct (fn_on_components _ _) as [[?| |] f1]; alone.
Qed.

Lemma full_status_alone now now' s : run_alone (full_status_task now now') s = (Ok (RStatus (full_status now now' s.2)), s).
Proof.
  destruct s as [d f]. unfold full_status_task, full_status, components_status. alone.
  destruct (fn_components f) as [c|] eqn:Ec; [|by alone]. alone. unfold full_with_chain, fn_chain. cbn [snd]. rewrite Ec. cbn [fmap option_fmap option_map].
  alone. cbn [snd]. rewrite Ec. by alone.
Qed.

Lemma sync_pass_alone now s : run_alone (sync_pass now) s = (Ok (if fn_running s.2 then RTick else RUnit), s).
Proof.
  unfold sync_pass. alone. destruct (fn_running s.2); [|done]. rewrite run_alone_bind. unfold sync_with_network_task. alone.
  destruct (fn_components s.2) as [c|]; alone; [|done]. destruct (status_is_syncing _); by alone.
Qed.

Lemma full_start_alone i s : run_alone (full_start_task i) s = let '(r, s') := full_start i s in (reply (fun _ => RUnit) r, s').
Proof.
  destruct s as [d f]. unfold full_start_task, full_start, full_initialize. unfold mbind, stM_bind, mret, stM_ret, get, modify, lift. alone.
  destruct (fn_running f); [done|]. cbn [negb ensure]. alone. unfold full_open.
  destruct (open_components i (fn_config f) d) as [[[g c]|e|] d']; [|done..]. alone.
  cbn [fn_set_components fn_components]. alone. unfold on_node at 1.
  destruct (fn_on_components _ _) as [[?| |] f1]; [|done..]. by alone.
Qed.

(** ** The methods of a node that was started *)
Inductive full_method : FullTask -> Prop :=
| fm_process b : full_method (process_block_task b)
| fm_submit now nonce tx : full_method (submit_transaction_task now nonce tx)
| fm_chain none g : full_method (full_chain_task none g)
| fm_pending : full_method pending_count_task
| fm_stats : full_method full_stats_task
| fm_running : full_method full_is_running_task
| fm_sync (ticks : nat -> Z) : full_method (sync_loop_task ticks)
| fm_stop : full_method full_stop_task
| fm_status now now' : full_method (full_status_task now now').

(** They only read [components], and hold no other lock while they ask for one. *)
Definition full_only_read (l : FullLock) : bool := match l with FLComponents => true | _ => false end.
Definition full_rank (l : FullLock) : nat := 0.
Abbreviation full_in_order := (disciplined full_only_read full_rank).

Lemma full_acq_in_order l w held (k : FullTask) :
  may_acquire full_only_read full_rank l w held -> full_in_order ((l, w) :: held) k -> full_in_order held (Acq l w k).
Proof. done. Qed.
Lemma full_look_in_order held (k : FullWorld -> FullTask) : (forall s, full_in_order held (k s)) -> full_in_order held (look k).
Proof. done. Qed.
Lemma full_rel_in_order l w held held' (k : FullTask) :
  (l, w) ∈ held -> remove_held (l, w) held = held' -> full_in_order held' k -> full_in_order held (Rel l w k).
Proof. intros ? <- ?. done. Qed.

Ltac ordered := repeat lazymatch goal with
  | |- full_in_order _ (finish _ _) => apply finish_disciplined
  | |- full_in_order ((?l, ?w) :: _) (Rel ?l ?w _) => apply disciplined_drop
  | |- full_in_order _ (Rel _ _ _) => eapply full_rel_in_order; [set_solver|vm_compute; reflexivity|]
  | |- full_in_order _ (Acq _ _ _) => apply full_acq_in_order; [unfold may_acquire; cbn; repeat constructor; cbn; intros; done|]
  | |- full_in_order _ (try_ _ _ _) => apply try_disciplined; intros ? _
  | |- full_in_order _ (call_ _ _ _) => apply call_disciplined; intros ?
  | |- full_in_order _ (look _) => apply full_look_in_order; intros ?
  | |- full_in_order _ (match ?x with _ => _ end) => destruct x
  | |- full_in_order _ (Ret _) => done
  | |- _ => progress unfold full_read_components, full_with_chain, full_call
  end.

Lemma sync_with_network_in_order now : full_in_order [] (sync_with_network_task now).
Proof. unfold sync_with_network_task. ordered. Qed.
Lemma full_method_in_order p : full_method p -> full_in_order [] p.
Proof.
  destruct 1.
  - unfold process_block_task. ordered.
  - unfold submit_transaction_task. ordered.
  - unfold full_chain_task. ordered.
  - unfold pending_count_task. ordered.
  - unfold full_stats_task. ordered.
  - unfold full_is_running_task. ordered.
  - split; [done|]. split; [|done]. intros n. unfold sync_pass. ordered.
    apply bind_disciplined; [apply sync_with_network_in_order|]. by intros [].
  - unfold full_stop_task. ordered.
  - unfold full_status_task. ordered.
Qed.

(** ** A stopped node *)
Definition full_stopped (s : FullWorld) : Prop := fn_running s.2 = false.
Abbreviation stays := (maintains full_stopped).

Lemma full_on_components_running {A : Type} (m : VStM NodeComponents A) (f : FullNode (T := T)) :
  fn_running (fn_on_components m f).2 = fn_running f.
Proof. unfold fn_on_components. destruct (fn_components f) as [c|]; [|done]. by destruct (m c). Qed.

Lemma full_call_stays {A : Type} held (m : VStM (FullNode (T := T)) A) (k : A -> FullTask) :
  (forall f, fn_running f = false -> fn_running (m f).2 = false) -> (forall a, stays (k a)) -> stays (full_call held m k).
Proof. intros Hm Hk. apply call_maintains; [|done]. intros [d f] Hs. specialize (Hm f Hs). cbn. by destruct (m f). Qed.

Ltac stay := repeat lazymatch goal with
  | |- stays (finish _ _) => apply finish_maintains
  | |- stays (Rel _ _ _) => cbn [maintains]
  | |- stays (Acq _ _ _) => cbn [maintains]
  | |- stays (try_ _ _ _) => apply try_maintains; intros ?
  | |- stays (full_call _ _ _) => apply full_call_stays; [intros ? ?; first [by rewrite full_on_components_running | done]|intros ?]
  | |- stays (look _) => apply look_maintains; intros ?
  | |- stays (match ?x with _ => _ end) => destruct x
  | |- stays (Ret _) => done
  | |- True => done
  | |- _ => progress unfold full_read_components, full_with_chain
  end.
Ltac straight := repeat lazymatch goal with
  | |- loop_free (finish _ _) => apply finish_loop_free
  | |- loop_free (Rel _ _ _) => cbn [loop_free]
  | |- loop_free (Acq _ _ _) => cbn [loop_free]
  | |- loop_free (try_ _ _ _) => apply try_loop_free; intros ?
  | |- loop_free (call_ _ _ _) => apply call_loop_free; intros ?
  | |- loop_free (look _) => cbn [loop_free look]; intros ?
  | |- loop_free (match ?x with _ => _ end) => destruct x
  | |- loop_free (Ret _) => done
  | |- True => done
  | |- _ -> True => done
  | |- _ => progress unfold full_read_components, full_with_chain, full_call
  end.

Lemma process_block_straight b : loop_free (process_block_task b).
Proof. unfold process_block_task. straight. Qed.

Lemma sync_loop_stops ticks : stays (sync_loop_task ticks) /\ returns full_stopped (sync_loop_task ticks).
Proof.
  split; (split; [|done]); intros n; unfold sync_pass.
  - stay. apply bind_maintains; [|by intros []]. unfold sync_with_network_task. stay.
  - split.
    + cbn [returns look]. intros s. destruct (fn_running s.2); [|done]. apply bind_returns; [|by intros []].
      apply loop_free_returns. unfold sync_with_network_task. straight.
    + cbn [yields look]. intros s Hs. unfold full_stopped in Hs. by rewrite Hs.
Qed.

Lemma full_method_stops p : full_method p -> stays p /\ returns full_stopped p.
Proof.
  destruct 1 as [b| | | | | |ticks| |]; [|..|apply sync_loop_stops| |]; (split; [|apply loop_free_returns]).
  1,2: unfold process_block_task; stay; straight.
  1,2: unfold submit_transaction_task; stay; straight.
  1,2: unfold full_chain_task; stay; straight.
  1,2: unfold pending_count_task; stay; straight.
  1,2: unfold full_stats_task; stay; straight.
  1,2: unfold full_is_running_task; stay; straight.
  1,2: unfold full_stop_task; stay; straight.
  1,2: unfold full_status_task; stay; straight.
Qed.

(** ** Counters

    What the counters say against what the chain holds, modulo 2^64: [stat] is a counter and
    [weight] what a block adds to it. *)
Section counters.
Context (stat : NodeStats -> Z) (weight : Block -> Z)
  (stat_counts : forall b st, stat (count_processed (len (block_transactions b)) st) mod 2 ^ 64 = (stat st + weight b) mod 2 ^ 64).

Definition chain_weight (c : Blockchain) : Z := foldr (fun b n => weight b + n) 0 (bc_blocks c).
Definition uncounted (s : FullWorld) : Z := stat (fn_stats s.2) - default 0 (chain_weight <$> fn_chain s.2).
Abbreviation settles := (owes uncounted (2 ^ 64)).

Lemma chain_weight_append b c : chain_weight (append_block b c) = chain_weight c + weight b.
Proof. unfold chain_weight. cbn. induction (bc_blocks c) as [|x l IH]; cbn; lia. Qed.

Lemma full_call_settles {A : Type} held (m : VStM (FullNode (T := T)) A) (k : A -> FullTask) :
  (forall f, fn_stats (m f).2 = fn_stats f /\ fn_chain (m f).2 = fn_chain f) -> (forall a, settles 0 (k a)) ->
  settles 0 (full_call held m k).
Proof.
  intros Hm Hk. apply call_owes; [|done]. intros [d f]. unfold uncounted. cbn. destruct (Hm f) as [E1 E2].
  destruct (m f) as [r f']. cbn in *. by rewrite E1, E2.
Qed.

Lemma full_on_network {A : Type} (m : VStM NetworkManager A) f :
  fn_stats (fn_on_components (on_network m) f).2 = fn_stats f /\ fn_chain (fn_on_components (on_network m) f).2 = fn_chain f.
Proof.
  unfold fn_on_components. destruct (fn_components f) as [c|] eqn:Ec; [|done]. unfold on_network.
  destruct (m (cmp_network c)) as [r n]. cbn. split; [done|]. unfold fn_chain. by rewrite Ec.
Qed.

(** Appending a block leaves its weight to be counted. *)
Lemma add_block_uncounted b d f :
  let '(r, f') := fn_on_components (on_chain (add_block b)) f in
  uncounted (d, f') = uncounted (d, f) - (if is_ok r then weight b else 0).
Proof.
  unfold fn_on_components. destruct (fn_components f) as [c|] eqn:Ec; [|cbn; lia]. unfold on_chain.
  destruct (add_block b (cmp_blockchain c)) as [r c1] eqn:Ea. unfold uncounted, fn_chain. cbn. rewrite Ec. cbn.
  destruct r as [[]|e|]; cbn.
  - apply add_block_Ok in Ea as [_ ->]. rewrite chain_weight_append. lia.
  - apply add_block_not_Ok in Ea as ->; [|done]. lia.
  - apply add_block_not_Ok in Ea as ->; [|done]. lia.
Qed.

Ltac settle := repeat lazymatch goal with
  | |- settles _ (finish _ _) => apply finish_owes
  | |- settles _ (Rel _ _ _) => cbn [owes]
  | |- settles _ (Acq _ _ _) => cbn [owes]
  | |- settles _ (try_ _ _ _) => apply try_owes; [intros ? _|by intros _]
  | |- settles _ (full_call _ _ _) => apply full_call_settles; [intros ?; first [apply full_on_network | done]|intros ?]
  | |- settles _ (look _) => apply look_owes; intros ?
  | |- settles _ (match ?x with _ => _ end) => destruct x
  | |- settles _ (Ret _) => done
  | |- (0 mod _ = 0) => done
  | |- _ => progress unfold full_read_components, full_with_chain
  end.

Lemma process_block_settles b : settles 0 (process_block_task b).
Proof.
  unfold process_block_task. unfold full_read_components. cbn [owes]. apply look_owes. intros s. destruct (fn_components s.2); [|apply finish_owes].
  cbn [owes]. intros [d f]. pose proof (add_block_uncounted b d f) as Hb. unfold on_node. cbn [fst snd].
  destruct (fn_on_components _ f) as [r f1]. cbn [fst snd]. rewrite Hb. apply try_owes; [|intros Hr; rewrite Hr; by replace (0 + uncounted (d, f) - (uncounted (d, f) - 0)) with 0 by lia].
  intros [] ->. cbn [is_ok owes]. intros [d2 f2]. cbn [owes on_node fst snd modify try_]. intros [d3 f3]. cbn [on_node fst snd modify try_].
  eapply owes_mod; [|apply finish_owes]. rewrite Zmod_0_l. symmetry. unfold uncounted, fn_chain. cbn.
  set (x := default 0 (chain_weight <$> (cmp_blockchain <$> fn_components f3))).
  match goal with |- ?e mod _ = 0 =>
    replace e with ((stat (fn_stats f3) + weight b) - stat (count_processed (len (block_transactions b)) (fn_stats f3))) by lia end.
  by rewrite Zminus_mod, stat_counts, <- Zminus_mod, Z.sub_diag.
Qed.

Lemma full_method_settles p : full_method p -> settles 0 p.
Proof.
  destruct 1; [apply process_block_settles|..].
  - unfold submit_transaction_task. settle.
  - unfold full_chain_task. settle.
  - unfold pending_count_task. settle.
  - unfold full_stats_task. settle.
  - unfold full_is_running_task. settle.
  - split; [done|]. split; [|done]. intros n. unfold sync_pass. settle.
    apply bind_owes; [|by intros []]. unfold sync_with_network_task. settle.
  - unfold full_stop_task. settle.
  - unfold full_status_task. settle.
Qed.
End counters.

(** ** The chain *)
Definition full_grown_from (c : Blockchain) (s : FullWorld) : Prop :=
  is_u64 (nds_blocks_processed (fn_stats s.2)) /\ is_u64 (nds_transactions_processed (fn_stats s.2)) /\
  exists c', fn_chain s.2 = Some c' /\ rtc appends c c'.

Section full_growth.
Context (c : Blockchain).
Abbreviation grows := (keeps (full_grown_from c)).

Lemma full_call_grows {A : Type} held (m : VStM (FullNode (T := T)) A) (k : A -> FullTask) :
  (forall d f, full_grown_from c (d, f) -> full_grown_from c (d, (m f).2)) -> (forall a, grows (k a)) -> grows (full_call held m k).
Proof. intros Hm Hk. apply call_keeps; [|done]. intros [d f] Hs. specialize (Hm d f Hs). cbn. by destruct (m f). Qed.

Lemma full_unchanged_grows (f f' : FullNode) d :
  fn_stats f' = fn_stats f /\ fn_chain f' = fn_chain f -> full_grown_from c (d, f) -> full_grown_from c (d, f').
Proof. intros [E1 E2]. unfold full_grown_from. cbn. by rewrite E1, E2. Qed.

Lemma full_add_grows b d f : full_grown_from c (d, f) -> full_grown_from c (d, (fn_on_components (on_chain (add_block b)) f).2).
Proof.
  intros (H1' & H2' & c' & Hc & Hr). unfold full_grown_from. cbn in *. unfold fn_chain in Hc. destruct (fn_components f) as [comps|] eqn:Ec; [|done].
  injection Hc as Hc. unfold fn_on_components, on_chain. rewrite Ec, Hc. destruct (add_block b c') as [r c1] eqn:Ea.
  split_and!; [done..|]. exists c1. split; [done|]. destruct (decide (is_ok r = true)) as [([] & ->)%is_ok_true|Hno].
  - apply add_block_Ok in Ea as [Hacc ->]. eapply rtc_r; [done|]. by exists b.
  - apply add_block_not_Ok in Ea as ->; [done|]. by intros ->.
Qed.

Lemma full_count_grows n d f : full_grown_from c (d, f) -> full_grown_from c (d, fn_set_stats (count_processed n (fn_stats f)) f).
Proof. intros (_ & _ & Hc). split_and!; [apply Z.mod_pos_bound; lia..|done]. Qed.

Ltac grow := repeat lazymatch goal with
  | |- grows (finish _ _) => apply finish_keeps
  | |- grows (Rel _ _ _) => cbn [keeps]
  | |- grows (Acq _ _ _) => cbn [keeps]
  | |- grows (try_ _ _ _) => apply try_keeps; intros ? ?
  | |- grows (full_call _ _ _) => apply full_call_grows;
      [intros ? ?; first [apply full_add_grows | apply full_count_grows | apply full_unchanged_grows; first [apply full_on_network | done]]|intros ?]
  | |- grows (look _) => apply look_keeps; intros ? ?
  | |- grows (match ?x with _ => _ end) => destruct x eqn:?
  | |- True => done
  | |- grows (Ret _) => done
  | |- _ => progress unfold full_read_components, full_with_chain
  end.

Lemma full_method_grows p : full_method p -> grows p.
Proof.
  destruct 1.
  - unfold process_block_task. grow.
  - unfold submit_transaction_task. grow.
  - unfold full_chain_task. grow.
  - unfold pending_count_task. grow.
  - unfold full_stats_task. grow.
  - unfold full_is_running_task. grow.
  - split; [|done]. intros n. unfold sync_pass. grow.
    apply bind_keeps; [|by intros []]. unfold sync_with_network_task. grow.
  - unfold full_stop_task. grow.
  - unfold full_status_task. grow.
Qed.
End full_growth.

Lemma chain_weight_one (c : Blockchain) : chain_weight (fun _ => 1) c = len (bc_blocks c).
Proof. unfold chain_weight, len. induction (bc_blocks c) as [|b l IH]; cbn -[Z.of_nat]; lia. Qed.
Lemma chain_weight_txs (c : Blockchain) : chain_weight (fun b => len (block_transactions b)) c = len (get_all_transactions c).
Proof.
  unfold chain_weight, get_all_transactions. induction (bc_blocks c) as [|b l IH]; [done|]. cbn. rewrite IH. by rewrite len_app.
Qed.

(** When all tasks have ended a counter has counted exactly the weight of the new blocks. *)
Lemma counter_settled stat weight (s : FullWorld) ps w c c' :
  (forall b st, stat (count_processed (len (block_transactions b)) st) mod 2 ^ 64 = (stat st + weight b) mod 2 ^ 64) ->
  Forall full_method ps -> rtc world_step (initial s ps) w -> all_finished w ->
  fn_chain s.2 = Some c -> fn_chain (w_state w).2 = Some c' -> is_u64 (stat (fn_stats (w_state w).2)) ->
  stat (fn_stats (w_state w).2) = u64_add (stat (fn_stats s.2)) (chain_weight weight c' - chain_weight weight c).
Proof.
  intros Hst Hps Hr Hf Hc Hc' Hu.
  assert (uncounted stat weight (w_state w) mod 2 ^ 64 = uncounted stat weight s mod 2 ^ 64) as E.
  { eapply balance_settled; [|done..]. eapply Forall_impl; [done|]. intros. by apply full_method_settles. }
  unfold uncounted in E. rewrite Hc, Hc' in E. cbn [fmap option_fmap option_map default] in E.
  unfold u64_add, wrap. rewrite <- (Z.mod_small (stat (fn_stats (w_state w).2)) (2 ^ 64)) at 1 by done.
  apply (f_equal (fun x => (x + chain_weight weight c') mod 2 ^ 64)) in E. rewrite !Zplus_mod_idemp_l in E.
  etrans; [etrans; [|exact E]|]; f_equal; unfold id; lia.
Qed.

(** ** The lock inversion *)
#[local] Arguments full_open : simpl never.
Ltac take i := eapply rtc_l; [eapply (world_task i); [reflexivity|constructor; try (repeat constructor; cbn; intros; done)]|cbn].

Lemma full_status_waits now now' d f (q : FullTask) :
  exists k, rtc world_step (initial (d, f) [q; full_status_task now now'])
                           (mkWorld (d, f) [mkTask [] q; mkTask [(FLComponents, false)] (Acq FLRunning false k)]).
Proof.
  unfold full_status_task, initial. cbn [fmap list_fmap]. destruct (fn_components f) as [c|] eqn:Ec.
  - eexists. take 1%nat. take 1%nat. rewrite Ec. take 1%nat. take 1%nat. unfold full_with_chain, fn_chain. cbn. rewrite Ec. cbn.
    take 1%nat. take 1%nat. rewrite Ec. take 1%nat. take 1%nat. take 1%nat. apply rtc_refl.
  - eexists. take 1%nat. take 1%nat. rewrite Ec. take 1%nat. take 1%nat. take 1%nat. apply rtc_refl.
Qed.

Lemma full_start_waits i d f c s' t :
  fn_running f = false -> full_open i (d, f) = (Ok c, s') -> t_held t = [(FLComponents, false)] ->
  exists k, rtc world_step (mkWorld (d, f) [mkTask [] (full_start_task i); t])
                           (mkWorld s' [mkTask [(FLRunning, true)] (Acq FLComponents true k); t]).
Proof.
  intros Hr Ho Ht. destruct t as [held q]. cbn in Ht. subst held. eexists. unfold full_start_task.
  take 0%nat. take 0%nat. rewrite Hr. cbn. unfold call_. eapply rtc_l; [eapply (world_task 0); [reflexivity|constructor]|].
  cbn. rewrite Ho. cbn. rewrite ?Ho. cbn. apply rtc_refl.
Qed.
End full_node_tasks.

Section full_node_properties.
Context {T D : Type} `{Tcp T, FileSystem D, RocksCrate, SledCrate, LruCrate, HashCrate, HexCrate, BincodeTx, BincodeStore,
  BincodeElection, ShuffleCrate, ChooseCrate, !Bincode HandshakeInfo, !Bincode PeerList, !Bincode BlockRequest,
  !Bincode BlockResponse, !Bincode Block, !Bincode TransactionRequest, !Bincode TransactionResponse, !Bincode Transaction,
  !Bincode StatusInfo, !Bincode DisconnectReason, !Bincode Gossip.BlockAnnouncement, !Bincode Gossip.TransactionAnnouncement,
  !Bincode Message, Ed25519Crate, AeadCrate, Base64Crate, Argon2Crate}.

(** The methods of a started full node never deadlock, in whatever order the locks are served;
    once it has been stopped it stays so, and every run ends with all of them returned. *)
Theorem full_methods_never_deadlock (s : FullWorld (T := T) (D := D)) (ps : list FullTask) w :
  Forall full_method ps -> rtc world_step (initial s ps) w ->
  ~ deadlocked w /\
  (forall q, first_waiter (w_tasks w) q -> ~ all_finished w -> can_go (w_state w) (w_tasks w) q) /\
  (fn_running (w_state w).2 = false ->
     Acc (fun w' w => world_step w w') w /\
     forall w', rtc world_step w w' -> fn_running (w_state w').2 = false /\ (stuck w' -> all_finished w')).
Proof.
  intros Hps Hr. apply (ordered_methods full_only_read full_rank full_stopped s ps w); [|done]. eapply Forall_impl; [exact Hps|].
  intros p Hp. split; [by apply full_method_in_order|by apply full_method_stops].
Qed.

(** C15: However blocks that are processed, submissions, lookups, status queries, the
    synchronisation loop and a stop interleave on a full node, no block is lost and none is
    counted twice: the chain only grows by blocks it accepts, and when all tasks have returned
    the counters have advanced by exactly the number of new blocks and of the transactions in
    them, as 64-bit counters. *)
Theorem full_node_counts_exact (d : D) (f : FullNode (T := T)) (c : Blockchain) (ps : list FullTask) w :
  Forall full_method ps -> fn_chain f = Some c ->
  is_u64 (nds_blocks_processed (fn_stats f)) -> is_u64 (nds_transactions_processed (fn_stats f)) ->
  rtc world_step (initial (d, f) ps) w ->
  exists c', fn_chain (w_state w).2 = Some c' /\ rtc appends c c' /\
    (reachable c -> len (bc_blocks c') < 2 ^ 64 -> reachable c') /\
    (all_finished w ->
      nds_blocks_processed (fn_stats (w_state w).2) =
        u64_add (nds_blocks_processed (fn_stats f)) (len (bc_blocks c') - len (bc_blocks c)) /\
      nds_transactions_processed (fn_stats (w_state w).2) =
        u64_add (nds_transactions_processed (fn_stats f)) (len (get_all_transactions c') - len (get_all_transactions c))).
Proof.
  intros Hps Hc Hu Hu' Hr.
  assert (world_keeps (full_grown_from c) w) as [(Hb & Ht & c' & Hc' & Hg) _].
  { eapply world_steps_keep; [done|]. apply initial_keeps; [split_and!; [done..|by exists c]|].
    eapply Forall_impl; [done|]. intros. by apply full_method_grows. }
  exists c'. split_and!; [done..|by eapply appended_reachable|]. intros Hf. rewrite <- !chain_weight_one, <- !chain_weight_txs. split.
  - eapply (counter_settled nds_blocks_processed (fun _ => 1) (d, f)); [|done..]. intros b st. apply Zmod_mod.
  - eapply (counter_settled nds_transactions_processed (fun b => len (block_transactions b)) (d, f)); [|done..]. intros b st. apply Zmod_mod.
Qed.

(** The full node has the validator's deadlock of [start] and [status]. *)
Theorem full_start_and_status_deadlock (i : NodeInputs) (now now' : Z) (d : D) (f : FullNode (T := T)) c s' :
  fn_running f = false -> full_open i (d, f) = (Ok c, s') ->
  exists w, rtc world_step (initial (d, f) [full_start_task i; full_status_task now now']) w /\ deadlocked w.
Proof.
  intros Hr Ho. destruct (full_status_waits now now' d f (full_start_task i)) as [k Hk].
  destruct (full_start_waits i d f c s' (mkTask [(FLComponents, false)] (Acq FLRunning false k)) Hr Ho eq_refl) as [k' Hk'].
  eexists. split; [by etrans|]. by apply inverted_locks_block.
Qed.
End full_node_properties.
