(* ===== verification/LightNodeTasks.v ===== *)
(** * The light node's methods as concurrent tasks: crates/node/src/light_node.rs

    As in NodeTasks and FullNodeTasks, with the locks of the light node.  It has no storage, so
    the shared state is the node alone. *)
From stdpp Require Import prelude gmap strings list pretty.
From Stdlib Require Import Strings.Byte.
From S2P Require Import Prelude Types Merkle Transaction Block Genesis Chain ChainProperties ValidatorSet ProofOfAuthority Crypto CryptoTools Cache Database BlockchainStore Jurisdiction StateStore Snapshot StorageManager Protocol Peer Gossip BlockSync Discovery Transport Network NodeConfig Node Tasks.

Local Open Scope Z_scope.

(** The locks: the fields of [LightNode]. *)
Inductive LightLock := LLNetwork | LLHeaders | LLVerified | LLTrusted | LLRunning | LLStartedAt | LLStats | LLHeight.
Global Instance LightLock_eq_dec : EqDecision LightLock.
Proof. solve_decision. Defined.

Inductive LightReply :=
| LUnit
| LStatus (s : NodeStatus)
| LStats (s : NodeStats)
| LBool (b : bool)
| LHash (h : BlockHash)
| LCount (n : Z)
| LTick
| LHeader (h : option LightHeader)
| LVerifiedTx (t : option VerifiedTransaction).
Definition light_reply {A : Type} (g : A -> LightReply) (r : VResult A) : VResult LightReply :=
  match r with Ok a => Ok (g a) | Err e => Err e | Panic => Panic end.

Section light_node_tasks.
Context {T : Type} `{Tcp T, HashCrate, HexCrate, BincodeTx, BincodeStore, ShuffleCrate, ChooseCrate, !Bincode HandshakeInfo,
  !Bincode PeerList, !Bincode BlockRequest, !Bincode BlockResponse, !Bincode Block, !Bincode TransactionRequest,
  !Bincode TransactionResponse, !Bincode Transaction, !Bincode StatusInfo, !Bincode DisconnectReason,
  !Bincode Gossip.BlockAnnouncement, !Bincode Gossip.TransactionAnnouncement, !Bincode Message}.

Definition LightTask : Type := Prog (LightNode (T := T)) LightLock LightReply.

(** A method that reads one field under its lock. *)
Definition read_task (l : LightLock) (g : LightNode (T := T) -> LightReply) : LightTask :=
  Acq l false (look (fun n => finish [(l, false)] (Ok (g n)))).
Definition get_header_task (height : Z) : LightTask := read_task LLHeaders (fun n => LHeader (get_header height n)).
Definition get_verified_transaction_task (id : TxId) : LightTask :=
  read_task LLVerified (fun n => LVerifiedTx (get_verified_transaction id n)).
Definition header_count_task : LightTask := read_task LLHeaders (fun n => LCount (header_count n)).
Definition verified_transaction_count_task : LightTask := read_task LLVerified (fun n => LCount (verified_transaction_count n)).
Definition trusted_validator_count_task : LightTask := read_task LLTrusted (fun n => LCount (trusted_validator_count n)).
Definition is_validator_trusted_task (v : PublicKey) : LightTask := read_task LLTrusted (fun n => LBool (is_validator_trusted v n)).
Definition light_stats_task : LightTask := read_task LLStats (fun n => LStats (ln_stats n)).
Definition light_is_running_task : LightTask := read_task LLRunning (fun n => LBool (ln_running n)).
Definition light_current_height_task : LightTask := read_task LLHeight (fun n => LCount (ln_current_height n)).

(** A method that changes the list of trusted validators under its lock. *)
Definition trust_task (g : LightNode (T := T) -> LightNode) : LightTask :=
  Acq LLTrusted true (call_ [(LLTrusted, true)] (modify g) (fun _ => finish [(LLTrusted, true)] (Ok LUnit))).
Definition add_trusted_validator_task (v : PublicKey) : LightTask := trust_task (add_trusted_validator v).
Definition remove_trusted_validator_task (v : PublicKey) : LightTask := trust_task (remove_trusted_validator v).

(** The guard of the headers lives to the end of [verify_transaction]. *)
Definition ln_add_verified (id : TxId) (v : VerifiedTransaction) (l : LightNode (T := T)) : LightNode :=
  mkLightNode (ln_config l) (ln_network l) (ln_block_headers l) (<[id := v]> (ln_verified_transactions l)) (ln_trusted_validators l)
    (ln_running l) (ln_started_at l) (ln_stats l) (ln_current_height l).
Definition ln_set_stats (stats : NodeStats) (l : LightNode (T := T)) : LightNode :=
  mkLightNode (ln_config l) (ln_network l) (ln_block_headers l) (ln_verified_transactions l) (ln_trusted_validators l)
    (ln_running l) (ln_started_at l) stats (ln_current_height l).
Definition verify_transaction_task (now : Z) (tx : Transaction) (block_height : Z) (merkle_proof : MerkleProof) : LightTask :=
  let held := [(LLHeaders, false)] in
  Acq LLHeaders false (look (fun n =>
  match ln_block_headers n !! block_height with
  | None => finish held (Err (BlockNotFound (pretty block_height)))
  | Some header =>
      if negb (verify_proof merkle_proof) then finish held (Ok (LBool false))
      else if negb (bool_decide (mp_root merkle_proof = lh_transactions_root header)) then finish held (Ok (LBool false))
      else
        Acq LLVerified true (
        call_ ((LLVerified, true) :: held)
          (modify (ln_add_verified (tx_id tx) (mkVerifiedTransaction tx block_height (lh_hash header) [] now))) (fun _ =>
        Rel LLVerified true (
        Acq LLStats true (
        call_ ((LLStats, true) :: held) (modify (fun l => ln_set_stats (count_transaction (ln_stats l)) l)) (fun _ =>
        finish ((LLStats, true) :: held) (Ok (LBool true)))))))
  end)).

Definition sync_headers_task : LightTask :=
  let held := [(LLNetwork, false)] in
  Acq LLNetwork false (look (fun n =>
  match ln_network n with
  | None => finish held (Ok LUnit)
  | Some _ => Acq LLHeight false (Rel LLHeight false (finish held (Ok LUnit)))
  end)).
Definition light_goes_on (r : VResult LightReply) : bool := match r with Ok LTick => true | _ => false end.
Definition header_sync_pass : LightTask :=
  Acq LLRunning false (look (fun n => Rel LLRunning false (
    if ln_running n then prog_bind sync_headers_task (fun r => Ret (match r with Panic => Panic | _ => Ok LTick end))
    else Ret (Ok LUnit)))).
Definition header_sync_loop_task : LightTask := Loop 0 (fun _ => header_sync_pass) light_goes_on Ret.

(** The height, and the hash of the header at that height, each under its own lock. *)
Definition read_best (k : Z -> BlockHash -> LightTask) : LightTask :=
  Acq LLHeight false (look (fun n => Rel LLHeight false (
  let current_height := ln_current_height n in
  Acq LLHeaders false (look (fun n => Rel LLHeaders false (
  k current_height (match ln_block_headers n !! current_height with Some h => lh_hash h | None => BlockHash_zero end))))))).
Definition light_best_hash_task : LightTask := read_best (fun _ hash => Ret (Ok (LHash hash))).

Definition light_stop_task : LightTask :=
  let held := [(LLRunning, true)] in
  Acq LLRunning true (look (fun n =>
  try_ held (ensure (ln_running n) NodeNotRunning) (fun _ =>
  call_ held (modify (fun l => ln_set_running false (ln_started_at l) l)) (fun _ =>
  let held := (LLNetwork, false) :: held in
  Acq LLNetwork false (look (fun n =>
  match ln_network n with
  | None => finish held (Ok LUnit)
  | Some _ => call_ held (ln_on_network network_stop) (fun _ => finish held (Ok LUnit))
  end)))))).

Definition light_status_task (now now' : Z) : LightTask :=
  Acq LLNetwork false (look (fun n =>
  let '(peers, syncing) :=
    match ln_network n with
    | Some net => (network_peer_count net, status_is_syncing (network_sync_status now net))
    | None => (0, false)
    end in
  read_best (fun height hash =>
  Acq LLStartedAt false (look (fun n => Rel LLStartedAt false (
  let started_at := ln_started_at n in
  Acq LLRunning false (look (fun n =>
  Rel LLNetwork false (Rel LLRunning false (
  Ret (Ok (LStatus (mkNodeStatus NLight (ln_running n) syncing height hash peers (uptime now' started_at) started_at))))))))))))).

(** [start], with [initialize] as it is between its locks. *)
Definition light_initialize_task (i : NodeInputs) (held : list (LightLock * bool)) (k : LightTask) : LightTask :=
  look (fun n =>
  try_ held (NetworkManager_new (ni_clock i 0) (network_config_of (ln_config n))) (fun network =>
  let set_network :=
    Acq LLNetwork true (call_ ((LLNetwork, true) :: held) (modify (ln_set_network (Some network))) (fun _ => Rel LLNetwork true k)) in
  match ndc_genesis_path (ln_config n) with
  | None => set_network
  | Some genesis_path =>
      try_ held (from_file (ni_read_to_string i) (ni_genesis_from_str i) genesis_path) (fun genesis =>
      Acq LLTrusted true (
      call_ ((LLTrusted, true) :: held) (modify (fun l => ln_set_trusted (ln_trusted_validators l ++ gb_validators genesis) l)) (fun _ =>
      Rel LLTrusted true (
      try_ held (light_genesis_block (ni_clock i 1) genesis) (fun genesis_block =>
      Acq LLHeaders true (
      call_ ((LLHeaders, true) :: held) (modify (ln_add_header 0 (header_from_block genesis_block))) (fun _ =>
      Rel LLHeaders true set_network)))))))
  end)).
Definition light_start_task (i : NodeInputs) : LightTask :=
  let held := [(LLRunning, true)] in
  Acq LLRunning true (look (fun n =>
  try_ held (ensure (negb (ln_running n)) NodeAlreadyRunning) (fun _ =>
  light_initialize_task i held (
  let held := (LLNetwork, false) :: held in
  Acq LLNetwork false (look (fun n =>
  match ln_network n with
  | None => finish held (Err NodeNotInitialized)
  | Some _ =>
      call_ held (ln_on_network (network_start (ni_clock i 2) (ni_random i))) (fun _ =>
      call_ held (modify (fun l => ln_set_running true (ln_started_at l) l)) (fun _ =>
      Acq LLStartedAt true (
      call_ ((LLStartedAt, true) :: held) (modify (fun l => ln_set_running (ln_running l) (Some (ni_clock i 3)) l)) (fun _ =>
      Rel LLStartedAt true (
      Rel LLRunning true (
      finish [(LLNetwork, false)] (Ok LUnit)))))))
  end)))))).

(** ** A task alone is the method *)
Definition as_light_task {A : Type} (g : A -> LightReply) (m : VStM (LightNode (T := T)) A) (n : LightNode) : VResult LightReply * LightNode :=
  let '(r, n') := m n in (light_reply g r, n').

Lemma light_look_alone (k : LightNode -> LightTask) n : run_alone (look k) n = run_alone (k n) n.
Proof. done. Qed.
Lemma light_acq_alone l w (k : LightTask) n : run_alone (Acq l w k) n = run_alone k n.
Proof. done. Qed.
Lemma light_rel_alone l w (k : LightTask) n : run_alone (Rel l w k) n = run_alone k n.
Proof. done. Qed.

Ltac alone := repeat (rewrite ?light_look_alone, ?light_acq_alone, ?light_rel_alone, ?run_alone_call, ?run_alone_try, ?run_alone_finish;
  cbn [fst snd]).

Lemma verify_transaction_alone now tx h proof n :
  run_alone (verify_transaction_task now tx h proof) n = as_light_task LBool (light_verify_transaction now tx h proof) n.
Proof.
  unfold verify_transaction_task, as_light_task, light_verify_transaction. alone. destruct (ln_block_headers n !! h) as [header|]; [|by alone].
  destruct (verify_proof proof); cbn [negb]; [|by alone]. case_bool_decide; cbn [negb]; by alone.
Qed.

Lemma read_best_alone k n : run_alone (read_best k) n = run_alone (k (ln_current_height n) (light_best_hash n)) n.
Proof. done. Qed.

Lemma light_stop_alone n : run_alone light_stop_task n = as_light_task (fun _ => LUnit) light_stop n.
Proof.
  unfold light_stop_task, as_light_task, light_stop. unfold mbind, stM_bind, mret, stM_ret, get, modify, lift. alone.
  destruct (ln_running n); [|done]. cbn [ensure]. alone. cbn [ln_set_running ln_network].
  destruct (ln_network n); alone; [|done]. by destruct (ln_on_network _ _) as [[?| |] n1]; alone.
Qed.

Lemma light_status_alone now now' n : run_alone (light_status_task now now') n = (Ok (LStatus (light_status now now' n)), n).
Proof. unfold light_status_task, light_status. alone. by destruct (ln_network n). Qed.

Lemma header_sync_pass_alone n : run_alone header_sync_pass n = (Ok (if ln_running n then LTick else LUnit), n).
Proof.
  unfold header_sync_pass. alone. destruct (ln_running n); [|done].
  rewrite run_alone_bind. unfold sync_headers_task. alone. by destruct (ln_network n); alone.
Qed.

Lemma light_initialize_alone i held k n :
  run_alone (light_initialize_task i held k) n =
  match light_initialize i n with (Ok _, n') => run_alone k n' | (Err e, n') => (Err e, n') | (Panic, n') => (Panic, n') end.
Proof.
  unfold light_initialize_task, light_initialize. unfold mbind, stM_bind, mret, stM_ret, get, modify, lift. alone.
  destruct (NetworkManager_new _ _) as [net| |]; [|done..]. destruct (ndc_genesis_path _) as [p|]; alone; [|done].
  destruct (from_file _ _ _) as [g| |]; [|done..]. alone. destruct (light_genesis_block _ g) as [b| |]; [|done..]. by alone.
Qed.

Lemma light_start_alone i n : run_alone (light_start_task i) n = as_light_task (fun _ => LUnit) (light_start i) n.
Proof.
  unfold light_start_task, as_light_task, light_start. unfold mbind, stM_bind, mret, stM_ret, get, modify, lift. alone.
  destruct (ln_running n); [done|]. cbn [negb ensure]. alone. rewrite light_initialize_alone.
  destruct (light_initialize i n) as [[u|e|] n1]; [|done..]. alone. destruct (ln_network n1) as [net|] eqn:En; alone.
  - destruct (ln_on_network _ n1) as [[?| |] n2]; [|done..]. by alone.
  - unfold ln_on_network. by rewrite En.
Qed.

(** ** The methods of a node that was started *)
Inductive light_method : LightTask -> Prop :=
| lm_read l g : light_method (read_task l g)
| lm_trust g : (forall n, ln_running (g n) = ln_running n) -> light_method (trust_task g)
| lm_verify now tx h proof : light_method (verify_transaction_task now tx h proof)
| lm_sync : light_method header_sync_loop_task
| lm_best : light_method light_best_hash_task
| lm_stop : light_method light_stop_task
| lm_status now now' : light_method (light_status_task now now').

(** They only read the network, the headers and the height. *)
Definition light_only_read (l : LightLock) : bool := match l with LLNetwork | LLHeaders | LLHeight => true | _ => false end.
Definition light_rank (l : LightLock) : nat := 0.
Abbreviation light_in_order := (disciplined light_only_read light_rank).

Lemma light_acq_in_order l w held (k : LightTask) :
  may_acquire light_only_read light_rank l w held -> light_in_order ((l, w) :: held) k -> light_in_order held (Acq l w k).
Proof. done. Qed.
Lemma light_look_in_order held (k : LightNode -> LightTask) : (forall n, light_in_order held (k n)) -> light_in_order held (look k).
Proof. done. Qed.
Lemma light_rel_in_order l w held held' (k : LightTask) :
  (l, w) ∈ held -> remove_held (l, w) held = held' -> light_in_order held' k -> light_in_order held (Rel l w k).
Proof. intros ? <- ?. done. Qed.

Ltac ordered := repeat lazymatch goal with
  | |- light_in_order _ (finish _ _) => apply finish_disciplined
  | |- light_in_order ((?l, ?w) :: _) (Rel ?l ?w _) => apply disciplined_drop
  | |- light_in_order _ (Rel _ _ _) => eapply light_rel_in_order; [set_solver|vm_compute; reflexivity|]
  | |- light_in_order _ (Acq _ _ _) => apply light_acq_in_order; [unfold may_acquire; cbn; repeat constructor; cbn; intros; done|]
  | |- light_in_order _ (try_ _ _ _) => apply try_disciplined; intros ? _
  | |- light_in_order _ (call_ _ _ _) => apply call_disciplined; intros ?
  | |- light_in_order _ (look _) => apply light_look_in_order; intros ?
  | |- light_in_order _ (match ?x with _ => _ end) => destruct x
  | |- light_in_order _ (Ret _) => done
  | |- _ => progress unfold read_best
  end.

Lemma sync_headers_in_order : light_in_order [] sync_headers_task.
Proof. unfold sync_headers_task. ordered. Qed.
Lemma light_method_in_order p : light_method p -> light_in_order [] p.
Proof.
  destruct 1.
  - unfold read_task. destruct l; ordered.
  - unfold trust_task. ordered.
  - unfold verify_transaction_task. ordered.
  - split; [done|]. split; [|done]. intros n. unfold header_sync_pass. ordered.
    apply bind_disciplined; [apply sync_headers_in_order|]. by intros [].
  - unfold light_best_hash_task. ordered.
  - unfold light_stop_task. ordered.
  - unfold light_status_task. ordered.
Qed.

(** ** A stopped node *)
Definition light_stopped (n : LightNode (T := T)) : Prop := ln_running n = false.
Abbreviation stays := (maintains light_stopped).

Ltac stay := repeat lazymatch goal with
  | |- stays (finish _ _) => apply finish_maintains
  | |- stays (Rel _ _ _) => cbn [maintains]
  | |- stays (Acq _ _ _) => cbn [maintains]
  | |- stays (try_ _ _ _) => apply try_maintains; intros ?
  | |- stays (call_ _ _ _) => apply call_maintains; [intros ? ?; try done|intros ?]
  | |- stays (look _) => apply look_maintains; intros ?
  | |- stays (match ?x with _ => _ end) => destruct x
  | |- stays (Ret _) => done
  | |- True => done
  | |- _ => progress unfold read_best
  end.
Ltac straight := repeat lazymatch goal with
  | |- loop_free (finish _ _) => apply finish_loop_free
  | |- loop_free (Rel _ _ _) => cbn [loop_free]
  | |- loop_free (Acq _ _ _) => cbn [loop_free]
  | |- loop_free (try_ _ _ _) => apply try_loop_free; intros ?
  | |- loop_free (call_ _ _ _) => apply call_loop_free; intros ?
  | |- loop_free (look _) => cbn [loop_free look]; intros ?
  | |- loop_free (match ?x with _ => _ end) => destruct x
  | |- loop_free (Ret _) => done
  | |- True => done
  | |- LightNode -> _ => intros ?
  | |- _ => progress unfold read_best
  end.

Lemma header_sync_stops : stays header_sync_loop_task /\ returns light_stopped header_sync_loop_task.
Proof.
  split; (split; [|done]); intros _; unfold header_sync_pass.
  - stay. apply bind_maintains; [|by intros []]. unfold sync_headers_task. stay.
  - split.
    + cbn [returns look]. intros n. destruct (ln_running n); [|done]. apply bind_returns; [|by intros []].
      apply loop_free_returns. unfold sync_headers_task. straight.
    + cbn [yields look]. intros n Hn. unfold light_stopped in Hn. by rewrite Hn.
Qed.

Lemma light_method_stops p : light_method p -> stays p /\ returns light_stopped p.
Proof.
  destruct 1 as [l g|g Hg|now tx h proof| | | |now now']; [..|apply header_sync_stops| | |]; (split; [|apply loop_free_returns]).
  1,2: unfold read_task; stay; straight.
  1,2: unfold trust_task; stay; straight; unfold light_stopped in *; cbn; congruence.
  1,2: unfold verify_transaction_task; stay; straight.
  1,2: unfold light_best_hash_task; stay; straight.
  1,2: unfold light_stop_task; stay; straight; unfold ln_on_network; by repeat case_match.
  1,2: unfold light_status_task; stay; straight.
Qed.

(** The methods of a started light node never deadlock, in whatever order the locks are
    served; once it has been stopped it stays so, and every run ends with all of them returned. *)
Theorem light_methods_never_deadlock (n : LightNode (T := T)) (ps : list LightTask) w :
  Forall light_method ps -> rtc world_step (initial n ps) w ->
  ~ deadlocked w /\
  (forall q, first_waiter (w_tasks w) q -> ~ all_finished w -> can_go (w_state w) (w_tasks w) q) /\
  (ln_running (w_state w) = false ->
     Acc (fun w' w => world_step w w') w /\
     forall w', rtc world_step w w' -> ln_running (w_state w') = false /\ (stuck w' -> all_finished w')).
Proof.
  intros Hps Hr. apply (ordered_methods light_only_read light_rank light_stopped n ps w); [|done]. eapply Forall_impl; [exact Hps|].
  intros p Hp. split; [by apply light_method_in_order|by apply light_method_stops].
Qed.

(** ** The lock inversion *)
#[local] Arguments NetworkManager_new : simpl never.
#[local] Arguments from_file : simpl never.
#[local] Arguments light_genesis_block : simpl never.
Ltac take i := eapply rtc_l; [eapply (world_task i); [reflexivity|constructor; try (repeat constructor; cbn; intros; done)]|cbn].

Lemma light_status_waits now now' n (q : LightTask) :
  exists k, rtc world_step (initial n [q; light_status_task now now'])
                           (mkWorld n [mkTask [] q; mkTask [(LLNetwork, false)] (Acq LLRunning false k)]).
Proof.
  unfold light_status_task, read_best, initial. cbn [fmap list_fmap]. destruct (ln_network n) as [net|] eqn:En; eexists;
    (take 1%nat; take 1%nat; rewrite En; do 9 take 1%nat; apply rtc_refl).
Qed.

(** [initialize] gets to where it sets the network. *)
Lemma light_start_waits i n u n' t :
  ln_running n = false -> light_initialize i n = (Ok u, n') -> t_held t = [(LLNetwork, false)] ->
  exists k n1, rtc world_step (mkWorld n [mkTask [] (light_start_task i); t])
                              (mkWorld n1 [mkTask [(LLRunning, true)] (Acq LLNetwork true k); t]).
Proof.
  intros Hr Hi Ht. destruct t as [held q]. cbn in Ht. subst held. unfold light_start_task, light_initialize_task. revert Hi.
  unfold light_initialize, mbind, stM_bind, mret, stM_ret, get, modify, lift. destruct (NetworkManager_new _ _) as [net| |] eqn:En; [|done..].
  destruct (ndc_genesis_path (ln_config n)) as [p|] eqn:Ep; intros Hi.
  - destruct (from_file _ _ _) as [g| |] eqn:Eg; [|done..]. destruct (light_genesis_block _ g) as [b| |] eqn:Eb; [|done..].
    eexists _, _. take 0%nat. take 0%nat. rewrite Hr. cbn. take 0%nat. rewrite En. cbn. rewrite Ep. cbn. rewrite Eg. cbn.
    take 0%nat. take 0%nat. take 0%nat. rewrite Eb. cbn. take 0%nat. take 0%nat. take 0%nat. apply rtc_refl.
  - eexists _, _. take 0%nat. take 0%nat. rewrite Hr. cbn. take 0%nat. rewrite En. cbn. rewrite Ep. cbn. apply rtc_refl.
Qed.

(** The light node, too, has the deadlock of [start] and [status]. *)
Theorem light_start_and_status_deadlock (i : NodeInputs) (now now' : Z) (n : LightNode (T := T)) u n' :
  ln_running n = false -> light_initialize i n = (Ok u, n') ->
  exists w, rtc world_step (initial n [light_start_task i; light_status_task now now']) w /\ deadlocked w.
Proof.
  intros Hr Hi. destruct (light_status_waits now now' n (light_start_task i)) as [k Hk].
  destruct (light_start_waits i n u n' (mkTask [(LLNetwork, false)] (Acq LLRunning false k)) Hr Hi eq_refl) as (k' & n1 & Hk').
  eexists. split; [by etrans|]. by apply inverted_locks_block.
Qed.
End light_node_tasks.
