(* ===== verification/Concrete.v ===== *)
(** * Concrete serializers, signatures and encryption

    Instances of the remaining external crates for the examples: an injective
    serializer from stdpp's [Countable], a keyed checksum in place of Ed25519 and a
    tag-and-copy cipher in place of ChaCha20-Poly1305.  They show that the hypotheses
    [BincodeTxSpec], [BincodeBallotSpec], [Ed25519Spec] and [AeadSpec] can hold; they
    have no cryptographic strength and no theorem about the program depends on them. *)
From stdpp Require Import prelude gmap strings list countable.
From Stdlib Require Import Strings.Byte.
From S2P Require Import Prelude Types Instances Transaction Crypto Voter Ballot.

Local Open Scope Z_scope.

(** ** Serialization *)
Fixpoint pos_bytes (p : positive) : list byte :=
  match p with
  | xH => []
  | xO p' => x00 :: pos_bytes p'
  | xI p' => x01 :: pos_bytes p'
  end.

Fixpoint bytes_pos (l : list byte) : positive :=
  match l with
  | [] => xH
  | x00 :: l' => xO (bytes_pos l')
  | _ :: l' => xI (bytes_pos l')
  end.

Lemma bytes_pos_bytes p : bytes_pos (pos_bytes p) = p.
Proof. induction p; cbn; congruence. Qed.

Definition serialize_with {A} `{Countable A} (a : A) : list byte := pos_bytes (encode a).
Definition deserialize_with {A} `{Countable A} (l : list byte) : option A := decode (bytes_pos l).

Lemma deserialize_serialize {A} `{Countable A} (a : A) : deserialize_with (serialize_with a) = Some a.
Proof. unfold deserialize_with, serialize_with. by rewrite bytes_pos_bytes, decode_encode. Qed.

Lemma serialize_with_inj {A} `{Countable A} (a b : A) : serialize_with a = serialize_with b -> a = b.
Proof.
  intros E. apply (f_equal (deserialize_with (A := A))) in E.
  rewrite !deserialize_serialize in E. congruence.
Qed.

Global Instance Signature_countable : Countable Signature.
Proof. by apply (inj_countable' signature_bytes mkSignature); intros []. Defined.

Global Instance VoteTransaction_eq_dec : EqDecision VoteTransaction.
Proof. solve_decision. Defined.
Global Instance VoteTransaction_countable : Countable VoteTransaction.
Proof.
  by apply (inj_countable'
    (fun v => (vt_election_id v, vt_encrypted_vote v, vt_validity_proof v, vt_voter_signature v))
    (fun '(a, b, c, d) => mkVoteTransaction a b c d)); intros [].
Defined.

Global Instance ValidatorMetadata_eq_dec : EqDecision ValidatorMetadata.
Proof. solve_decision. Defined.
Global Instance ValidatorMetadata_countable : Countable ValidatorMetadata.
Proof.
  by apply (inj_countable' (fun v => (vm_name v, vm_organization v, vm_contact v))
    (fun '(a, b, c) => mkValidatorMetadata a b c)); intros [].
Defined.

Global Instance ValidatorRegistration_eq_dec : EqDecision ValidatorRegistration.
Proof. solve_decision. Defined.
Global Instance ValidatorRegistration_countable : Countable ValidatorRegistration.
Proof.
  by apply (inj_countable' (fun v => (vr_validator_key v, vr_metadata v, vr_authorizing_signature v))
    (fun '(a, b, c) => mkValidatorRegistration a b c)); intros [].
Defined.

Global Instance ValidatorRemoval_eq_dec : EqDecision ValidatorRemoval.
Proof. solve_decision. Defined.
Global Instance ValidatorRemoval_countable : Countable ValidatorRemoval.
Proof.
  by apply (inj_countable' (fun v => (vrm_validator_key v, vrm_reason v, vrm_authorizing_signature v))
    (fun '(a, b, c) => mkValidatorRemoval a b c)); intros [].
Defined.

Global Instance TxCandidate_eq_dec : EqDecision Transaction.Candidate.
Proof. solve_decision. Defined.
Global Instance TxCandidate_countable : Countable Transaction.Candidate.
Proof.
  by apply (inj_countable' (fun v => (cand_id v, cand_name v, cand_party v, cand_metadata v))
    (fun '(a, b, c, d) => Transaction.mkCandidate a b c d)); intros [].
Defined.

Global Instance ElectionCreation_eq_dec : EqDecision ElectionCreation.
Proof. solve_decision. Defined.
Global Instance ElectionCreation_countable : Countable ElectionCreation.
Proof.
  by apply (inj_countable'
    (fun v => (ec_election_id v, ec_name v, ec_description v, ec_candidates v, ec_start_time v,
               ec_end_time v, ec_authority_signature v))
    (fun '(a, b, c, d, e, f, g) => mkElectionCreation a b c d e f g)); intros [].
Defined.

Global Instance ElectionClosure_eq_dec : EqDecision ElectionClosure.
Proof. solve_decision. Defined.
Global Instance ElectionClosure_countable : Countable ElectionClosure.
Proof.
  by apply (inj_countable' (fun v => (ecl_election_id v, ecl_results v, ecl_authority_signature v))
    (fun '(a, b, c) => mkElectionClosure a b c)); intros [].
Defined.

Global Instance TransactionType_eq_dec : EqDecision TransactionType.
Proof. solve_decision. Defined.
Global Instance TransactionType_countable : Countable TransactionType.
Proof.
  by apply (inj_countable'
    (fun t => match t with
       | Vote v => inl v
       | TxValidatorRegistration r => inr (inl r)
       | TxValidatorRemoval r => inr (inr (inl r))
       | TxElectionCreation c => inr (inr (inr (inl c)))
       | TxElectionClosure c => inr (inr (inr (inr c)))
       end)
    (fun s => match s with
       | inl v => Vote v
       | inr (inl r) => TxValidatorRegistration r
       | inr (inr (inl r)) => TxValidatorRemoval r
       | inr (inr (inr (inl c))) => TxElectionCreation c
       | inr (inr (inr (inr c))) => TxElectionClosure c
       end)); intros [].
Defined.

Global Instance concrete_bincode_tx : BincodeTx := {|
  bincode_tx_type := fun t => Some (serialize_with t);
  bincode_tx := fun tx => Some (serialize_with (tx_type tx, tx_timestamp tx, tx_nonce tx))
|}.

Global Instance concrete_bincode_tx_spec : BincodeTxSpec.
Proof.
  split.
  - intros t. by eexists.
  - intros t u bs [= <-] [= E]. by apply serialize_with_inj in E.
Qed.

Global Instance BallotType_countable : Countable BallotType.
Proof.
  by apply (inj_countable'
    (fun t => match t with
       | SingleChoice => inl 0 | Approval => inl 1 | WriteIn => inl 2
       | MultipleChoice m => inr (inl m) | RankedChoice m => inr (inr m)
       end)
    (fun s => match s with
       | inl 0 => SingleChoice | inl 1 => Approval | inl _ => WriteIn
       | inr (inl m) => MultipleChoice m | inr (inr m) => RankedChoice m
       end)); intros [].
Defined.

Global Instance BallotChoice_eq_dec : EqDecision BallotChoice.
Proof. solve_decision. Defined.
Global Instance BallotChoice_countable : Countable BallotChoice.
Proof.
  by apply (inj_countable' (fun c => (bc_candidate_id c, bc_rank c, bc_write_in_name c))
    (fun '(a, b, c) => mkBallotChoice a b c)); intros [].
Defined.

Global Instance Ballot_eq_dec : EqDecision Ballot.
Proof. solve_decision. Defined.
Global Instance Ballot_countable : Countable Ballot.
Proof.
  by apply (inj_countable'
    (fun b => (b_ballot_id b, b_election_id b, b_ballot_type b, b_choices b, b_timestamp b, b_version b))
    (fun '(a, b, c, d, e, f) => mkBallot a b c d e f)); intros [].
Defined.

Global Instance concrete_bincode_ballot : BincodeBallot := {|
  bincode_ballot := fun b => inl (serialize_with b);
  bincode_ballot_decode := fun data =>
    match deserialize_with data with Some b => inl b | None => inr "invalid data"%string end
|}.

Global Instance concrete_bincode_ballot_spec : BincodeBallotSpec.
Proof. split. intros b data _ E. injection E as <-. cbn. by rewrite deserialize_serialize. Qed.

(** ** Signatures and encryption *)
Definition toy_sign (sk : array 32) (msg : list byte) : array 64 :=
  exist _ (le_bytes 64 (checksum (array_list sk ++ msg))) (length_le_bytes 64 _).

(** The "public key" is the secret key. *)
Global Instance concrete_ed25519 : Ed25519Crate := {|
  ed_public := fun sk => sk;
  ed_sign := toy_sign;
  ed_key_error := fun _ => None;
  ed_verify := fun pk msg sig => bool_decide (sig = toy_sign pk msg)
|}.

Global Instance concrete_ed25519_spec : Ed25519Spec.
Proof. split; [done|]. intros sk msg. by apply bool_decide_eq_true. Qed.

Definition toy_tag (key : array 32) (nonce : array 12) (p : list byte) : list byte :=
  le_bytes 16 (checksum (array_list key ++ array_list nonce ++ p)).

Global Instance concrete_aead : AeadCrate := {|
  aead_encrypt := fun key nonce p => inl (toy_tag key nonce p ++ p);
  aead_decrypt := fun key nonce c =>
    if bool_decide (take 16 c = toy_tag key nonce (drop 16 c)) then inl (drop 16 c)
    else inr "authentication failed"%string
|}.

Global Instance concrete_aead_spec : AeadSpec.
Proof.
  split. intros key nonce p c E.
  change (inl (toy_tag key nonce p ++ p) = (inl c : list byte + string)) in E.
  assert (toy_tag key nonce p ++ p = c) as <- by congruence. unfold aead_decrypt, concrete_aead.
  assert (length (toy_tag key nonce p) = 16%nat) as Hl by apply length_le_bytes.
  rewrite take_app_length', drop_app_length' by done. by rewrite bool_decide_true.
Qed.
