(* ===== verification/ServiceInstances.v ===== *)
(** * Concrete storage, network and generator crates

    Instances of the external crates behind storage, network and nodes for the examples: maps
    in place of RocksDB, Sled and the file system, a list in place of the LRU cache, byte
    queues in place of TCP streams, and deterministic choices in place of the generator.  They
    show that the hypotheses about those crates can hold; no theorem about the program depends
    on them. *)
From stdpp Require Import prelude gmap strings list countable.
From Stdlib Require Import Strings.Byte Sorting.Sorted.
From S2P Require Import Prelude Floats64 Types Instances Transaction Block Concrete Cache Database BlockchainStore Jurisdiction StateStore Snapshot Protocol Peer Gossip Transport.

Local Open Scope Z_scope.

(** ** Databases *)
Definition kv_leb (a b : key * value) : bool := bytes_leb a.1 b.1.

(** The keys that start with this byte cannot be read by a scan, and not be written. *)
Definition bad_prefix : key := [xff].

Definition faulty (k : key) : bool := starts_with k bad_prefix.

(** A write that fails for faulty keys. *)
Definition checked_write (k : key) (db' db : gmap key value) : option string * gmap key value :=
  if faulty k then (Some "corruption"%string, db) else (None, db').

Definition seek_entries (db : gmap key value) (p : key) : list (key * value) :=
  sort_by kv_leb (filter (fun kv => bytes_leb p kv.1 = true) (map_to_list db)).

Global Instance concrete_rocks : RocksCrate := {|
  rocks_db := gmap key value;
  rocks_open := fun _ _ => inl ∅;
  rocks_get := fun db k => (inl (db !! k), db);
  rocks_put := fun db k v => checked_write k (<[k := v]> db) db;
  rocks_delete := fun db k => checked_write k (delete k db) db;
  rocks_seek := fun db p => if faulty p then ([], Some "corruption"%string, db) else (seek_entries db p, None, db);
  rocks_write := fun db ops => (None, apply_batch ops db);
  rocks_flush := fun db => (None, db);
  rocks_compact_range := fun db => db;
  rocks_property_value := fun _ _ => inl None
|}.

Lemma seek_entries_nodup db p : NoDup (seek_entries db p).*1.
Proof.
  unfold seek_entries. rewrite sort_by_perm.
  rewrite <- (filter_keys (fun k => bytes_leb p k)). apply list.NoDup_filter, NoDup_fst_map_to_list.
Qed.

Global Instance concrete_rocks_spec : RocksSpec.
Proof.
  apply (Build_RocksSpec concrete_rocks (fun db => db)); cbn; unfold checked_write; try (intros; case_match; naive_solver); try naive_solver.
  intros db p iter status db'. destruct (faulty p); intros E; injection E as <- <- <-.
  - split_and!; [done|constructor|constructor|by intros ?? ?%not_elem_of_nil|done].
  - split_and!; [done| |apply seek_entries_nodup| |].
    + apply (sort_by_sorted kv_leb); [intros; apply bytes_leb_total|intros x y z; apply bytes_leb_trans].
    + intros k v. unfold seek_entries. rewrite sort_by_perm, list_elem_of_filter, elem_of_map_to_list. naive_solver.
    + intros _ k v. unfold seek_entries. rewrite sort_by_perm, list_elem_of_filter, elem_of_map_to_list. naive_solver.
Defined.

Global Instance concrete_sled : SledCrate := {|
  sled_db := gmap key value;
  sled_open := fun _ _ => inl ∅;
  sled_get := fun db k => (inl (db !! k), db);
  sled_insert := fun db k v => checked_write k (<[k := v]> db) db;
  sled_remove := fun db k => checked_write k (delete k db) db;
  sled_contains_key := fun db k => (inl (bool_decide (is_Some (db !! k))), db);
  sled_scan_prefix := fun db p => (if faulty p then [inr "corruption"%string] else inl <$> with_prefix p db, db);
  sled_apply_batch := fun db ops => (None, apply_batch ops db);
  sled_flush := fun db => (None, db);
  sled_size_on_disk := fun _ => inl 0;
  sled_len := fun db => Z.of_nat (size db)
|}.

Lemma readable_inl (l : list (key * value)) : readable (inl <$> l) = l.
Proof. induction l as [|kv l IH]; [done|]. cbn. f_equal. exact IH. Qed.

Global Instance concrete_sled_spec : SledSpec.
Proof.
  apply (Build_SledSpec concrete_sled (fun db => db)); cbn; unfold checked_write; try (intros; case_match; naive_solver); try naive_solver.
  intros db p results db' E. injection E as <- <-. destruct (faulty p).
  - split_and!; [done|constructor|by intros k v ?%list_elem_of_singleton|]. intros Hno. destruct (Hno "corruption"%string). set_solver.
  - rewrite readable_inl. split_and!; [done|apply with_prefix_keys_nodup| |].
    + intros k v (kv & E & Hkv)%list_elem_of_fmap. injection E as <-. by apply with_prefix_elem.
    + intros _ k v Hk Hp. by apply list_elem_of_fmap_2, with_prefix_elem.
Defined.

(** ** The LRU cache: most recent entry first *)
Record LruList (K V : Type) := mkLruList { ll_cap : Z; ll_items : list (K * V) }.
Arguments mkLruList {K V}.
Arguments ll_cap {K V}.
Arguments ll_items {K V}.

Definition ll_put {K V} `{EqDecision K} (k : K) (v : V) (c : LruList K V) : LruList K V :=
  mkLruList (ll_cap c) (take (Z.to_nat (ll_cap c)) ((k, v) :: without k (ll_items c))).
Definition ll_get {K V} `{EqDecision K} (k : K) (c : LruList K V) : option V * LruList K V :=
  match assoc k (ll_items c) with
  | Some v => (Some v, mkLruList (ll_cap c) ((k, v) :: without k (ll_items c)))
  | None => (None, c)
  end.

Global Instance concrete_lru : LruCrate := {|
  LruCache := LruList;
  lru_new := fun K V n => mkLruList n [];
  lru_put := fun K V _ => ll_put;
  lru_get := fun K V _ => ll_get;
  lru_peek := fun K V _ k c => assoc k (ll_items c);
  lru_contains := fun K V _ k c => bool_decide (is_Some (assoc k (ll_items c)));
  lru_pop := fun K V _ k c => (assoc k (ll_items c), mkLruList (ll_cap c) (without k (ll_items c)));
  lru_clear := fun K V c => mkLruList (ll_cap c) [];
  lru_resize := fun K V n c => mkLruList n (take (Z.to_nat n) (ll_items c));
  lru_len := fun K V c => len (ll_items c);
  lru_cap := fun K V => ll_cap;
  lru_items := fun K V => ll_items
|}.

Global Instance concrete_lru_spec : LruSpec.
Proof. split; intros; cbn; try done; unfold ll_get; by destruct (assoc _ _). Qed.

(** ** Files *)
Record FakeDisk := mkFakeDisk { fd_dirs : gset string; fd_files : gmap FilePath (list byte) }.

Global Instance concrete_fs : FileSystem FakeDisk := {|
  fs_dir_exists := fun s d => bool_decide (d ∈ fd_dirs s);
  fs_create_dir_all := fun d s => (Ok tt, mkFakeDisk ({[d]} ∪ fd_dirs s) (fd_files s));
  fs_exists := fun s p => bool_decide (is_Some (fd_files s !! p));
  fs_create := fun p s => (Ok tt, mkFakeDisk (fd_dirs s) (<[p := []]> (fd_files s)));
  fs_append := fun p bs s =>
    match fd_files s !! p with
    | Some old => (Ok tt, mkFakeDisk (fd_dirs s) (<[p := old ++ bs]> (fd_files s)))
    | None => (Err "not found"%string, s)
    end;
  fs_read := fun p s => match fd_files s !! p with Some bs => (Ok bs, s) | None => (Err "not found"%string, s) end;
  fs_read_dir := fun d s =>
    (Ok (inl <$> filter (fun p => fp_dir p = d) (map_to_list (fd_files s)).*1), s);
  fs_remove_file := fun p s => (Ok tt, mkFakeDisk (fd_dirs s) (delete p (fd_files s)))
|}.

Global Instance concrete_fs_spec : FileSystemSpec FakeDisk.
Proof.
  apply (Build_FileSystemSpec FakeDisk concrete_fs fd_files); cbn.
  - done.
  - by intros p s s' [= <-].
  - intros p bs old s s' E Hold. rewrite Hold in E. by injection E as <-.
  - intros p bs s s'. destruct (fd_files s !! p) eqn:E; [|done]. by intros [= <- <-].
  - intros p e s s'. destruct (fd_files s !! p); [done|]. by intros [= _ <-].
  - intros p s. by destruct (fd_files s !! p).
  - by intros p s s' [= <-].
Defined.

(** ** Serialization of the stored records *)
Definition countable_encode {A} `{Countable A} (a : A) : list byte + string := inl (serialize_with a).
Definition countable_decode {A} `{Countable A} (l : list byte) : A + string :=
  match deserialize_with l with Some a => inl a | None => inr "invalid data"%string end.

Lemma countable_decode_encode {A} `{Countable A} (a : A) :
  exists d, countable_encode a = inl d /\ countable_decode d = inl a.
Proof. eexists. split; [done|]. unfold countable_decode. by rewrite deserialize_serialize. Qed.

Global Instance BlockHeader_eq_dec : EqDecision BlockHeader.
Proof. solve_decision. Defined.
Global Instance BlockHeader_countable : Countable BlockHeader.
Proof.
  by apply (inj_countable'
    (fun h => (bh_height h, bh_timestamp h, bh_previous_hash h, bh_transactions_root h, bh_hash h, bh_validator h,
               bh_transaction_count h))
    (fun '(a, b, c, d, e, f, g) => mkBlockHeader a b c d e f g)); intros [].
Defined.
Global Instance Transaction_eq_dec : EqDecision Transaction.
Proof. solve_decision. Defined.
Global Instance Transaction_countable : Countable Transaction.
Proof.
  by apply (inj_countable' (fun t => (tx_id t, tx_type t, tx_timestamp t, tx_nonce t))
    (fun '(a, b, c, d) => mkTransaction a b c d)); intros [].
Defined.
Global Instance ValidatorSignature_eq_dec : EqDecision ValidatorSignature.
Proof. solve_decision. Defined.
Global Instance ValidatorSignature_countable : Countable ValidatorSignature.
Proof.
  by apply (inj_countable' (fun s => (vs_validator s, vs_signature s)) (fun '(a, b) => mkValidatorSignature a b)); intros [].
Defined.
Global Instance Block_eq_dec : EqDecision Block.
Proof. solve_decision. Defined.
Global Instance Block_countable : Countable Block.
Proof.
  by apply (inj_countable' (fun b => (block_header b, block_transactions b, block_signatures b))
    (fun '(a, b, c) => mkBlock a b c)); intros [].
Defined.
Global Instance TxLocation_eq_dec : EqDecision TxLocation.
Proof. solve_decision. Defined.
Global Instance TxLocation_countable : Countable TxLocation.
Proof.
  by apply (inj_countable' (fun l => (tl_block_height l, tl_block_hash l)) (fun '(a, b) => mkTxLocation a b)); intros [].
Defined.
Global Instance ChainMetadata_eq_dec : EqDecision ChainMetadata.
Proof. solve_decision. Defined.
Global Instance ChainMetadata_countable : Countable ChainMetadata.
Proof.
  by apply (inj_countable'
    (fun m => (cm_chain_height m, cm_genesis_hash m, cm_latest_block_hash m, cm_latest_block_timestamp m,
               cm_total_transactions m, cm_last_updated m))
    (fun '(a, b, c, d, e, f) => mkChainMetadata a b c d e f)); intros [].
Defined.

Global Instance concrete_bincode_store : BincodeStore := {|
  bincode_block := countable_encode;
  bincode_block_decode := countable_decode;
  bincode_location := countable_encode;
  bincode_location_decode := countable_decode;
  bincode_metadata := countable_encode;
  bincode_metadata_decode := countable_decode
|}.

Global Instance concrete_bincode_store_spec : BincodeStoreSpec.
Proof. split; intros; apply countable_decode_encode. Qed.

Global Instance SnapshotMetadata_eq_dec : EqDecision SnapshotMetadata.
Proof. solve_decision. Defined.
Global Instance SnapshotMetadata_countable : Countable SnapshotMetadata.
Proof.
  by apply (inj_countable'
    (fun m => (sm_version m, sm_block_height m, sm_block_hash m, sm_created_at m, sm_size_bytes m, sm_block_count m,
               sm_transaction_count m, sm_checksum m, sm_chain_id m))
    (fun '(a, b, c, d, e, f, g, h, i) => mkSnapshotMetadata a b c d e f g h i)); intros [].
Defined.
Global Instance concrete_json_snapshot : JsonSnapshot :=
  {| json_metadata := serialize_with; json_metadata_decode := countable_decode |}.
Global Instance concrete_json_snapshot_spec : JsonSnapshotSpec.
Proof. split. intros md. cbn. unfold countable_decode. by rewrite deserialize_serialize. Qed.

(** The stored elections are only written in the examples. *)
Global Instance CandidateInfo_eq_dec : EqDecision CandidateInfo.
Proof. solve_decision. Defined.
Global Instance CandidateInfo_countable : Countable CandidateInfo.
Proof.
  by apply (inj_countable' (fun c => (ci_id c, ci_name c, ci_party c, ci_metadata c)) (fun '(a, b, c, d) => mkCandidateInfo a b c d)); intros [].
Defined.
Global Instance ElectionState_eq_dec : EqDecision ElectionState.
Proof. solve_decision. Defined.
Global Instance ElectionState_countable : Countable ElectionState.
Proof.
  by apply (inj_countable'
    (fun e => (es_id e, es_name e, es_description e, es_jurisdiction_path e, es_candidates e, es_start_time e, es_end_time e,
               es_total_votes e, es_is_active e, es_is_finalized e, es_created_at_height e, es_closed_at_height e))
    (fun '(a, b, c, d, e, f, g, h, i, j, k, l) => mkElectionState a b c d e f g h i j k l)); intros [].
Defined.

Global Instance concrete_bincode_election : BincodeElection := {|
  bincode_election := fun e => inl (serialize_with e);
  bincode_election_decode := fun data =>
    match deserialize_with data with Some e => inl e | None => inr "invalid data"%string end
|}.
Global Instance concrete_bincode_election_spec : BincodeElectionSpec.
Proof. split. intros e _. exists (serialize_with e). cbn. by rewrite deserialize_serialize. Qed.

Global Instance concrete_bincode_block : Bincode Block :=
  {| bincode_encode := countable_encode; bincode_decode := countable_decode |}.
Global Instance concrete_bincode_transaction : Bincode Transaction :=
  {| bincode_encode := countable_encode; bincode_decode := countable_decode |}.
Global Instance concrete_bincode_request : Bincode BlockRequest := {|
  bincode_encode := fun r => countable_encode (br_start_height r, br_end_height r, br_max_blocks r);
  bincode_decode := fun l =>
    match countable_decode l with inl (a, b, c) => inl (mkBlockRequest a b c) | inr e => inr e end
|}.
(** Announcements are only written in the examples. *)
Global Instance concrete_bincode_block_announcement : Bincode BlockAnnouncement :=
  {| bincode_encode := fun _ => inl []; bincode_decode := fun _ => inr "invalid data"%string |}.
Global Instance concrete_bincode_tx_announcement : Bincode TransactionAnnouncement :=
  {| bincode_encode := fun _ => inl []; bincode_decode := fun _ => inr "invalid data"%string |}.

(** ** The generator *)
Global Instance concrete_shuffle : ShuffleCrate := {| rand_shuffle := fun A _ l => reverse l |}.
Global Instance concrete_shuffle_spec : ShuffleSpec.
Proof. split. intros. cbn. apply reverse_Permutation. Qed.
Global Instance concrete_choose : ChooseCrate := {| rand_choose := fun A _ l => head l |}.
Global Instance concrete_choose_spec : ChooseSpec.
Proof. split; intros A seed [|x l]; cbn; naive_solver (set_solver || eauto). Qed.

(** ** Streams: the bytes to read and those written *)
Record FakeStream := mkFakeStream { fst_in : list byte; fst_out : list byte }.
Global Instance concrete_tcp : Tcp FakeStream := {|
  tcp_write_all := fun bs s => (Ok tt, mkFakeStream (fst_in s) (fst_out s ++ bs));
  tcp_flush := fun s => (Ok tt, s);
  tcp_read_exact := fun _ n s =>
    if bool_decide (length (fst_in s) < n)%nat then (Err ReadTimeout, s)
    else (Ok (take n (fst_in s)), mkFakeStream (drop n (fst_in s)) (fst_out s));
  tcp_shutdown := fun s => (Ok tt, s);
  tcp_bind := fun _ => None;
  tcp_connect := fun _ _ => inl (mkFakeStream [] [])
|}.
