(* ===== verification/ChainExamples.v ===== *)
(** * Examples: Merkle trees and chains

    A concrete chain with a genesis block and a block with one vote, and the
    theorems about Merkle trees, genesis and chains applied to it. *)
From stdpp Require Import prelude gmap strings list pretty.
From Stdlib Require Import Strings.Byte.
From S2P Require Import Prelude Types Instances Merkle Transaction Block Genesis Chain ChainProperties Concrete.

Local Open Scope Z_scope.

(** ** Helpers *)
Definition get_ok {A} (d : A) (r : VResult A) : A := match r with Ok a => a | _ => d end.

Lemma get_ok_eq {A} (d : A) (r : VResult A) : is_ok r = true -> r = Ok (get_ok d r).
Proof. by destruct r. Qed.

(** A test for [no_collision] that hashes every input once. *)
Definition no_collision_test `{HashCrate} (D D' : list (list byte)) : bool :=
  let hashed := map (fun y => (blake2b256 y, y)) D' in
  forallb (fun x => let h := blake2b256 x in
    forallb (fun '(h', y) => negb (bool_decide (h = h')) || bool_decide (x = y)) hashed) D.

Lemma no_collision_test_sound `{HashCrate} D D' : no_collision_test D D' = true -> no_collision D D'.
Proof.
  unfold no_collision_test. rewrite forallb_forall. intros Ht x y Hx Hy E.
  apply list_elem_of_In, Ht in Hx. rewrite forallb_forall in Hx.
  specialize (Hx (blake2b256 y, y)). cbn in Hx. rewrite (bool_decide_true (blake2b256 x = _)) in Hx by done.
  apply (bool_decide_eq_true (x = y)), Hx, in_map_iff. exists y.
  split; [done|]. by apply list_elem_of_In.
Qed.

(** ** Merkle trees *)
Definition leaf (b : byte) : BlockHash := mkBlockHash (array_fill 32 b).
Definition ex_leaves : list BlockHash := [leaf x01; leaf x02; leaf x03].
Definition ex_tree : MerkleTree := get_ok (mkMerkleTree BlockHash_zero [] []) (MerkleTree_new ex_leaves).
Definition ex_proof : MerkleProof :=
  match generate_proof ex_tree 2 with Ok (Some p) => p | _ => mkMerkleProof BlockHash_zero 0 [] BlockHash_zero end.

Lemma ex_tree_ok : MerkleTree_new ex_leaves = Ok ex_tree.
Proof. apply get_ok_eq. by vm_compute. Qed.

Lemma verify_proof_sound_witness :
  verify_proof ex_proof = true /\ mp_leaf_hash ex_proof ∈ ex_leaves.
Proof.
  split; [by vm_compute|]. apply (verify_proof_sound ex_leaves ex_tree ex_proof).
  - done.
  - exact ex_tree_ok.
  - by vm_compute.
  - by vm_compute.
  - by vm_compute.
  - apply no_collision_test_sound. by vm_compute.
Defined.

Lemma merkle_root_binding_witness : ex_leaves = [leaf x01; leaf x02; leaf x03].
Proof.
  apply (merkle_root_binding ex_leaves [leaf x01; leaf x02; leaf x03] ex_tree ex_tree).
  - exact ex_tree_ok.
  - exact ex_tree_ok.
  - done.
  - done.
  - apply no_collision_test_sound. by vm_compute.
Defined.

(** ** A chain *)
Definition ex_genesis : GenesisBlock := GenesisBlock_new [key_of x01] 1000.
Definition ex_c0 : Blockchain :=
  get_ok (mkBlockchain [] ∅ ∅ 0 BlockHash_zero) (Blockchain_new 5 ex_genesis).
Definition ex_tx : Transaction :=
  get_ok (mkTransaction (mkTxId (array_fill 32 x00)) (Vote (mkVoteTransaction election0 [] None sig0)) 0 0)
    (Transaction_new_with_params (Vote (mkVoteTransaction election0 [x2a] None sig0)) 1001 7).
Definition no_block : Block :=
  mkBlock (mkBlockHeader 0 0 BlockHash_zero BlockHash_zero BlockHash_zero (key_of x00) 0) [] [].
(** The block of transactions [txs] at time [t] on top of [c]. *)
Definition next_block (c : Blockchain) (t : Z) (txs : list Transaction) : Block :=
  get_ok no_block (Block_new t (bc_height c + 1) (block_hash (get_ok no_block (latest_block c))) txs (key_of x01)).
Definition ex_b1 : Block := next_block ex_c0 1010 [ex_tx].
Definition ex_c1 : Blockchain := snd (add_block ex_b1 ex_c0).

Lemma ex_c0_reachable : reachable ex_c0.
Proof. apply (reachable_new 5 ex_genesis), get_ok_eq. by vm_compute. Qed.

Lemma ex_c1_reachable : reachable ex_c1.
Proof.
  apply (reachable_add ex_c0 ex_b1 (fst (add_block ex_b1 ex_c0)));
    [exact ex_c0_reachable|by vm_compute|exact (surjective_pairing _)].
Qed.

Lemma ex_b1_accepted : fst (add_block ex_b1 ex_c0) = Ok tt.
Proof. by vm_compute. Qed.

Lemma genesis_block_valid_witness :
  exists b, create_block 5 ex_genesis = Ok b /\ Block_validate b = Ok tt.
Proof. destruct (genesis_block_valid 5 6 ex_genesis) as (b & H1 & _ & H2 & _). by exists b. Defined.

Lemma reachable_chain_invariant_witness : verify ex_c1 = Ok tt /\ bc_height ex_c1 = 1.
Proof.
  destruct (reachable_chain_invariant ex_c1 ex_c1_reachable) as [Hv _ Hh _ _ _ _ _].
  split; [exact Hv|]. rewrite Hh. by vm_compute.
Defined.

Lemma add_block_spec_witness : add_block ex_b1 ex_c0 = (Ok tt, append_block ex_b1 ex_c0).
Proof.
  destruct (add_block_spec ex_c0 ex_b1 ex_c0_reachable) as [[_ H]|[_ [e H]]]; [exact H|].
  exfalso. pose proof ex_b1_accepted as Ha. by rewrite H in Ha.
Defined.

Lemma height_lookup_refines_search_witness :
  get_block_by_height ex_c1 1 = Ok (bc_blocks ex_c1 !! 1%nat) /\
  get_block_at_height ex_c1 2 = Err (BlockNotFound "2").
Proof.
  split; [exact (proj1 (height_lookup_refines_search ex_c1 1 ex_c1_reachable ltac:(lia)))|].
  rewrite (proj1 (proj2 (height_lookup_refines_search ex_c1 2 ex_c1_reachable ltac:(lia)))).
  by vm_compute.
Defined.

Lemma transaction_lookup_exact_witness :
  contains_transaction ex_c1 (tx_id ex_tx) = true /\
  exists tx, tx ∈ get_all_transactions ex_c1 /\ tx_id tx = tx_id ex_tx.
Proof.
  assert (contains_transaction ex_c1 (tx_id ex_tx) = true) as Hc by by vm_compute.
  split; [exact Hc|].
  pose proof (transaction_lookup_exact ex_c1 (tx_id ex_tx) ex_c1_reachable) as [[Hex _] _]. exact (Hex Hc).
Defined.

Lemma hash_lookup_exact_witness :
  (exists b, get_block_by_hash ex_c1 (block_hash ex_b1) = Ok (Some b) /\ b ∈ bc_blocks ex_c1 /\
     block_hash b = block_hash ex_b1) /\
  get_block_by_hash ex_c1 (leaf x09) = Ok None.
Proof.
  split.
  - destruct (hash_lookup_exact ex_c1 (block_hash ex_b1) ex_c1_reachable) as [Hb|[Hn _]]; [exact Hb|].
    exfalso. assert (match get_block_by_hash ex_c1 (block_hash ex_b1) with Ok None => false | _ => true end = true)
      as Hc by (vm_compute; reflexivity).
    rewrite Hn in Hc. discriminate Hc.
  - vm_compute. reflexivity.
Defined.

Lemma ex_b1_position : bc_blocks ex_c1 !! 1%nat = Some ex_b1.
Proof. vm_compute. reflexivity. Qed.

Lemma ex_tx_in_b1 : ex_tx ∈ block_transactions ex_b1.
Proof.
  assert (block_transactions ex_b1 = [ex_tx]) as -> by (vm_compute; reflexivity).
  apply list_elem_of_here.
Qed.

Lemma no_double_inclusion_witness :
  bc_blocks ex_c1 !! 1%nat = Some ex_b1 /\ ex_tx ∈ block_transactions ex_b1 /\ 1%nat = 1%nat.
Proof.
  split; [exact ex_b1_position|]. split; [exact ex_tx_in_b1|].
  exact (no_double_inclusion ex_c1 1 1 ex_b1 ex_b1 ex_tx ex_tx ex_c1_reachable ex_b1_position ex_b1_position
    ex_tx_in_b1 ex_tx_in_b1 eq_refl).
Defined.

(** The same chain with a validator's signature on its last block. *)
Definition ex_d1 : Blockchain :=
  mkBlockchain (<[1%nat := Block.add_signature ex_b1 (key_of x01) sig0]> (bc_blocks ex_c1))
    (bc_hash_to_height ex_c1) (bc_tx_to_block ex_c1) (bc_height ex_c1) (bc_genesis_hash ex_c1).

Global Instance block_in_range_dec b : Decision (block_in_range b).
Proof.
  unfold block_in_range, header_in_range, Transaction.tx_in_range. apply _.
Defined.

Lemma chain_tamper_evident_witness : Forall2 same_content (bc_blocks ex_c1) (bc_blocks ex_d1).
Proof.
  apply (chain_tamper_evident ex_c1 ex_d1 ex_b1 (Block.add_signature ex_b1 (key_of x01) sig0)).
  - vm_compute. reflexivity.
  - vm_compute. reflexivity.
  - apply (bool_decide_eq_true_1 _). vm_compute. reflexivity.
  - apply (bool_decide_eq_true_1 _). vm_compute. reflexivity.
  - apply (bool_decide_eq_true_1 _). vm_compute. reflexivity.
  - apply (bool_decide_eq_true_1 _). vm_compute. reflexivity.
  - vm_compute. reflexivity.
  - vm_compute. reflexivity.
  - reflexivity.
  - apply no_collision_test_sound. vm_compute. reflexivity.
Defined.

(** ** Pruning: the vote of the second block is accepted again *)
Definition ex_b2 : Block := next_block ex_c1 2000 [].
Definition ex_c2 : Blockchain := snd (add_block ex_b2 ex_c1).
Definition ex_pruned : Blockchain := snd (prune_old_blocks 1500 ex_c2).
Definition ex_b3 : Block := next_block ex_c2 2010 [ex_tx].

Lemma prune_allows_replay_witness :
  fst (add_block ex_b3 ex_c2) <> Ok tt /\ add_block ex_b3 ex_pruned = (Ok tt, append_block ex_b3 ex_pruned).
Proof.
  split; [vm_compute; discriminate|].
  apply (prune_allows_replay ex_c2 ex_pruned 1500 1 ex_b3 ex_b2).
  - vm_compute. reflexivity.
  - intros tx Htx. exists ex_b1, ex_tx.
    assert (block_transactions ex_b3 = [ex_tx]) as E by (vm_compute; reflexivity). rewrite E in Htx.
    apply list_elem_of_singleton in Htx. rewrite Htx. clear Htx.
    split; [|split; [vm_compute; reflexivity|split; [exact ex_tx_in_b1|reflexivity]]].
    assert (tail (bc_blocks ex_c2) = [ex_b1; ex_b2]) as -> by (vm_compute; reflexivity).
    apply list_elem_of_here.
  - vm_compute. reflexivity.
  - vm_compute. reflexivity.
  - vm_compute. reflexivity.
Defined.
