(* ===== verification/ConsensusExamples.v ===== *)
(** * Examples: consensus and threshold signatures

    The theorems about validator sets, proof of authority, finality, the consensus
    engine and threshold signatures applied to concrete values. *)
From stdpp Require Import prelude gmap strings list.
From Stdlib Require Import Strings.Byte.
From S2P Require Import Prelude Floats64 Types Instances Transaction Block ValidatorSet ProofOfAuthority Finality ConsensusEngine Crypto Threshold Concrete ChainExamples.

Local Open Scope Z_scope.

Definition ex_keys : list PublicKey := [key_of x01; key_of x02; key_of x03].
Definition ex_set : ValidatorSet := ValidatorSet_new 0 ex_keys.
Definition ex_poa : ProofOfAuthority := ProofOfAuthority_new ex_set.
(** The set built in another order. *)
Definition ex_poa' : ProofOfAuthority :=
  ProofOfAuthority_new (ValidatorSet_new 0 [key_of x02; key_of x03; key_of x01]).

Lemma ex_keys_nodup : NoDup (vset_validators (poa_validator_set ex_poa)).
Proof. apply (bool_decide_eq_true_1 _). vm_compute. reflexivity. Qed.

Lemma validator_set_invariant_witness :
  let s := snd (add_validator 1 (key_of x04) ex_set) in
  vset_wf s /\ NoDup (vset_validators s).
Proof.
  assert (rtc vset_step (ValidatorSet_new 0 ex_keys) (snd (add_validator 1 (key_of x04) ex_set))) as Hs.
  { eapply rtc_once, step_add, surjective_pairing. }
  destruct (validator_set_invariant 0 ex_keys _ Hs) as [Hwf Hnd]. split; [exact Hwf|].
  apply Hnd. exact ex_keys_nodup.
Defined.

Lemma producer_deterministic_witness : get_block_producer ex_poa 5 = get_block_producer ex_poa' 5.
Proof.
  apply (producer_deterministic ex_poa ex_poa' 5).
  change ([key_of x01; key_of x02; key_of x03] ≡ₚ [key_of x02; key_of x03; key_of x01]).
  by rewrite (Permutation_cons_append [key_of x02; key_of x03] (key_of x01)).
Defined.

(** The second key listed twice: it has two of the three turns of every window. *)
Definition ex_poa_twice : ProofOfAuthority := ProofOfAuthority_new (ValidatorSet_new 0 [key_of x02; key_of x01; key_of x02]).
Lemma listed_twice_produces_twice :
  get_block_producer ex_poa_twice <$> seqZ 9 3 = [Ok (key_of x01); Ok (key_of x02); Ok (key_of x02)].
Proof. vm_compute. reflexivity. Qed.

Lemma round_robin_fair_witness :
  exists k, (10 <= k < 13 /\ get_block_producer ex_poa k = Ok (key_of x02)) /\
    forall k', 10 <= k' < 13 -> get_block_producer ex_poa k' = Ok (key_of x02) -> k' = k.
Proof.
  apply (proj2 (round_robin_fair ex_poa 10) ex_keys_nodup (key_of x02)).
  apply (bool_decide_eq_true_1 _). vm_compute. reflexivity.
Defined.

(** A block at height 4, the turn of the second key. *)
Definition ex_block : Block :=
  mkBlock (mkBlockHeader 4 1000 BlockHash_zero BlockHash_zero BlockHash_zero (key_of x02) 0) []
    [mkValidatorSignature (key_of x03) sig0].

Lemma ex_set_wf : vset_wf ex_set.
Proof. apply ValidatorSet_new_wf. Qed.

Lemma poa_accepts_turn_witness :
  validate_block ex_poa ex_block = Ok tt /\ validate_block_timing ex_poa ex_block = Ok tt.
Proof.
  destruct (poa_accepts_turn ex_poa ex_block ex_set_wf) as [[_ H] Ht];
    [vm_compute; reflexivity|split; vm_compute; congruence|vm_compute; reflexivity|].
  split; [|exact Ht]. apply H. vm_compute. reflexivity.
Defined.

Lemma poa_quorum_intersection_witness :
  let Q : gset PublicKey := {[key_of x01; key_of x02; key_of x03]} in
  (3 - 1) / 3 + 1 <= Z.of_nat (size (Q ∩ Q)) /\ required_signatures ex_poa <= 3 - (3 - 1) / 3.
Proof.
  intros Q. apply (poa_quorum_intersection ex_poa Q Q).
  - exact ex_keys_nodup.
  - vm_compute. reflexivity.
  - intros v Hv. change (vset_validators (poa_validator_set ex_poa)) with ex_keys.
    unfold Q, ex_keys in *. set_solver.
  - vm_compute. congruence.
  - vm_compute. congruence.
Defined.

(** ** Finality *)
Definition ex_t0 : FinalityTracker := FinalityTracker_new f64_0_67.
Definition ex_t1 : FinalityTracker := snd (check_finality 7 ex_block 1 ex_t0).

Lemma highest_finalized_monotone_witness :
  ft_highest_finalized_height ex_t0 <= ft_highest_finalized_height ex_t1 /\
  ft_highest_finalized_height ex_t1 = 4 /\ highest_bound ex_t1.
Proof.
  assert (rtc tracker_step ex_t0 ex_t1) as Hs.
  { apply rtc_once, step_check. intros i Hi. cbn in Hi. by rewrite lookup_empty in Hi. }
  destruct (highest_finalized_monotone f64_0_67 ex_t0 ex_t1 (rtc_refl _ _) Hs) as [Hm Hb].
  split; [exact Hm|]. split; [vm_compute; reflexivity|exact Hb].
Defined.

(** ** The engine *)
Definition ex_engine : ConsensusEngine ProofOfAuthority :=
  mkConsensusEngine ex_poa ex_set (FinalityTracker_new f64_0_67).

Lemma ex_engine_new : new_poa 0 ex_keys f64_0_67 = Ok ex_engine.
Proof. reflexivity. Qed.

Lemma new_engine_accepts_witness : engine_validate_block ex_engine ex_block = Ok tt.
Proof.
  destruct (new_engine_accepts 0 ex_keys f64_0_67 ex_engine ex_block ex_engine_new) as [_ [_ H]];
    [split; vm_compute; congruence|vm_compute; reflexivity|].
  apply H. split; [vm_compute; reflexivity|]. intros sig Hsig%list_elem_of_singleton. rewrite Hsig.
  unfold ex_keys. cbn. set_solver.
Defined.

(** The validator whose turn it is was removed: nobody's block is accepted. *)
Lemma engine_ignores_set_changes_witness :
  engine_validate_block (snd (engine_remove_validator (key_of x02) ex_engine)) ex_block <> Ok tt.
Proof.
  assert (rtc engine_step ex_engine (snd (engine_remove_validator (key_of x02) ex_engine))) as Hs
    by apply rtc_once, step_engine_remove.
  apply (proj2 (engine_ignores_set_changes 0 ex_keys f64_0_67 ex_engine _ ex_block ex_engine_new Hs) (key_of x02)).
  - vm_compute. reflexivity.
  - vm_compute. reflexivity.
Defined.

(** ** Threshold signatures *)
Definition ex_sk (b : byte) : array 32 := array_fill 32 b.
Definition ex_message : list byte := [x68; x69].
Definition ex_scheme : ThresholdScheme := mkThresholdScheme 3 2 ex_keys.
Definition ex_sig (b : byte) : Signature :=
  mkSignature (ed_sign (ex_sk b) (array_list (hash_blake2b ex_message))).
Definition ex_partials : list PartialSignature :=
  [mkPartialSignature (key_of x01) (ex_sig x01) 0; mkPartialSignature (key_of x03) (ex_sig x03) 2].

Lemma create_threshold_signature_sound_witness :
  exists t, create_threshold_signature ex_scheme ex_message ex_partials = Ok t /\
    verify_threshold_signature t = Ok tt /\ 2 <= len (tsig_signers t).
Proof.
  set (t0 := ThresholdSignature_new ex_scheme (hash_blake2b ex_message)).
  exists (get_ok t0 (create_threshold_signature ex_scheme ex_message ex_partials)).
  assert (create_threshold_signature ex_scheme ex_message ex_partials =
    Ok (get_ok t0 (create_threshold_signature ex_scheme ex_message ex_partials))) as E
    by (apply get_ok_eq; vm_compute; reflexivity).
  destruct (create_threshold_signature_sound ex_scheme ex_message ex_partials _ E) as (Hv & _ & Hl & _).
  split; [exact E|]. split; [exact Hv|exact Hl].
Defined.

Definition ex_agg1 : ThresholdAggregator :=
  snd (ta_add_signature (key_of x01) (ex_sig x01) (ThresholdAggregator_new ex_scheme ex_message)).
Definition ex_agg2 : ThresholdAggregator := snd (ta_add_signature (key_of x03) (ex_sig x03) ex_agg1).

Lemma aggregator_finalize_sound_witness :
  finalize ex_agg1 = Err InsufficientValidators /\
  exists t, finalize ex_agg2 = Ok t /\ tsig_verify t = Ok tt /\ 2 <= len (tsig_signers t).
Proof.
  assert (rtc aggregator_step (ThresholdAggregator_new ex_scheme ex_message) ex_agg1) as H1
    by (eapply rtc_once, step_add_signature, surjective_pairing).
  assert (rtc aggregator_step (ThresholdAggregator_new ex_scheme ex_message) ex_agg2) as H2
    by (eapply rtc_r; [exact H1|eapply step_add_signature, surjective_pairing]).
  pose proof (aggregator_finalize_sound ex_scheme ex_message ex_agg1 H1) as Hf1.
  pose proof (aggregator_finalize_sound ex_scheme ex_message ex_agg2 H2) as Hf2.
  assert ((ts_threshold ex_scheme <=? Z.of_nat (size (ta_signatures ex_agg1))) = false) as E1
    by (vm_compute; reflexivity).
  assert ((ts_threshold ex_scheme <=? Z.of_nat (size (ta_signatures ex_agg2))) = true) as E2
    by (vm_compute; reflexivity).
  rewrite E1 in Hf1. rewrite E2 in Hf2. split; [exact Hf1|].
  destruct Hf2 as (t & Hf & Hv & _ & _ & Hl). exists t. split; [exact Hf|]. split; [exact Hv|exact Hl].
Defined.
