(* ===== verification/VotingExamples.v ===== *)
(** * Examples: voting

    An election with two candidates, a registered voter and a ballot, and the theorems
    about the voting components applied to them. *)
From stdpp Require Import prelude gmap strings list.
From Stdlib Require Import Strings.Byte.
From S2P Require Import Prelude Types Instances Crypto Election Voter Ballot VoteCasting Eligibility BallotPrivacy Verification Concrete ChainExamples.

Local Open Scope Z_scope.

Definition ex_secret : array 32 := array_fill 32 x07.
Definition ex_kp : KeyPair := KeyPair_from_private_key ex_secret.
Definition ex_voter : Voter := Voter_new 10 ex_kp.
Definition ex_election : Election :=
  Election_new election0 "Mayor" "" [Candidate_new "a" "Ada"; Candidate_new "b" "Bob"] 100 200 (key_of x01).
Definition ex_ballot : Ballot :=
  mkBallot (mkBallotId (array_fill 32 x05)) election0 SingleChoice [BallotChoice_new "a"] 150 1.
Definition ex_nonce : array 12 := array_fill 12 x03.
Definition ex_inputs : CastInputs := mkCastInputs 150 ex_nonce [x01; x02] 151 (array_fill 32 x09).
Definition ex_key : array 32 := array_fill 32 x0b.
Definition no_cast : CastBallot :=
  mkCastBallot (mkBallotId (array_fill 32 x00)) election0 (mkVoterId (array_fill 32 x00))
    (mkEncryptedData ex_nonce [] None) [] sig0 0 None.
Definition ex_cast : CastBallot :=
  get_ok no_cast (CastBallot_create ex_nonce [x01; x02] 151 ex_ballot (v_id ex_voter) ex_key ex_kp).

Lemma ex_cast_ok :
  CastBallot_create ex_nonce [x01; x02] 151 ex_ballot (v_id ex_voter) ex_key ex_kp = Ok ex_cast.
Proof. apply get_ok_eq. vm_compute. reflexivity. Qed.

Lemma ex_ballot_in_range : ballot_in_range ex_ballot.
Proof.
  unfold ballot_in_range, is_u64, is_u32. cbn. split; [lia|]. split; [lia|]. split; [exact I|].
  repeat constructor.
Qed.

(** ** Tally *)
Lemma tally_exact_witness :
  let r := tally (ElectionResults_new 5 election0) ["a"; "b"; "a"]%string in
  er_total_votes r = 3 /\ mkCandidateTally "a" 2 ∈ er_candidate_tallies r.
Proof.
  destruct (tally_exact 5 election0 ["a"; "b"; "a"]%string) as (Ht & _ & _ & Hc); [vm_compute; reflexivity|].
  split; [exact Ht|]. apply Hc. split; vm_compute; reflexivity.
Defined.

(** ** Casting *)
Definition ex_caster0 : VoteCaster := VoteCaster_new ex_election.
Definition ex_caster1 : VoteCaster := caster_register_voter (v_id ex_voter) ex_caster0.
Definition ex_caster2 : VoteCaster := snd (cast_vote ex_inputs ex_voter ex_ballot ex_kp ex_key ex_caster1).

Definition ex_record : VoteRecord := mkVoteRecord (v_id ex_voter) ex_cast 150.

Lemma ex_record_stored : vca_votes_cast ex_caster2 !! v_id ex_voter = Some ex_record.
Proof. vm_compute. reflexivity. Qed.

Lemma one_voter_one_vote_witness :
  get_vote_record ex_caster2 (v_id ex_voter) = Some ex_record /\
    cast_vote ex_inputs ex_voter ex_ballot ex_kp ex_key ex_caster2 = (Err AlreadyVoted, ex_caster2).
Proof.
  assert (rtc caster_step ex_caster0 ex_caster2) as Hs.
  { eapply rtc_l; [apply (cstep_register (v_id ex_voter))|].
    eapply rtc_once, cstep_cast, surjective_pairing. }
  destruct (one_voter_one_vote ex_election ex_caster2 ex_caster2 (v_id ex_voter) ex_record Hs (rtc_refl _ _)
    ex_record_stored) as (_ & _ & _ & Hg & _ & Hc & _).
  split; [exact Hg|]. apply Hc. reflexivity.
Defined.

Lemma cast_ballot_round_trip_witness :
  cast_ballot_verify ex_cast (kp_public ex_kp) = Ok tt /\
  (data ← decrypt (cb_encrypted_ballot ex_cast) ex_key; ballot_deserialize data) = Ok ex_ballot.
Proof.
  destruct (cast_ballot_round_trip ex_nonce [x01; x02] 151 ex_ballot (v_id ex_voter) ex_key ex_secret ex_cast
    (mkTxId (array_fill 32 x01))) as (Hv & _ & Hd & _).
  - exact ex_ballot_in_range.
  - exact ex_cast_ok.
  - split; [exact Hv|exact Hd].
Defined.

Lemma session_submission_accepted_witness :
  exists s1 sub rc receipt c',
    set_ballot ex_ballot (VotingSession_new 140 election0 ex_voter) = (Ok tt, s1) /\
    session_submit ex_inputs 152 s1 ex_kp ex_key = Ok (sub, rc) /\
    submit_vote 160 (array_fill 32 x0c) sub (kp_public ex_kp) ex_caster1 = (Ok receipt, c').
Proof.
  destruct (session_submission_accepted ex_inputs 140 152 160 (array_fill 32 x0c) ex_voter ex_ballot ex_key
    ex_secret ex_caster1) as (_ & s1 & sub & rc & receipt & c' & H1 & _ & _ & H2 & H3 & _).
  - apply (bool_decide_eq_true_1 _). vm_compute. reflexivity.
  - vm_compute. reflexivity.
  - reflexivity.
  - reflexivity.
  - eexists. reflexivity.
  - exists s1, sub, rc, receipt, c'. split; [exact H1|]. split; [exact H2|exact H3].
Defined.

(** A ballot for another election and another voter, signed by the submitting key. *)
Definition other_election : ElectionId := mkElectionId (array_fill 16 x02).
Definition other_ballot : Ballot :=
  mkBallot (mkBallotId (array_fill 32 x05)) other_election SingleChoice [] 150 1.
Definition foreign_cast : CastBallot :=
  get_ok no_cast (CastBallot_create ex_nonce [] 151 other_ballot (mkVoterId (array_fill 32 x0d)) ex_key ex_kp).

Lemma submit_vote_ignores_ballot_identity_witness :
  exists s receipt c', VoteSubmission_create 155 (v_id ex_voter) foreign_cast ex_kp = Ok s /\
    submit_vote 160 (array_fill 32 x0c) s (kp_public ex_kp) ex_caster1 = (Ok receipt, c') /\
    get_vote_record c' (v_id ex_voter) = Some (mkVoteRecord (v_id ex_voter) foreign_cast 160).
Proof.
  apply (submit_vote_ignores_ballot_identity 160 155 (array_fill 32 x0c) (v_id ex_voter) foreign_cast
    ex_secret ex_caster1).
  - apply (bool_decide_eq_true_1 _). vm_compute. reflexivity.
  - vm_compute. reflexivity.
  - reflexivity.
  - vm_compute. reflexivity.
  - apply (bool_decide_eq_false_1 _). vm_compute. reflexivity.
  - apply (bool_decide_eq_false_1 _). vm_compute. reflexivity.
Defined.

(** ** Registries and boxes *)
Definition ex_registry : VoterRegistry := snd (register_voter ex_voter VoterRegistry_new).
Definition ex_registry_voted : VoterRegistry := snd (registry_mark_voted (v_id ex_voter) election0 ex_registry).

Lemma ex_registry_reachable : rtc registry_step VoterRegistry_new ex_registry.
Proof. eapply rtc_once, rstep_register, surjective_pairing. Qed.

Lemma registry_refines_map_witness :
  get_voter ex_registry (v_id ex_voter) = registry_map ex_registry !! v_id ex_voter /\
  voter_count ex_registry = Z.of_nat (size (registry_map ex_registry)).
Proof.
  destruct (registry_refines_map ex_registry ex_registry_reachable) as (Hg & Hc & _).
  split; [apply Hg|exact Hc].
Defined.

Lemma registry_votes_once_witness :
  fst (registry_mark_voted (v_id ex_voter) election0 ex_registry_voted) = Err AlreadyVoted.
Proof.
  assert (registry_mark_voted (v_id ex_voter) election0 ex_registry = (Ok tt, ex_registry_voted)) as Hm.
  { vm_compute. reflexivity. }
  exact (proj1 (proj2 (registry_votes_once (v_id ex_voter) election0 ex_registry ex_registry_voted
    ex_registry_voted ex_registry_reachable Hm (rtc_refl _ _)))).
Defined.

Definition ex_box : BallotBox := snd (add_ballot ex_cast BallotBox_new).

Lemma ballot_box_append_only_witness :
  get_ballot ex_box (cb_ballot_id ex_cast) = box_map ex_box !! cb_ballot_id ex_cast /\
  ballot_count ex_box = Z.of_nat (size (box_map ex_box)).
Proof.
  assert (rtc box_step BallotBox_new ex_box) as Hs by (eapply rtc_once, bstep_add, surjective_pairing).
  destruct (ballot_box_append_only ex_box ex_box ex_cast Hs (rtc_refl _ _)) as (_ & Hg & _ & Hc & _).
  split; [apply Hg|exact Hc].
Defined.

(** ** Eligibility *)
Definition ex_proof_e : EligibilityProof :=
  get_ok (mkEligibilityProof (v_id ex_voter) election0 [] (mkSchnorrProof [] []) sig0 0)
    (EligibilityProof_generate 50 [x01] [x02] (v_id ex_voter) election0 ex_kp).
Definition ex_checker1 : EligibilityChecker :=
  add_eligible_voter (v_id ex_voter) (EligibilityChecker_new election0 EligibilityRequirements_default).
Definition ex_checker2 : EligibilityChecker :=
  snd (verify_eligibility_proof ex_proof_e (kp_public ex_kp) ex_checker1).

Lemma verified_proofs_sound_witness :
  has_verified_proof ex_checker2 (v_id ex_voter) = true /\ checker_is_eligible ex_checker2 (v_id ex_voter) = true.
Proof.
  assert (has_verified_proof ex_checker2 (v_id ex_voter) = true) as Hp by (vm_compute; reflexivity).
  split; [exact Hp|].
  assert (rtc checker_step (EligibilityChecker_new election0 EligibilityRequirements_default) ex_checker2) as Hs.
  { eapply rtc_l; [apply (estep_add (v_id ex_voter))|]. eapply rtc_once, estep_verify, surjective_pairing. }
  exact (proj1 (verified_proofs_sound election0 EligibilityRequirements_default ex_checker2 (v_id ex_voter) Hs Hp)).
Defined.

Definition ex_eligibility : EligibilityRegistry :=
  snd (register_eligible_voter 5 (v_id ex_voter) "north" (EligibilityRegistry_new election0)).

Lemma revoked_voter_votes_again_witness :
  exists r1 r2 r3, eligibility_mark_voted (v_id ex_voter) ex_eligibility = (Ok tt, r1) /\
    revoke_eligibility (v_id ex_voter) r1 = (Ok tt, r2) /\
    eligibility_mark_voted (v_id ex_voter) r2 = (Ok tt, r3).
Proof.
  destruct (revoked_voter_votes_again (v_id ex_voter) ex_eligibility) as (r1 & r2 & r3 & H1 & _ & _ & H2 & _ & _ & H3 & _);
    [vm_compute; reflexivity|].
  exists r1, r2, r3. split; [exact H1|]. split; [exact H2|exact H3].
Defined.

(** ** Verification: the generated key happens to be the voter's *)
Definition ex_private : PrivateInputs := mkPrivateInputs ex_key ex_nonce [x01] [x02] 153.
Definition no_submission : VoteSubmission := mkVoteSubmission (v_id ex_voter) no_cast sig0 0.
Definition ex_submission : VoteSubmission :=
  get_ok no_submission (VoteSubmission_create 152 (v_id ex_voter) ex_cast ex_kp).

Lemma verify_submission_needs_fresh_key_witness :
  exists fingerprint,
    ed_verify (public_key_bytes (kp_public ex_kp)) fingerprint (ed_sign ex_secret fingerprint) = true.
Proof.
  set (r0 := VerificationResult_new 0 (v_id ex_voter)).
  apply (verify_submission_needs_fresh_key 160 161 ex_private ex_secret ex_election ex_submission (kp_public ex_kp)
    (get_ok r0 (verify_submission 160 161 ex_private ex_secret (VoteVerifier_new ex_election) ex_submission (kp_public ex_kp)))).
  - apply get_ok_eq. vm_compute. reflexivity.
  - vm_compute. reflexivity.
Defined.
