(* ===== verification/ServiceExamples.v ===== *)
(** * Examples: storage, network and nodes

    Concrete stores, caches, peers, jurisdictions and nodes, and the theorems about them
    applied there. *)
From stdpp Require Import prelude gmap strings list pretty.
From Stdlib Require Import Strings.Byte.
From S2P Require Import Prelude Types Instances Merkle Transaction Block Genesis Chain ChainProperties ValidatorSet ProofOfAuthority Crypto Concrete ServiceInstances ChainExamples Anonymity Cache Database BlockchainStore Jurisdiction StateStore Snapshot StorageManager Protocol Peer Gossip BlockSync Discovery Transport Network RangeProof NodeConfig Node.

Local Open Scope Z_scope.

(** ** Databases *)
Definition ex_ops : list DbOp :=
  [DbPut [x01] [x0a]; DbPut [x01; x02] [x0b]; DbScan [x01]; DbDelete [x01]; DbGet [x01]; DbPut [xff] [x0c];
   DbBatch [WPut [xff] [x0c]]; DbGet [xff]; DbScan [xff]].
Definition ex_db : AnyDatabase := AnyRocks (mkRocksDBDatabase ∅ "db" DatabaseStats_default).

(** The run has a write that fails and a scan that loses an entry to a read error. *)
Lemma ex_run_answers :
  (db_run ex_ops ex_db).1.2 =
  [Some AnsUnit; Some AnsUnit; Some (AnsEntries {[([x01], [x0a]); ([x01; x02], [x0b])]}); Some AnsUnit;
   Some (AnsValue None); None; Some AnsUnit; Some (AnsValue (Some [x0c])); Some (AnsEntries ∅)].
Proof. vm_compute. reflexivity. Qed.

Lemma database_refines_map_witness :
  map_run ex_ops (db_run ex_ops ex_db).1.1 (db_run ex_ops ex_db).1.2 ∅ (db_contents (db_run ex_ops ex_db).2).
Proof.
  assert (db_run ex_ops ex_db = ((db_run ex_ops ex_db).1.1, (db_run ex_ops ex_db).1.2, (db_run ex_ops ex_db).2)) as E.
  { destruct (db_run ex_ops ex_db) as [[bs rs] s]. reflexivity. }
  exact (proj1 (database_refines_map ex_db ex_ops (db_run ex_ops ex_db).1.1 (db_run ex_ops ex_db).1.2 (db_run ex_ops ex_db).2 E)).
Defined.

(** ** The blockchain store *)
Definition ex_store : BlockchainStore MemoryDatabase :=
  get_ok (mkBlockchainStore MemoryDatabase_new (ChainMetadata_default 0)) (BlockchainStore_new 7 MemoryDatabase_new).
Definition ex_chain1 : Blockchain := (add_blocks [ex_b1] ex_c0).2.

Lemma ex_chain1_in_range : Forall block_in_range (bc_blocks ex_chain1).
Proof. apply (bool_decide_unpack _). vm_compute. exact I. Qed.

Lemma ex_c0_new : Blockchain_new 5 (GenesisBlock_new [key_of x01] 1000) = Ok ex_c0.
Proof. vm_compute. reflexivity. Qed.
Lemma ex_chain1_added : add_blocks [ex_b1] ex_c0 = (Ok tt, ex_chain1).
Proof. vm_compute. reflexivity. Qed.
Lemma ex_store_in_range : metadata_in_range (bst_metadata ex_store).
Proof. vm_compute. intuition discriminate. Qed.

Lemma store_load_round_trip_witness :
  match (_ ← store_blockchain ex_chain1; load_blockchain 9) ex_store with
  | (Ok bc', _) => bc' = ex_chain1
  | _ => False
  end.
Proof.
  assert (len (bc_blocks ex_chain1) <= 2 ^ 64) as H1 by (vm_compute; discriminate).
  assert (is_u64 (transaction_count ex_chain1)) as H2 by (vm_compute; intuition discriminate).
  assert (bc_height ex_chain1 <> 0) as H3 by (vm_compute; discriminate).
  assert (chain_height ex_store = 0) as H4 by (vm_compute; reflexivity).
  pose proof (store_load_round_trip False 5 9 1000 (key_of x01) ex_c0 ex_chain1 [ex_b1] ex_store
    ex_c0_new ex_chain1_added ex_chain1_in_range H1 H2 (or_introl H3) ex_store_in_range H4) as H5.
  exact H5.
Defined.

(** ** Snapshots *)
Definition ex_manager : SnapshotManager := mkSnapshotManager "snapshots" 1.
Definition ex_provider : SnapshotDataProvider :=
  mkSnapshotDataProvider (Ok [[x01; x02]; [x03]]) (fun _ => Ok 1) (Ok [x04; x05]).
Definition ex_restorer : SnapshotDataRestorer (list (list byte)) :=
  mkSnapshotDataRestorer _ (fun b r => (Ok tt, r ++ [b])) (fun b r => (Ok tt, r ++ [b])).
Definition ex_disk : FakeDisk := mkFakeDisk ∅ ∅.
Definition ex_md0 : SnapshotMetadata := mkSnapshotMetadata 0 0 BlockHash_zero 0 0 0 0 (array_fill 32 x00) "".
Definition ex_snapshot : VResult SnapshotMetadata * FakeDisk :=
  create_snapshot 77 ex_manager 2 BlockHash_zero "chain" ex_provider ex_disk.

Lemma ex_snapshot_created : ex_snapshot = (Ok (get_ok ex_md0 ex_snapshot.1), ex_snapshot.2).
Proof. vm_compute. reflexivity. Qed.

Lemma snapshot_round_trip_witness :
  (restore_snapshot ex_restorer ex_manager (snapshot_file ex_manager 2 77 SNAPSHOT_EXTENSION) (ex_snapshot.2, [])).2.2
    = [[x01; x02]; [x03]; [x04; x05]].
Proof.
  assert (is_u32 (smg_version ex_manager)) as H1 by (vm_compute; intuition discriminate).
  assert (len [[x01; x02]; [x03]] < 2 ^ 64) as H2 by (vm_compute; reflexivity).
  assert (blocks_in_range [[x01; x02]; [x03]]) as H3 by (repeat constructor).
  assert (len [x04; x05] < 2 ^ 32) as H4 by (vm_compute; reflexivity).
  pose proof (snapshot_round_trip ex_restorer 77 ex_manager 2 BlockHash_zero "chain" ex_provider [[x01; x02]; [x03]] [x04; x05]
    ex_disk ex_snapshot.2 (get_ok ex_md0 ex_snapshot.1) [] ex_snapshot_created eq_refl eq_refl H1 H2 H3 H4) as H5.
  revert H5. destruct (restore_snapshot _ _ _ _) as [[md'|e|] [d' r']] eqn:E.
  - intros [_ H6]. cbn in H6. injection H6 as <-. reflexivity.
  - exfalso. clear -E. vm_compute in E. discriminate E.
  - exfalso. clear -E. vm_compute in E. discriminate E.
Defined.

(** ** The cache *)
Definition ex_cache_ops : list CacheOp :=
  [OpPutBlock BlockHash_zero 0 [x01]; OpPutBlock (leaf x01) 1 [x02]; OpPutState [x01] [x02]; OpGetBlock BlockHash_zero;
   OpRemoveBlockByHeight 1; OpPutBlock (leaf x02) 2 [x03]].
Definition ex_cache0 : Cache := get_ok (mkCache (lru_new 1) (lru_new 1) (lru_new 1) (lru_new 1)) (Cache_new 1 1 1).
Definition ex_cache : Cache := cache_ops ex_cache_ops ex_cache0.

Lemma cache_bounded_and_sound_witness :
  cst_block_count (cache_get_stats ex_cache) = 1 /\ (cache_get_block BlockHash_zero ex_cache).1 = None /\
  (cache_get_block (leaf x01) ex_cache).1 = None /\
  wr_blocks (written_ops ex_cache_ops ex_cache0 nothing_written) !! leaf x02 = Some [x03].
Proof.
  assert (Forall op_in_range ex_cache_ops) as H1 by (repeat constructor).
  destruct (cache_bounded_and_sound 1 1 1 ex_cache_ops ex_cache0 ltac:(lia) ltac:(lia) ltac:(lia) H1 eq_refl) as (_ & _ & H2 & _).
  split; [vm_compute; reflexivity|]. split; [vm_compute; reflexivity|]. split; [vm_compute; reflexivity|]. apply H2. vm_compute. reflexivity.
Defined.

(** A block read by its hash stays while the entry of its height is evicted; removing by that
    height then removes nothing, and the block is still returned. *)
Lemma evicted_height_removes_nothing :
  (cache_get_block BlockHash_zero
     (cache_ops [OpPutBlock BlockHash_zero 0 [x01]; OpPutBlock (leaf x01) 1 [x02]; OpGetBlock BlockHash_zero;
                 OpPutBlock (leaf x02) 2 [x03]; OpRemoveBlockByHeight 0]
        (get_ok ex_cache0 (Cache_new 2 1 1)))).1 = Some [x01].
Proof. vm_compute. reflexivity. Qed.

(** ** Jurisdictions *)
Definition ex_state_j : Jurisdiction := Jurisdiction_new "ca" "California" State.
Definition ex_county_j : Jurisdiction :=
  mkJurisdiction "la" "Los Angeles" County (Some "ca"%string) None None None None [] JurisdictionMetadata_default.
Definition ex_jtree1 : JurisdictionTree :=
  match add_jurisdiction 2 ex_state_j JurisdictionTree_new with Some (_, t) => t | None => JurisdictionTree_new end.
Definition ex_jtree : JurisdictionTree :=
  match add_jurisdiction 2 ex_county_j ex_jtree1 with Some (_, t) => t | None => JurisdictionTree_new end.
Definition ex_rank (s : string) : nat := if String.eqb s "ca" then 0 else 1.

Lemma descendants_terminate_witness :
  exists fuel l, get_all_descendants fuel ex_jtree "ca" = Some l /\ forall j, j ∈ l <-> descends ex_jtree "ca" j.
Proof.
  assert (rtc tree_step JurisdictionTree_new ex_jtree) as Hs.
  { eapply rtc_l; [eapply (tstep_add ex_state_j); reflexivity|]. eapply rtc_once, (tstep_add ex_county_j). reflexivity. }
  assert (forall j p, jt_jurisdictions ex_jtree !! j_id j = Some j -> j_parent_id j = Some p -> (ex_rank p < ex_rank (j_id j))%nat) as Hr.
  { intros j p Hj. change (jt_jurisdictions ex_jtree) with (<["la"%string := ex_county_j]> (<["ca"%string := ex_state_j]> (∅ : gmap string Jurisdiction))) in Hj.
    apply lookup_insert_Some in Hj as [[_ <-]|[_ Hj]]; [intros [= <-]; vm_compute; lia|].
    apply lookup_insert_Some in Hj as [[_ <-]|[_ Hj]]; [intros [=]|]. by rewrite lookup_empty in Hj. }
  destruct (descendants_terminate ex_jtree "ca" ex_rank Hs Hr) as (fuel & l & _ & Hl & _ & Hd). exists fuel, l. split; [exact Hl|exact Hd].
Defined.

(** ** Peers *)
Definition ex_addr (b : byte) : SocketAddr := SocketV4 (array_fill 4 b) 9000.
Definition ex_peer (b : byte) : Peer :=
  mark_connected 10 (Peer_new 5 (mkPeerId (array_fill 32 b)) (ex_addr b) Outbound 1 "net").
Definition ex_peers : list Peer := [ex_peer x01; Peer_new 5 (mkPeerId (array_fill 32 x02)) (ex_addr x02) Outbound 1 "net"; ex_peer x03].

Lemma request_blocks_covers_witness :
  exists ranges s' peers',
    request_blocks 25 7 (fun _ => 0) (fun _ => 0%nat) 10 35 (BlockSync_new 10, ex_peers) = Some (Ok tt, (s', peers')) /\
    batches 10 10 35 ranges.
Proof.
  assert (connected_ids ex_peers <> []) as H1 by (vm_compute; discriminate).
  destruct (request_blocks_covers 7 (fun _ => 0) (fun _ => 0%nat) 10 35 (BlockSync_new 10) ex_peers
    ltac:(cbn; lia) ltac:(lia) ltac:(cbn; lia) ltac:(cbn; lia) ltac:(cbn; lia) H1) as (ranges & s' & peers' & H2 & H3 & _).
  - intros n r. eexists. reflexivity.
  - exists ranges, s', peers'. split; [exact H2|exact H3].
Defined.

Lemma peer_manager_bounds_witness :
  let m := pm_update_reputation (mkPeerId (array_fill 32 x01)) 70 (pm_add_peer (ex_peer x01) (PeerManager_new 2)).2 in
  pm_get_reputation (mkPeerId (array_fill 32 x01)) m <= 100 /\
  pm_get_reputation (mkPeerId (array_fill 32 x01)) (pm_update_reputation (mkPeerId (array_fill 32 x01)) 70 m) =
    clamp (-100) 100 (pm_get_reputation (mkPeerId (array_fill 32 x01)) m + 70).
Proof.
  intros m. assert (rtc manager_step (PeerManager_new 2) m) as Hs.
  { eapply rtc_l; [apply (step_add _ (ex_peer x01))|]. apply rtc_once, step_reputation. vm_compute. intuition discriminate. }
  destruct (peer_manager_bounds 2 m (mkPeerId (array_fill 32 x01)) 70 ltac:(lia) Hs) as (_ & H1 & _ & H2).
  split; [apply H1|]. apply H2. lia.
Defined.

Definition ex_discovery_config : DiscoveryConfig := mkDiscoveryConfig [ex_addr x01] 60 2 20 300 3600.

Lemma discovery_bounded_witness :
  discovered_count (discovery_add_peer 11 (ex_addr x02) FromPeer (PeerDiscovery_new 10 ex_discovery_config)).2 <= 4.
Proof.
  pose proof (discovery_bounded 10 ex_discovery_config
    (discovery_add_peer 11 (ex_addr x02) FromPeer (PeerDiscovery_new 10 ex_discovery_config)).2 12 ltac:(cbn; lia)
    (rtc_once _ _ (dstep_add 11 (ex_addr x02) FromPeer _))) as [H1 _].
  etransitivity; [exact H1|]. vm_compute. discriminate.
Defined.

Definition ex_gossip : GossipMessage := GBlockAnnouncement (mkBlockAnnouncement 3 (leaf x01) 20 0).

Lemma gossip_sends_once_witness :
  exists (targets : list nat) g' peers',
    gossip 20 0 (fun _ => 0) ex_gossip (GossipProtocol_new 4, ex_peers) = (Ok (len targets), (g', peers')) /\
    len targets = 2 /\ gossip 25 0 (fun _ => 1) ex_gossip (g', peers') = (Ok 0, (g', peers')).
Proof.
  destruct (gossip_sends_once 20 25 0 0 (fun _ => 0) (fun _ => 1) ex_gossip ex_gossip (GossipProtocol_new 4) ex_peers)
    as (targets & g' & peers' & H1 & _ & H2 & _ & H3).
  - cbn. lia.
  - intros n. eexists. reflexivity.
  - vm_compute. reflexivity.
  - reflexivity.
  - exists targets, g', peers'. split; [exact H1|]. split; [|exact H3]. rewrite H2. vm_compute. reflexivity.
Defined.


(** ** Anonymity *)
Definition ex_encrypted (b : byte) : EncryptedData := mkEncryptedData (array_fill 12 x00) [b] None.
Definition ex_mix_ops : list MixOp :=
  [MixAdd (array_fill 32 x01) 5 (ex_encrypted x0a); MixAdd (array_fill 32 x02) 6 (ex_encrypted x0b); MixShuffle 3].

Lemma mix_network_preserves_votes_witness :
  let m := foldl mix_op (MixNetwork_new election0 [array_fill 32 x01; array_fill 32 x02]) ex_mix_ops in
  vote_pair <$> get_shuffled_votes m ≡ₚ mix_added ex_mix_ops /\ mix_vote_count m = 2.
Proof.
  destruct (mix_network_preserves_votes election0 [array_fill 32 x01; array_fill 32 x02] ex_mix_ops) as (H1 & H2 & _).
  split; [exact H1|exact H2].
Defined.

(** ** Range proofs *)
Definition ex_randomness : list byte := replicate 32 x05.

Lemma range_proof_complete_witness :
  exists p, RangeProof_generate 5 1 9 ex_randomness = Ok p /\
    RangeProof_verify p (array_list (hash_blake2b_multiple (rp_commitments p))) = Ok tt.
Proof.
  pose proof (range_proof_complete 5 1 9 ex_randomness ltac:(lia) ltac:(lia) ltac:(lia)) as H1. revert H1.
  destruct (RangeProof_generate 5 1 9 ex_randomness) as [p|e|].
  - intros (_ & _ & _ & _ & _ & H2). exists p. split; [reflexivity|exact H2].
  - intros [H2|H2]; lia.
  - intros [].
Defined.

Definition ex_tally0 : TallyRangeProof := mkTallyRangeProof [] (mkRangeProof [] [] [] 0 0) 0.
Definition ex_tally : TallyRangeProof := get_ok ex_tally0 (TallyRangeProof_generate 3 9 ex_randomness).

Lemma tally_proof_rejected_witness : TallyRangeProof_verify ex_tally <> Ok tt.
Proof.
  apply (tally_proof_rejected 3 9 ex_randomness ex_tally).
  - apply get_ok_eq. vm_compute. reflexivity.
  - reflexivity.
  - apply no_collision_test_sound. vm_compute. reflexivity.
Defined.

(** ** The state store *)
Definition ex_election_state : ElectionState :=
  mkElectionState election0 "Mayor" "" (mkJurisdictionPath ["ca"%string]) [] 100 200 0 true false 1 None.
Definition ex_state_store : StateStore MemoryDatabase :=
  (create_election ex_election_state (mkStateStore MemoryDatabase_new StateCache_empty)).2.
Definition ex_participant : VoterIdentifier := mkVoterIdentifier (array_fill 32 x07).

Definition ex_participant_ops : list StateOp :=
  [SIncrement election0; SRecord election0 ex_participant; SAddValidator (key_of x01); SRecord election0 ex_participant].
Lemma ex_recorded_twice : length (answers election0 ex_participant ex_participant_ops ex_state_store) = 2%nat.
Proof. vm_compute. reflexivity. Qed.
Lemma ex_reopens : exists st', StateStore_new (ss_db (run_ops ex_participant_ops ex_state_store)) = Ok st'.
Proof. apply is_ok_true. vm_compute. reflexivity. Qed.

Lemma participation_once_witness :
  answers election0 ex_participant ex_participant_ops ex_state_store = [Ok true; Ok false] /\
  exists st', StateStore_new (ss_db (run_ops ex_participant_ops ex_state_store)) = Ok st' /\
    has_voter_participated (run_ops ex_participant_ops st') election0 ex_participant = false.
Proof.
  assert (Forall (keeps_election election0) ex_participant_ops) as H1 by (repeat constructor).
  destruct (participation_once ex_election_state ex_participant (mkStateStore MemoryDatabase_new StateCache_empty)
    ex_participant_ops H1) as (H2 & _ & H3).
  change (es_id ex_election_state) with election0 in H2. fold ex_state_store in H2. rewrite ex_recorded_twice in H2.
  split; [exact H2|].
  destruct ex_reopens as [st' E]. exists st'. split; [exact E|exact (proj2 (H3 st' ex_participant_ops E H1))].
Defined.

(** ** Nodes *)
Definition ex_node_genesis : GenesisBlock := GenesisBlock_new [key_of x01; key_of x02] 1000.
Definition ex_node_inputs : NodeInputs :=
  mkNodeInputs true true (fun _ => 2000) (fun _ => array_fill 32 x09) (fun _ => inl ""%string) (fun _ => inl ex_node_genesis)
    (fun _ => inl (ex_addr x01)).
Definition ex_vnode0 : ValidatorNode (T := FakeStream) :=
  mkValidatorNode (with_genesis "genesis.json" NodeConfig_validator) (KeyPair_from_private_key (array_fill 32 x02)) None None
    false None NodeStats_default.
Definition ex_started : VResult unit * (FakeDisk * ValidatorNode (T := FakeStream)) :=
  validator_start ex_node_inputs (ex_disk, ex_vnode0).
Definition ex_vnode : ValidatorNode := ex_started.2.2.
Definition ex_ticked : ValidatorNode := (produce_block 2005 2005 0 ex_vnode).2.

Lemma ex_started_ok : ex_started.1 = Ok tt.
Proof. vm_compute. reflexivity. Qed.

Lemma ex_vnode_started : ex_started = (Ok tt, (ex_started.2.1, ex_vnode)).
Proof. unfold ex_vnode. rewrite <- ex_started_ok. destruct ex_started as [r [d v]]. reflexivity. Qed.

Lemma validator_chain_stalls_witness :
  validator_current_height ex_ticked = 1 /\ 0 <= validator_current_height ex_ticked <= 1.
Proof.
  split; [vm_compute; reflexivity|].
  assert (load_genesis ex_node_inputs (vn_config ex_vnode0) = Ok ex_node_genesis) as H1 by (vm_compute; reflexivity).
  assert (NoDup (gb_validators ex_node_genesis)) as H2 by (apply (bool_decide_unpack _); vm_compute; exact I).
  assert (2 <= len (gb_validators ex_node_genesis)) as H3 by (vm_compute; discriminate).
  assert (vn_running ex_vnode = true) as H4 by (vm_compute; reflexivity).
  assert (production_step ex_vnode ex_ticked) as H5.
  { unfold production_step. rewrite H4. exists 2005, 2005, 0, (produce_block 2005 2005 0 ex_vnode).1. apply surjective_pairing. }
  exact (validator_chain_stalls ex_node_inputs ex_disk ex_started.2.1 ex_vnode0 ex_vnode ex_ticked ex_node_genesis
    H1 H2 H3 ex_vnode_started (rtc_once _ _ H5)).
Defined.

Definition ex_storage : StorageManager AnyDatabase :=
  mkStorageManager StorageConfig_default (mkBlockchainStore ex_db (ChainMetadata_default 0)) (mkStateStore ex_db StateCache_empty)
    ex_cache ex_manager JurisdictionTree_new.
Definition ex_network : NetworkManager (T := FakeStream) :=
  mkNetworkManager NetworkConfig_default (mkTransport TransportConfig_default true [] true false) ex_peers
    (PeerDiscovery_new 10 ex_discovery_config) (GossipProtocol_new 4) (BlockSync_new 10) (mkProtocolHandler "net" 1).
Definition ex_node_chain : Blockchain := get_ok ex_c0 (Blockchain_new 5 ex_node_genesis).
Definition ex_comps : NodeComponents := mkNodeComponents ex_node_chain ex_storage ex_network.
Definition ex_poa : ProofOfAuthority := ProofOfAuthority_new (ValidatorSet_new 5 [key_of x01; key_of x02]).
Definition ex_producer : ValidatorNode :=
  mkValidatorNode NodeConfig_validator (KeyPair_from_private_key (array_fill 32 x02)) (Some ex_comps) (Some ex_poa) true None
    NodeStats_default.

Lemma ex_node_chain_new : Blockchain_new 5 ex_node_genesis = Ok ex_node_chain.
Proof. apply get_ok_eq. vm_compute. reflexivity. Qed.

Lemma produce_block_on_turn_witness :
  exists b v', produce_block 2000 2000 0 ex_producer = (Ok tt, v') /\
    vn_chain v' = Some (append_block b ex_node_chain) /\ nds_blocks_produced (vn_stats v') = 1.
Proof.
  assert (forall x, last (bc_blocks ex_node_chain) = Some x -> exists b v', produce_block 2000 2000 0 ex_producer = (Ok tt, v') /\
    vn_chain v' = Some (append_block b ex_node_chain) /\ nds_blocks_produced (vn_stats v') = 1) as Hall.
  { intros best Hbest.
    assert (bc_height ex_node_chain = 0) as H1 by (vm_compute; reflexivity).
    assert (block_timestamp <$> last (bc_blocks ex_node_chain) = Some 1000) as H2 by (vm_compute; reflexivity).
    rewrite Hbest in H2. injection H2 as H2.
    assert (get_block_producer ex_poa (bc_height ex_node_chain + 1) = Ok (validator_public_key ex_producer)) as H3
      by (vm_compute; reflexivity).
    destruct (produce_block_on_turn ex_producer ex_comps ex_poa (array_fill 32 x02) best 2000 2000 0) as [_ H4].
    - reflexivity.
    - reflexivity.
    - reflexivity.
    - exact (Blockchain_new_wf 5 ex_node_genesis ex_node_chain ex_node_chain_new).
    - change (bc_height ex_node_chain < 2 ^ 64 - 1). rewrite H1. reflexivity.
    - exact Hbest.
    - apply ValidatorSet_new_wf.
    - apply (bool_decide_unpack _). vm_compute. exact I.
    - reflexivity.
    - unfold is_u64. lia.
    - reflexivity.
    - intros b. eexists. reflexivity.
    - destruct (H4 H3 ltac:(lia)) as (b & m & v' & comps' & E & E1 & E2 & _ & _ & _ & _ & _ & E3).
      exists b, v'. split; [exact E|]. split; [|exact E3]. unfold vn_chain. rewrite E1. cbn. rewrite E2. reflexivity. }
  destruct (last (bc_blocks ex_node_chain)) as [x|] eqn:E; [exact (Hall x eq_refl)|].
  exfalso. apply (f_equal (fun o : option Block => match o with Some _ => true | None => false end)) in E.
  revert E. vm_compute. discriminate.
Defined.

Definition ex_fcomps : NodeComponents := mkNodeComponents ex_c1 ex_storage ex_network.
Definition ex_fnode : FullNode := mkFullNode NodeConfig_full_node (Some ex_fcomps) true None NodeStats_default ∅.

Lemma ex_fcomps_wf : chain_wf (cmp_blockchain ex_fcomps).
Proof. exact (reachable_wf ex_c1 ex_c1_reachable). Qed.

Lemma full_node_scan_is_lookup_witness :
  full_get_transaction (tx_id ex_tx) ex_fnode = get_transaction (cmp_blockchain ex_fcomps) (tx_id ex_tx) /\
  full_get_block 1 ex_fnode = get_block_by_height (cmp_blockchain ex_fcomps) 1.
Proof.
  assert (0 <= 1) as H0 by lia.
  exact (proj2 (full_node_scan_is_lookup ex_fnode (tx_id ex_tx) 1) ex_fcomps eq_refl ex_fcomps_wf H0).
Defined.
