(* ===== verification/NodeTaskExamples.v ===== *)
(** * Examples: the tasks of the nodes

    A started validator node with a block production loop, a status query and a stop running
    together, a full node that processes a block, and the theorems about tasks applied there. *)
From stdpp Require Import prelude gmap strings list.
From Stdlib Require Import Strings.Byte.
From S2P Require Import Prelude Types Instances Merkle Transaction Block Genesis Chain ChainProperties ValidatorSet ProofOfAuthority Crypto Concrete ServiceInstances ChainExamples StorageManager Network NodeConfig Node Tasks NodeTasks FullNodeTasks ServiceExamples.

Local Open Scope Z_scope.

Definition ExNodeWorld : Type := NodeWorld (T := FakeStream) (D := FakeDisk).
Definition ExNodeTask : Type := NodeTask (T := FakeStream) (D := FakeDisk).

Definition ex_node_world : ExNodeWorld := (ex_started.2.1, ex_vnode).
(** A tick every ten seconds. *)
Definition ex_ticks (n : nat) : Z * Z * Z := (2005 + 10 * Z.of_nat n, 2005 + 10 * Z.of_nat n, Z.of_nat n).
Definition ex_node_tasks : list ExNodeTask := [production_loop_task ex_ticks; status_task 2006 2006; stop_task].

Lemma ex_node_methods : Forall (node_method (T := FakeStream) (D := FakeDisk)) ex_node_tasks.
Proof. repeat constructor. Qed.

(** [status] has read [components], [stop] has taken [running] and the loop waits. *)
Definition ex_task_world : World ExNodeWorld NodeLock Reply :=
  mkWorld ex_node_world
    [mkTask [] (production_loop_task ex_ticks);
     mkTask [(LComponents, false)] (match status_task 2006 2006 with Acq _ _ k => k | q => q end);
     mkTask [(LRunning, true)] (match stop_task with Acq _ _ k => k | q => q end)].

Lemma ex_task_run : rtc world_step (initial ex_node_world ex_node_tasks) ex_task_world.
Proof.
  eapply rtc_l; [eapply (world_task 1); [reflexivity|constructor; repeat constructor]|].
  eapply rtc_l; [eapply (world_task 2); [reflexivity|constructor; repeat constructor; cbn; intros; done]|]. apply rtc_refl.
Qed.

(** The same after [stop] has cleared the flag. *)
Definition ex_stopped_world : World ExNodeWorld NodeLock Reply :=
  mkWorld (ex_started.2.1, vn_set_running false (vn_started_at ex_vnode) ex_vnode)
    [mkTask [] (production_loop_task ex_ticks);
     mkTask [(LComponents, false)] (match status_task 2006 2006 with Acq _ _ k => k | q => q end);
     mkTask [(LRunning, true)]
       (read_components [(LComponents, false); (LRunning, true)] (finish [(LComponents, false); (LRunning, true)] (Ok RUnit))
          (node_call [(LComponents, false); (LRunning, true)] (vn_on_components (on_network network_stop))
             (fun _ => finish [(LComponents, false); (LRunning, true)] (Ok RUnit))))].

Lemma ex_node_running : vn_running ex_vnode = true.
Proof. vm_compute. reflexivity. Qed.

#[local] Opaque ex_vnode ex_started.
Lemma ex_stopped_run : rtc world_step (initial ex_node_world ex_node_tasks) ex_stopped_world.
Proof.
  etrans; [apply ex_task_run|].
  eapply rtc_l; [eapply (world_task 2); [reflexivity|apply step_act]|]. cbn [insert list_insert].
  unfold ex_node_world at 2. cbn [snd]. rewrite ex_node_running. cbn [ensure try_].
  eapply rtc_l; [eapply (world_task 2); [reflexivity|apply step_act]|]. apply rtc_refl.
Qed.
#[local] Transparent ex_vnode ex_started.

Lemma node_methods_never_deadlock_witness :
  ~ deadlocked ex_task_world /\ Acc (fun w' w => world_step w w') ex_stopped_world.
Proof.
  split.
  - exact (proj1 (node_methods_never_deadlock ex_node_world ex_node_tasks ex_task_world ex_node_methods ex_task_run)).
  - exact (proj1 (proj2 (proj2 (node_methods_never_deadlock ex_node_world ex_node_tasks ex_stopped_world ex_node_methods ex_stopped_run))
      eq_refl)).
Defined.

(** A tick of the loop that appends the node's block. *)
Definition ex_chain_of (v : ValidatorNode (T := FakeStream)) : Blockchain := match vn_chain v with Some c => c | None => ex_c0 end.
Definition ex_node_consensus : ProofOfAuthority :=
  match vn_consensus ex_vnode with Some p => p | None => ProofOfAuthority_new (ValidatorSet_new 0 []) end.
Definition ex_tick_end : World ExNodeWorld NodeLock Reply :=
  mkWorld (ex_started.2.1, ex_ticked) [mkTask [] (Ret (reply (fun _ => RUnit) (produce_block 2005 2005 0 ex_vnode).1))].

Lemma ex_tick_run : rtc world_step (initial ex_node_world [produce_block_task 2005 2005 0]) ex_tick_end.
Proof.
  apply (alone_runs only_read lock_rank); [apply produce_block_in_order|apply produce_block_straight|]. etrans; [apply produce_block_alone|]. unfold as_task, ex_ticked.
  cbn [fst snd ex_node_world]. by destruct (produce_block 2005 2005 0 ex_vnode).
Qed.

Lemma ex_chain_before : vn_chain ex_vnode = Some (ex_chain_of ex_vnode).
Proof. vm_compute. reflexivity. Qed.
Lemma ex_chain_after : vn_chain (w_state ex_tick_end).2 = Some (ex_chain_of ex_ticked).
Proof. vm_compute. reflexivity. Qed.
Lemma ex_consensus_before : vn_consensus ex_vnode = Some ex_node_consensus.
Proof. vm_compute. reflexivity. Qed.

Lemma interleaved_chain_grows_witness :
  bc_height (ex_chain_of ex_ticked) = 1 /\ bc_blocks (ex_chain_of ex_vnode) `prefix_of` bc_blocks (ex_chain_of ex_ticked).
Proof.
  split; [vm_compute; reflexivity|].
  assert (Forall (node_method (T := FakeStream) (D := FakeDisk)) [produce_block_task 2005 2005 0]) as H1 by repeat constructor.
  destruct (interleaved_chain_grows ex_started.2.1 ex_vnode _ _ _ ex_tick_end H1 ex_chain_before ex_consensus_before ex_tick_run)
    as (c' & Hc' & _ & Hpre & _).
  rewrite (Some_inj _ _ (eq_trans (eq_sym ex_chain_after) Hc')). exact Hpre.
Defined.

(** [start] and [status] on the node that was not started yet. *)
Definition ex_opened : VResult (NodeComponents (T := FakeStream) * ProofOfAuthority) * ExNodeWorld := open_node ex_node_inputs (ex_disk, ex_vnode0).
Lemma ex_opened_ok : exists u s', open_node ex_node_inputs (ex_disk, ex_vnode0) = (Ok u, s').
Proof.
  assert (is_ok ex_opened.1 = true) as Hok by (vm_compute; reflexivity). apply is_ok_true in Hok as [u Hu].
  exists u, ex_opened.2. rewrite <- Hu. apply surjective_pairing.
Qed.

Lemma start_and_status_deadlock_witness :
  exists w, rtc world_step (initial (ex_disk, ex_vnode0) [start_task ex_node_inputs; status_task 1999 1999]) w /\ deadlocked w.
Proof.
  destruct ex_opened_ok as (u & s' & Ho).
  destruct (start_and_status_deadlock ex_node_inputs 1999 1999 ex_disk ex_vnode0 u s' eq_refl Ho) as (w & Hr & Hd & _).
  exists w. split; [exact Hr|exact Hd].
Defined.

(** A full node processes a block with a transaction. *)
Definition ex_full0 : FullNode (T := FakeStream) :=
  mkFullNode NodeConfig_full_node (Some (mkNodeComponents ex_c0 ex_storage ex_network)) true None NodeStats_default ∅.
Definition ex_full_end : World (FullWorld (T := FakeStream) (D := FakeDisk)) FullLock Reply :=
  mkWorld (ex_disk, (process_block ex_b1 ex_full0).2) [mkTask [] (Ret (reply (fun _ => RUnit) (process_block ex_b1 ex_full0).1))].

Lemma ex_full_run : rtc world_step (initial (ex_disk, ex_full0) [process_block_task ex_b1]) ex_full_end.
Proof.
  apply (alone_runs full_only_read full_rank); [apply full_method_in_order; constructor|apply process_block_straight|]. etrans; [apply process_block_alone|].
  unfold as_full_task. cbn [fst snd]. by destruct (process_block ex_b1 ex_full0).
Qed.
Lemma ex_full_chain_after : fn_chain (w_state ex_full_end).2 = Some ex_c1.
Proof. vm_compute. reflexivity. Qed.

Lemma full_node_counts_exact_witness :
  nds_blocks_processed (fn_stats (w_state ex_full_end).2) = 1 /\
  nds_blocks_processed (fn_stats (w_state ex_full_end).2) = u64_add 0 (len (bc_blocks ex_c1) - len (bc_blocks ex_c0)).
Proof.
  split; [vm_compute; reflexivity|].
  assert (Forall (full_method (T := FakeStream) (D := FakeDisk)) [process_block_task ex_b1]) as H1 by repeat constructor.
  assert (is_u64 0) as H2 by (unfold is_u64; lia).
  destruct (full_node_counts_exact ex_disk ex_full0 ex_c0 _ ex_full_end H1 eq_refl H2 H2 ex_full_run) as (c' & Hc' & _ & _ & Hcount).
  assert (all_finished ex_full_end) as Hf by (repeat constructor).
  rewrite (Some_inj _ _ (eq_trans (eq_sym ex_full_chain_after) Hc')). exact (proj1 (Hcount Hf)).
Defined.
