(* ===== verification/RpcExamples.v ===== *)
(** * Witnesses for the RPC and the analytics

    A concrete type of JSON values with a printer, a simple request format, and the theorems of the RPC
    files and of Benford.v applied to concrete inputs. *)
From stdpp Require Import prelude gmap strings list pretty.
From Stdlib Require Import Strings.Byte Strings.Ascii.
From S2P Require Import Prelude Types Instances Merkle Transaction Block Genesis Chain ChainProperties Concrete ServiceInstances ChainExamples Database Jurisdiction StateStore Protocol Peer Gossip BlockSync Discovery Transport Network Utils Benford Rpc RpcMethods CryptoTools RpcServer ServiceExamples.

Local Open Scope Z_scope.

(** ** JSON *)
Inductive Json :=
| JNull
| JNumber (n : Z)
| JString (s : string)
| JBool (b : bool)
| JEmpty
| JField (name : string) (value rest : Json)
| JNil
| JCons (x rest : Json).

(** An object with the given fields, its fields, and a field by name. *)
Fixpoint JObject (fields : list (string * Json)) : Json :=
  match fields with [] => JEmpty | (k, v) :: fields' => JField k v (JObject fields') end.
Fixpoint json_fields (v : Json) : option (list (string * Json)) :=
  match v with
  | JEmpty => Some []
  | JField k x rest => cons (k, x) <$> json_fields rest
  | _ => None
  end.
Fixpoint json_field (v : Json) (k : string) : option Json :=
  match v with JField name x rest => if String.eqb name k then Some x else json_field rest k | _ => None end.

(** An array with the given items, and its items. *)
Fixpoint JArray (items : list Json) : Json := match items with [] => JNil | x :: items' => JCons x (JArray items') end.
Fixpoint json_items (v : Json) : option (list Json) :=
  match v with
  | JNil => Some []
  | JCons x rest => cons x <$> json_items rest
  | _ => None
  end.

Global Instance concrete_json : JsonCrate := {|
  Value := Json;
  value_get := json_field;
  value_as_str := fun v => match v with JString s => Some s | _ => None end;
  value_as_u64 := fun v => match v with JNumber n => if 0 <=? n then Some n else None | _ => None end;
  value_is_null := fun v => match v with JNull => true | _ => false end;
  value_as_object := json_fields
|}.

(** The values of the replies used here keep their main fields. *)
Global Instance concrete_rpc_types : JsonRpcTypes := {|
  to_NodeInfo := fun i => inl (JObject [("height"%string, JNumber (ni_height i)); ("latest_block_hash"%string, JString (ni_latest_block_hash i))]);
  to_HealthResponse := fun h => inl (JObject [("status"%string, JString (hrp_status h))]);
  to_SyncStatusResponse := fun s => inl (JObject [("current_height"%string, JNumber (ssr_current_height s))]);
  to_ChainInfo := fun i => inl (JObject [("height"%string, JNumber (chi_height i)); ("genesis_hash"%string, JString (chi_genesis_hash i));
    ("latest_block_hash"%string, JString (chi_latest_block_hash i))]);
  to_RpcBlockResponse := fun b => inl (JObject [("height"%string, JNumber (rbr_height b)); ("hash"%string, JString (rbr_hash b));
    ("previous_hash"%string, JString (rbr_previous_hash b)); ("validator"%string, JString (rbr_validator b)); ("transaction_count"%string, JNumber (rbr_transaction_count b));
    ("transactions"%string, JArray ((fun t => JString (tsu_id t)) <$> rbr_transactions b))]);
  to_RpcTransactionResponse := fun t => inl (JObject [("id"%string, JString (rtr_id t))]);
  to_BlockSearchResponse := fun r => inl (JObject [("total"%string, JNumber (bsr_total r))]);
  to_TransactionSearchResponse := fun r => inl (JObject [("total"%string, JNumber (tsr_total r))]);
  to_VoteResponse := fun v => inl (JObject [("tx_id"%string, JString (vrp_tx_id v))]);
  to_ElectionResponse := fun e => inl (JObject [("id"%string, JString (erp_id e))]);
  to_ElectionResultsResponse := fun r => inl (JObject [("total_votes"%string, JNumber (err_total_votes r))]);
  to_SubmitResponse := fun r => inl (JObject [("tx_id"%string, JString (sbr_tx_id r))]);
  to_VerifyVoteResponse := fun r => inl (JObject [("valid"%string, JBool (vvr_valid r))]);
  to_ValidatorSetResponse := fun r => inl (JObject [("height"%string, JNumber (vsr_height r))]);
  to_ValidatorResponse := fun r => inl (JObject [("address"%string, JString (vlr_address r))]);
  to_PeersResponse := fun r => inl (JObject [("total_peers"%string, JNumber (prs_total_peers r))]);
  to_MempoolResponse := fun r => inl (JObject [("pending_count"%string, JNumber (mpr_pending_count r))]);
  from_BlockQuery := fun _ => inl BlockQuery_default;
  from_TransactionQuery := fun _ => inl TransactionQuery_default;
  from_VerifyVoteRequest := fun _ => inr "not an object"%string
|}.

Definition quoted (s : string) : string := String "034"%char (s ++ String "034"%char "").
Fixpoint json_print (v : Json) : string :=
  match v with
  | JNull => "null"
  | JNumber n => pretty n
  | JString s => quoted s
  | JBool b => if b then "true" else "false"
  | JEmpty => "{}"
  | JField name x rest => "{" ++ quoted name ++ ":" ++ json_print x ++ "}" ++ json_print rest
  | JNil => "[]"
  | JCons x rest => "[" ++ json_print x ++ "]" ++ json_print rest
  end.

Definition ex_request (method : string) (id : Z) : JsonRpcRequest := @mkJsonRpcRequest concrete_json "2.0" method JNull (IdNumber id).

(** A request is its method name; a response is printed with its result or its error code. *)
Global Instance concrete_rpc_codec : JsonRpcCodec := {|
  request_from_slice := fun body => inl (ex_request (String.string_of_list_byte body) 1);
  response_to_vec := fun r => inl (String.list_byte_of_string (json_print (JObject
    [("jsonrpc"%string, JString (jrs_jsonrpc r));
     match jrs_result r with
     | Some v => ("result"%string, v)
     | None => ("error"%string, JNumber (default 0 (jre_code <$> jrs_error r)))
     end])))
|}.

(** ** A node with a chain of two blocks *)
Definition ex_rpc_node : NodeRpcService (T := FakeStream) := mkNodeRpcService ex_c1 ex_network.

Lemma ex_rpc_node_reachable : reachable (nrs_blockchain ex_rpc_node).
Proof. exact ex_c1_reachable. Qed.

Lemma node_answers_every_request_witness :
  exists response, handle_request (node_rpc_service 5) (ex_request "chain_info" 7) ex_rpc_node =
    (Ok response, ex_rpc_node) /\ jrs_id response = IdNumber 7.
Proof.
  destruct (node_answers_every_request 5 ex_rpc_node (ex_request "chain_info" 7) ex_rpc_node_reachable)
    as (response & E & _ & Hid & _).
  exists response. split; [exact E|exact Hid].
Defined.

Definition ex_request_data (auth : string) : list byte :=
  String.list_byte_of_string ("POST / HTTP/1.1" ++ crlf ++ auth ++ crlf ++ crlf ++ "health").
Definition ex_stream (data : list byte) : HttpStream := mkHttpStream (Available data) (fun _ => None) 0 [].
Definition ex_key_config : RpcConfig :=
  mkRpcConfig "127.0.0.1" 8545 true [] 30 1024 true 100 true (Some "secret"%string) true None.
Definition ex_connection (auth : string) : Connection (S := NodeRpcService (T := FakeStream)) :=
  mkConnection ex_rpc_node (Some (RateLimiter_new 1)) (ex_stream (ex_request_data auth)).

Lemma unauthorized_gets_nothing_witness :
  cn_service (handle_connection (node_rpc_service 5) 0 "1.2.3.4" ex_key_config (ex_connection "Authorization: wrong")).2 = ex_rpc_node.
Proof.
  assert (check_authorization (take (Z.to_nat (rpc_max_request_size ex_key_config)) (ex_request_data "Authorization: wrong")) "secret" = false)
    as Hno by (vm_compute; reflexivity).
  exact (proj1 (unauthorized_gets_nothing (node_rpc_service 5) 0 "1.2.3.4" ex_key_config "secret" (ex_request_data "Authorization: wrong")
    (ex_connection "Authorization: wrong") eq_refl eq_refl eq_refl Hno)).
Defined.

Lemma ex_node_service_keeps : service_keeps (node_rpc_service 5) (eq ex_rpc_node).
Proof. apply node_service_keeps, reachable_wf, ex_rpc_node_reachable. Qed.

Definition ex_headers : list string := ["Content-Type: application/json"; "Authorization: Bearer secret"]%string.
Definition ex_post : list byte := http_post ex_headers (String.list_byte_of_string "health").
Definition ex_posted : Connection (S := NodeRpcService (T := FakeStream)) :=
  mkConnection ex_rpc_node (Some (RateLimiter_new 1)) (ex_stream ex_post).


(** ** The rate limiter *)
Definition ex_burst : list LimiterEvent := [LRequest 0 "a"; LCleanup 5; LRequest 10 "a"; LRequest 20 "b"; LRequest 30 "a"].

Lemma rate_limiter_bounds_witness :
  (limiter_run (flip LRequest "a"%string <$> [0; 10; 20]) (RateLimiter_new 2)).1 = [("a", true); ("a", true); ("a", false)]%string.
Proof.
  assert (Forall (fun e => 0 <= event_time e < 0 + second) ex_burst) as H1
    by (repeat constructor; vm_compute; discriminate).
  assert (Forall (fun t => t < 0 + second) [10; 20]) as H2 by (repeat constructor; vm_compute; reflexivity).
  exact (proj2 (rate_limiter_bounds 2 [] ex_burst 0 "a" [10; 20] H1 H2) I).
Defined.

Lemma cleanup_invisible_witness :
  (limiter_run [LRequest (61 * second) "a"] (limiter_cleanup (60 * second) (limiter_run ex_burst (RateLimiter_new 2)).2)).1 =
  (limiter_run [LRequest (61 * second) "a"] (limiter_run ex_burst (RateLimiter_new 2)).2).1.
Proof.
  assert (Forall (fun e => 60 * second <= event_time e) [LRequest (61 * second) "a"]) as He
    by (repeat constructor; vm_compute; discriminate).
  exact (cleanup_invisible (60 * second) (limiter_run ex_burst (RateLimiter_new 2)).2 [LRequest (61 * second) "a"] He).
Defined.

(** ** Searching *)
Definition ex_block_query : BlockQuery := mkBlockQuery None None None None None (Some 1) None.

Lemma search_blocks_pages_witness :
  exists blocks, search_blocks ex_c1 ex_block_query = Ok (mkBlockSearchResponse (len (query_blocks ex_c1 ex_block_query)) blocks
    (default 0 (bq_offset ex_block_query) + page_limit (bq_limit ex_block_query) <? len (query_blocks ex_c1 ex_block_query))).
Proof.
  assert (len (bc_blocks ex_c1) < 2 ^ 64) as Hlen by (vm_compute; reflexivity).
  assert (block_query_ok ex_block_query) as Hq by (repeat split; vm_compute; congruence).
  assert (len (query_blocks ex_c1 ex_block_query) <= Z.of_nat 2 * page_limit (bq_limit ex_block_query) < 2 ^ 64 - MAX_QUERY_LIMIT) as Hn
    by (split; vm_compute; congruence).
  destruct (search_blocks_pages ex_c1 ex_block_query 2 ex_c1_reachable Hlen Hq Hn) as [(blocks & E & _) _].
  exists blocks. exact E.
Defined.

(** ** Election results *)
Definition ex_closed_election : ElectionState :=
  mkElectionState election0 "Mayor" "" (mkJurisdictionPath ["ca"%string])
    [mkCandidateInfo "alice" "Alice" None None; mkCandidateInfo "candidate_1" "Bob" None None] 100 200 0 false true 0 (Some 1).
Definition ex_closed_store : StateStore MemoryDatabase :=
  mkStateStore MemoryDatabase_new (with_elections (<[election0 := ex_closed_election]>) StateCache_empty).

Lemma results_all_to_one_candidate_witness :
  exists r st', vm_get_election_results ex_c1 (ElectionId_to_hex election0) ex_closed_store = (Ok r, st') /\
    (fun x => (crs_candidate_id x, crs_votes x)) <$> err_results r =
    (fun k => (ci_id k, if String.eqb (ci_id k) "candidate_1" then len (election_votes ex_c1 election0 0 1) else 0)) <$>
      es_candidates ex_closed_election.
Proof.
  assert (ElectionId_from_hex (ElectionId_to_hex election0) = Ok election0) as Hid
    by (unfold ElectionId_from_hex, ElectionId_to_hex; rewrite array_from_hex_encode; reflexivity).
  assert (find_election (ElectionId_to_hex election0) ex_closed_store = (Ok (election0, ex_closed_election), ex_closed_store)) as Hf
    by (unfold find_election; rewrite Hid; vm_compute; reflexivity).
  assert (0 <= es_created_at_height ex_closed_election) as Hc by (vm_compute; congruence).
  assert (len (election_votes ex_c1 election0 (es_created_at_height ex_closed_election)
    (default (bc_height ex_c1) (es_closed_at_height ex_closed_election))) < 2 ^ 64) as Hv by (vm_compute; reflexivity).
  destruct (results_all_to_one_candidate ex_c1 (ElectionId_to_hex election0) ex_closed_store ex_closed_store election0 ex_closed_election
    ex_c1_reachable Hf Hc Hv) as (r & E & _ & _ & Hr).
  exists r, ex_closed_store. split; [exact E|exact Hr].
Defined.

(** ** First digits *)
Lemma first_digits_exact_witness :
  exists counts, count_first_digits [17; 0; 205; 18446744073709551615] = Some counts /\
    foldr Z.add 0 counts = len (filter (fun v => v <> 0) [17; 0; 205; 18446744073709551615]).
Proof.
  assert (Forall is_u64 [17; 0; 205; 18446744073709551615]) as Hu by (repeat constructor; vm_compute; congruence).
  assert (len [17; 0; 205; 18446744073709551615] < 2 ^ 64) as Hl by (vm_compute; reflexivity).
  destruct (first_digits_exact [17; 0; 205; 18446744073709551615] Hu Hl) as (counts & E & _ & _ & _ & Hsum).
  exists counts. split; [exact E|exact Hsum].
Defined.
