(* ===== verification/CliExamples.v ===== *)
(** * Witnesses for the command line

    Concrete files, a wire between client and node, a toy password hash, and the theorems of
    Cli.v and Binaries.v applied to concrete inputs. *)
From stdpp Require Import prelude gmap strings list pretty.
From Stdlib Require Import Strings.Byte Strings.Ascii.
From S2P Require Import Prelude Floats64 Types Instances Merkle Transaction Block Genesis Chain ChainProperties Concrete ServiceInstances ChainExamples Crypto CryptoTools Database Jurisdiction StateStore Protocol Peer Gossip BlockSync Discovery Transport Network Rpc RpcMethods RpcServer Cli CliQuery NodeConfig Binaries ServiceExamples RpcExamples.

Local Open Scope Z_scope.

(** ** The wire *)
Global Instance concrete_values : JsonValues := {|
  value_null := JNull;
  value_as_array := json_items;
  value_as_bool := fun v => match v with JBool b => Some b | _ => None end;
  value_as_f64 := fun v => match v with JNumber n => Some (f64_of_Z n) | _ => None end;
  json_string := JString;
  json_number := JNumber;
  json_object := JObject
|}.

Lemma json_field_object fields k v : NoDup fields.*1 -> (k, v) ∈ fields -> json_field (JObject fields) k = Some v.
Proof.
  induction fields as [|[k' v'] fields IH]; cbn; intros Hnd Hin; [by apply elem_of_nil in Hin|].
  apply NoDup_cons in Hnd as [Hn Hnd]. destruct (String.eqb_spec k' k) as [->|Hne].
  - apply elem_of_cons in Hin as [[= ->]|Hin]; [done|]. destruct Hn. by apply (list_elem_of_fmap_2 fst) in Hin.
  - apply elem_of_cons in Hin as [[= -> ->]|Hin]; [done|]. by apply IH.
Qed.

Lemma json_field_none fields k : k ∉ fields.*1 -> json_field (JObject fields) k = None.
Proof.
  induction fields as [|[k' v'] fields IH]; cbn; [done|]. intros Hn. apply not_elem_of_cons in Hn as [Hne Hn].
  destruct (String.eqb_spec k' k) as [->|]; [done|]. by apply IH.
Qed.

Lemma json_items_array l : json_items (JArray l) = Some l.
Proof. induction l as [|x l IH]; [done|]. cbn. by rewrite IH. Qed.

Global Instance concrete_values_spec : JsonValuesSpec.
Proof.
  split; try done; [exact json_field_object|exact json_field_none|].
  intros n Hn. cbn. unfold is_u64 in Hn. by rewrite (proj2 (Z.leb_le _ _)) by lia.
Qed.

Global Instance concrete_wire : RpcWire := {|
  request_of_value := fun v =>
    match json_field v "jsonrpc", json_field v "method", json_field v "id" with
    | Some (JString version), Some (JString method), Some (JNumber id) =>
        inl (mkJsonRpcRequest version method (default JNull (json_field v "params")) (IdNumber id))
    | _, _, _ => inr "missing field"%string
    end;
  value_of_response := fun r => JObject
    (("jsonrpc"%string, JString (jrs_jsonrpc r)) ::
     match jrs_result r with Some v => [("result"%string, v)] | None => [] end ++
     match jrs_error r with Some e => [("error"%string, JObject [("code"%string, JNumber (jre_code e)); ("message"%string, JString (jre_message e))])] | None => [] end)
|}.

Global Instance concrete_wire_spec : RpcWireSpec.
Proof.
  split.
  - done.
  - intros [v [x|] [e|] i]; done.
  - intros [v [x|] [e|] i]; done.
  - intros [v [x|] [e|] i] e' [= <-]; eexists; split; done.
Qed.

Global Instance concrete_chain_replies : ChainReplies.
Proof.
  split.
  - intros i. by eexists.
  - intros b. eexists _, ((fun t => JString (tsu_id t)) <$> rbr_transactions b).
    split; [reflexivity|]. split; [reflexivity|]. split; [reflexivity|]. split; [reflexivity|]. split; [apply json_items_array|].
    unfold len. by rewrite length_fmap.
Qed.

Global Instance concrete_hex_ascii : HexAscii.
Proof. split. intros bs. induction bs as [|b bs IH]; [done|]. by destruct b; cbn; apply IH. Qed.

Global Instance concrete_query_replies : QueryReplies.
Proof.
  split.
  - intros i. by eexists.
  - intros b. eexists. split; [reflexivity|]. do 5 (split; [reflexivity|]). intros Hb. cbn. by rewrite Hb.
Qed.

(** ** The queries against a node *)
Lemma queries_on_node_witness :
  exists r, query_block (HttpClient0 := node_http 5) (pretty 1) "http://localhost:8545" ex_rpc_node = (Ok (ShownTable r, []), ex_rpc_node) /\
    shows (brp_hash r) (BlockHash_to_hex (block_hash ex_b1)).
Proof.
  assert (bc_blocks (nrs_blockchain ex_rpc_node) !! 1%nat = Some ex_b1) as H1 by (vm_compute; reflexivity).
  destruct (queries_on_node 5 ex_rpc_node "http://localhost:8545" ex_rpc_node_reachable) as (_ & Hb & _).
  destruct (Hb 1%nat ex_b1 H1) as (r & Hr & _ & Hh & _). exists r. split; [exact Hr|exact Hh].
Defined.

(** ** The chain check against a node *)
Lemma verify_chain_on_node_witness :
  exists r, verify_chain (HttpClient0 := node_http 5) 0 None "http://localhost:8545" ex_rpc_node = (Ok r, ex_rpc_node) /\
    chain_intact r = false.
Proof.
  assert (default (bc_height (nrs_blockchain ex_rpc_node)) None <=? bc_height (nrs_blockchain ex_rpc_node) = true) as H0
    by (vm_compute; reflexivity).
  assert (0 <= 0 <= default (bc_height (nrs_blockchain ex_rpc_node)) None) as H1 by (vm_compute; split; discriminate).
  assert (default (bc_height (nrs_blockchain ex_rpc_node)) None < 2 ^ 64) as H2 by (vm_compute; reflexivity).
  assert (len (blocks_between (nrs_blockchain ex_rpc_node) 0 (default (bc_height (nrs_blockchain ex_rpc_node)) None)) < 2 ^ 31) as H3
    by (vm_compute; reflexivity).
  pose proof (verify_chain_on_node 5 0 None "http://localhost:8545" ex_rpc_node ex_rpc_node_reachable H1 H2 H3) as H4.
  cbv zeta in H4. rewrite H0 in H4. eexists. split; [exact (proj1 H4)|]. vm_compute. reflexivity.
Defined.

(** ** The chain check against canned answers *)
Definition ex_block (h : Z) : Json := JObject
  [("hash"%string, JString (pretty h)); ("previous_hash"%string, JString (pretty (h - 1)));
   ("transaction_count"%string, JNumber 1); ("transactions"%string, JArray [JString "t"])].
Definition ex_answer (request : Json) : Json :=
  match json_field request "method" with
  | Some (JString "chain_info") => JObject [("height"%string, JNumber 1)]
  | _ => match json_field request "params" ≫= fun p => json_field p "height" with
         | Some (JNumber h) => ex_block h
         | _ => JNull
         end
  end.
Definition ex_http : HttpClient unit := {|
  http_response := Json;
  http_post := fun _ body w => (inl (JObject [("result"%string, ex_answer body)]), w);
  http_json := inl
|}.

Lemma ex_blocks_intact : json_chain_intact [ex_block 0; ex_block 1].
Proof. apply json_chain_intact_linked. split; [vm_compute; naive_solver|repeat constructor]. Qed.

Lemma verify_chain_verdict_witness :
  exists r, verify_chain (HttpClient0 := ex_http) 0 (Some 1) "node" tt = (Ok r, tt) /\ chain_intact r = true.
Proof.
  assert (call_no_params (HttpClient0 := ex_http) (RpcClient_new "node") "chain_info" tt = (Ok (JObject [("height"%string, JNumber 1)]), tt))
    as Hinfo by (vm_compute; reflexivity).
  assert (Forall2 (asks_block (HttpClient0 := ex_http) (RpcClient_new "node") tt) (heights 0 1) [ex_block 0; ex_block 1]) as Hblocks
    by (constructor; [vm_compute; reflexivity|constructor; [vm_compute; reflexivity|constructor]]).
  assert (len [ex_block 0; ex_block 1] < 2 ^ 31) as Hlen by reflexivity.
  destruct (verify_chain_verdict (HttpClient0 := ex_http) 0 (Some 1) "node" tt _ _ Hinfo Hblocks Hlen) as (r & E & _ & _ & _ & Hr).
  exists r. split; [exact E|]. apply (proj2 Hr). exact ex_blocks_intact.
Defined.

(** ** Key files *)
Global Instance concrete_files : WholeFiles (gmap string (list byte)) := {|
  file_denoted := fun p => p;
  file_read := fun p f => match f !! p with Some d => inl d | None => inr "not found"%string end;
  file_write := fun p d f => (None, <[p := d]> f);
  file_exists := fun p f => bool_decide (is_Some (f !! p));
  file_remove := fun p f => (None, delete p f)
|}.
Global Instance concrete_files_spec : WholeFilesSpec (gmap string (list byte)).
Proof.
  split; unfold file_write, file_read, file_exists, file_remove, file_denoted, concrete_files.
  - intros p d f f' E. injection E as <-. by rewrite lookup_insert_eq.
  - intros p d f f' E. injection E as <-. by rewrite lookup_insert_eq, bool_decide_true.
  - intros p q d r f f' E Hne. injection E as _ <-. by rewrite lookup_insert_ne.
  - intros p f f' E. injection E as <-. rewrite lookup_delete_eq. apply bool_decide_eq_false_2. by intros [].
Qed.

(** A toy password hash: 32 bytes from the checksum of the password and the salt. *)
Global Instance concrete_argon2 : Argon2Crate := {|
  argon2_params := None;
  argon2_salt := fun _ => None;
  argon2_hash := fun _ password salt => inl (Some (le_bytes 32 (checksum (password ++ String.list_byte_of_string salt))))
|}.

Global Instance f64_eq_dec : EqDecision f64.
Proof. unfold f64. solve_decision. Defined.
Global Instance GenesisConfig_eq_dec : EqDecision GenesisConfig.
Proof. solve_decision. Defined.
Global Instance GenesisBlock_eq_dec : EqDecision GenesisBlock.
Proof. solve_decision. Defined.

Definition ex_key_files : list KeyFile :=
  [mkKeyFile (array_fill 32 x01) "salt1" "v1.key"; mkKeyFile (array_fill 32 x02) "salt2" "v2.key"].
Definition ex_cli_genesis : GenesisBlock :=
  cli_genesis 1000 ((fun k => kp_public (KeyPair_generate (kf_random k))) <$> ex_key_files) "test-1".
(** A text format for one configuration. *)
Definition ex_to_string (g : GenesisBlock) : string + string :=
  if decide (g = ex_cli_genesis) then inl "genesis"%string else inr "unsupported"%string.
Definition ex_from_str (s : string) : GenesisBlock + string := inl ex_cli_genesis.

